(** * codecollab: message bus, agent runtime and memory store

    A shallow embedding of
    - [codecollab/core/communication_hub.py] (enums, [Message],
      [ConversationThread], [CommunicationHub]),
    - [codecollab/agents/base_agent.py] ([BaseAgent] lifecycle, dispatch
      and error handling),
    - [codecollab/agents/memory.py] ([MemoryEntry], [InMemoryStore],
      [AgentMemory]),
    followed by the properties established about them.

    Every Python class is a module holding a record [t] for the instance
    attributes and one definition per method, under the method's name.
    Coroutines are run to completion; the points where they suspend are
    marked where a property depends on them. *)

From Stdlib Require Import ZArith QArith String DecimalString List Lia
  Sorted.
From stdpp Require Import base strings gmap list.

#[local] Set Warnings "-register-all".
#[local] Open Scope string_scope.
#[local] Open Scope list_scope.
#[local] Open Scope stdpp_scope.
#[local] Open Scope Z_scope.

(* ===================================================================== *)
(** * Python values, exceptions and effects *)
(* ===================================================================== *)

Module Py.

(** Python [float]s are idealised as rationals: no rounding, no NaN. The
    code compares, copies and (for one metric) averages them. *)
Definition float : Type := Q.

(** [a > b] on floats. *)
Definition float_gt (a b : float) : bool := negb (Qle_bool a b).

(** [float(z)], as in [1.0 * n] with [n] an int. *)
Definition float_of_int (z : Z) : float := inject_Z z.

(** The values an open [Dict[str, Any]] holds in this code base. *)
Inductive PyVal : Type :=
| VNone
| VBool (b : bool)
| VInt (z : Z)
| VFloat (q : float)
| VStr (s : string)
| VList (l : list PyVal)
| VDict (d : gmap string PyVal).

Abbreviation dict := (gmap string PyVal).

(** [l[start:]] for a Python int [start]: a negative start counts from
    the end and is clamped at the front, a positive one is clamped at
    the end. *)
Definition slice_from {A} (start : Z) (l : list A) : list A :=
  let n := Z.of_nat (length l) in
  let i := if start <? 0 then Z.max (n + start) 0 else Z.min start n in
  drop (Z.to_nat i) l.

(** [l[-k:]]. The index is the int [-k]; for [k = 0] it is [0]. *)
Definition slice_last {A} (k : Z) (l : list A) : list A :=
  slice_from (- k) l.

(** Truth value of an [Optional[str]]. *)
Definition truthy_str (o : option string) : bool :=
  match o with
  | Some s => negb (String.eqb s "")
  | None => false
  end.

(** [list.remove(x)] once [x in l] has been checked: drops the first
    occurrence. *)
Fixpoint list_remove (x : string) (l : list string) : list string :=
  match l with
  | [] => []
  | y :: l' => if String.eqb x y then l' else y :: list_remove x l'
  end.

(** [x in l] on a list of strings. *)
Definition list_mem (x : string) (l : list string) : bool :=
  existsb (String.eqb x) l.

(** [l[:stop]] for a Python int [stop]: a negative stop counts from the
    end. *)
Definition slice_to {A} (stop : Z) (l : list A) : list A :=
  let n := Z.of_nat (length l) in
  let j := if stop <? 0 then Z.max (n + stop) 0 else Z.min stop n in
  take (Z.to_nat j) l.

(** [l.sort(key=...)] for the order [lt] on keys. The sort is stable:
    elements that compare equal keep their order. [reverse=True] sorts
    with every comparison reversed, and is stable as well. *)
Fixpoint insert_sorted {A} (lt : A -> A -> bool) (x : A) (l : list A)
  : list A :=
  match l with
  | [] => [x]
  | y :: l' => if lt x y then x :: y :: l' else y :: insert_sorted lt x l'
  end.

Definition list_sort {A} (lt : A -> A -> bool) (l : list A) : list A :=
  fold_left (fun sorted x => insert_sorted lt x sorted) l [].

(** [a < b] on floats. *)
Definition float_lt (a b : float) : bool := negb (Qle_bool b a).

(** Truth value of a float: anything but zero. *)
Definition truthy_float (a : float) : bool := negb (Qeq_bool a 0).

(** [int(a)]: truncation towards zero. *)
Definition int_of_float (a : float) : Z := Z.quot (Qnum a) (Z.pos (Qden a)).

(** [str(n)] for an int. *)
Definition str_of_int (n : Z) : string := NilZero.string_of_int (Z.to_int n).

(** Exceptions derived from [Exception] that occur in the code. *)
Inductive Exn : Type :=
| KeyError (key : string)
| ValueError (what : string)
| TypeError (what : string)
| TimeoutError
| Exception (what : string)
| IllTyped (field : string).
(** [IllTyped] is not a Python exception. Python stores a value of any
    type in a dataclass field; the records below are typed after the
    field annotations, and [IllTyped f] marks an input whose entry for
    [f] has another type and which therefore has no image in the
    embedding. *)

(** [str(e)]. *)
Definition str (e : Exn) : string :=
  match e with
  | KeyError k => "'" +:+ k +:+ "'"
  | ValueError s | TypeError s | Exception s => s
  | TimeoutError => ""
  | IllTyped f => f
  end.

(** A computation either returns or raises; mutations made before a
    raise persist. *)
Inductive Result (A : Type) : Type :=
| Return (a : A)
| Raise (e : Exn).
Arguments Return {A} a.
Arguments Raise {A} e.

Definition M (S A : Type) : Type := S -> Result A * S.

Definition ret {S A} (a : A) : M S A := fun s => (Return a, s).

Definition bind {S A B} (m : M S A) (k : A -> M S B) : M S B :=
  fun s =>
    match m s with
    | (Return a, s') => k a s'
    | (Raise e, s') => (Raise e, s')
    end.

Definition raise {S A} (e : Exn) : M S A := fun s => (Raise e, s).

Definition gets {S A} (f : S -> A) : M S A := fun s => (Return (f s), s).

Definition modify {S} (f : S -> S) : M S unit := fun s => (Return tt, f s).

(** [try: m  except Exception as e: h e]. *)
Definition try_except {S A} (m : M S A) (h : Exn -> M S A) : M S A :=
  fun s =>
    match m s with
    | (Return a, s') => (Return a, s')
    | (Raise e, s') => h e s'
    end.

(** [try: m  finally: f]: [f] always runs; an exception of [m] is
    re-raised after it unless [f] raises itself. *)
Definition try_finally {S A} (m : M S A) (f : M S unit) : M S A :=
  fun s =>
    match m s with
    | (r, s') =>
        match f s' with
        | (Return _, s'') => (r, s'')
        | (Raise e, s'') => (Raise e, s'')
        end
    end.

(** Run a computation on a component of the state. *)
Definition zoom {S T A} (get : S -> T) (set : T -> S -> S) (m : M T A)
  : M S A :=
  fun s => match m (get s) with (r, t') => (r, set t' s) end.

(** [for x in l: body x]. *)
Fixpoint for_each {S A} (l : list A) (body : A -> M S unit) : M S unit :=
  match l with
  | [] => ret tt
  | x :: l' => bind (body x) (fun _ => for_each l' body)
  end.

(** The process environment: the wall clock and the uuid generator.
    Successive calls read successive entries of two sequences. *)
Record Env : Type := {
  time_src : nat -> float;
  ticks : nat;
  uuid_src : nat -> string;
  draws : nat;
}.

(** [time.time()]. *)
Definition time_time : M Env float :=
  fun e =>
    (Return (time_src e (ticks e)),
     {| time_src := time_src e; ticks := S (ticks e);
        uuid_src := uuid_src e; draws := draws e |}).

(** [str(uuid.uuid4())]. *)
Definition uuid4 : M Env string :=
  fun e =>
    (Return (uuid_src e (draws e)),
     {| time_src := time_src e; ticks := ticks e;
        uuid_src := uuid_src e; draws := S (draws e) |}).

End Py.

Export Py.

Declare Scope py_scope.
Delimit Scope py_scope with py.
Notation "x <- c ;; k" := (bind c (fun x => k))
  (at level 100, c at next level, right associativity) : py_scope.
Notation "c ;; k" := (bind c (fun _ => k))
  (at level 100, right associativity) : py_scope.
#[local] Open Scope py_scope.

(* ===================================================================== *)
(** * communication_hub.py: enumerations *)
(* ===================================================================== *)

Module AgentRole.

Inductive t : Type :=
| PRODUCT_MANAGER | DEVELOPER | REVIEWER | TESTER | ORCHESTRATOR.

Definition value (r : t) : string :=
  match r with
  | PRODUCT_MANAGER => "pm"
  | DEVELOPER => "dev"
  | REVIEWER => "reviewer"
  | TESTER => "tester"
  | ORCHESTRATOR => "orchestrator"
  end.

Definition eqb (a b : t) : bool :=
  match a, b with
  | PRODUCT_MANAGER, PRODUCT_MANAGER | DEVELOPER, DEVELOPER
  | REVIEWER, REVIEWER | TESTER, TESTER | ORCHESTRATOR, ORCHESTRATOR => true
  | _, _ => false
  end.

(** [AgentRole(v)]: lookup by value, [ValueError] otherwise. *)
Definition of_value (v : PyVal) : Result t :=
  match v with
  | VStr s =>
      if String.eqb s "pm" then Return PRODUCT_MANAGER
      else if String.eqb s "dev" then Return DEVELOPER
      else if String.eqb s "reviewer" then Return REVIEWER
      else if String.eqb s "tester" then Return TESTER
      else if String.eqb s "orchestrator" then Return ORCHESTRATOR
      else Raise (ValueError "not a valid AgentRole")
  | _ => Raise (ValueError "not a valid AgentRole")
  end.

End AgentRole.

Module MessageType.

Inductive t : Type :=
| TASK_REQUEST | TASK_RESPONSE | COLLABORATION_REQUEST | STATUS_UPDATE
| ERROR_REPORT | NEGOTIATION | CONSENSUS.

Definition value (k : t) : string :=
  match k with
  | TASK_REQUEST => "task_request"
  | TASK_RESPONSE => "task_response"
  | COLLABORATION_REQUEST => "collaboration_request"
  | STATUS_UPDATE => "status_update"
  | ERROR_REPORT => "error_report"
  | NEGOTIATION => "negotiation"
  | CONSENSUS => "consensus"
  end.

Definition eqb (a b : t) : bool := String.eqb (value a) (value b).

(** [MessageType(v)]. *)
Definition of_value (v : PyVal) : Result t :=
  match v with
  | VStr s =>
      if String.eqb s "task_request" then Return TASK_REQUEST
      else if String.eqb s "task_response" then Return TASK_RESPONSE
      else if String.eqb s "collaboration_request"
           then Return COLLABORATION_REQUEST
      else if String.eqb s "status_update" then Return STATUS_UPDATE
      else if String.eqb s "error_report" then Return ERROR_REPORT
      else if String.eqb s "negotiation" then Return NEGOTIATION
      else if String.eqb s "consensus" then Return CONSENSUS
      else Raise (ValueError "not a valid MessageType")
  | _ => Raise (ValueError "not a valid MessageType")
  end.

End MessageType.

Module MessagePriority.

Inductive t : Type := LOW | MEDIUM | HIGH | URGENT.

Definition value (p : t) : Z :=
  match p with LOW => 1 | MEDIUM => 2 | HIGH => 3 | URGENT => 4 end.

(** The int a value is equal to as a dict key, if any: [True == 1] and
    [2.0 == 2] hash and compare alike. *)
Definition as_int (v : PyVal) : option Z :=
  match v with
  | VInt z => Some z
  | VBool b => Some (if b then 1 else 0)
  | VFloat q =>
      if Z.rem (Qnum q) (Z.pos (Qden q)) =? 0
      then Some (Z.quot (Qnum q) (Z.pos (Qden q)))
      else None
  | _ => None
  end.

(** [MessagePriority(v)]. *)
Definition of_value (v : PyVal) : Result t :=
  match as_int v with
  | Some 1 => Return LOW
  | Some 2 => Return MEDIUM
  | Some 3 => Return HIGH
  | Some 4 => Return URGENT
  | _ => Raise (ValueError "not a valid MessagePriority")
  end.

End MessagePriority.

(* ===================================================================== *)
(** * communication_hub.py: Message and ConversationThread *)
(* ===================================================================== *)

Module Message.

(** A constructed message. [__post_init__] has replaced an absent id,
    timestamp and conversation id, so these three are no longer
    optional. [metadata] is annotated [Dict[str, Any]], but neither the
    generated [__init__] nor [__post_init__] looks at it: [None] here is
    an explicit [metadata=None] that went through unchanged. *)
Record t : Type := {
  sender : AgentRole.t;
  recipient : AgentRole.t;
  message_type : MessageType.t;
  content : string;
  id : string;
  priority : MessagePriority.t;
  timestamp : float;
  metadata : option dict;
  requires_response : bool;
  conversation_id : string;
}.

(** The [metadata] keyword: left out, or passed (possibly as [None]). *)
Inductive MetadataArg : Type :=
| Omitted
| Passed (v : option dict).

(** Keyword arguments of the generated [__init__], defaults in
    comments. *)
Record kwargs : Type := {
  kw_sender : AgentRole.t;
  kw_recipient : AgentRole.t;
  kw_message_type : MessageType.t;
  kw_content : string;
  kw_id : option string;                (* None *)
  kw_priority : MessagePriority.t;      (* MessagePriority.MEDIUM *)
  kw_timestamp : option float;          (* None *)
  kw_metadata : MetadataArg;            (* field(default_factory=dict) *)
  kw_requires_response : bool;          (* False *)
  kw_conversation_id : option string;   (* None *)
}.

(** The call [Message(sender=, recipient=, message_type=, content=)]
    with every other keyword left at its default. *)
Definition positional (s r : AgentRole.t) (k : MessageType.t)
    (c : string) : kwargs :=
  {| kw_sender := s; kw_recipient := r; kw_message_type := k;
     kw_content := c; kw_id := None;
     kw_priority := MessagePriority.MEDIUM; kw_timestamp := None;
     kw_metadata := Omitted; kw_requires_response := false;
     kw_conversation_id := None |}.

Definition with_id (x : string) (kw : kwargs) : kwargs :=
  {| kw_sender := kw_sender kw; kw_recipient := kw_recipient kw;
     kw_message_type := kw_message_type kw; kw_content := kw_content kw;
     kw_id := Some x; kw_priority := kw_priority kw;
     kw_timestamp := kw_timestamp kw; kw_metadata := kw_metadata kw;
     kw_requires_response := kw_requires_response kw;
     kw_conversation_id := kw_conversation_id kw |}.

Definition with_priority (p : MessagePriority.t) (kw : kwargs) : kwargs :=
  {| kw_sender := kw_sender kw; kw_recipient := kw_recipient kw;
     kw_message_type := kw_message_type kw; kw_content := kw_content kw;
     kw_id := kw_id kw; kw_priority := p;
     kw_timestamp := kw_timestamp kw; kw_metadata := kw_metadata kw;
     kw_requires_response := kw_requires_response kw;
     kw_conversation_id := kw_conversation_id kw |}.

Definition with_metadata (v : option dict) (kw : kwargs) : kwargs :=
  {| kw_sender := kw_sender kw; kw_recipient := kw_recipient kw;
     kw_message_type := kw_message_type kw; kw_content := kw_content kw;
     kw_id := kw_id kw; kw_priority := kw_priority kw;
     kw_timestamp := kw_timestamp kw; kw_metadata := Passed v;
     kw_requires_response := kw_requires_response kw;
     kw_conversation_id := kw_conversation_id kw |}.

Definition with_requires_response (b : bool) (kw : kwargs) : kwargs :=
  {| kw_sender := kw_sender kw; kw_recipient := kw_recipient kw;
     kw_message_type := kw_message_type kw; kw_content := kw_content kw;
     kw_id := kw_id kw; kw_priority := kw_priority kw;
     kw_timestamp := kw_timestamp kw; kw_metadata := kw_metadata kw;
     kw_requires_response := b;
     kw_conversation_id := kw_conversation_id kw |}.

(** The three defaults filled in after [__init__], in source order. *)
Definition __post_init__ (timestamp : option float)
    (id conversation_id : option string)
  : M Env (float * string * string) :=
  ts <- match timestamp with None => time_time | Some x => ret x end ;;
  i <- match id with None => uuid4 | Some x => ret x end ;;
  c <- match conversation_id with None => uuid4 | Some x => ret x end ;;
  ret (ts, i, c).

(** [Message(...)]: the dataclass [__init__] stores every argument,
    calling [dict()] for an omitted [metadata], then runs
    [__post_init__], which has no metadata check. *)
Definition __init__ (kw : kwargs) : M Env t :=
  let meta :=
    match kw_metadata kw with
    | Omitted => Some ∅
    | Passed v => v
    end in
  r <- __post_init__ (kw_timestamp kw) (kw_id kw) (kw_conversation_id kw) ;;
  let '(ts, i, c) := r in
  ret {| sender := kw_sender kw; recipient := kw_recipient kw;
         message_type := kw_message_type kw; content := kw_content kw;
         id := i; priority := kw_priority kw; timestamp := ts;
         metadata := meta;
         requires_response := kw_requires_response kw;
         conversation_id := c |}.

(** [message.conversation_id = c]. *)
Definition set_conversation_id (c : string) (m : t) : t :=
  {| sender := sender m; recipient := recipient m;
     message_type := message_type m; content := content m; id := id m;
     priority := priority m; timestamp := timestamp m;
     metadata := metadata m; requires_response := requires_response m;
     conversation_id := c |}.

Definition set_metadata (d : option dict) (m : t) : t :=
  {| sender := sender m; recipient := recipient m;
     message_type := message_type m; content := content m; id := id m;
     priority := priority m; timestamp := timestamp m;
     metadata := d; requires_response := requires_response m;
     conversation_id := conversation_id m |}.

(** The entries of [asdict(self)] that [to_dict] keeps as they are.
    [asdict] copies the metadata mapping recursively; on values a copy
    is the value itself. *)
Definition asdict_kept (m : t) : dict :=
  <["content" := VStr (content m)]>
  (<["id" := VStr (id m)]>
  (<["timestamp" := VFloat (timestamp m)]>
  (<["metadata" := match metadata m with
                   | Some d => VDict d
                   | None => VNone
                   end]>
  (<["requires_response" := VBool (requires_response m)]>
  (<["conversation_id" := VStr (conversation_id m)]> ∅))))).

(** [{**asdict(self), 'sender': ..., 'recipient': ..., 'message_type':
    ..., 'priority': ...}]: the four enum entries of [asdict] are
    overwritten by the enum values. *)
Definition to_dict (m : t) : dict :=
  <["priority" := VInt (MessagePriority.value (priority m))]>
  (<["message_type" := VStr (MessageType.value (message_type m))]>
  (<["recipient" := VStr (AgentRole.value (recipient m))]>
  (<["sender" := VStr (AgentRole.value (sender m))]>
  (asdict_kept m)))).

(** [data[key]]. *)
Definition getitem (data : dict) (key : string) : M Env PyVal :=
  match data !! key with
  | Some v => ret v
  | None => raise (KeyError key)
  end.

Definition lift {A} (r : Result A) : M Env A := fun e => (r, e).

(** Typed images of the raw entries (see [IllTyped]). *)
Definition as_str (field : string) (v : PyVal) : M Env string :=
  match v with VStr s => ret s | _ => raise (IllTyped field) end.

Definition as_opt_str (field : string) (v : PyVal)
  : M Env (option string) :=
  match v with
  | VStr s => ret (Some s)
  | VNone => ret None
  | _ => raise (IllTyped field)
  end.

Definition as_opt_float (field : string) (v : PyVal)
  : M Env (option float) :=
  match v with
  | VFloat q => ret (Some q)
  | VNone => ret None
  | _ => raise (IllTyped field)
  end.

Definition as_bool (field : string) (v : PyVal) : M Env bool :=
  match v with VBool b => ret b | _ => raise (IllTyped field) end.

(** [Message.from_dict(data)]. The keyword arguments of [cls(...)] are
    evaluated left to right, so the first missing key or invalid enum
    value in that order is the one reported. [raw_metadata] is kept
    only if it is a dict; the [assert] then holds, the [cast] is the
    identity and the [if meta is None] branch is dead.

    The code passes the entries for the id, the content, the timestamp,
    [requires_response] and the conversation id on as they are. Where
    such an entry has the type of its field ([annotated], below) the
    embedding does the same; where it has another type the code still
    returns a message, which the typed record cannot hold, and the
    embedding ends in [IllTyped] after the keys and the enum values
    have been checked. Nothing is claimed about the code from an
    [IllTyped] outcome. *)
Definition from_dict (data : dict) : M Env t :=
  let raw_metadata := data !! "metadata" in
  let meta : dict :=
    match raw_metadata with
    | Some (VDict d) => d
    | _ => ∅
    end in
  v_id <- getitem data "id" ;;
  v_sender <- getitem data "sender" ;;
  a_sender <- lift (AgentRole.of_value v_sender) ;;
  v_recipient <- getitem data "recipient" ;;
  a_recipient <- lift (AgentRole.of_value v_recipient) ;;
  v_type <- getitem data "message_type" ;;
  a_type <- lift (MessageType.of_value v_type) ;;
  v_content <- getitem data "content" ;;
  v_priority <- getitem data "priority" ;;
  a_priority <- lift (MessagePriority.of_value v_priority) ;;
  v_timestamp <- getitem data "timestamp" ;;
  let v_requires := default (VBool false) (data !! "requires_response") in
  let v_conversation := default VNone (data !! "conversation_id") in
  a_id <- as_opt_str "id" v_id ;;
  a_content <- as_str "content" v_content ;;
  a_timestamp <- as_opt_float "timestamp" v_timestamp ;;
  a_requires <- as_bool "requires_response" v_requires ;;
  a_conversation <- as_opt_str "conversation_id" v_conversation ;;
  __init__
    {| kw_sender := a_sender; kw_recipient := a_recipient;
       kw_message_type := a_type; kw_content := a_content;
       kw_id := a_id; kw_priority := a_priority;
       kw_timestamp := a_timestamp; kw_metadata := Passed (Some meta);
       kw_requires_response := a_requires;
       kw_conversation_id := a_conversation |}.

End Message.

Module ConversationThread.

Record t : Type := {
  id : string;
  participants : list AgentRole.t;
  messages : list Message.t;
  created_at : float;
  status : string;                      (* "active" by default *)
}.

(** [add_message] assigns the thread id to the message object and
    appends that object; the updated message is returned as well, since
    the caller's reference sees the assignment. *)
Definition add_message (message : Message.t) (self : t) : t * Message.t :=
  let message' := Message.set_conversation_id (id self) message in
  ({| id := id self; participants := participants self;
      messages := messages self ++ [message'];
      created_at := created_at self; status := status self |},
   message').

(** [self.messages[-limit:]]; [limit] defaults to [10]. *)
Definition get_context (limit : Z) (self : t) : list Message.t :=
  slice_last limit (messages self).

End ConversationThread.

(* ===================================================================== *)
(** * communication_hub.py: CommunicationHub *)
(* ===================================================================== *)

Module CommunicationHub.

(** [asyncio.Queue()]: an unbounded first-in-first-out queue. [put]
    appends at the tail and counts an unfinished task, [get] takes the
    head, [task_done] counts one task off. Being unbounded, the queue
    never makes [put] wait; [put] raises only on a queue that refuses
    items (one that was shut down, or a failing stand-in installed in
    its place), and [put_error] is the exception such a queue raises.
    The hub never sets it. *)
Record AsyncQueue : Type := {
  items : list (Z * Message.t);
  unfinished_tasks : Z;
  put_error : option Exn;
}.

(** [self.delivery_stats], a dict with three fixed keys. *)
Record Stats : Type := {
  total_sent : Z;
  total_delivered : Z;
  total_failed : Z;
}.

(** The dict stored by [start_negotiation]. *)
Record Negotiation : Type := {
  n_id : string;
  n_participants : list AgentRole.t;
  n_topic : string;
  n_data : dict;
  n_proposals : list PyVal;
  n_status : string;
  n_created_at : float;
}.

(** [asyncio.Future]. *)
Inductive Future : Type :=
| Pending
| Done (result : Message.t)
| Cancelled.

(** The task created by [start]. *)
Inductive Task : Type :=
| Scheduled
| CancelledTask.

Section WithExt.

(** State owned by the code that registers callbacks. *)
Context {Ext : Type}.

(** What one invocation of a registered coroutine does to the hub:
    the messages it passes to [send_message], in order, and the
    exception it ends with, if any. Callbacks reach the hub through
    [send_message] only. *)
Record Reaction : Type := {
  posts : list Message.t;
  raises : option Exn;
}.

(** The callables stored in the hub: a coroutine of the surrounding
    program, or the closure [response_handler] built by
    [send_request], which captures [recipient], [request_msg] (of
    which it reads the id) and [response_future]. *)
Inductive Callable : Type :=
| External (name : nat) (run : Message.t -> Ext -> Reaction * Ext)
| ResponseHandler (recipient : AgentRole.t) (request_id : string)
    (response_future : nat).

Record t : Type := {
  message_queue : AsyncQueue;
  subscribers : list (AgentRole.t * Callable);   (* dict, insertion order *)
  broadcast_subscribers : list Callable;
  conversations : gmap string ConversationThread.t;
  active_negotiations : gmap string Negotiation;
  message_history : list Message.t;
  delivery_stats : Stats;
  is_running : bool;
  processing_task : option Task;
}.

(** The hub in its process: environment, state behind the external
    callbacks, the futures allocated by [send_request], and a log of
    every callback invocation, in order. The log is not program
    state; it records what the awaits in the dispatch loop call. *)
Record World : Type := {
  env : Env;
  hub : t;
  ext : Ext;
  futures : list Future;
  calls : list (Callable * Message.t);
}.

(** [CommunicationHub()]. *)
Definition __init__ : t :=
  {| message_queue :=
       {| items := []; unfinished_tasks := 0; put_error := None |};
     subscribers := [];
     broadcast_subscribers := [];
     conversations := ∅;
     active_negotiations := ∅;
     message_history := [];
     delivery_stats :=
       {| total_sent := 0; total_delivered := 0; total_failed := 0 |};
     is_running := false;
     processing_task := None |}.

(** ** Attribute assignment *)

Definition set_message_queue (q : AsyncQueue) (h : t) : t :=
  {| message_queue := q; subscribers := subscribers h;
     broadcast_subscribers := broadcast_subscribers h;
     conversations := conversations h;
     active_negotiations := active_negotiations h;
     message_history := message_history h;
     delivery_stats := delivery_stats h; is_running := is_running h;
     processing_task := processing_task h |}.

Definition set_subscribers (s : list (AgentRole.t * Callable)) (h : t)
  : t :=
  {| message_queue := message_queue h; subscribers := s;
     broadcast_subscribers := broadcast_subscribers h;
     conversations := conversations h;
     active_negotiations := active_negotiations h;
     message_history := message_history h;
     delivery_stats := delivery_stats h; is_running := is_running h;
     processing_task := processing_task h |}.

Definition set_broadcast_subscribers (b : list Callable) (h : t) : t :=
  {| message_queue := message_queue h; subscribers := subscribers h;
     broadcast_subscribers := b;
     conversations := conversations h;
     active_negotiations := active_negotiations h;
     message_history := message_history h;
     delivery_stats := delivery_stats h; is_running := is_running h;
     processing_task := processing_task h |}.

Definition set_conversations (c : gmap string ConversationThread.t)
    (h : t) : t :=
  {| message_queue := message_queue h; subscribers := subscribers h;
     broadcast_subscribers := broadcast_subscribers h;
     conversations := c;
     active_negotiations := active_negotiations h;
     message_history := message_history h;
     delivery_stats := delivery_stats h; is_running := is_running h;
     processing_task := processing_task h |}.

Definition set_active_negotiations (n : gmap string Negotiation)
    (h : t) : t :=
  {| message_queue := message_queue h; subscribers := subscribers h;
     broadcast_subscribers := broadcast_subscribers h;
     conversations := conversations h;
     active_negotiations := n;
     message_history := message_history h;
     delivery_stats := delivery_stats h; is_running := is_running h;
     processing_task := processing_task h |}.

Definition set_message_history (l : list Message.t) (h : t) : t :=
  {| message_queue := message_queue h; subscribers := subscribers h;
     broadcast_subscribers := broadcast_subscribers h;
     conversations := conversations h;
     active_negotiations := active_negotiations h;
     message_history := l;
     delivery_stats := delivery_stats h; is_running := is_running h;
     processing_task := processing_task h |}.

Definition set_delivery_stats (s : Stats) (h : t) : t :=
  {| message_queue := message_queue h; subscribers := subscribers h;
     broadcast_subscribers := broadcast_subscribers h;
     conversations := conversations h;
     active_negotiations := active_negotiations h;
     message_history := message_history h;
     delivery_stats := s; is_running := is_running h;
     processing_task := processing_task h |}.

Definition set_running (b : bool) (task : option Task) (h : t) : t :=
  {| message_queue := message_queue h; subscribers := subscribers h;
     broadcast_subscribers := broadcast_subscribers h;
     conversations := conversations h;
     active_negotiations := active_negotiations h;
     message_history := message_history h;
     delivery_stats := delivery_stats h; is_running := b;
     processing_task := task |}.

Definition set_env (e : Env) (w : World) : World :=
  {| env := e; hub := hub w; ext := ext w; futures := futures w;
     calls := calls w |}.

Definition set_hub (h : t) (w : World) : World :=
  {| env := env w; hub := h; ext := ext w; futures := futures w;
     calls := calls w |}.

Definition set_ext (x : Ext) (w : World) : World :=
  {| env := env w; hub := hub w; ext := x; futures := futures w;
     calls := calls w |}.

Definition set_futures (f : list Future) (w : World) : World :=
  {| env := env w; hub := hub w; ext := ext w; futures := f;
     calls := calls w |}.

Definition set_calls (c : list (Callable * Message.t)) (w : World)
  : World :=
  {| env := env w; hub := hub w; ext := ext w; futures := futures w;
     calls := c |}.

Definition in_env {A} (m : M Env A) : M World A := zoom env set_env m.

Definition self {A} (f : t -> A) : M World A := gets (fun w => f (hub w)).

Definition assign (f : t -> t) : M World unit :=
  modify (fun w => set_hub (f (hub w)) w).

(** ** The queue *)

(** [await self.message_queue.put(item)]. *)
Definition queue_put (item : Z * Message.t) : M World unit :=
  q <- self message_queue ;;
  match put_error q with
  | Some e => raise e
  | None =>
      assign (set_message_queue
                {| items := items q ++ [item];
                   unfinished_tasks := unfinished_tasks q + 1;
                   put_error := put_error q |})
  end.

(** [await asyncio.wait_for(self.message_queue.get(), timeout=1.0)]:
    the head of the queue, or [TimeoutError] after a second with
    nothing queued. *)
Definition queue_get : M World (Z * Message.t) :=
  q <- self message_queue ;;
  match items q with
  | [] => raise TimeoutError
  | item :: rest =>
      assign (set_message_queue
                {| items := rest;
                   unfinished_tasks := unfinished_tasks q;
                   put_error := put_error q |}) ;;
      ret item
  end.

(** [self.message_queue.task_done()]. *)
Definition task_done : M World unit :=
  q <- self message_queue ;;
  if unfinished_tasks q <=? 0
  then raise (ValueError "task_done() called too many times")
  else assign (set_message_queue
                 {| items := items q;
                    unfinished_tasks := unfinished_tasks q - 1;
                    put_error := put_error q |}).

(** ** Counters *)

Definition count_sent (s : Stats) : Stats :=
  {| total_sent := total_sent s + 1;
     total_delivered := total_delivered s;
     total_failed := total_failed s |}.

Definition count_delivered (s : Stats) : Stats :=
  {| total_sent := total_sent s;
     total_delivered := total_delivered s + 1;
     total_failed := total_failed s |}.

Definition count_failed (s : Stats) : Stats :=
  {| total_sent := total_sent s;
     total_delivered := total_delivered s;
     total_failed := total_failed s + 1 |}.

Definition bump (f : Stats -> Stats) : M World unit :=
  assign (fun h => set_delivery_stats (f (delivery_stats h)) h).

(** ** Lifecycle and subscription *)

(** [await hub.start()]. *)
Definition start : M World unit :=
  running <- self is_running ;;
  if running then ret tt
  else assign (set_running true (Some Scheduled)).

(** [await hub.stop()]: the task is cancelled and awaited; its
    [CancelledError] is swallowed. *)
Definition stop : M World unit :=
  task <- self processing_task ;;
  match task with
  | Some _ => assign (set_running false (Some CancelledTask))
  | None => assign (set_running false None)
  end.

(** [d[k] = v] on a dict kept in insertion order. *)
Fixpoint dict_set (k : AgentRole.t) (v : Callable)
    (d : list (AgentRole.t * Callable)) : list (AgentRole.t * Callable) :=
  match d with
  | [] => [(k, v)]
  | (k', v') :: d' =>
      if AgentRole.eqb k k' then (k, v) :: d'
      else (k', v') :: dict_set k v d'
  end.

(** [d.get(k)]. *)
Fixpoint dict_get (k : AgentRole.t) (d : list (AgentRole.t * Callable))
  : option Callable :=
  match d with
  | [] => None
  | (k', v) :: d' => if AgentRole.eqb k k' then Some v else dict_get k d'
  end.

(** [hub.subscribe(role, callback)]. *)
Definition subscribe (role : AgentRole.t) (callback : Callable)
  : M World unit :=
  assign (fun h => set_subscribers (dict_set role callback (subscribers h)) h).

(** [hub.subscribe_to_all(callback)]. *)
Definition subscribe_to_all (callback : Callable) : M World unit :=
  assign (fun h =>
            set_broadcast_subscribers (broadcast_subscribers h ++ [callback]) h).

(** ** Sending *)

(** [self._track_conversation(message)]. The message returned is the
    argument after [add_message] has assigned its conversation id. *)
Definition _track_conversation (message : Message.t)
  : M World Message.t :=
  conversation_id <-
    (if String.eqb (Message.conversation_id message) ""
     then in_env uuid4
     else ret (Message.conversation_id message)) ;;
  let created_at := Message.timestamp message in
  known <- self conversations ;;
  let thread :=
    match known !! conversation_id with
    | Some th => th
    | None =>
        {| ConversationThread.id := conversation_id;
           ConversationThread.participants :=
             [Message.sender message; Message.recipient message];
           ConversationThread.messages := [];
           ConversationThread.created_at := created_at;
           ConversationThread.status := "active" |}
    end in
  let '(thread', message') :=
    ConversationThread.add_message message thread in
  assign (set_conversations (<[conversation_id := thread']> known)) ;;
  ret message'.

(** Replace the last element. *)
Definition replace_last {A} (x : A) (l : list A) : list A :=
  match l with
  | [] => []
  | _ => removelast l ++ [x]
  end.

(** The queue entry and the history entry just added hold the object
    that the thread has claimed, so they show its conversation id. *)
Definition alias_claimed (message' : Message.t) : M World unit :=
  assign (fun h =>
    let q := message_queue h in
    set_message_history (replace_last message' (message_history h))
      (set_message_queue
         {| items :=
              replace_last
                (MessagePriority.value (Message.priority message'),
                 message')
                (items q);
            unfinished_tasks := unfinished_tasks q;
            put_error := put_error q |} h)).

(** [await hub.send_message(message)]. *)
Definition send_message (message : Message.t) : M World bool :=
  try_except
    ( queue_put (MessagePriority.value (Message.priority message),
                 message) ;;
      assign (fun h =>
                set_message_history (message_history h ++ [message]) h) ;;
      bump count_sent ;;
      message' <- _track_conversation message ;;
      alias_claimed message' ;;
      ret true )
    (fun e =>
       bump count_failed ;;
       ret false).

(** ** Futures *)

Definition new_future : M World nat :=
  fun w =>
    (Return (length (futures w)), set_futures (futures w ++ [Pending]) w).

Definition future_state (f : nat) : M World Future :=
  gets (fun w => default Cancelled (futures w !! f)).

Definition future_set (f : nat) (v : Future) : M World unit :=
  modify (fun w => set_futures (<[f := v]> (futures w)) w).

(** [fut.done()]. *)
Definition done (f : Future) : bool :=
  match f with Pending => false | _ => true end.

(** ** Invoking a callback *)

(** [metadata.get('response_to') == request_id], with
    [metadata = message.metadata or {}]. *)
Definition responds_to (request_id : string) (message : Message.t)
  : bool :=
  match Message.metadata message with
  | Some d =>
      match d !! "response_to" with
      | Some (VStr s) => String.eqb s request_id
      | _ => false
      end
  | None => false
  end.

(** [await callback(message)]. An external coroutine reacts as its
    [run] says. [response_handler] is a plain function: calling it
    performs its effect and yields [None], and awaiting [None] raises
    [TypeError]. *)
Definition call (callback : Callable) (message : Message.t)
  : M World unit :=
  modify (fun w => set_calls (calls w ++ [(callback, message)]) w) ;;
  match callback with
  | External _ run =>
      r <- (fun w => let '(r, x) := run message (ext w) in
                     (Return r, set_ext x w)) ;;
      for_each (posts r) (fun p => _ <- send_message p ;; ret tt) ;;
      match raises r with
      | Some e => raise e
      | None => ret tt
      end
  | ResponseHandler recipient request_id response_future =>
      (if AgentRole.eqb (Message.sender message) recipient
          && responds_to request_id message
       then
         f <- future_state response_future ;;
         if done f then ret tt
         else future_set response_future (Done message)
       else ret tt) ;;
      raise (TypeError "object NoneType can't be used in 'await' expression")
  end.

(** ** The dispatch loop *)

(** One turn of the [while self.is_running] loop of
    [_process_messages]. [TimeoutError] from the wait continues the
    loop; any other exception reaching the outer handler is logged.
    The observer list is not changed by the callbacks (they only
    send), so the [for] runs over the list as it is at its start. *)
Definition _process_one : M World unit :=
  try_except
    ( item <- queue_get ;;
      let '(priority, message) := item in
      subs <- self subscribers ;;
      match dict_get (Message.recipient message) subs with
      | Some handler =>
          try_except
            ( call handler message ;;
              bump count_delivered )
            (fun e => bump count_failed)
      | None => ret tt
      end ;;
      observers <- self broadcast_subscribers ;;
      for_each observers
        (fun subscriber =>
           try_except (call subscriber message) (fun e => ret tt)) ;;
      task_done )
    (fun e => ret tt).

(** [_process_messages], observed for [turns] turns of its loop. *)
Fixpoint _process_messages (turns : nat) : M World unit :=
  match turns with
  | O => ret tt
  | S n =>
      running <- self is_running ;;
      if running then _process_one ;; _process_messages n
      else ret tt
  end.

(** ** Queries *)

(** [hub.get_conversation_history(agent1, agent2, limit)]. *)
Definition get_conversation_history (agent1 agent2 : AgentRole.t)
    (limit : Z) (h : t) : list Message.t :=
  slice_last limit
    (filter
       (fun m =>
          Is_true
            ((AgentRole.eqb (Message.sender m) agent1
              && AgentRole.eqb (Message.recipient m) agent2)
             || (AgentRole.eqb (Message.sender m) agent2
                 && AgentRole.eqb (Message.recipient m) agent1)))
       (message_history h)).

(** The dict returned by [get_stats]. *)
Record Report : Type := {
  r_total_messages : Z;
  r_active_conversations : Z;
  r_active_negotiations : Z;
  r_delivery_stats : Stats;
  r_queue_size : Z;
  r_subscriber_count : Z;
  r_uptime : float;
}.

(** [hub.get_stats()]. The clock is read only when the history is not
    empty; the timestamp of a constructed message is never [None]. *)
Definition get_stats : M World Report :=
  history <- self message_history ;;
  uptime <-
    match history with
    | first :: _ =>
        now <- in_env time_time ;;
        ret (now - Message.timestamp first)%Q
    | [] => ret 0%Q
    end ;;
  h <- self (fun h => h) ;;
  ret {| r_total_messages := Z.of_nat (length (message_history h));
         r_active_conversations :=
           Z.of_nat
             (size (filter
                      (fun kv => ConversationThread.status (snd kv) = "active")
                      (conversations h)));
         r_active_negotiations := Z.of_nat (size (active_negotiations h));
         r_delivery_stats := delivery_stats h;
         r_queue_size := Z.of_nat (length (items (message_queue h)));
         r_subscriber_count := Z.of_nat (length (subscribers h));
         r_uptime := uptime |}.

(** ** Request and response *)

(** [await hub.send_request(sender, recipient, content, message_type,
    timeout)]. The coroutine suspends in [asyncio.wait_for]; [during]
    is what the event loop runs until the future is resolved or the
    deadline passes, or an exception that surfaces at that await. At
    the deadline [wait_for] cancels the future and raises
    [TimeoutError]. No path removes the observer again. *)
Definition send_request (sender recipient : AgentRole.t)
    (content : string) (message_type : MessageType.t)
    (during : M World unit) : M World (option Message.t) :=
  request_id <- in_env uuid4 ;;
  request_msg <-
    in_env (Message.__init__
              (Message.with_requires_response true
                 (Message.with_id request_id
                    (Message.positional sender recipient message_type
                       content)))) ;;
  response_future <- new_future ;;
  subscribe_to_all
    (ResponseHandler recipient (Message.id request_msg) response_future) ;;
  try_except
    ( _ <- send_message request_msg ;;
      during ;;
      f <- future_state response_future ;;
      match f with
      | Done response => ret (Some response)
      | _ =>
          future_set response_future Cancelled ;;
          raise TimeoutError
      end )
    (fun e => ret None).

(** ** Broadcast and negotiation *)

(** [await hub.broadcast_message(sender, content, message_type)]. *)
Definition broadcast_message (sender : AgentRole.t) (content : string)
    (message_type : MessageType.t) : M World unit :=
  subs <- self subscribers ;;
  for_each (map fst subs)
    (fun recipient_role =>
       if AgentRole.eqb recipient_role sender then ret tt
       else
         i <- in_env uuid4 ;;
         message <-
           in_env (Message.__init__
                     (Message.with_metadata
                        (Some (<["broadcast" := VBool true]> ∅))
                        (Message.with_id i
                           (Message.positional sender recipient_role
                              message_type content)))) ;;
         _ <- send_message message ;;
         ret tt).

(** [await hub.start_negotiation(participants, topic, initial_data)]. *)
Definition start_negotiation (participants : list AgentRole.t)
    (topic : string) (initial_data : option dict) : M World string :=
  negotiation_id <- in_env uuid4 ;;
  let data := default ∅ initial_data in
  now <- in_env time_time ;;
  assign (fun h =>
    set_active_negotiations
      (<[negotiation_id :=
           {| n_id := negotiation_id; n_participants := participants;
              n_topic := topic; n_data := data; n_proposals := [];
              n_status := "active"; n_created_at := now |}]>
         (active_negotiations h)) h) ;;
  for_each participants
    (fun participant =>
       i <- in_env uuid4 ;;
       message <-
         in_env (Message.__init__
                   (Message.with_metadata
                      (Some
                         (<["negotiation_id" := VStr negotiation_id]>
                         (<["action" := VStr "start"]>
                         (<["participants" :=
                              VList (map (fun p => VStr (AgentRole.value p))
                                       participants)]> ∅))))
                      (Message.with_id i
                         (Message.positional AgentRole.ORCHESTRATOR
                            participant MessageType.NEGOTIATION
                            ("Negotiation started: " +:+ topic))))) ;;
       _ <- send_message message ;;
       ret tt) ;;
  ret negotiation_id.

(** ** The operations of the hub as a step system *)

(** A call on the hub by the surrounding program, or a turn of the
    dispatch loop. While a request is suspended the event loop runs
    further operations, listed in [during]. *)
Inductive Op : Type :=
| OpStart
| OpStop
| OpSubscribe (role : AgentRole.t) (callback : Callable)
| OpSubscribeToAll (callback : Callable)
| OpSendMessage (message : Message.t)
| OpProcessOne
| OpSendRequest (sender recipient : AgentRole.t) (content : string)
    (message_type : MessageType.t) (during : list Op)
| OpBroadcastMessage (sender : AgentRole.t) (content : string)
    (message_type : MessageType.t)
| OpStartNegotiation (participants : list AgentRole.t) (topic : string)
    (initial_data : option dict).

(** The loop turns only while the hub runs. *)
Definition turn : M World unit :=
  running <- self is_running ;;
  if running then _process_one else ret tt.

Fixpoint exec (op : Op) : M World unit :=
  match op with
  | OpStart => start
  | OpStop => stop
  | OpSubscribe role callback => subscribe role callback
  | OpSubscribeToAll callback => subscribe_to_all callback
  | OpSendMessage message => _ <- send_message message ;; ret tt
  | OpProcessOne => turn
  | OpSendRequest sender recipient content message_type during =>
      _ <- send_request sender recipient content message_type
             ((fix run (ops : list Op) : M World unit :=
                 match ops with
                 | [] => ret tt
                 | o :: ops' => exec o ;; run ops'
                 end) during) ;;
      ret tt
  | OpBroadcastMessage sender content message_type =>
      broadcast_message sender content message_type
  | OpStartNegotiation participants topic initial_data =>
      _ <- start_negotiation participants topic initial_data ;; ret tt
  end.

Definition exec_all (ops : list Op) : M World unit :=
  for_each ops exec.

End WithExt.

Arguments Callable : clear implicits.
Arguments t : clear implicits.
Arguments World : clear implicits.
Arguments Op : clear implicits.

End CommunicationHub.

(* ===================================================================== *)
(** * base_agent.py *)
(* ===================================================================== *)

Module AgentState.

Inductive t : Type :=
| INITIALIZING | IDLE | PROCESSING | WAITING_FOR_RESPONSE | COLLABORATING
| ERROR | SHUTDOWN.

Definition value (s : t) : string :=
  match s with
  | INITIALIZING => "initializing"
  | IDLE => "idle"
  | PROCESSING => "processing"
  | WAITING_FOR_RESPONSE => "waiting_for_response"
  | COLLABORATING => "collaborating"
  | ERROR => "error"
  | SHUTDOWN => "shutdown"
  end.

Definition eqb (a b : t) : bool :=
  match a, b with
  | INITIALIZING, INITIALIZING | IDLE, IDLE | PROCESSING, PROCESSING
  | WAITING_FOR_RESPONSE, WAITING_FOR_RESPONSE
  | COLLABORATING, COLLABORATING | ERROR, ERROR | SHUTDOWN, SHUTDOWN => true
  | _, _ => false
  end.

End AgentState.

Module AgentCapability.

Inductive t : Type :=
| REQUIREMENTS_ANALYSIS | CODE_GENERATION | CODE_REVIEW | TESTING
| DOCUMENTATION | PROJECT_MANAGEMENT | ARCHITECTURE_DESIGN | DEBUGGING.

End AgentCapability.

Module AgentConfig.

Record t : Type := {
  name : string;
  role : AgentRole.t;
  capabilities : list AgentCapability.t;
  max_memory_size : Z;                  (* 1000 *)
  response_timeout : float;             (* 30.0 *)
  retry_count : Z;                      (* 3 *)
  enable_learning : bool;               (* True *)
  tools : list string;
  metadata : dict;
}.

End AgentConfig.

Module AgentMetrics.

Record t : Type := {
  messages_sent : Z;
  messages_received : Z;
  tasks_completed : Z;
  tasks_failed : Z;
  average_response_time : float;
  uptime : float;
  last_activity : option float;
}.

(** [AgentMetrics()]. *)
Definition __init__ : t :=
  {| messages_sent := 0; messages_received := 0; tasks_completed := 0;
     tasks_failed := 0; average_response_time := 0%Q; uptime := 0%Q;
     last_activity := None |}.

Definition update_response_time (response_time : float) (self : t) : t :=
  {| messages_sent := messages_sent self;
     messages_received := messages_received self;
     tasks_completed := tasks_completed self;
     tasks_failed := tasks_failed self;
     average_response_time :=
       if messages_received self =? 0 then response_time
       else
         ((average_response_time self
           * float_of_int (messages_received self - 1)
           + response_time)
          / float_of_int (messages_received self))%Q;
     uptime := uptime self;
     last_activity := last_activity self |}.

Definition received (now : float) (self : t) : t :=
  {| messages_sent := messages_sent self;
     messages_received := messages_received self + 1;
     tasks_completed := tasks_completed self;
     tasks_failed := tasks_failed self;
     average_response_time := average_response_time self;
     uptime := uptime self;
     last_activity := Some now |}.

Definition sent (self : t) : t :=
  {| messages_sent := messages_sent self + 1;
     messages_received := messages_received self;
     tasks_completed := tasks_completed self;
     tasks_failed := tasks_failed self;
     average_response_time := average_response_time self;
     uptime := uptime self;
     last_activity := last_activity self |}.

Definition completed (self : t) : t :=
  {| messages_sent := messages_sent self;
     messages_received := messages_received self;
     tasks_completed := tasks_completed self + 1;
     tasks_failed := tasks_failed self;
     average_response_time := average_response_time self;
     uptime := uptime self;
     last_activity := last_activity self |}.

Definition failed (self : t) : t :=
  {| messages_sent := messages_sent self;
     messages_received := messages_received self;
     tasks_completed := tasks_completed self;
     tasks_failed := tasks_failed self + 1;
     average_response_time := average_response_time self;
     uptime := uptime self;
     last_activity := last_activity self |}.

(** [metrics.uptime = seconds]. *)
Definition set_uptime (seconds : float) (self : t) : t :=
  {| messages_sent := messages_sent self;
     messages_received := messages_received self;
     tasks_completed := tasks_completed self;
     tasks_failed := tasks_failed self;
     average_response_time := average_response_time self;
     uptime := seconds;
     last_activity := last_activity self |}.

End AgentMetrics.

Module BaseAgent.

(** What an observer of the agent sees besides its attributes: each
    effective state change, as a registered state-change callback is
    told it, and each [asyncio.sleep]. *)
Inductive Event : Type :=
| Transition (old_state new_state : AgentState.t)
| Sleep (seconds : float).

Section WithSubclass.

(** [Sub]: attributes of the concrete agent class, opaque to
    [BaseAgent]. [Ext]: as in the hub. *)
Context {Sub Ext : Type}.

(** A message hook ([handle_message] or a registered per-type
    handler): it returns the optional response text or raises, and
    may change the subclass attributes. *)
Definition Hook : Type :=
  Message.t -> Sub -> Result (option string) * Sub.

(** A state-change callback, by the exception it raises, if any. *)
Definition StateCallback : Type :=
  AgentState.t -> AgentState.t -> option Exn.

(** Instance attributes. [available_tools] and [active_tasks] are
    left out: no method embedded here reads or writes them. *)
Record t : Type := {
  config : AgentConfig.t;
  agent_id : string;
  state : AgentState.t;
  start_time : float;
  short_term_memory : list dict;
  conversation_history : list Message.t;
  context_cache : dict;
  metrics : AgentMetrics.t;
  message_handlers : list (MessageType.t * Hook);   (* dict *)
  state_change_callbacks : list StateCallback;
  last_error : option Exn;
  error_count : Z;
  sub : Sub;
}.

Record World : Type := {
  agent : t;
  hubw : CommunicationHub.World Ext;    (* self.communication_hub *)
  trace : list Event;
}.

(** The abstract method [handle_message] of the concrete class. *)
Variable handle_message : Hook.

(** ** Attribute assignment *)

Definition set_state (s : AgentState.t) (a : t) : t :=
  {| config := config a; agent_id := agent_id a; state := s;
     start_time := start_time a;
     short_term_memory := short_term_memory a;
     conversation_history := conversation_history a;
     context_cache := context_cache a; metrics := metrics a;
     message_handlers := message_handlers a;
     state_change_callbacks := state_change_callbacks a;
     last_error := last_error a; error_count := error_count a;
     sub := sub a |}.

Definition set_conversation_history (l : list Message.t) (a : t) : t :=
  {| config := config a; agent_id := agent_id a; state := state a;
     start_time := start_time a;
     short_term_memory := short_term_memory a;
     conversation_history := l;
     context_cache := context_cache a; metrics := metrics a;
     message_handlers := message_handlers a;
     state_change_callbacks := state_change_callbacks a;
     last_error := last_error a; error_count := error_count a;
     sub := sub a |}.

Definition set_metrics (m : AgentMetrics.t) (a : t) : t :=
  {| config := config a; agent_id := agent_id a; state := state a;
     start_time := start_time a;
     short_term_memory := short_term_memory a;
     conversation_history := conversation_history a;
     context_cache := context_cache a; metrics := m;
     message_handlers := message_handlers a;
     state_change_callbacks := state_change_callbacks a;
     last_error := last_error a; error_count := error_count a;
     sub := sub a |}.

Definition set_message_handlers (h : list (MessageType.t * Hook))
    (a : t) : t :=
  {| config := config a; agent_id := agent_id a; state := state a;
     start_time := start_time a;
     short_term_memory := short_term_memory a;
     conversation_history := conversation_history a;
     context_cache := context_cache a; metrics := metrics a;
     message_handlers := h;
     state_change_callbacks := state_change_callbacks a;
     last_error := last_error a; error_count := error_count a;
     sub := sub a |}.

Definition set_state_change_callbacks (c : list StateCallback) (a : t)
  : t :=
  {| config := config a; agent_id := agent_id a; state := state a;
     start_time := start_time a;
     short_term_memory := short_term_memory a;
     conversation_history := conversation_history a;
     context_cache := context_cache a; metrics := metrics a;
     message_handlers := message_handlers a;
     state_change_callbacks := c;
     last_error := last_error a; error_count := error_count a;
     sub := sub a |}.

Definition set_error (e : option Exn) (n : Z) (a : t) : t :=
  {| config := config a; agent_id := agent_id a; state := state a;
     start_time := start_time a;
     short_term_memory := short_term_memory a;
     conversation_history := conversation_history a;
     context_cache := context_cache a; metrics := metrics a;
     message_handlers := message_handlers a;
     state_change_callbacks := state_change_callbacks a;
     last_error := e; error_count := n;
     sub := sub a |}.

Definition set_sub (x : Sub) (a : t) : t :=
  {| config := config a; agent_id := agent_id a; state := state a;
     start_time := start_time a;
     short_term_memory := short_term_memory a;
     conversation_history := conversation_history a;
     context_cache := context_cache a; metrics := metrics a;
     message_handlers := message_handlers a;
     state_change_callbacks := state_change_callbacks a;
     last_error := last_error a; error_count := error_count a;
     sub := x |}.

Definition set_agent (a : t) (w : World) : World :=
  {| agent := a; hubw := hubw w; trace := trace w |}.

Definition set_hubw (h : CommunicationHub.World Ext) (w : World)
  : World :=
  {| agent := agent w; hubw := h; trace := trace w |}.

Definition observe (e : Event) : M World unit :=
  modify (fun w =>
            {| agent := agent w; hubw := hubw w;
               trace := trace w ++ [e] |}).

Definition self {A} (f : t -> A) : M World A :=
  gets (fun w => f (agent w)).

Definition assign (f : t -> t) : M World unit :=
  modify (fun w => set_agent (f (agent w)) w).

Definition in_hub {A} (m : M (CommunicationHub.World Ext) A)
  : M World A :=
  zoom hubw set_hubw m.

Definition in_env {A} (m : M Env A) : M World A :=
  in_hub (CommunicationHub.in_env m).

(** ** Registration *)

(** [d.get(k)] on [message_handlers]. *)
Fixpoint handler_for (k : MessageType.t)
    (d : list (MessageType.t * Hook)) : option Hook :=
  match d with
  | [] => None
  | (k', h) :: d' =>
      if MessageType.eqb k k' then Some h else handler_for k d'
  end.

(** [d[k] = h] on [message_handlers]. *)
Fixpoint handler_set (k : MessageType.t) (h : Hook)
    (d : list (MessageType.t * Hook)) : list (MessageType.t * Hook) :=
  match d with
  | [] => [(k, h)]
  | (k', h') :: d' =>
      if MessageType.eqb k k' then (k, h) :: d'
      else (k', h') :: handler_set k h d'
  end.

Definition register_message_handler (message_type : MessageType.t)
    (handler : Hook) : M World unit :=
  assign (fun a =>
            set_message_handlers
              (handler_set message_type handler (message_handlers a)) a).

Definition add_state_change_callback (callback : StateCallback)
  : M World unit :=
  assign (fun a =>
            set_state_change_callbacks
              (state_change_callbacks a ++ [callback]) a).

(** ** State machine *)

(** [await self._change_state(new_state)]. *)
Definition _change_state (new_state : AgentState.t) : M World unit :=
  old_state <- self state ;;
  if AgentState.eqb old_state new_state then ret tt
  else
    assign (set_state new_state) ;;
    observe (Transition old_state new_state) ;;
    callbacks <- self state_change_callbacks ;;
    for_each callbacks
      (fun callback =>
         try_except
           (match callback old_state new_state with
            | Some e => raise e
            | None => ret tt
            end)
           (fun e => ret tt)).

(** [await self._handle_error(error, context)]; [context] only goes
    to the log. The sleep lasts [1.0 * self.error_count] seconds. *)
Definition _handle_error (error : Exn) (context : string)
  : M World unit :=
  assign (fun a => set_error (Some error) (error_count a + 1) a) ;;
  current <- self state ;;
  (if negb (AgentState.eqb current AgentState.ERROR)
   then _change_state AgentState.ERROR
   else ret tt) ;;
  n <- self error_count ;;
  budget <- self (fun a => AgentConfig.retry_count (config a)) ;;
  if n <=? budget
  then
    observe (Sleep (1 * float_of_int n)%Q) ;;
    _change_state AgentState.IDLE
  else ret tt.

(** ** Messages *)

(** [await self._send_response(original_message, response_content,
    message_type)]. *)
Definition _send_response (original_message : Message.t)
    (response_content : string) (message_type : MessageType.t)
  : M World unit :=
  i <- in_env uuid4 ;;
  role <- self (fun a => AgentConfig.role (config a)) ;;
  aid <- self agent_id ;;
  processing_time <- in_env time_time ;;
  response <-
    in_env (Message.__init__
              (Message.with_metadata
                 (Some
                    (<["response_to" := VStr (Message.id original_message)]>
                    (<["agent_id" := VStr aid]>
                    (<["processing_time" := VFloat processing_time]> ∅))))
                 (Message.with_id i
                    (Message.positional role
                       (Message.sender original_message) message_type
                       response_content)))) ;;
  _ <- in_hub (CommunicationHub.send_message response) ;;
  assign (fun a => set_metrics (AgentMetrics.sent (metrics a)) a).

(** Run a hook on the subclass attributes. *)
Definition run_hook (h : Hook) (message : Message.t)
  : M World (option string) :=
  fun w =>
    let '(r, x) := h message (sub (agent w)) in
    (r, set_agent (set_sub x (agent w)) w).

(** [await self._handle_message(message)], the coroutine subscribed
    at the hub. *)
Definition _handle_message (message : Message.t) : M World unit :=
  try_except
    ( start_time <- in_env time_time ;;
      assign (fun a =>
                set_metrics (AgentMetrics.received start_time (metrics a)) a) ;;
      assign (fun a =>
                set_conversation_history
                  (conversation_history a ++ [message]) a) ;;
      history <- self conversation_history ;;
      limit <- self (fun a => AgentConfig.max_memory_size (config a)) ;;
      (if Z.of_nat (length history) >? limit
       then assign (set_conversation_history (slice_last limit history))
       else ret tt) ;;
      previous_state <- self state ;;
      _change_state AgentState.PROCESSING ;;
      try_finally
        (try_except
           ( handlers <- self message_handlers ;;
             response <-
               match handler_for (Message.message_type message) handlers with
               | Some h => run_hook h message
               | None => run_hook handle_message message
               end ;;
             (if Message.requires_response message && truthy_str response
              then _send_response message (default "" response)
                     MessageType.TASK_RESPONSE
              else ret tt) ;;
             now <- in_env time_time ;;
             let response_time := (now - start_time)%Q in
             assign (fun a =>
                       set_metrics
                         (AgentMetrics.update_response_time response_time
                            (metrics a)) a) ;;
             assign (fun a =>
                       set_metrics (AgentMetrics.completed (metrics a)) a) )
           (fun e =>
              assign (fun a =>
                        set_metrics (AgentMetrics.failed (metrics a)) a) ;;
              _handle_error e
                ("Error processing message: " +:+ Message.id message) ;;
              if Message.requires_response message
              then
                let error_response :=
                  "Error processing request: " +:+ str e in
                _send_response message error_response
                  MessageType.ERROR_REPORT
              else ret tt))
        (let target_state :=
           if AgentState.eqb previous_state AgentState.PROCESSING
           then AgentState.IDLE
           else previous_state in
         _change_state target_state) )
    (fun e => _handle_error e "Critical error in message handling").

(** [BaseAgent.__init__(config, communication_hub)], for a concrete
    class whose own attributes start as [x]. *)
Definition __init__ (cfg : AgentConfig.t) (x : Sub)
  : M (CommunicationHub.World Ext) t :=
  i <- CommunicationHub.in_env uuid4 ;;
  began <- CommunicationHub.in_env time_time ;;
  ret {| config := cfg; agent_id := i; state := AgentState.INITIALIZING;
         start_time := began; short_term_memory := [];
         conversation_history := []; context_cache := ∅;
         metrics := AgentMetrics.__init__; message_handlers := [];
         state_change_callbacks := []; last_error := None;
         error_count := 0; sub := x |}.

(** ** Lifecycle *)

(** The abstract coroutines [initialize] and [cleanup] of the concrete
    class: they return or raise, and may change the subclass
    attributes. *)
Definition LifecycleHook : Type := Sub -> Result unit * Sub.

Variable initialize : LifecycleHook.
Variable cleanup : LifecycleHook.

(** The bound method [self._handle_message] as the hub stores it. *)
Variable bound_handle_message : CommunicationHub.Callable Ext.

Definition run_lifecycle (h : LifecycleHook) : M World unit :=
  fun w =>
    let '(r, x) := h (sub (agent w)) in
    (r, set_agent (set_sub x (agent w)) w).

(** [self.short_term_memory.clear()] and [self.context_cache.clear()]. *)
Definition clear_memory (a : t) : t :=
  {| config := config a; agent_id := agent_id a; state := state a;
     start_time := start_time a;
     short_term_memory := [];
     conversation_history := conversation_history a;
     context_cache := ∅; metrics := metrics a;
     message_handlers := message_handlers a;
     state_change_callbacks := state_change_callbacks a;
     last_error := last_error a; error_count := error_count a;
     sub := sub a |}.

(** [_initialize_tools] and [_initialize_memory] only write to the
    log. *)
Definition _initialize_tools : M World unit := ret tt.

Definition _initialize_memory : M World unit := ret tt.

(** [await agent.start()]. An exception is handled by [_handle_error]
    and raised again. *)
Definition start : M World unit :=
  try_except
    ( role <- self (fun a => AgentConfig.role (config a)) ;;
      in_hub (CommunicationHub.subscribe role bound_handle_message) ;;
      _initialize_tools ;;
      _initialize_memory ;;
      run_lifecycle initialize ;;
      _change_state AgentState.IDLE )
    (fun e =>
       _handle_error e "Failed to start agent" ;;
       raise e).

(** [await agent.stop()]. An exception is logged and dropped. *)
Definition stop : M World unit :=
  try_except
    ( _change_state AgentState.SHUTDOWN ;;
      run_lifecycle cleanup ;;
      assign clear_memory ;;
      now <- in_env time_time ;;
      began <- self start_time ;;
      assign (fun a =>
                set_metrics
                  (AgentMetrics.set_uptime (now - began)%Q (metrics a)) a) )
    (fun e => ret tt).

End WithSubclass.

Arguments t : clear implicits.
Arguments World : clear implicits.
Arguments Hook : clear implicits.

End BaseAgent.

(* ===================================================================== *)
(** * memory.py: MemoryEntry and InMemoryStore *)
(* ===================================================================== *)

Module MemoryType.

Inductive t : Type :=
| CONVERSATION | TASK | LEARNING | CONTEXT | FACT | PATTERN | ERROR.

Definition value (k : t) : string :=
  match k with
  | CONVERSATION => "conversation"
  | TASK => "task"
  | LEARNING => "learning"
  | CONTEXT => "context"
  | FACT => "fact"
  | PATTERN => "pattern"
  | ERROR => "error"
  end.

Definition eqb (a b : t) : bool :=
  match a, b with
  | CONVERSATION, CONVERSATION | TASK, TASK | LEARNING, LEARNING
  | CONTEXT, CONTEXT | FACT, FACT | PATTERN, PATTERN | ERROR, ERROR => true
  | _, _ => false
  end.

(** [MemoryType(v)]: lookup by value, [ValueError] otherwise. *)
Definition of_value (v : PyVal) : Result t :=
  match v with
  | VStr s =>
      if String.eqb s "conversation" then Return CONVERSATION
      else if String.eqb s "task" then Return TASK
      else if String.eqb s "learning" then Return LEARNING
      else if String.eqb s "context" then Return CONTEXT
      else if String.eqb s "fact" then Return FACT
      else if String.eqb s "pattern" then Return PATTERN
      else if String.eqb s "error" then Return ERROR
      else Raise (ValueError "not a valid MemoryType")
  | _ => Raise (ValueError "not a valid MemoryType")
  end.

End MemoryType.

Module MemoryPriority.

Inductive t : Type := CRITICAL | HIGH | MEDIUM | LOW | TEMPORARY.

Definition value (p : t) : Z :=
  match p with
  | CRITICAL => 5 | HIGH => 4 | MEDIUM => 3 | LOW => 2 | TEMPORARY => 1
  end.

(** [MemoryPriority(v)]. *)
Definition of_value (v : PyVal) : Result t :=
  match MessagePriority.as_int v with
  | Some 5 => Return CRITICAL
  | Some 4 => Return HIGH
  | Some 3 => Return MEDIUM
  | Some 2 => Return LOW
  | Some 1 => Return TEMPORARY
  | _ => Raise (ValueError "not a valid MemoryPriority")
  end.

End MemoryPriority.

Module MemoryEntry.

Record t : Type := {
  id : string;
  content : PyVal;
  memory_type : MemoryType.t;
  priority : MemoryPriority.t;
  created_at : float;
  last_accessed : float;
  access_count : Z;
  tags : list string;
  metadata : dict;
  expires_at : option float;
}.

(** [entry.access()]. *)
Definition access (self : t) : M Env t :=
  now <- time_time ;;
  ret {| id := id self; content := content self;
         memory_type := memory_type self; priority := priority self;
         created_at := created_at self; last_accessed := now;
         access_count := access_count self + 1; tags := tags self;
         metadata := metadata self; expires_at := expires_at self |}.

(** [entry.is_expired()]: the clock is read only when an expiry time is
    set. *)
Definition is_expired (self : t) : M Env bool :=
  match expires_at self with
  | None => ret false
  | Some deadline =>
      now <- time_time ;;
      ret (float_gt now deadline)
  end.

(** Keyword arguments of the generated [__init__]; the two times may
    be passed as [None]. *)
Record kwargs : Type := {
  kw_id : string;
  kw_content : PyVal;
  kw_memory_type : MemoryType.t;
  kw_priority : MemoryPriority.t;
  kw_created_at : option float;
  kw_last_accessed : option float;
  kw_access_count : Z;                  (* 0 *)
  kw_tags : list string;                (* field(default_factory=list) *)
  kw_metadata : dict;                   (* field(default_factory=dict) *)
  kw_expires_at : option float;         (* None *)
}.

(** [__post_init__]: an absent creation time is the clock reading, an
    absent access time is the creation time. *)
Definition __post_init__ (created_at last_accessed : option float)
  : M Env (float * float) :=
  created <- match created_at with None => time_time | Some x => ret x end ;;
  let accessed := match last_accessed with None => created | Some x => x end in
  ret (created, accessed).

(** [MemoryEntry(...)]. *)
Definition __init__ (kw : kwargs) : M Env t :=
  r <- __post_init__ (kw_created_at kw) (kw_last_accessed kw) ;;
  let '(created, accessed) := r in
  ret {| id := kw_id kw; content := kw_content kw;
         memory_type := kw_memory_type kw; priority := kw_priority kw;
         created_at := created; last_accessed := accessed;
         access_count := kw_access_count kw; tags := kw_tags kw;
         metadata := kw_metadata kw; expires_at := kw_expires_at kw |}.

Definition of_opt_float (o : option float) : PyVal :=
  match o with Some q => VFloat q | None => VNone end.

(** [entry.to_dict()]: [asdict(self)] with the two enum entries
    overwritten by the enum values. *)
Definition to_dict (self : t) : dict :=
  <["priority" := VInt (MemoryPriority.value (priority self))]>
  (<["memory_type" := VStr (MemoryType.value (memory_type self))]>
  (<["id" := VStr (id self)]>
  (<["content" := content self]>
  (<["created_at" := VFloat (created_at self)]>
  (<["last_accessed" := VFloat (last_accessed self)]>
  (<["access_count" := VInt (access_count self)]>
  (<["tags" := VList (map VStr (tags self))]>
  (<["metadata" := VDict (metadata self)]>
  (<["expires_at" := of_opt_float (expires_at self)]> ∅))))))))).

(** Typed images of the raw entries (see [IllTyped]). *)
Definition as_int (field : string) (v : PyVal) : M Env Z :=
  match v with VInt z => ret z | _ => raise (IllTyped field) end.

Definition as_dict (field : string) (v : PyVal) : M Env dict :=
  match v with VDict d => ret d | _ => raise (IllTyped field) end.

Fixpoint str_items (l : list PyVal) : option (list string) :=
  match l with
  | [] => Some []
  | VStr s :: l' => option_map (cons s) (str_items l')
  | _ :: _ => None
  end.

Definition as_str_list (field : string) (v : PyVal) : M Env (list string) :=
  match v with
  | VList l =>
      match str_items l with
      | Some tags => ret tags
      | None => raise (IllTyped field)
      end
  | _ => raise (IllTyped field)
  end.

(** [MemoryEntry.from_dict(data)]. The six entries read with
    [data[key]] are required, in this order; the four read with
    [data.get] have defaults. *)
Definition from_dict (data : dict) : M Env t :=
  v_id <- Message.getitem data "id" ;;
  v_content <- Message.getitem data "content" ;;
  v_type <- Message.getitem data "memory_type" ;;
  a_type <- Message.lift (MemoryType.of_value v_type) ;;
  v_priority <- Message.getitem data "priority" ;;
  a_priority <- Message.lift (MemoryPriority.of_value v_priority) ;;
  v_created <- Message.getitem data "created_at" ;;
  v_accessed <- Message.getitem data "last_accessed" ;;
  let v_count := default (VInt 0) (data !! "access_count") in
  let v_tags := default (VList []) (data !! "tags") in
  let v_metadata := default (VDict ∅) (data !! "metadata") in
  let v_expires := default VNone (data !! "expires_at") in
  a_id <- Message.as_str "id" v_id ;;
  a_created <- Message.as_opt_float "created_at" v_created ;;
  a_accessed <- Message.as_opt_float "last_accessed" v_accessed ;;
  a_count <- as_int "access_count" v_count ;;
  a_tags <- as_str_list "tags" v_tags ;;
  a_metadata <- as_dict "metadata" v_metadata ;;
  a_expires <- Message.as_opt_float "expires_at" v_expires ;;
  __init__
    {| kw_id := a_id; kw_content := v_content; kw_memory_type := a_type;
       kw_priority := a_priority; kw_created_at := a_created;
       kw_last_accessed := a_accessed; kw_access_count := a_count;
       kw_tags := a_tags; kw_metadata := a_metadata;
       kw_expires_at := a_expires |}.

End MemoryEntry.

Module InMemoryStore.

Record t : Type := {
  memories : gmap string MemoryEntry.t;
  type_index : MemoryType.t -> list string;   (* a key for every type *)
  tag_index : gmap string (list string);
}.

Record World : Type := {
  env : Env;
  this : t;
}.

(** [InMemoryStore()]. *)
Definition __init__ : t :=
  {| memories := ∅; type_index := fun _ => []; tag_index := ∅ |}.

Definition in_env {A} (m : M Env A) : M World A :=
  zoom env (fun e w => {| env := e; this := this w |}) m.

Definition self {A} (f : t -> A) : M World A := gets (fun w => f (this w)).

Definition assign (f : t -> t) : M World unit :=
  modify (fun w => {| env := env w; this := f (this w) |}).

(** [self.type_index[k] = l]. *)
Definition type_index_set (k : MemoryType.t) (l : list string)
    (ix : MemoryType.t -> list string) : MemoryType.t -> list string :=
  fun k' => if MemoryType.eqb k k' then l else ix k'.

(** Body of the tag loop of [store]. *)
Definition index_tag (memory_id tag : string)
    (ix : gmap string (list string)) : gmap string (list string) :=
  match ix !! tag with
  | None => <[tag := [memory_id]]> ix
  | Some l =>
      if list_mem memory_id l then ix else <[tag := l ++ [memory_id]]> ix
  end.

(** Body of the tag loop of [delete]. *)
Definition unindex_tag (memory_id tag : string)
    (ix : gmap string (list string)) : gmap string (list string) :=
  match ix !! tag with
  | Some l =>
      if list_mem memory_id l
      then
        match list_remove memory_id l with
        | [] => base.delete tag ix
        | l' => <[tag := l']> ix
        end
      else ix
  | None => ix
  end.

(** [await store.store(entry)]. Nothing in the body raises. *)
Definition store (entry : MemoryEntry.t) : M World bool :=
  try_except
    ( assign (fun s =>
        let i := MemoryEntry.id entry in
        let k := MemoryEntry.memory_type entry in
        {| memories := <[i := entry]> (memories s);
           type_index :=
             if list_mem i (type_index s k) then type_index s
             else type_index_set k (type_index s k ++ [i]) (type_index s);
           tag_index :=
             fold_left (fun ix tag => index_tag i tag ix)
               (MemoryEntry.tags entry) (tag_index s) |}) ;;
      ret true )
    (fun e => ret false).

(** [await store.delete(memory_id)]. *)
Definition delete (memory_id : string) : M World bool :=
  known <- self memories ;;
  match known !! memory_id with
  | None => ret false
  | Some entry =>
      assign (fun s =>
        let k := MemoryEntry.memory_type entry in
        {| memories := base.delete memory_id (memories s);
           type_index :=
             if list_mem memory_id (type_index s k)
             then type_index_set k (list_remove memory_id (type_index s k))
                    (type_index s)
             else type_index s;
           tag_index :=
             fold_left (fun ix tag => unindex_tag memory_id tag ix)
               (MemoryEntry.tags entry) (tag_index s) |}) ;;
      ret true
  end.

(** [await store.retrieve(memory_id)]. A [MemoryEntry] is always
    truthy, so [entry and ...] tests presence. The expiry test is made
    once and, if it said expired, a second time. [access] mutates the
    stored object, which is the one returned. *)
Definition retrieve (memory_id : string)
  : M World (option MemoryEntry.t) :=
  known <- self memories ;;
  match known !! memory_id with
  | None => ret None
  | Some entry =>
      expired <- in_env (MemoryEntry.is_expired entry) ;;
      if negb expired
      then
        entry' <- in_env (MemoryEntry.access entry) ;;
        assign (fun s =>
                  {| memories := <[memory_id := entry']> (memories s);
                     type_index := type_index s;
                     tag_index := tag_index s |}) ;;
        ret (Some entry')
      else
        still_expired <- in_env (MemoryEntry.is_expired entry) ;;
        (if still_expired
         then _ <- delete memory_id ;; ret tt
         else ret tt) ;;
        ret None
  end.

(** Index lists hold no id twice: true of [InMemoryStore()] and kept
    by [store], [delete] and [retrieve]. *)
Definition no_duplicates (s : t) : Prop :=
  (forall k, NoDup (type_index s k)) /\
  (forall tag l, tag_index s !! tag = Some l -> NoDup l).

(** The wall clock never runs backwards. *)
Definition monotone_clock (e : Env) : Prop :=
  forall i j : nat, (i <= j)%nat -> (time_src e i <= time_src e j)%Q.

Section Iteration.

(** What the mapping and the sets of the embedding do not determine:
    the order in which Python iterates the keys of [self.memories] (the
    insertion order of the dict) and the elements of a set of ids (left
    unspecified by the language), and the text test
    [query.lower() in str(content).lower()] of [search]. *)
Variable dict_keys : gmap string MemoryEntry.t -> list string.
Variable set_iter : gset string -> list string.
Variable contains_lower : string -> PyVal -> bool.

(** The first loop of [cleanup_expired]: the ids, in iteration order,
    of the entries that say they are expired. *)
Fixpoint expired_among (known : gmap string MemoryEntry.t)
    (ids : list string) : M World (list string) :=
  match ids with
  | [] => ret []
  | memory_id :: rest =>
      match known !! memory_id with
      | Some entry =>
          expired <- in_env (MemoryEntry.is_expired entry) ;;
          expired_ids <- expired_among known rest ;;
          ret (if expired then memory_id :: expired_ids else expired_ids)
      | None => expired_among known rest
      end
  end.

(** [await store.cleanup_expired()]. *)
Definition cleanup_expired : M World Z :=
  known <- self memories ;;
  expired_ids <- expired_among known (dict_keys known) ;;
  for_each expired_ids (fun memory_id => _ <- delete memory_id ;; ret tt) ;;
  ret (Z.of_nat (length expired_ids)).

(** The ids listed under any of the tags. *)
Definition tag_ids (s : t) (tags : list string) : gset string :=
  fold_left
    (fun ids tag =>
       match tag_index s !! tag with
       | Some l => ids ∪ list_to_set l
       | None => ids
       end)
    tags ∅.

(** The candidate set of [search]. An enum member is truthy, so the
    type filter applies whenever a type is given; the tag filter applies
    to a list that is not empty. *)
Definition candidates (s : t) (memory_type : option MemoryType.t)
    (tags : option (list string)) : gset string :=
  let by_type :=
    match memory_type with
    | Some k => dom (memories s) ∩ list_to_set (type_index s k)
    | None => dom (memories s)
    end in
  match tags with
  | Some (tag :: rest) => by_type ∩ tag_ids s (tag :: rest)
  | _ => by_type
  end.

(** The loop of [search] over the candidates. [access] mutates the
    stored object, which is the one appended to the results. *)
Fixpoint scan (query : string) (ids : list string)
  : M World (list MemoryEntry.t) :=
  match ids with
  | [] => ret []
  | memory_id :: rest =>
      known <- self memories ;;
      match known !! memory_id with
      | None => raise (KeyError memory_id)
      | Some entry =>
          expired <- in_env (MemoryEntry.is_expired entry) ;;
          if expired then scan query rest
          else if contains_lower query (MemoryEntry.content entry)
          then
            entry' <- in_env (MemoryEntry.access entry) ;;
            assign (fun s =>
                      {| memories := <[memory_id := entry']> (memories s);
                         type_index := type_index s;
                         tag_index := tag_index s |}) ;;
            results <- scan query rest ;;
            ret (entry' :: results)
          else scan query rest
      end
  end.

(** The sort key [(e.access_count, e.last_accessed)], compared as
    tuples. *)
Definition relevance_lt (a b : MemoryEntry.t) : bool :=
  (MemoryEntry.access_count a <? MemoryEntry.access_count b)
  || ((MemoryEntry.access_count a =? MemoryEntry.access_count b)
      && float_lt (MemoryEntry.last_accessed a) (MemoryEntry.last_accessed b)).

(** [await store.search(query, memory_type, tags, limit)]; [limit]
    defaults to [10]. *)
Definition search (query : string) (memory_type : option MemoryType.t)
    (tags : option (list string)) (limit : Z)
  : M World (list MemoryEntry.t) :=
  s <- self (fun s => s) ;;
  results <- scan query (set_iter (candidates s memory_type tags)) ;;
  ret (slice_to limit
         (list_sort (fun a b => relevance_lt b a) results)).

End Iteration.

End InMemoryStore.

(* ===================================================================== *)
(** * memory.py: AgentMemory *)
(* ===================================================================== *)

Module AgentMemory.

(** Instance attributes. [store] is an [InMemoryStore], the one the
    constructor makes when none is given. *)
Record t : Type := {
  agent_id : string;
  store : InMemoryStore.t;
  max_size : Z;                         (* 1000 *)
  working_memory : dict;
  current_context : dict;
  context_stack : list dict;
  success_patterns : list dict;
  failure_patterns : list dict;
}.

Record World : Type := {
  env : Env;
  this : t;
}.

(** [AgentMemory(agent_id, store, max_size)]. *)
Definition __init__ (agent_id : string) (store : option InMemoryStore.t)
    (max_size : Z) : t :=
  {| agent_id := agent_id;
     store := default InMemoryStore.__init__ store;
     max_size := max_size;
     working_memory := ∅;
     current_context := ∅;
     context_stack := [];
     success_patterns := [];
     failure_patterns := [] |}.

(** ** Attribute assignment *)

Definition set_store (s : InMemoryStore.t) (m : t) : t :=
  {| agent_id := agent_id m; store := s; max_size := max_size m;
     working_memory := working_memory m;
     current_context := current_context m;
     context_stack := context_stack m;
     success_patterns := success_patterns m;
     failure_patterns := failure_patterns m |}.

Definition set_contexts (current : dict) (stack : list dict) (m : t) : t :=
  {| agent_id := agent_id m; store := store m; max_size := max_size m;
     working_memory := working_memory m;
     current_context := current;
     context_stack := stack;
     success_patterns := success_patterns m;
     failure_patterns := failure_patterns m |}.

Definition set_patterns (successes failures : list dict) (m : t) : t :=
  {| agent_id := agent_id m; store := store m; max_size := max_size m;
     working_memory := working_memory m;
     current_context := current_context m;
     context_stack := context_stack m;
     success_patterns := successes;
     failure_patterns := failures |}.

Definition in_env {A} (m : M Env A) : M World A :=
  zoom env (fun e w => {| env := e; this := this w |}) m.

Definition self {A} (f : t -> A) : M World A := gets (fun w => f (this w)).

Definition assign (f : t -> t) : M World unit :=
  modify (fun w => {| env := env w; this := f (this w) |}).

(** Run a coroutine of [self.store]. *)
Definition in_store {A} (m : M InMemoryStore.World A) : M World A :=
  zoom
    (fun w => {| InMemoryStore.env := env w;
                 InMemoryStore.this := store (this w) |})
    (fun sw w => {| env := InMemoryStore.env sw;
                    this := set_store (InMemoryStore.this sw) (this w) |})
    m.

(** ** Context *)

(** [memory.set_context(context)]. The copies are shallow; the values
    held are immutable here. *)
Definition set_context (context : dict) : M World unit :=
  assign (fun m => set_contexts context (context_stack m) m).

(** [memory.push_context(context)]. *)
Definition push_context (context : dict) : M World unit :=
  assign (fun m =>
            set_contexts context (context_stack m ++ [current_context m]) m).

(** [memory.pop_context()]. *)
Definition pop_context : M World (option dict) :=
  stack <- self context_stack ;;
  match stack with
  | [] => ret None
  | _ =>
      old_context <- self current_context ;;
      assign (fun m =>
                set_contexts (List.last stack ∅) (removelast stack) m) ;;
      ret (Some old_context)
  end.

Section Builtins.

(** The iteration order of [self.store.memories] (see
    [InMemoryStore]) and [hashlib.md5(str(content).encode()).hexdigest()]. *)
Variable dict_keys : gmap string MemoryEntry.t -> list string.
Variable content_hash : PyVal -> string.

(** ** Size limit *)

(** The sort key [(e.priority.value, e.access_count, e.last_accessed)],
    compared as tuples. *)
Definition eviction_lt (a b : MemoryEntry.t) : bool :=
  let pa := MemoryPriority.value (MemoryEntry.priority a) in
  let pb := MemoryPriority.value (MemoryEntry.priority b) in
  (pa <? pb)
  || ((pa =? pb)
      && ((MemoryEntry.access_count a <? MemoryEntry.access_count b)
          || ((MemoryEntry.access_count a =? MemoryEntry.access_count b)
              && float_lt (MemoryEntry.last_accessed a)
                   (MemoryEntry.last_accessed b)))).

(** [await self._enforce_size_limit()]. [entries[i]] past the end of
    the list raises [IndexError], written here as a plain exception. *)
Definition _enforce_size_limit : M World unit :=
  known <- self (fun m => InMemoryStore.memories (store m)) ;;
  let total_memories := Z.of_nat (size known) in
  limit <- self max_size ;;
  if total_memories >? limit
  then
    let entries :=
      list_sort eviction_lt (omap (fun k => known !! k) (dict_keys known)) in
    let to_remove := total_memories - limit in
    for_each (seq 0 (Z.to_nat to_remove))
      (fun i =>
         match entries !! i with
         | Some entry =>
             _ <- in_store (InMemoryStore.delete (MemoryEntry.id entry)) ;;
             ret tt
         | None => raise (Exception "list index out of range")
         end)
  else ret tt.

(** ** Remembering and recalling *)

(** [await memory.remember(content, memory_type, priority, tags,
    expires_in)]. The clock is read for the id, for the expiry time if
    [expires_in] is given and not zero, and for the creation and access
    times. *)
Definition remember (content : PyVal) (memory_type : MemoryType.t)
    (priority : MemoryPriority.t) (tags : option (list string))
    (expires_in : option float) : M World string :=
  aid <- self agent_id ;;
  stamp <- in_env time_time ;;
  let memory_id :=
    aid +:+ "_" +:+ MemoryType.value memory_type +:+ "_"
    +:+ content_hash content +:+ "_" +:+ str_of_int (int_of_float stamp) in
  expires_at <-
    match expires_in with
    | Some seconds =>
        if truthy_float seconds
        then now <- in_env time_time ;; ret (Some (now + seconds)%Q)
        else ret None
    | None => ret None
    end ;;
  created <- in_env time_time ;;
  accessed <- in_env time_time ;;
  entry <-
    in_env (MemoryEntry.__init__
              {| MemoryEntry.kw_id := memory_id;
                 MemoryEntry.kw_content := content;
                 MemoryEntry.kw_memory_type := memory_type;
                 MemoryEntry.kw_priority := priority;
                 MemoryEntry.kw_created_at := Some created;
                 MemoryEntry.kw_last_accessed := Some accessed;
                 MemoryEntry.kw_access_count := 0;
                 MemoryEntry.kw_tags := default [] tags;
                 MemoryEntry.kw_metadata := ∅;
                 MemoryEntry.kw_expires_at := expires_at |}) ;;
  success <- in_store (InMemoryStore.store entry) ;;
  (if success then _enforce_size_limit else ret tt) ;;
  ret memory_id.

(** [await memory.recall(memory_id)]. *)
Definition recall (memory_id : string) : M World (option PyVal) :=
  entry <- in_store (InMemoryStore.retrieve memory_id) ;;
  ret (option_map MemoryEntry.content entry).

(** [await memory.remember_conversation(message_id, content, role,
    context)]. *)
Definition remember_conversation (message_id content role : string)
    (context : option dict) : M World unit :=
  now <- in_env time_time ;;
  let conversation_data :=
    VDict (<["message_id" := VStr message_id]>
          (<["content" := VStr content]>
          (<["role" := VStr role]>
          (<["context" := VDict (default ∅ context)]>
          (<["timestamp" := VFloat now]> ∅))))) in
  _ <- remember conversation_data MemoryType.CONVERSATION
         MemoryPriority.MEDIUM (Some ["conversation"; role]) None ;;
  ret tt.

(** [patterns.append(pattern)], then [patterns.pop(0)] if more than a
    hundred are held. *)
Definition keep_last_hundred (pattern : dict) (patterns : list dict)
  : list dict :=
  let patterns' := patterns ++ [pattern] in
  if Z.of_nat (length patterns') >? 100 then tail patterns' else patterns'.

(** [await memory.remember_task_outcome(task_id, outcome, success,
    details)]. *)
Definition remember_task_outcome (task_id outcome : string) (success : bool)
    (details : option dict) : M World unit :=
  now <- in_env time_time ;;
  let task_data :=
    VDict (<["task_id" := VStr task_id]>
          (<["outcome" := VStr outcome]>
          (<["success" := VBool success]>
          (<["details" := VDict (default ∅ details)]>
          (<["timestamp" := VFloat now]> ∅))))) in
  let priority :=
    if success then MemoryPriority.HIGH else MemoryPriority.CRITICAL in
  let tags := ["task"; if success then "success" else "failure"] in
  _ <- remember task_data MemoryType.TASK priority (Some tags) None ;;
  context <- self current_context ;;
  stamp <- in_env time_time ;;
  let pattern : dict :=
    <["context" := VDict context]>
    (<["outcome" := VStr outcome]>
    (<["success" := VBool success]>
    (<["timestamp" := VFloat stamp]> ∅))) in
  assign (fun m =>
            if success
            then set_patterns (keep_last_hundred pattern (success_patterns m))
                   (failure_patterns m) m
            else set_patterns (success_patterns m)
                   (keep_last_hundred pattern (failure_patterns m)) m).

(** [await memory.cleanup()]. *)
Definition cleanup : M World unit :=
  _ <- in_store (InMemoryStore.cleanup_expired dict_keys) ;;
  _enforce_size_limit.

End Builtins.

End AgentMemory.

(* ===================================================================== *)
(** * Vocabulary of the statements *)
(* ===================================================================== *)

Section Preservation.

Context {S : Type}.

(** A relation between the state before and after holds of every run
    of a computation, whether it returns or raises. *)
Definition preserves (I : S -> S -> Prop) {A} (m : M S A) : Prop :=
  forall s r s', m s = (r, s') -> I s s'.

End Preservation.

Section HubVocabulary.

Context {Ext : Type}.

(** The message as its conversation thread claims it in
    [_track_conversation]: the same message with the id of the thread
    stored under its conversation id, a thread that is created under
    that id if there is none (and under a fresh uuid if the
    conversation id is empty). *)
Definition claimed (message : Message.t) (w : CommunicationHub.World Ext)
  : Message.t :=
  let conversation_id :=
    if String.eqb (Message.conversation_id message) ""
    then uuid_src (CommunicationHub.env w) (draws (CommunicationHub.env w))
    else Message.conversation_id message in
  Message.set_conversation_id
    match CommunicationHub.conversations (CommunicationHub.hub w)
          !! conversation_id with
    | Some th => ConversationThread.id th
    | None => conversation_id
    end message.

(** Every thread of the hub is stored under its own id. *)
Definition threads_keyed (w : CommunicationHub.World Ext) : Prop :=
  forall k th,
    CommunicationHub.conversations (CommunicationHub.hub w) !! k = Some th ->
    ConversationThread.id th = k.

(** The routing tables, the running flag and the health of the queue
    are the same in both worlds. *)
Definition kept (w w' : CommunicationHub.World Ext) : Prop :=
  CommunicationHub.subscribers (CommunicationHub.hub w') =
    CommunicationHub.subscribers (CommunicationHub.hub w) /\
  CommunicationHub.broadcast_subscribers (CommunicationHub.hub w') =
    CommunicationHub.broadcast_subscribers (CommunicationHub.hub w) /\
  CommunicationHub.is_running (CommunicationHub.hub w') =
    CommunicationHub.is_running (CommunicationHub.hub w) /\
  CommunicationHub.put_error
    (CommunicationHub.message_queue (CommunicationHub.hub w')) =
    CommunicationHub.put_error
      (CommunicationHub.message_queue (CommunicationHub.hub w)).

(** The delivered count is the same in both worlds, and so is the
    failed count if the queue accepts items. *)
Definition counted (w w' : CommunicationHub.World Ext) : Prop :=
  CommunicationHub.total_delivered
    (CommunicationHub.delivery_stats (CommunicationHub.hub w')) =
    CommunicationHub.total_delivered
      (CommunicationHub.delivery_stats (CommunicationHub.hub w)) /\
  (CommunicationHub.put_error
     (CommunicationHub.message_queue (CommunicationHub.hub w)) = None ->
   CommunicationHub.total_failed
     (CommunicationHub.delivery_stats (CommunicationHub.hub w')) =
     CommunicationHub.total_failed
       (CommunicationHub.delivery_stats (CommunicationHub.hub w))).

(** The observer list of the first world is an initial segment of the
    observer list of the second. *)
Definition observers_grow (w w' : CommunicationHub.World Ext) : Prop :=
  CommunicationHub.broadcast_subscribers (CommunicationHub.hub w)
    `prefix_of`
  CommunicationHub.broadcast_subscribers (CommunicationHub.hub w').

(** [await hub.send_message(m)] for each message of a list, in order. *)
Definition send_all (l : list Message.t)
  : M (CommunicationHub.World Ext) unit :=
  for_each l (fun m => _ <- CommunicationHub.send_message m ;; ret tt).

(** A callback that sends nothing and does not raise. *)
Definition quiet (cb : CommunicationHub.Callable Ext) : Prop :=
  exists name run,
    cb = CommunicationHub.External name run /\
    forall m x,
      fst (run m x) =
        {| CommunicationHub.posts := []; CommunicationHub.raises := None |}.

(** Two messages with the same id, priority and recipient. *)
Definition same_routing (m m' : Message.t) : Prop :=
  Message.id m' = Message.id m /\
  Message.priority m' = Message.priority m /\
  Message.recipient m' = Message.recipient m.

(** The recipient of every message of [l] has a quiet handler. *)
Definition staffed_by_quiet (w : CommunicationHub.World Ext)
    (l : list Message.t) : Prop :=
  forall m, In m l ->
    exists cb,
      CommunicationHub.dict_get (Message.recipient m)
        (CommunicationHub.subscribers (CommunicationHub.hub w)) = Some cb /\
      quiet cb.

(** The observer list is the same in both worlds. *)
Definition observers_same (w w' : CommunicationHub.World Ext) : Prop :=
  CommunicationHub.broadcast_subscribers (CommunicationHub.hub w') =
  CommunicationHub.broadcast_subscribers (CommunicationHub.hub w).

(** What awaiting the observers in turn on [message] does outside the
    hub: the messages they pass to [send_message], in order, and the
    state of the surrounding program after their reactions. A response
    handler sends nothing and leaves that state alone. *)
Fixpoint observers_effect (observers : list (CommunicationHub.Callable Ext))
    (message : Message.t) (x : Ext) : list Message.t * Ext :=
  match observers with
  | [] => ([], x)
  | CommunicationHub.External _ run :: rest =>
      let '(r, x') := run message x in
      let '(posted, x'') := observers_effect rest message x' in
      (CommunicationHub.posts r ++ posted, x'')
  | CommunicationHub.ResponseHandler _ _ _ :: rest => observers_effect rest message x
  end.

(** [m'] is [m] as the hub files and queues it: the same message but
    for the conversation id, which [_track_conversation] sets. *)
Definition filed_as (m m' : Message.t) : Prop :=
  m' = Message.set_conversation_id (Message.conversation_id m') m.

(** The item under which a message lies in the queue. *)
Definition queue_item (m : Message.t) : Z * Message.t :=
  (MessagePriority.value (Message.priority m), m).

End HubVocabulary.

Section AgentVocabulary.

Import BaseAgent.

Context {Sub Ext : Type}.

(** The hook that [_handle_message] runs on a message: the handler
    registered for its type, or else [handle_message]. *)
Definition applicable (handle_message : Hook Sub) (message : Message.t)
    (a : t Sub) : Hook Sub :=
  match handler_for (Message.message_type message) (message_handlers a) with
  | Some h => h
  | None => handle_message
  end.

(** The world after [_change_state s]. *)
Definition changed (s : AgentState.t) (w : World Sub Ext) : World Sub Ext :=
  if AgentState.eqb (state (agent w)) s then w
  else {| agent := set_state s (agent w); hubw := hubw w;
          trace := trace w ++ [Transition (state (agent w)) s] |}.

(** The world after [_handle_error e]. *)
Definition errored (e : Exn) (w : World Sub Ext) : World Sub Ext :=
  let w1 :=
    changed AgentState.ERROR
      (set_agent (set_error (Some e) (error_count (agent w) + 1) (agent w)) w) in
  if error_count (agent w1) <=? AgentConfig.retry_count (config (agent w1))
  then
    changed AgentState.IDLE
      {| agent := agent w1; hubw := hubw w1;
         trace := trace w1 ++ [Sleep (1 * float_of_int (error_count (agent w1)))%Q] |}
  else w1.

(** The world after the opening of [_handle_message]: clock read,
    received count, history appended and trimmed. *)
Definition received (message : Message.t) (w : World Sub Ext)
  : World Sub Ext :=
  let now :=
    time_src (CommunicationHub.env (hubw w))
      (ticks (CommunicationHub.env (hubw w))) in
  let history := conversation_history (agent w) ++ [message] in
  let limit := AgentConfig.max_memory_size (config (agent w)) in
  {| agent :=
       set_conversation_history
         (if Z.of_nat (length history) >? limit
          then slice_last limit history else history)
         (set_metrics (AgentMetrics.received now (metrics (agent w)))
            (agent w));
     hubw :=
       CommunicationHub.set_env
         {| time_src := time_src (CommunicationHub.env (hubw w));
            ticks := S (ticks (CommunicationHub.env (hubw w)));
            uuid_src := uuid_src (CommunicationHub.env (hubw w));
            draws := draws (CommunicationHub.env (hubw w)) |}
         (hubw w);
     trace := trace w |}.

(** The state restored by the [finally] clause. *)
Definition target_state (previous_state : AgentState.t) : AgentState.t :=
  if AgentState.eqb previous_state AgentState.PROCESSING
  then AgentState.IDLE else previous_state.

(** The world after the hook has raised [e], leaving the subclass
    attributes [x], and the [except] clause has counted the failure and
    handled the error. *)
Definition caught (message : Message.t) (e : Exn) (x : Sub)
    (w : World Sub Ext) : World Sub Ext :=
  let w3 := changed AgentState.PROCESSING (received message w) in
  errored e
    (set_agent
       (set_metrics (AgentMetrics.failed (metrics (agent w3)))
          (set_sub x (agent w3))) w3).

End AgentVocabulary.

Section StoreVocabulary.

(** The entry after [access()] at clock reading [now]. *)
Definition accessed (now : float) (entry : MemoryEntry.t) : MemoryEntry.t :=
  {| MemoryEntry.id := MemoryEntry.id entry;
     MemoryEntry.content := MemoryEntry.content entry;
     MemoryEntry.memory_type := MemoryEntry.memory_type entry;
     MemoryEntry.priority := MemoryEntry.priority entry;
     MemoryEntry.created_at := MemoryEntry.created_at entry;
     MemoryEntry.last_accessed := now;
     MemoryEntry.access_count := MemoryEntry.access_count entry + 1;
     MemoryEntry.tags := MemoryEntry.tags entry;
     MemoryEntry.metadata := MemoryEntry.metadata entry;
     MemoryEntry.expires_at := MemoryEntry.expires_at entry |}.

(** [is_expired()] at clock reading [now]. *)
Definition expired_at (now : float) (entry : MemoryEntry.t) : bool :=
  match MemoryEntry.expires_at entry with
  | None => false
  | Some deadline => float_gt now deadline
  end.

(** No list of a tag index holds an id twice. *)
Definition lists_nodup (ix : gmap string (list string)) : Prop :=
  forall tag l, ix !! tag = Some l -> NoDup l.

(** The list of [tag], if the index has one, does not hold the id. *)
Definition absent_from (memory_id tag : string)
    (ix : gmap string (list string)) : Prop :=
  forall l, ix !! tag = Some l -> ~ In memory_id l.

(** The indexes agree with the main map: an id listed under a type or
    a tag is the id of a stored entry of that type, or carrying that
    tag. *)
Definition indexes_consistent (s : InMemoryStore.t) : Prop :=
  (forall k i,
      In i (InMemoryStore.type_index s k) ->
      exists entry,
        InMemoryStore.memories s !! i = Some entry /\
        MemoryEntry.memory_type entry = k) /\
  (forall tag l i,
      InMemoryStore.tag_index s !! tag = Some l ->
      In i l ->
      exists entry,
        InMemoryStore.memories s !! i = Some entry /\
        In tag (MemoryEntry.tags entry)).

End StoreVocabulary.

(** ** Further vocabulary: serialisation, queries and the books of the hub *)

(** The entries that [Message.from_dict] stores as they are have the
    types of the fields they go to: the id and the conversation id are
    strings or null, the content is a string, the timestamp is a float
    or null and [requires_response] is a boolean. A key that is absent
    has no entry to check. *)
Definition annotated (data : dict) : bool :=
  match data !! "id" with
  | Some (VStr _) | Some VNone | None => true
  | _ => false
  end
  && match data !! "content" with
     | Some (VStr _) | None => true
     | _ => false
     end
  && match data !! "timestamp" with
     | Some (VFloat _) | Some VNone | None => true
     | _ => false
     end
  && match data !! "requires_response" with
     | Some (VBool _) | None => true
     | _ => false
     end
  && match data !! "conversation_id" with
     | Some (VStr _) | Some VNone | None => true
     | _ => false
     end.

(** The keys that [Message.from_dict] reads with [data[key]], in the
    order in which it reads them. *)
Definition required_keys : list string :=
  ["id"; "sender"; "recipient"; "message_type"; "content"; "priority";
   "timestamp"].

(** The message is between the two agents, in either direction. *)
Definition between (agent1 agent2 : AgentRole.t) (m : Message.t) : Prop :=
  (Message.sender m = agent1 /\ Message.recipient m = agent2) \/
  (Message.sender m = agent2 /\ Message.recipient m = agent1).

Section HubBooks.

Context {Ext : Type}.

(** The books of the hub agree, with [k] messages taken from the queue
    and not yet counted off: the sent count is the length of the
    history, the unfinished count is the length of the queue plus [k],
    and the queue holds the most recent messages of the history, in
    order. *)
Definition accounted_with (k : Z) (w : CommunicationHub.World Ext) : Prop :=
  let h := CommunicationHub.hub w in
  let q := CommunicationHub.message_queue h in
  CommunicationHub.total_sent (CommunicationHub.delivery_stats h) =
    Z.of_nat (length (CommunicationHub.message_history h)) /\
  CommunicationHub.unfinished_tasks q =
    Z.of_nat (length (CommunicationHub.items q)) + k /\
  map snd (CommunicationHub.items q)
    `suffix_of` CommunicationHub.message_history h.

Definition accounted (w : CommunicationHub.World Ext) : Prop :=
  accounted_with 0 w.

(** Every message of the history lies in the thread stored under its
    conversation id, and every thread is stored under its own id and
    holds only messages that carry it. *)
Definition filed (w : CommunicationHub.World Ext) : Prop :=
  let h := CommunicationHub.hub w in
  threads_keyed w /\
  (forall k th m,
      CommunicationHub.conversations h !! k = Some th ->
      In m (ConversationThread.messages th) ->
      Message.conversation_id m = k) /\
  (forall m,
      In m (CommunicationHub.message_history h) ->
      exists th,
        CommunicationHub.conversations h !! Message.conversation_id m
          = Some th /\
        In m (ConversationThread.messages th)).

(** Nothing recorded in the first world is lost or changed in the
    second: the history has only grown at its end, and every thread is
    still there with the same participants, creation time and status and
    with its messages an initial segment of what it holds now. *)
Definition records_grow (w w' : CommunicationHub.World Ext) : Prop :=
  CommunicationHub.message_history (CommunicationHub.hub w)
    `prefix_of`
  CommunicationHub.message_history (CommunicationHub.hub w') /\
  forall k th,
    CommunicationHub.conversations (CommunicationHub.hub w) !! k = Some th ->
    exists th',
      CommunicationHub.conversations (CommunicationHub.hub w') !! k
        = Some th' /\
      ConversationThread.id th' = ConversationThread.id th /\
      ConversationThread.participants th' =
        ConversationThread.participants th /\
      ConversationThread.created_at th' = ConversationThread.created_at th /\
      ConversationThread.status th' = ConversationThread.status th /\
      ConversationThread.messages th
        `prefix_of` ConversationThread.messages th'.

(** A new hub in a given environment. *)
Definition new_hub (e : Env) (x : Ext) : CommunicationHub.World Ext :=
  {| CommunicationHub.env := e;
     CommunicationHub.hub := CommunicationHub.__init__;
     CommunicationHub.ext := x;
     CommunicationHub.futures := [];
     CommunicationHub.calls := [] |}.

(** The key under which [send_message] files a message: its
    conversation id, or a new uuid when it has none. *)
Definition filing_key (message : Message.t) (w : CommunicationHub.World Ext)
  : string :=
  if String.eqb (Message.conversation_id message) ""
  then uuid_src (CommunicationHub.env w) (draws (CommunicationHub.env w))
  else Message.conversation_id message.

(** The thread a message joins: the one under its key, or a new one. *)
Definition filing_thread (message : Message.t)
    (w : CommunicationHub.World Ext) : ConversationThread.t :=
  match CommunicationHub.conversations (CommunicationHub.hub w)
          !! filing_key message w with
  | Some th => th
  | None =>
      {| ConversationThread.id := filing_key message w;
         ConversationThread.participants :=
           [Message.sender message; Message.recipient message];
         ConversationThread.messages := [];
         ConversationThread.created_at := Message.timestamp message;
         ConversationThread.status := "active" |}
  end.

(** The relation "if the first world is filed, so is the second". *)
Definition keeps_filed (w w' : CommunicationHub.World Ext) : Prop :=
  filed w -> filed w'.

(** The relation "if the books of the first world agree with [k]
    messages taken, so do those of the second". *)
Definition keeps_accounted (k : Z) (w w' : CommunicationHub.World Ext)
  : Prop :=
  accounted_with k w -> accounted_with k w'.

End HubBooks.

Section DispatchVocabulary.

Context {Ext : Type}.


(** A notice as [broadcast_message] and [start_negotiation] build it:
    from [sender] to [recipient], of the given kind and content, with
    the given metadata, of medium priority and requiring no response. *)
Definition notice (sender recipient : AgentRole.t) (kind : MessageType.t)
    (content : string) (metadata : dict) (m : Message.t) : Prop :=
  Message.sender m = sender /\
  Message.recipient m = recipient /\
  Message.message_type m = kind /\
  Message.content m = content /\
  Message.metadata m = Some metadata /\
  Message.priority m = MessagePriority.MEDIUM /\
  Message.requires_response m = false.

End DispatchVocabulary.

(** ** Further vocabulary: the run of an agent *)

Section AgentRunVocabulary.

Import BaseAgent.

Context {Sub Ext : Type}.

(** The world when the hook is about to run: the message received, the
    agent processing. *)
Definition processing (message : Message.t) (w : World Sub Ext)
  : World Sub Ext :=
  changed AgentState.PROCESSING (received message w).

(** The conversation history after a message has been appended and the
    list trimmed to [limit]. *)
Definition trimmed (limit : Z) (history : list Message.t) (message : Message.t)
  : list Message.t :=
  if Z.of_nat (length (history ++ [message])) >? limit
  then slice_last limit (history ++ [message])
  else history ++ [message].

(** The conversation history is the same in both worlds. *)
Definition history_same (w w' : World Sub Ext) : Prop :=
  conversation_history (agent w') = conversation_history (agent w).

End AgentRunVocabulary.

(** ** Further vocabulary: the memory store and the memory of an agent *)

Section StoreShapeVocabulary.

(** Every entry is stored under its own id. *)
Definition keys_are_ids (s : InMemoryStore.t) : Prop :=
  forall i entry,
    InMemoryStore.memories s !! i = Some entry -> MemoryEntry.id entry = i.

(** Every stored entry is listed under its type and under each of its
    tags. *)
Definition indexes_complete (s : InMemoryStore.t) : Prop :=
  forall i entry,
    InMemoryStore.memories s !! i = Some entry ->
    In i (InMemoryStore.type_index s (MemoryEntry.memory_type entry)) /\
    forall tag,
      In tag (MemoryEntry.tags entry) ->
      exists l, InMemoryStore.tag_index s !! tag = Some l /\ In i l.

(** The store as its own operations build it. *)
Definition well_formed (s : InMemoryStore.t) : Prop :=
  InMemoryStore.no_duplicates s /\ keys_are_ids s /\ indexes_complete s.

(** The id is listed under the tag. *)
Definition listed (i tag : string) (ix : gmap string (list string)) : Prop :=
  exists l, ix !! tag = Some l /\ In i l.

End StoreShapeVocabulary.

(** The entry with the four optional attributes at their defaults. *)
Definition without_optionals (entry : MemoryEntry.t) : MemoryEntry.t :=
  {| MemoryEntry.id := MemoryEntry.id entry;
     MemoryEntry.content := MemoryEntry.content entry;
     MemoryEntry.memory_type := MemoryEntry.memory_type entry;
     MemoryEntry.priority := MemoryEntry.priority entry;
     MemoryEntry.created_at := MemoryEntry.created_at entry;
     MemoryEntry.last_accessed := MemoryEntry.last_accessed entry;
     MemoryEntry.access_count := 0;
     MemoryEntry.tags := [];
     MemoryEntry.metadata := ∅;
     MemoryEntry.expires_at := None |}.

Section IterationVocabulary.

(** [dict_keys] lists the keys of every mapping, each once. *)
Definition lists_keys
    (dict_keys : gmap string MemoryEntry.t -> list string) : Prop :=
  forall m,
    NoDup (dict_keys m) /\ forall i, In i (dict_keys m) <-> is_Some (m !! i).

(** [set_iter] lists the elements of every set, each once. *)
Definition lists_elements (set_iter : gset string -> list string) : Prop :=
  forall X, NoDup (set_iter X) /\ forall i, In i (set_iter X) <-> i ∈ X.

(** The mapping without the keys of [l]. *)
Definition without (l : list string) (m : gmap string MemoryEntry.t)
  : gmap string MemoryEntry.t :=
  fold_left (fun m i => base.delete i m) l m.

End IterationVocabulary.

Section SearchVocabulary.

(** The id passes the filters of [search]: it is stored, it is listed
    under the type if one is given, and it is listed under one of the
    tags if a list of tags that is not empty is given. *)
Definition passes (s : InMemoryStore.t) (memory_type : option MemoryType.t)
    (tags : option (list string)) (i : string) : Prop :=
  is_Some (InMemoryStore.memories s !! i) /\
  (forall k, memory_type = Some k -> In i (InMemoryStore.type_index s k)) /\
  (forall tag rest,
      tags = Some (tag :: rest) ->
      exists tg, In tg (tag :: rest) /\ listed i tg (InMemoryStore.tag_index s)).

(** The text test [query.lower() in str(content).lower()]. *)
Variable contains_lower : string -> PyVal -> bool.

(** What the loop of [search] says of one result: it is the entry
    stored under [i], found not expired at one clock reading and marked
    as accessed at that or a later one, and its content passes the text
    test. *)
Definition scanned (query : string) (w w' : InMemoryStore.World)
    (i : string) (found : MemoryEntry.t) : Prop :=
  exists entry tested touched,
    InMemoryStore.memories (InMemoryStore.this w) !! i = Some entry /\
    found = accessed (time_src (InMemoryStore.env w) touched) entry /\
    InMemoryStore.memories (InMemoryStore.this w') !! i = Some found /\
    (ticks (InMemoryStore.env w) <= tested <= touched)%nat /\
    (touched <= ticks (InMemoryStore.env w'))%nat /\
    expired_at (time_src (InMemoryStore.env w) tested) entry = false /\
    contains_lower query (MemoryEntry.content entry) = true.

(** Why an entry is not among the results: its content fails the text
    test, or it said it was expired at some clock reading of the
    call. *)
Definition skipped (query : string) (w w' : InMemoryStore.World)
    (entry : MemoryEntry.t) : Prop :=
  contains_lower query (MemoryEntry.content entry) = false \/
  exists t,
    (ticks (InMemoryStore.env w) <= t <= ticks (InMemoryStore.env w'))%nat /\
    expired_at (time_src (InMemoryStore.env w) t) entry = true.

End SearchVocabulary.

Section MemoryVocabulary.

(** Nothing but the store of the memory differs. *)
Definition same_but_store (m m' : AgentMemory.t) : Prop :=
  m' = AgentMemory.set_store (AgentMemory.store m') m.

(** [a] sorts no later than [b] under the eviction key
    [(priority.value, access_count, last_accessed)]. *)
Definition evicted_first (a b : MemoryEntry.t) : Prop :=
  AgentMemory.eviction_lt b a = false.

End MemoryVocabulary.


(* ===================================================================== *)
(** * Sample data *)
(* ===================================================================== *)

Module Sample.

(** An environment whose clock reads 0, 1, 2, ... and whose uuids are
    "uuid-0", "uuid-1", ... *)
Definition env : Env :=
  {| time_src := fun n => inject_Z (Z.of_nat n);
     ticks := 0;
     uuid_src := fun n => "uuid-" +:+ NilEmpty.string_of_uint (Nat.to_uint n);
     draws := 0 |}.

(** The message of [test_message_serialization], with a timestamp. *)
Definition serial_test : Message.t :=
  {| Message.sender := AgentRole.TESTER;
     Message.recipient := AgentRole.DEVELOPER;
     Message.message_type := MessageType.ERROR_REPORT;
     Message.content := "Serialization test";
     Message.id := "serial-test";
     Message.priority := MessagePriority.HIGH;
     Message.timestamp := 123456%Q;
     Message.metadata := Some (<["test_key" := VStr "test_value"]> ∅);
     Message.requires_response := false;
     Message.conversation_id := "conv-serial" |}.

(** The message with an explicitly empty id of
    [test_message_auto_fields], after construction. *)
Definition empty_id : Message.t :=
  {| Message.sender := AgentRole.DEVELOPER;
     Message.recipient := AgentRole.REVIEWER;
     Message.message_type := MessageType.STATUS_UPDATE;
     Message.content := "Empty ID test";
     Message.id := "";
     Message.priority := MessagePriority.MEDIUM;
     Message.timestamp := 2%Q;
     Message.metadata := Some ∅;
     Message.requires_response := false;
     Message.conversation_id := "uuid-0" |}.

(** A status update from the developer to the tester, as in
    [test_get_context]. *)
Definition status (i : string) (p : MessagePriority.t) : Message.t :=
  {| Message.sender := AgentRole.DEVELOPER;
     Message.recipient := AgentRole.TESTER;
     Message.message_type := MessageType.STATUS_UPDATE;
     Message.content := "Message " +:+ i;
     Message.id := "msg-" +:+ i;
     Message.priority := p;
     Message.timestamp := 1%Q;
     Message.metadata := Some ∅;
     Message.requires_response := false;
     Message.conversation_id := "conv-3" |}.

(** A thread holding the given messages. *)
Definition thread (l : list Message.t) : ConversationThread.t :=
  {| ConversationThread.id := "conv-3";
     ConversationThread.participants :=
       [AgentRole.DEVELOPER; AgentRole.TESTER];
     ConversationThread.messages := l;
     ConversationThread.created_at := 1%Q;
     ConversationThread.status := "active" |}.

(** A task request from the product manager to the developer. *)
Definition task (i : string) (needs_reply : bool) : Message.t :=
  {| Message.sender := AgentRole.PRODUCT_MANAGER;
     Message.recipient := AgentRole.DEVELOPER;
     Message.message_type := MessageType.TASK_REQUEST;
     Message.content := "This will cause an error";
     Message.id := i;
     Message.priority := MessagePriority.MEDIUM;
     Message.timestamp := 1%Q;
     Message.metadata := Some ∅;
     Message.requires_response := needs_reply;
     Message.conversation_id := "conv-task" |}.

(** A coroutine that takes note of the message and does nothing else. *)
Definition monitor : CommunicationHub.Callable unit :=
  CommunicationHub.External 0
    (fun _ x =>
       ({| CommunicationHub.posts := []; CommunicationHub.raises := None |},
        x)).

Definition recorder : CommunicationHub.Callable unit :=
  CommunicationHub.External 1
    (fun _ x =>
       ({| CommunicationHub.posts := []; CommunicationHub.raises := None |},
        x)).

(** The developer of [demo_communication_hub]: it answers a message that
    requires a response with a task response referring to it. *)
Definition responder : CommunicationHub.Callable unit :=
  CommunicationHub.External 2
    (fun m x =>
       ({| CommunicationHub.posts :=
             if Message.requires_response m
             then
               [{| Message.sender := AgentRole.DEVELOPER;
                   Message.recipient := Message.sender m;
                   Message.message_type := MessageType.TASK_RESPONSE;
                   Message.content :=
                     "Developer will implement: " +:+ Message.content m;
                   Message.id := "reply-to-" +:+ Message.id m;
                   Message.priority := MessagePriority.MEDIUM;
                   Message.timestamp := 2%Q;
                   Message.metadata :=
                     Some (<["response_to" := VStr (Message.id m)]> ∅);
                   Message.requires_response := false;
                   Message.conversation_id := "conv-reply" |}]
             else [];
           CommunicationHub.raises := None |},
        x)).

(** A new hub in the sample environment. *)
Definition fresh : CommunicationHub.World unit :=
  {| CommunicationHub.env := env;
     CommunicationHub.hub := CommunicationHub.__init__;
     CommunicationHub.ext := tt;
     CommunicationHub.futures := [];
     CommunicationHub.calls := [] |}.

(** Four messages with priorities low, urgent, medium, urgent. *)
Definition burst : list Message.t :=
  [status "1" MessagePriority.LOW; status "2" MessagePriority.URGENT;
   status "3" MessagePriority.MEDIUM; status "4" MessagePriority.URGENT].

(** The hub is started, the tester subscribes, the four messages are
    sent, and the dispatch loop takes four turns. *)
Definition priority_run : M (CommunicationHub.World unit) unit :=
  CommunicationHub.start ;;
  CommunicationHub.subscribe AgentRole.TESTER recorder ;;
  send_all burst ;;
  CommunicationHub._process_messages 4.

(** A running hub with one observer, no handler, and one task for the
    developer in the queue. *)
Definition observed : CommunicationHub.World unit :=
  snd ((CommunicationHub.start ;;
        CommunicationHub.subscribe_to_all monitor ;;
        send_all [task "t-1" false]) fresh).

(** An observer that notes the id of each message it sees, and one
    that notes it, passes a status update on to the tester and then
    fails. *)
Definition scribe : CommunicationHub.Callable (list string) :=
  CommunicationHub.External 3
    (fun m x =>
       ({| CommunicationHub.posts := []; CommunicationHub.raises := None |},
        x ++ [Message.id m])).

Definition relay : CommunicationHub.Callable (list string) :=
  CommunicationHub.External 4
    (fun m x =>
       ({| CommunicationHub.posts := [status "1" MessagePriority.LOW];
           CommunicationHub.raises := Some (Exception "relay failed") |},
        x ++ ["relayed " +:+ Message.id m])).

(** A running hub watched by both, the failing one first, with no
    handler and one task for the developer in the queue. *)
Definition watched : CommunicationHub.World (list string) :=
  snd ((CommunicationHub.start ;;
        CommunicationHub.subscribe_to_all relay ;;
        CommunicationHub.subscribe_to_all scribe ;;
        send_all [task "t-1" false])
         {| CommunicationHub.env := env;
            CommunicationHub.hub := CommunicationHub.__init__;
            CommunicationHub.ext := [];
            CommunicationHub.futures := [];
            CommunicationHub.calls := [] |}).

(** A running hub with the developer subscribed. *)
Definition staffed : CommunicationHub.World unit :=
  snd ((CommunicationHub.start ;;
        CommunicationHub.subscribe AgentRole.DEVELOPER responder) fresh).

(** The configuration of the test agent, with the default retry budget
    of three. *)
Definition config : AgentConfig.t :=
  {| AgentConfig.name := "TestAgent";
     AgentConfig.role := AgentRole.DEVELOPER;
     AgentConfig.capabilities :=
       [AgentCapability.CODE_GENERATION; AgentCapability.TESTING];
     AgentConfig.max_memory_size := 100;
     AgentConfig.response_timeout := 5%Q;
     AgentConfig.retry_count := 3;
     AgentConfig.enable_learning := true;
     AgentConfig.tools := [];
     AgentConfig.metadata := ∅ |}.

(** A [handle_message] that fails on every message. *)
Definition failing : BaseAgent.Hook unit :=
  fun _ x => (Raise (Exception "Simulated error"), x).

(** The test agent, idle after its start, on a new hub. *)
Definition developer : BaseAgent.World unit unit :=
  {| BaseAgent.agent :=
       {| BaseAgent.config := config;
          BaseAgent.agent_id := "agent-1";
          BaseAgent.state := AgentState.IDLE;
          BaseAgent.start_time := 0%Q;
          BaseAgent.short_term_memory := [];
          BaseAgent.conversation_history := [];
          BaseAgent.context_cache := ∅;
          BaseAgent.metrics := AgentMetrics.__init__;
          BaseAgent.message_handlers := [];
          BaseAgent.state_change_callbacks := [];
          BaseAgent.last_error := None;
          BaseAgent.error_count := 0;
          BaseAgent.sub := tt |};
     BaseAgent.hubw := fresh;
     BaseAgent.trace := [] |}.

(** The agent after [n] messages that require a response. *)
Definition after_failures (n : nat) : BaseAgent.World unit unit :=
  snd (for_each (repeat (task "error-msg-1" true) n)
         (BaseAgent._handle_message failing) developer).

(** The sample environment ten clock readings later. *)
Definition later : Env :=
  {| time_src := time_src env; ticks := 10;
     uuid_src := uuid_src env; draws := draws env |}.

(** A task memory that expired at time 5, and a fact that never
    expires. *)
Definition stale : MemoryEntry.t :=
  {| MemoryEntry.id := "m-1";
     MemoryEntry.content := VStr "deadline moved";
     MemoryEntry.memory_type := MemoryType.TASK;
     MemoryEntry.priority := MemoryPriority.MEDIUM;
     MemoryEntry.created_at := 0%Q;
     MemoryEntry.last_accessed := 0%Q;
     MemoryEntry.access_count := 0;
     MemoryEntry.tags := ["project"; "deadline"];
     MemoryEntry.metadata := ∅;
     MemoryEntry.expires_at := Some 5%Q |}.

Definition fact : MemoryEntry.t :=
  {| MemoryEntry.id := "m-2";
     MemoryEntry.content := VStr "tests use pytest";
     MemoryEntry.memory_type := MemoryType.FACT;
     MemoryEntry.priority := MemoryPriority.HIGH;
     MemoryEntry.created_at := 0%Q;
     MemoryEntry.last_accessed := 0%Q;
     MemoryEntry.access_count := 0;
     MemoryEntry.tags := ["project"];
     MemoryEntry.metadata := ∅;
     MemoryEntry.expires_at := None |}.

(** A store holding both, at clock reading ten. *)
Definition memory : InMemoryStore.World :=
  snd ((InMemoryStore.store stale ;; InMemoryStore.store fact)
         {| InMemoryStore.env := later;
            InMemoryStore.this := InMemoryStore.__init__ |}).

(** The first memory stored again under its id, as a fact with another
    tag. *)
Definition restated : MemoryEntry.t :=
  {| MemoryEntry.id := "m-1";
     MemoryEntry.content := VStr "deadline moved";
     MemoryEntry.memory_type := MemoryType.FACT;
     MemoryEntry.priority := MemoryPriority.MEDIUM;
     MemoryEntry.created_at := 0%Q;
     MemoryEntry.last_accessed := 0%Q;
     MemoryEntry.access_count := 0;
     MemoryEntry.tags := ["archive"];
     MemoryEntry.metadata := ∅;
     MemoryEntry.expires_at := Some 5%Q |}.

(** A start, a task sent to the developer, a broadcast and two turns of
    the dispatch loop. *)
Definition session : list (CommunicationHub.Op unit) :=
  [CommunicationHub.OpStart;
   CommunicationHub.OpSubscribe AgentRole.DEVELOPER responder;
   CommunicationHub.OpSendMessage (task "t-1" true);
   CommunicationHub.OpBroadcastMessage AgentRole.ORCHESTRATOR "stand-up"
     MessageType.STATUS_UPDATE;
   CommunicationHub.OpProcessOne;
   CommunicationHub.OpProcessOne].

(** The staffed hub with one task for the developer in the queue. *)
Definition busy : CommunicationHub.World unit :=
  snd (CommunicationHub.send_message (task "t-1" false) staffed).

(** A [handle_message] that answers every message. *)
Definition polite : BaseAgent.Hook unit :=
  fun _ x => (Return (Some "done"), x).

(** Lifecycle hooks: one that returns, one that raises. *)
Definition ready : unit -> Result unit * unit :=
  fun x => (Return tt, x).

Definition broken : unit -> Result unit * unit :=
  fun x => (Raise (Exception "no connection"), x).

(** A new store at clock reading ten. *)
Definition blank : InMemoryStore.World :=
  {| InMemoryStore.env := later;
     InMemoryStore.this := InMemoryStore.__init__ |}.

(** The keys of a mapping and the elements of a set in the order of the
    library, and a text test that holds of the content that is the
    query itself. *)
Definition keys (m : gmap string MemoryEntry.t) : list string :=
  map fst (map_to_list m).

Definition members (X : gset string) : list string := elements X.

Definition same_text (query : string) (content : PyVal) : bool :=
  match content with
  | VStr s => String.eqb query s
  | _ => false
  end.

(** A hash for the samples: the text itself. *)
Definition plain (content : PyVal) : string :=
  match content with
  | VStr s => s
  | _ => "?"
  end.

(** The memory of an agent over the sample store, with room for one
    entry, for three, and with a negative size limit. *)
Definition memory_of (max_size : Z) : AgentMemory.World :=
  {| AgentMemory.env := later;
     AgentMemory.this :=
       AgentMemory.__init__ "agent-1"
         (Some (InMemoryStore.this memory)) max_size |}.

End Sample.

(* ===================================================================== *)
(** * Properties of Message and ConversationThread *)
(* ===================================================================== *)

Section MessageFacts.

Lemma AgentRole_of_value_value (r : AgentRole.t) :
  AgentRole.of_value (VStr (AgentRole.value r)) = Return r.
Proof. destruct r; reflexivity. Qed.

Lemma MessageType_of_value_value (k : MessageType.t) :
  MessageType.of_value (VStr (MessageType.value k)) = Return k.
Proof. destruct k; reflexivity. Qed.

Lemma MessagePriority_of_value_value (p : MessagePriority.t) :
  MessagePriority.of_value (VInt (MessagePriority.value p)) = Return p.
Proof. destruct p; reflexivity. Qed.

Lemma set_conversation_id_same (m : Message.t) :
  Message.set_conversation_id (Message.conversation_id m) m = m.
Proof. destruct m; reflexivity. Qed.

Lemma set_metadata_same (m : Message.t) :
  Message.set_metadata (Message.metadata m) m = m.
Proof. destruct m; reflexivity. Qed.

(** [__init__] always returns, and stores the metadata argument as it
    is, calling [dict()] only when the argument is left out. *)
Lemma init_metadata (kw : Message.kwargs) (e : Env) :
  exists m e',
    Message.__init__ kw e = (Return m, e') /\
    Message.metadata m =
      match Message.kw_metadata kw with
      | Message.Omitted => Some ∅
      | Message.Passed v => v
      end.
Proof.
  unfold Message.__init__, Message.__post_init__, bind, ret.
  destruct (Message.kw_timestamp kw), (Message.kw_id kw),
    (Message.kw_conversation_id kw); simpl; eauto.
Qed.

(** [from_dict] on a mapping whose entries are those of a message [m],
    apart from the metadata entry [raw]. *)
Lemma from_dict_entries (data : dict) (m : Message.t) (e : Env)
    (raw : option PyVal) :
  data !! "id" = Some (VStr (Message.id m)) ->
  data !! "sender" = Some (VStr (AgentRole.value (Message.sender m))) ->
  data !! "recipient" =
    Some (VStr (AgentRole.value (Message.recipient m))) ->
  data !! "message_type" =
    Some (VStr (MessageType.value (Message.message_type m))) ->
  data !! "content" = Some (VStr (Message.content m)) ->
  data !! "priority" =
    Some (VInt (MessagePriority.value (Message.priority m))) ->
  data !! "timestamp" = Some (VFloat (Message.timestamp m)) ->
  data !! "requires_response" =
    Some (VBool (Message.requires_response m)) ->
  data !! "conversation_id" = Some (VStr (Message.conversation_id m)) ->
  data !! "metadata" = raw ->
  Message.from_dict data e =
    (Return
       (Message.set_metadata
          (Some match raw with Some (VDict d) => d | _ => ∅ end) m),
     e).
Proof.
  intros Hid Hs Hr Hk Hc Hp Ht Hq Hv Hm.
  unfold Message.from_dict, Message.getitem.
  rewrite Hid, Hs, Hr, Hk, Hc, Hp, Ht, Hq, Hv, Hm.
  unfold bind, ret, Message.lift.
  rewrite !AgentRole_of_value_value, MessageType_of_value_value,
    MessagePriority_of_value_value.
  destruct m; reflexivity.
Qed.

Lemma to_dict_entries (m : Message.t) :
  Message.to_dict m !! "id" = Some (VStr (Message.id m)) /\
  Message.to_dict m !! "sender" =
    Some (VStr (AgentRole.value (Message.sender m))) /\
  Message.to_dict m !! "recipient" =
    Some (VStr (AgentRole.value (Message.recipient m))) /\
  Message.to_dict m !! "message_type" =
    Some (VStr (MessageType.value (Message.message_type m))) /\
  Message.to_dict m !! "content" = Some (VStr (Message.content m)) /\
  Message.to_dict m !! "priority" =
    Some (VInt (MessagePriority.value (Message.priority m))) /\
  Message.to_dict m !! "timestamp" = Some (VFloat (Message.timestamp m)) /\
  Message.to_dict m !! "requires_response" =
    Some (VBool (Message.requires_response m)) /\
  Message.to_dict m !! "conversation_id" =
    Some (VStr (Message.conversation_id m)) /\
  Message.to_dict m !! "metadata" =
    Some match Message.metadata m with
         | Some d => VDict d
         | None => VNone
         end.
Proof. repeat split; reflexivity. Qed.

(** Overwriting or removing the metadata entry leaves the nine other
    entries of [to_dict m] in place. *)
Lemma from_dict_metadata_replaced (m : Message.t) (e : Env)
    (data : dict) (raw : option PyVal) :
  (forall k : string, k <> "metadata" -> data !! k = Message.to_dict m !! k) ->
  data !! "metadata" = raw ->
  Message.from_dict data e =
    (Return
       (Message.set_metadata
          (Some match raw with Some (VDict d) => d | _ => ∅ end) m),
     e).
Proof.
  intros Hk Hm.
  destruct (to_dict_entries m) as (H1 & H2 & H3 & H4 & H5 & H6 & H7 & H8 & H9 & _).
  apply from_dict_entries; try assumption;
    (rewrite Hk; [assumption | discriminate]).
Qed.

End MessageFacts.

(** C3. Serialising a message whose metadata is a mapping and reading the
    result back returns the same message, field for field, and neither
    reads the clock nor draws a uuid. In the serialised form the roles
    and the kind are the strings of their enum members and the priority
    is the integer of its member. If the metadata entry of the serialised
    form is replaced by null, reading it back gives the same message with
    an empty metadata mapping. *)
Theorem from_dict_to_dict_roundtrip (m : Message.t) (d : dict) (e : Env) :
  Message.metadata m = Some d ->
  Message.from_dict (Message.to_dict m) e = (Return m, e) /\
  Message.to_dict m !! "sender" =
    Some (VStr (AgentRole.value (Message.sender m))) /\
  Message.to_dict m !! "recipient" =
    Some (VStr (AgentRole.value (Message.recipient m))) /\
  Message.to_dict m !! "message_type" =
    Some (VStr (MessageType.value (Message.message_type m))) /\
  Message.to_dict m !! "priority" =
    Some (VInt (MessagePriority.value (Message.priority m))) /\
  Message.from_dict (<["metadata" := VNone]> (Message.to_dict m)) e =
    (Return (Message.set_metadata (Some ∅) m), e).
Proof.
  intros Hmeta.
  destruct (to_dict_entries m) as (_ & Hs & Hr & Hk & _ & Hp & _ & _ & _ & Hm).
  repeat split; try assumption.
  - rewrite (from_dict_metadata_replaced m e (Message.to_dict m) _
               (fun _ _ => eq_refl) Hm).
    rewrite Hmeta, <- Hmeta. now rewrite set_metadata_same.
  - apply (from_dict_metadata_replaced m e _ (Some VNone)).
    + intros k Hne. now rewrite lookup_insert_ne.
    + apply lookup_insert_eq.
Qed.

(** The round trip on the message of the serialisation test, and on the
    same message with an empty id. *)
Lemma from_dict_to_dict_roundtrip_witness :
  Message.from_dict (Message.to_dict Sample.serial_test) Sample.env =
    (Return Sample.serial_test, Sample.env) /\
  Message.from_dict (Message.to_dict Sample.empty_id) Sample.env =
    (Return Sample.empty_id, Sample.env).
Proof.
  split.
  - apply (from_dict_to_dict_roundtrip Sample.serial_test
             (<["test_key" := VStr "test_value"]> ∅) Sample.env).
    reflexivity.
  - apply (from_dict_to_dict_roundtrip Sample.empty_id ∅ Sample.env).
    reflexivity.
Defined.

Section Inversion.

Context {S A B : Type}.

Lemma bind_returns (m : M S A) (k : A -> M S B) (s s' : S) (b : B) :
  bind m k s = (Return b, s') ->
  exists a s1, m s = (Return a, s1) /\ k a s1 = (Return b, s').
Proof.
  unfold bind. destruct (m s) as [[a|e] s1]; [eauto | discriminate].
Qed.

Lemma bind_step (m : M S A) (k : A -> M S B) (s s1 : S) (a : A) :
  m s = (Return a, s1) -> bind m k s = k a s1.
Proof. unfold bind. now intros ->. Qed.

Lemma bind_raise (m : M S A) (k : A -> M S B) (s s1 : S) (e : Exn) :
  m s = (Raise e, s1) -> bind m k s = (Raise e, s1).
Proof. unfold bind. now intros ->. Qed.

End Inversion.

Section PreservationRules.
Context {S : Type} (I : S -> S -> Prop) `{!PreOrder I}.

Lemma preserves_ret {A} (a : A) : preserves I (ret a).
Proof. intros s r s' [= _ <-]. reflexivity. Qed.

Lemma preserves_raise {A} (e : Exn) : preserves I (@raise S A e).
Proof. intros s r s' [= _ <-]. reflexivity. Qed.

Lemma preserves_gets {A} (f : S -> A) : preserves I (gets f).
Proof. intros s r s' [= _ <-]. reflexivity. Qed.

Lemma preserves_modify (f : S -> S) :
  (forall s, I s (f s)) -> preserves I (modify f).
Proof. intros Hf s r s' [= _ <-]. apply Hf. Qed.

Lemma preserves_bind {A B} (m : M S A) (k : A -> M S B) :
  preserves I m -> (forall a, preserves I (k a)) -> preserves I (bind m k).
Proof.
  intros Hm Hk s r s'. unfold bind.
  destruct (m s) as [[a | e] s1] eqn:Hrun.
  - intros Hrest. etransitivity; [eapply Hm | eapply Hk]; eassumption.
  - intros [= _ <-]. eapply Hm; eassumption.
Qed.

Lemma preserves_try_except {A} (m : M S A) (h : Exn -> M S A) :
  preserves I m -> (forall e, preserves I (h e)) ->
  preserves I (try_except m h).
Proof.
  intros Hm Hh s r s'. unfold try_except.
  destruct (m s) as [[a | e] s1] eqn:Hrun.
  - intros [= _ <-]. eapply Hm; eassumption.
  - intros Hrest. etransitivity; [eapply Hm | eapply Hh]; eassumption.
Qed.

Lemma preserves_for_each {A} (l : list A) (body : A -> M S unit) :
  (forall x, preserves I (body x)) -> preserves I (for_each l body).
Proof.
  intros Hbody. induction l as [| x l IH]; cbn [for_each].
  - apply preserves_ret.
  - apply preserves_bind; [apply Hbody | intros _; exact IH].
Qed.

Lemma preserves_weaken (J : S -> S -> Prop) {A} (m : M S A) :
  (forall s s', I s s' -> J s s') -> preserves I m -> preserves J m.
Proof. intros HIJ Hm s r s' Hrun. eapply HIJ, Hm, Hrun. Qed.
End PreservationRules.

(** Whatever [from_dict] returns carries a metadata mapping, the one of
    the input if there is one and the empty one otherwise. *)
Lemma from_dict_metadata (data : dict) (e e' : Env) (m : Message.t) :
  Message.from_dict data e = (Return m, e') ->
  Message.metadata m =
    Some match data !! "metadata" with Some (VDict d) => d | _ => ∅ end.
Proof.
  unfold Message.from_dict. intros H.
  repeat match type of H with
         | bind _ _ _ = _ =>
             apply bind_returns in H; destruct H as (? & ? & _ & H)
         end.
  match type of H with
  | Message.__init__ ?kw ?s = _ =>
      destruct (init_metadata kw s) as (m' & e'' & Hinit & Hmeta)
  end.
  rewrite Hinit in H. injection H as -> _. exact Hmeta.
Qed.

(** C4. A message built directly with an explicit [metadata=None]
    holds [None], not an empty mapping, whatever the other arguments
    and the environment: [__post_init__] has no check for it ("No
    metadata check needed - it's always a dict"), although the field is
    declared "Always dict, never None" and [from_dict] replaces a null
    entry by an empty mapping. *)
Theorem constructor_keeps_null_metadata :
  forall (kw : Message.kwargs) (e : Env),
    exists m e',
      Message.__init__ (Message.with_metadata None kw) e = (Return m, e') /\
      Message.metadata m = None /\
      Message.metadata m <> Some ∅.
Proof.
  intros kw e.
  destruct (init_metadata (Message.with_metadata None kw) e)
    as (m & e' & Hinit & Hmeta).
  exists m, e'. split; [exact Hinit |].
  cbn in Hmeta. rewrite Hmeta. split; [reflexivity | discriminate].
Qed.

(** What does hold of the metadata. Direct construction always returns
    a message; its metadata is the empty mapping when the argument is
    left out and the given mapping when one is passed. Whatever [Message.from_dict]
    returns has a metadata mapping, which is empty when the input has no
    metadata entry or a null one; and on the serialised form of any
    message with the metadata entry removed or set to null,
    [Message.from_dict] does return, with an empty metadata mapping. *)
Theorem metadata_normalized :
  (forall (kw : Message.kwargs) (e : Env),
      exists m e',
        Message.__init__ kw e = (Return m, e') /\
        (Message.kw_metadata kw = Message.Omitted ->
         Message.metadata m = Some ∅) /\
        (forall d : dict,
            Message.kw_metadata kw = Message.Passed (Some d) ->
            Message.metadata m = Some d)) /\
  (forall (data : dict) (e e' : Env) (m : Message.t),
      Message.from_dict data e = (Return m, e') ->
      exists d : dict,
        Message.metadata m = Some d /\
        (data !! "metadata" = None \/ data !! "metadata" = Some VNone ->
         d = ∅)) /\
  (forall (m : Message.t) (e : Env),
      Message.from_dict (base.delete "metadata" (Message.to_dict m)) e =
        (Return (Message.set_metadata (Some ∅) m), e) /\
      Message.from_dict (<["metadata" := VNone]> (Message.to_dict m)) e =
        (Return (Message.set_metadata (Some ∅) m), e)).
Proof.
  split; [| split].
  - intros kw e. destruct (init_metadata kw e) as (m & e' & Hinit & Hmeta).
    exists m, e'. split; [exact Hinit |]. split.
    + intros Hk. now rewrite Hmeta, Hk.
    + intros d Hk. now rewrite Hmeta, Hk.
  - intros data e e' m Hfrom. apply from_dict_metadata in Hfrom.
    eexists. split; [exact Hfrom |].
    intros [-> | ->]; reflexivity.
  - intros m e. split.
    + apply (from_dict_metadata_replaced m e _ None).
      * intros k Hne. now rewrite lookup_delete_ne.
      * apply lookup_delete_eq.
    + apply (from_dict_metadata_replaced m e _ (Some VNone)).
      * intros k Hne. now rewrite lookup_insert_ne.
      * apply lookup_insert_eq.
Qed.

(** The three cases on concrete inputs: a message built without a
    metadata argument, and the dict of [test_message_from_dict_edge_cases]
    without and with a null metadata entry. *)
Lemma metadata_normalized_witness :
  (exists m e',
      Message.__init__
        (Message.positional AgentRole.DEVELOPER AgentRole.REVIEWER
           MessageType.STATUS_UPDATE "no metadata") Sample.env
        = (Return m, e') /\
      Message.metadata m = Some ∅) /\
  (forall (e' : Env) (m : Message.t),
      Message.from_dict
        (<["metadata" := VNone]> (Message.to_dict Sample.serial_test))
        Sample.env = (Return m, e') ->
      Message.metadata m = Some ∅).
Proof.
  destruct metadata_normalized as (Hinit & Hfrom & _). split.
  - destruct (Hinit (Message.positional AgentRole.DEVELOPER AgentRole.REVIEWER
                       MessageType.STATUS_UPDATE "no metadata") Sample.env)
      as (m & e' & Hrun & Homitted & _).
    exists m, e'. split; [exact Hrun | apply Homitted; reflexivity].
  - intros e' m Hrun.
    destruct (Hfrom _ _ _ _ Hrun) as (d & Hd & Hempty).
    rewrite Hd, Hempty; [reflexivity | right; reflexivity].
Defined.

(* --------------------------------------------------------------------- *)
(** ** Conversation context *)
(* --------------------------------------------------------------------- *)

Lemma slice_last_positive {A} (k : Z) (l : list A) :
  0 < k -> slice_last k l = drop (length l - Z.to_nat k) l.
Proof.
  intros Hk. unfold slice_last, slice_from.
  destruct (Z.ltb_spec (- k) 0) as [_ | Hge]; [| lia].
  f_equal. lia.
Qed.

(** For a limit of at least one, [get_context] returns the last
    [min(N, limit)] messages of the thread, in thread order. *)
Lemma get_context_recent (limit : Z) (th : ConversationThread.t) :
  0 < limit ->
  let N := length (ConversationThread.messages th) in
  ConversationThread.get_context limit th =
    drop (N - Z.to_nat limit) (ConversationThread.messages th) /\
  Z.of_nat (length (ConversationThread.get_context limit th)) =
    Z.min (Z.of_nat N) limit.
Proof.
  intros Hk N. unfold ConversationThread.get_context.
  rewrite slice_last_positive by exact Hk. split; [reflexivity |].
  rewrite length_drop. subst N. lia.
Qed.

(** The run of [test_get_context]: of fifteen messages, a limit of ten
    returns the sixth to the fifteenth. *)
Example get_context_fifteen_ten :
  let l := map (fun i => Sample.status i MessagePriority.MEDIUM)
             ["0"; "1"; "2"; "3"; "4"; "5"; "6"; "7"; "8"; "9"; "10"; "11";
              "12"; "13"; "14"] in
  map Message.content (ConversationThread.get_context 10 (Sample.thread l)) =
    ["Message 5"; "Message 6"; "Message 7"; "Message 8"; "Message 9";
     "Message 10"; "Message 11"; "Message 12"; "Message 13"; "Message 14"].
Proof. reflexivity. Qed.

(** C8. With a limit of zero [get_context] returns the whole thread, not
    the last [min(N, 0) = 0] messages: the slice [messages[-0:]] starts
    at index 0. On the one-message thread the result has one message. *)
Theorem get_context_zero_returns_whole_thread :
  (forall th : ConversationThread.t,
      ConversationThread.get_context 0 th = ConversationThread.messages th) /\
  ConversationThread.get_context 0
    (Sample.thread [Sample.status "0" MessagePriority.MEDIUM]) =
    [Sample.status "0" MessagePriority.MEDIUM].
Proof.
  split; [| reflexivity].
  intros th. unfold ConversationThread.get_context, slice_last, slice_from.
  simpl. now rewrite Z.min_l by lia.
Qed.

(* ===================================================================== *)
(** * Properties of the hub *)
(* ===================================================================== *)

Section HubFacts.

Import CommunicationHub.

Context {Ext : Type}.
Implicit Types w : World Ext.

Lemma replace_last_app {A} (l : list A) (x y : A) : replace_last y (l ++ [x]) = l ++ [y].
Proof. unfold replace_last. destruct (l ++ [x]) eqn:E. - destruct l; discriminate. - rewrite <- E. now rewrite removelast_last. Qed.

Ltac run_hub :=
  cbv [send_message try_except bind queue_put queue_get task_done self gets assign modify bump ret _track_conversation alias_claimed in_env zoom uuid4 raise subscribe subscribe_to_all start stop new_future future_state future_set];
  cbn [hub set_hub message_queue set_message_queue set_message_history message_history set_delivery_stats delivery_stats env set_env conversations set_conversations items unfinished_tasks put_error ConversationThread.add_message ConversationThread.id ConversationThread.messages subscribers broadcast_subscribers is_running processing_task active_negotiations set_subscribers set_broadcast_subscribers set_running set_active_negotiations ext futures calls set_ext set_futures set_calls total_sent total_delivered total_failed count_sent count_failed count_delivered Message.priority Message.set_conversation_id].

Lemma send_message_faulty message w e :
  put_error (message_queue (hub w)) = Some e ->
  send_message message w =
    (Return false, set_hub (set_delivery_stats (count_failed (delivery_stats (hub w))) (hub w)) w).
Proof. intros Hput. run_hub. rewrite Hput. reflexivity. Qed.

Lemma send_message_healthy message w :
  put_error (message_queue (hub w)) = None ->
  exists w',
    send_message message w = (Return true, w') /\
    items (message_queue (hub w')) = items (message_queue (hub w)) ++ [(MessagePriority.value (Message.priority message), claimed message w)] /\
    message_history (hub w') = message_history (hub w) ++ [claimed message w] /\
    delivery_stats (hub w') = count_sent (delivery_stats (hub w)) /\
    unfinished_tasks (message_queue (hub w')) = unfinished_tasks (message_queue (hub w)) + 1 /\
    kept w w' /\
    ext w' = ext w /\ futures w' = futures w /\ calls w' = calls w.
Proof.
  intros Hput. unfold claimed, kept. run_hub. rewrite Hput.
  destruct (String.eqb (Message.conversation_id message) "");
    run_hub;
    (match goal with |- context [?m !! ?k] => destruct (m !! k) end);
    (eexists; split; [reflexivity |]); run_hub;
    rewrite !replace_last_app; destruct message; auto 20.
Qed.

Lemma kept_refl w : kept w w.
Proof. unfold kept; auto. Qed.

Lemma kept_trans w1 w2 w3 : kept w1 w2 -> kept w2 w3 -> kept w1 w3.
Proof. unfold kept. intros (?&?&?&?) (?&?&?&?). repeat split; congruence. Qed.

Lemma counted_refl w : counted w w.
Proof. unfold counted; auto. Qed.

Lemma counted_trans w1 w2 w3 :
  kept w1 w2 -> counted w1 w2 -> counted w2 w3 -> counted w1 w3.
Proof.
  unfold kept, counted. intros (_&_&_&Hq) (Hd1&Hf1) (Hd2&Hf2). split.
  - congruence.
  - intros Hnone. rewrite Hf2, Hf1; congruence.
Qed.

Lemma send_message_frame message w :
  exists b w',
    send_message message w = (Return b, w') /\
    kept w w' /\ counted w w' /\ calls w' = calls w /\ ext w' = ext w /\ futures w' = futures w.
Proof.
  destruct (put_error (message_queue (hub w))) as [e|] eqn:Hput.
  - eexists _, _. split; [apply (send_message_faulty _ _ e Hput) |].
    unfold kept, counted. cbn. rewrite Hput. repeat split; auto. discriminate.
  - destruct (send_message_healthy message w Hput)
      as (w' & Hrun & _ & _ & Hstats & _ & Hkept & Hext & Hfut & Hcalls).
    exists true, w'. split; [exact Hrun |]. split; [exact Hkept |].
    split; [| auto]. unfold counted. rewrite Hstats. cbn. auto.
Qed.

Lemma posts_frame (l : list Message.t) w :
  exists w',
    for_each l (fun p => _ <- send_message p ;; ret tt) w = (Return tt, w') /\
    kept w w' /\ counted w w' /\ calls w' = calls w /\ futures w' = futures w.
Proof.
  revert w. induction l as [| p l IH]; intros w.
  - exists w. repeat split; auto using kept_refl, counted_refl.
  - destruct (send_message_frame p w) as (b & w1 & Hrun & Hk1 & Hc1 & Hl1 & _ & Hf1).
    destruct (IH w1) as (w2 & Hrest & Hk2 & Hc2 & Hl2 & Hf2).
    exists w2. split.
    + cbn [for_each]. unfold bind at 1 2. rewrite Hrun. unfold ret at 1. exact Hrest.
    + split; [eauto using kept_trans |].
      split; [eauto using counted_trans |]. split; congruence.
Qed.

Lemma call_frame (callback : Callable Ext) (message : Message.t) w :
  exists r w',
    call callback message w = (r, w') /\
    kept w w' /\ counted w w' /\
    calls w' = calls w ++ [(callback, message)].
Proof.
  destruct callback as [name run | recipient request_id fut].
  - unfold call. unfold bind at 1, modify at 1.
    set (w0 := set_calls (calls w ++ [(External name run, message)]) w).
    unfold bind at 1. destruct (run message (ext w0)) as [r x] eqn:Hr.
    set (w1 := set_ext x w0).
    destruct (posts_frame (posts r) w1) as (w2 & Hposts & Hk & Hc & Hl & _).
    unfold bind at 1. rewrite Hposts.
    assert (Hk2 : kept w w2) by (destruct Hk as (?&?&?&?); repeat split; assumption).
    assert (Hc2 : counted w w2) by (destruct Hc as (?&?); split; assumption).
    destruct (raises r); eexists _, w2; (split; [reflexivity |]); auto.
  - unfold call. unfold bind at 1, modify at 1.
    set (w0 := set_calls (calls w ++ [(ResponseHandler recipient request_id fut, message)]) w).
    destruct (AgentRole.eqb (Message.sender message) recipient && responds_to request_id message).
    + unfold bind at 1 2, future_state, gets.
      destruct (done (default Cancelled (futures w0 !! fut)));
        eexists _, _; (split; [reflexivity |]);
        repeat split; reflexivity.
    + eexists _, _. split; [reflexivity |]. repeat split; reflexivity.
Qed.

Lemma observers_frame (observers : list (Callable Ext)) (message : Message.t) w :
  exists w',
    for_each observers
      (fun subscriber => try_except (call subscriber message) (fun e => ret tt)) w
      = (Return tt, w') /\
    kept w w' /\ counted w w' /\
    calls w' = calls w ++ map (fun cb => (cb, message)) observers.
Proof.
  revert w. induction observers as [| cb l IH]; intros w.
  - exists w. cbn. rewrite app_nil_r. auto using kept_refl, counted_refl.
  - destruct (call_frame cb message w) as (r & w1 & Hrun & Hk1 & Hc1 & Hl1).
    destruct (IH w1) as (w2 & Hrest & Hk2 & Hc2 & Hl2).
    exists w2. split.
    + cbn [for_each]. unfold bind at 1, try_except at 1. rewrite Hrun.
      destruct r; exact Hrest.
    + split; [eauto using kept_trans |].
      split; [eauto using counted_trans |].
      rewrite Hl2, Hl1. cbn [map]. now rewrite <- app_assoc.
Qed.

Lemma task_done_frame w :
  exists r w',
    task_done w = (r, w') /\ kept w w' /\ counted w w' /\ calls w' = calls w.
Proof.
  unfold task_done, bind, self, gets.
  destruct (unfinished_tasks (message_queue (hub w)) <=? 0);
    eexists _, _; (split; [reflexivity |]);
    (split; [| split]); try reflexivity; unfold kept, counted; cbn; auto.
Qed.

Lemma queue_get_head w (item : Z * Message.t) rest :
  items (message_queue (hub w)) = item :: rest ->
  queue_get w =
    (Return item,
     set_hub
       (set_message_queue
          {| items := rest;
             unfinished_tasks := unfinished_tasks (message_queue (hub w));
             put_error := put_error (message_queue (hub w)) |} (hub w)) w).
Proof. intros Hq. unfold queue_get, bind, self, gets. now rewrite Hq. Qed.

Lemma queue_get_empty w :
  items (message_queue (hub w)) = [] ->
  queue_get w = (Raise TimeoutError, w).
Proof. intros Hq. unfold queue_get, bind, self, gets. now rewrite Hq. Qed.

Lemma _process_one_unhandled w (p : Z) (message : Message.t) rest :
  items (message_queue (hub w)) = (p, message) :: rest ->
  dict_get (Message.recipient message) (subscribers (hub w)) = None ->
  exists w',
    _process_one w = (Return tt, w') /\
    kept w w' /\ counted w w' /\
    calls w' =
      calls w ++ map (fun cb => (cb, message)) (broadcast_subscribers (hub w)).
Proof.
  intros Hq Hnone. unfold _process_one.
  unfold try_except at 1, bind at 1. rewrite (queue_get_head w _ _ Hq).
  match goal with |- context [set_hub ?h w] => set (w0 := set_hub h w) end.
  assert (Hk0 : kept w w0) by (unfold kept; cbn; auto).
  assert (Hc0 : counted w w0) by (unfold counted; cbn; auto).
  unfold bind at 1, self at 1, gets at 1.
  change (subscribers (hub w0)) with (subscribers (hub w)). rewrite Hnone.
  unfold bind at 1, ret at 1. unfold bind at 1, self at 1, gets at 1.
  change (broadcast_subscribers (hub w0)) with (broadcast_subscribers (hub w)).
  destruct (observers_frame (broadcast_subscribers (hub w)) message w0)
    as (w1 & Hobs & Hk1 & Hc1 & Hl1).
  unfold bind at 1. rewrite Hobs.
  destruct (task_done_frame w1) as (r & w2 & Hdone & Hk2 & Hc2 & Hl2).
  rewrite Hdone. exists w2.
  split; [destruct r as [[] |]; reflexivity |].
  split; [eauto using kept_trans |].
  split; [eauto 6 using kept_trans, counted_trans |].
  rewrite Hl2, Hl1. reflexivity.
Qed.

Lemma _process_one_kept w :
  exists w', _process_one w = (Return tt, w') /\ kept w w'.
Proof.
  unfold _process_one.
  destruct (items (message_queue (hub w))) as [| [p message] rest] eqn:Hq.
  - unfold try_except at 1, bind at 1. rewrite (queue_get_empty w Hq).
    exists w. split; [reflexivity | apply kept_refl].
  - unfold try_except at 1, bind at 1. rewrite (queue_get_head w _ _ Hq).
    match goal with |- context [set_hub ?h w] => set (w0 := set_hub h w) end.
    assert (Hk0 : kept w w0) by (unfold kept; cbn; auto).
    unfold bind at 1, self at 1, gets at 1.
    assert (Hdeliver : exists w1,
      match dict_get (Message.recipient message) (subscribers (hub w0)) with
      | Some handler =>
          try_except (call handler message ;; bump count_delivered)
            (fun _ => bump count_failed)
      | None => ret tt
      end w0 = (Return tt, w1) /\ kept w0 w1).
    { destruct (dict_get (Message.recipient message) (subscribers (hub w0)))
        as [handler |].
      - destruct (call_frame handler message w0) as (r & w1 & Hcall & Hk1 & _ & _).
        unfold try_except, bind. rewrite Hcall.
        destruct r; eexists; (split; [reflexivity |]);
          (eapply kept_trans; [exact Hk1 |]); unfold kept; cbn; auto.
      - exists w0. split; [reflexivity | apply kept_refl]. }
    destruct Hdeliver as (w1 & Hdeliver & Hk1).
    unfold bind at 1. rewrite Hdeliver.
    unfold bind at 1, self at 1, gets at 1.
    destruct (observers_frame (broadcast_subscribers (hub w1)) message w1)
      as (w2 & Hobs & Hk2 & _ & _).
    unfold bind at 1. rewrite Hobs.
    destruct (task_done_frame w2) as (r & w3 & Hdone & Hk3 & _ & _).
    rewrite Hdone. exists w3.
    split; [destruct r as [[] |]; reflexivity | eauto using kept_trans].
Qed.

Lemma claimed_same (message : Message.t) w :
  threads_keyed w ->
  Message.conversation_id message <> "" ->
  claimed message w = message.
Proof.
  intros Hkeyed Hne. unfold claimed.
  destruct (String.eqb_spec (Message.conversation_id message) "") as [He | _];
    [contradiction |].
  destruct (conversations (hub w) !! Message.conversation_id message)
    as [th |] eqn:Hth.
  - rewrite (Hkeyed _ _ Hth). apply set_conversation_id_same.
  - apply set_conversation_id_same.
Qed.

(** C6. [send_message] always returns a boolean and never raises. If the
    queue refuses the item, the result is false, the failed count grows
    by one, and the queue, the history and the sent count are as before.
    Otherwise the result is true, the message (as claimed by its
    conversation thread, see [claimed] and [claimed_same]) is at the tail
    of the queue with its priority value and at the end of the history,
    the sent count has grown by one and the failed count is as before. *)
Theorem send_message_reports_by_boolean (message : Message.t) (w : World Ext) :
  exists (b : bool) (w' : World Ext),
    send_message message w = (Return b, w') /\
    match put_error (message_queue (hub w)) with
    | Some e =>
        b = false /\
        total_failed (delivery_stats (hub w')) =
          total_failed (delivery_stats (hub w)) + 1 /\
        total_sent (delivery_stats (hub w')) =
          total_sent (delivery_stats (hub w)) /\
        items (message_queue (hub w')) = items (message_queue (hub w)) /\
        message_history (hub w') = message_history (hub w)
    | None =>
        b = true /\
        items (message_queue (hub w')) =
          items (message_queue (hub w)) ++
          [(MessagePriority.value (Message.priority message),
            claimed message w)] /\
        message_history (hub w') =
          message_history (hub w) ++ [claimed message w] /\
        total_sent (delivery_stats (hub w')) =
          total_sent (delivery_stats (hub w)) + 1 /\
        total_failed (delivery_stats (hub w')) =
          total_failed (delivery_stats (hub w))
    end.
Proof.
  destruct (put_error (message_queue (hub w))) as [e |] eqn:Hput.
  - eexists _, _. split; [apply (send_message_faulty _ _ e Hput) |].
    cbn. auto.
  - destruct (send_message_healthy message w Hput)
      as (w' & Hrun & Hitems & Hhist & Hstats & _).
    exists true, w'. split; [exact Hrun |].
    rewrite Hitems, Hhist, Hstats. cbn. auto.
Qed.

Lemma claimed_filed_as (message : Message.t) w :
  filed_as message (claimed message w).
Proof. unfold filed_as, claimed. destruct message; reflexivity. Qed.

(** The messages a callback posts are queued and filed in order, and
    change nothing outside the hub. *)
Lemma posts_run (l : list Message.t) w :
  exists w',
    for_each l (fun p => _ <- send_message p ;; ret tt) w = (Return tt, w') /\
    kept w w' /\ ext w' = ext w /\
    (put_error (message_queue (hub w)) = None ->
     exists queued,
       items (message_queue (hub w')) =
         items (message_queue (hub w)) ++ map queue_item queued /\
       Forall2 filed_as l queued /\
       message_history (hub w') = message_history (hub w) ++ queued).
Proof.
  revert w. induction l as [| p l IH]; intros w.
  - exists w. split; [reflexivity |]. split; [apply kept_refl |].
    split; [reflexivity |]. intros _. exists [].
    cbn. rewrite !app_nil_r. auto.
  - destruct (send_message_frame p w)
      as (b & w1 & Hrun & Hk1 & _ & _ & Hx1 & _).
    destruct (IH w1) as (w2 & Hrest & Hk2 & Hx2 & Hq2).
    exists w2. split.
    { cbn [for_each]. unfold bind at 1 2. rewrite Hrun. unfold ret at 1.
      exact Hrest. }
    split; [eauto using kept_trans |]. split; [congruence |].
    intros Hput.
    destruct (send_message_healthy p w Hput)
      as (w1' & Hrun' & Hitems & Hhist & _ & _ & _).
    rewrite Hrun in Hrun'. injection Hrun' as _ <-.
    destruct Hq2 as (queued & Hitems2 & Hall & Hhist2).
    { destruct Hk1 as (_ & _ & _ & ->). exact Hput. }
    exists (claimed p w :: queued). split; [| split].
    + rewrite Hitems2, Hitems. cbn [map]. unfold queue_item at 2.
      assert (Hp : Message.priority (claimed p w) = Message.priority p)
        by (unfold claimed; destruct p; reflexivity).
      rewrite Hp. now rewrite <- app_assoc.
    + constructor; [apply claimed_filed_as | exact Hall].
    + rewrite Hhist2, Hhist. now rewrite <- app_assoc.
Qed.

(** Awaiting the observers one after the other: each runs on the state
    the one before left, whether or not that one raised. *)
Lemma observers_run (observers : list (Callable Ext)) (message : Message.t) w :
  exists w',
    for_each observers
      (fun subscriber => try_except (call subscriber message) (fun e => ret tt))
      w = (Return tt, w') /\
    kept w w' /\
    ext w' = snd (observers_effect observers message (ext w)) /\
    (put_error (message_queue (hub w)) = None ->
     exists queued,
       items (message_queue (hub w')) =
         items (message_queue (hub w)) ++ map queue_item queued /\
       Forall2 filed_as (fst (observers_effect observers message (ext w))) queued /\
       message_history (hub w') = message_history (hub w) ++ queued).
Proof.
  revert w. induction observers as [| cb l IH]; intros w.
  - exists w. split; [reflexivity |]. split; [apply kept_refl |].
    split; [reflexivity |]. intros _. exists [].
    cbn. rewrite !app_nil_r. auto.
  - assert (Hcall : exists r w1,
               call cb message w = (r, w1) /\
               kept w w1 /\
               ext w1 = snd (observers_effect [cb] message (ext w)) /\
               (put_error (message_queue (hub w)) = None ->
                exists queued,
                  items (message_queue (hub w1)) =
                    items (message_queue (hub w)) ++ map queue_item queued /\
                  Forall2 filed_as (fst (observers_effect [cb] message (ext w))) queued /\
                  message_history (hub w1) =
                    message_history (hub w) ++ queued)).
    { destruct cb as [name run | recipient request_id fut].
      - unfold call. unfold bind at 1, modify at 1.
        set (w0 := set_calls (calls w ++ [(External name run, message)]) w).
        unfold bind at 1. cbn [observers_effect].
        change (ext w0) with (ext w).
        destruct (run message (ext w)) as [r x] eqn:Hr.
        set (w1 := set_ext x w0).
        destruct (posts_run (posts r) w1) as (w2 & Hposts & Hk & Hx & Hq).
        unfold bind at 1. rewrite Hposts.
        exists (match raises r with Some e => Raise e | None => Return tt end), w2.
        split; [destruct (raises r); reflexivity |].
        split; [exact Hk |]. split; [cbn; rewrite Hx; reflexivity |].
        intros Hput. destruct (Hq Hput) as (queued & Hitems & Hall & Hhist).
        exists queued. cbn [fst]. rewrite app_nil_r.
        split; [exact Hitems |]. split; [exact Hall | exact Hhist].
      - exists (Raise (TypeError "object NoneType can't be used in 'await' expression")).
        unfold call. unfold bind at 1, modify at 1.
        set (w0 := set_calls
                     (calls w ++ [(ResponseHandler recipient request_id fut,
                                   message)]) w).
        assert (Hstep : exists w1,
                   (if AgentRole.eqb (Message.sender message) recipient
                       && responds_to request_id message
                    then
                      f <- future_state fut ;;
                      if done f then ret tt
                      else future_set fut (Done message)
                    else ret tt) w0 = (Return tt, w1) /\
                   hub w1 = hub w /\ ext w1 = ext w).
        { destruct (AgentRole.eqb (Message.sender message) recipient
                    && responds_to request_id message).
          - unfold bind, future_state, gets.
            destruct (done (default Cancelled (futures w0 !! fut)));
              eexists; (split; [reflexivity |]); split; reflexivity.
          - exists w0. split; [reflexivity |]. split; reflexivity. }
        destruct Hstep as (w1 & Hstep & Hhub & Hext).
        exists w1. unfold bind at 1. rewrite Hstep. unfold raise.
        split; [reflexivity |].
        split; [unfold kept; rewrite Hhub; auto |].
        split; [exact Hext |].
        intros _. exists []. cbn. rewrite Hhub, !app_nil_r. auto. }
    destruct Hcall as (r & w1 & Hrun & Hk1 & Hx1 & Hq1).
    destruct (IH w1) as (w2 & Hrest & Hk2 & Hx2 & Hq2).
    assert (Hsplit :
      observers_effect (cb :: l) message (ext w) =
        (fst (observers_effect [cb] message (ext w))
           ++ fst (observers_effect l message (snd (observers_effect [cb] message (ext w)))),
         snd (observers_effect l message (snd (observers_effect [cb] message (ext w)))))).
    { destruct cb as [name run | recipient request_id fut]; cbn [observers_effect].
      - destruct (run message (ext w)) as [r0 x0]. cbn [fst snd].
        destruct (observers_effect l message x0) as [posted x1]. cbn [fst snd].
        now rewrite app_nil_r.
      - cbn [fst snd]. now destruct (observers_effect l message (ext w)). }
    exists w2. split.
    { cbn [for_each]. unfold bind at 1, try_except at 1. rewrite Hrun.
      destruct r; exact Hrest. }
    split; [eauto using kept_trans |].
    rewrite Hsplit. cbn [fst snd]. rewrite <- Hx1.
    split; [exact Hx2 |].
    intros Hput.
    destruct (Hq1 Hput) as (queued1 & Hitems1 & Hall1 & Hhist1).
    destruct Hq2 as (queued2 & Hitems2 & Hall2 & Hhist2).
    { destruct Hk1 as (_ & _ & _ & ->). exact Hput. }
    exists (queued1 ++ queued2). split; [| split].
    + rewrite Hitems2, Hitems1, map_app. now rewrite <- app_assoc.
    + apply Forall2_app; assumption.
    + rewrite Hhist2, Hhist1. now rewrite <- app_assoc.
Qed.

(** A whole turn on a message whose recipient has no handler. *)
Lemma _process_one_unhandled_run w (p : Z) (message : Message.t) rest :
  items (message_queue (hub w)) = (p, message) :: rest ->
  dict_get (Message.recipient message) (subscribers (hub w)) = None ->
  exists w',
    _process_one w = (Return tt, w') /\
    ext w' = snd (observers_effect (broadcast_subscribers (hub w)) message (ext w)) /\
    (put_error (message_queue (hub w)) = None ->
     exists queued,
       items (message_queue (hub w')) = rest ++ map queue_item queued /\
       Forall2 filed_as
         (fst (observers_effect (broadcast_subscribers (hub w)) message (ext w)))
         queued /\
       message_history (hub w') = message_history (hub w) ++ queued).
Proof.
  intros Hq Hnone. unfold _process_one.
  unfold try_except at 1, bind at 1. rewrite (queue_get_head w _ _ Hq).
  match goal with |- context [set_hub ?h w] => set (w0 := set_hub h w) end.
  unfold bind at 1, self at 1, gets at 1.
  change (subscribers (hub w0)) with (subscribers (hub w)). rewrite Hnone.
  unfold bind at 1, ret at 1. unfold bind at 1, self at 1, gets at 1.
  change (broadcast_subscribers (hub w0)) with (broadcast_subscribers (hub w)).
  destruct (observers_run (broadcast_subscribers (hub w)) message w0)
    as (w1 & Hobs & _ & Hx1 & Hq1).
  unfold bind at 1. rewrite Hobs.
  assert (Hdone : exists r w2,
             task_done w1 = (r, w2) /\ ext w2 = ext w1 /\
             items (message_queue (hub w2)) = items (message_queue (hub w1)) /\
             message_history (hub w2) = message_history (hub w1)).
  { unfold task_done, bind, self, gets.
    destruct (unfinished_tasks (message_queue (hub w1)) <=? 0);
      eexists _, _; (split; [reflexivity |]); repeat split. }
  destruct Hdone as (r & w2 & Hdone & Hx2 & Hi2 & Hh2).
  rewrite Hdone. exists w2.
  split; [destruct r as [[] |]; reflexivity |].
  split; [rewrite Hx2, Hx1; reflexivity |].
  intros Hput. destruct (Hq1 Hput) as (queued & Hitems & Hall & Hhist).
  exists queued. rewrite Hi2, Hh2.
  split; [exact Hitems |]. split; [exact Hall | exact Hhist].
Qed.

(** C7. A message sent on a hub whose queue accepts items is appended to
    the history when it is sent. When the dispatch loop takes from the
    queue a message whose recipient has no subscribed handler, the turn
    invokes exactly the broadcast observers, each once with that
    message, in registration order, and nothing else; the delivered
    count is unchanged, and so is the failed count (the observers' own
    sends cannot fail on a queue that accepts items). The observers do
    run: the state of the surrounding program after the turn is the one
    their reactions to the message leave, each starting from the state
    the one before left, also after one that raised. The message has
    left the queue: on a queue that accepts items the queue then holds
    the items that were behind it, followed by the messages the
    observers sent, in order, which are also what the history has grown
    by. *)
Theorem unhandled_message_dropped_but_observed :
  (forall (message : Message.t) (w : World Ext),
      put_error (message_queue (hub w)) = None ->
      exists w',
        send_message message w = (Return true, w') /\
        message_history (hub w') =
          message_history (hub w) ++ [claimed message w]) /\
  (forall (w : World Ext) (p : Z) (message : Message.t) rest,
      items (message_queue (hub w)) = (p, message) :: rest ->
      dict_get (Message.recipient message) (subscribers (hub w)) = None ->
      exists w',
        _process_one w = (Return tt, w') /\
        calls w' =
          calls w ++
          map (fun cb => (cb, message)) (broadcast_subscribers (hub w)) /\
        total_delivered (delivery_stats (hub w')) =
          total_delivered (delivery_stats (hub w)) /\
        (put_error (message_queue (hub w)) = None ->
         total_failed (delivery_stats (hub w')) =
           total_failed (delivery_stats (hub w))) /\
        ext w' =
          snd (observers_effect (broadcast_subscribers (hub w)) message
                 (ext w)) /\
        (put_error (message_queue (hub w)) = None ->
         exists queued,
           items (message_queue (hub w')) = rest ++ map queue_item queued /\
           Forall2 filed_as
             (fst (observers_effect (broadcast_subscribers (hub w)) message
                     (ext w)))
             queued /\
           message_history (hub w') = message_history (hub w) ++ queued)).
Proof.
  split.
  - intros message w Hput.
    destruct (send_message_healthy message w Hput) as (w' & Hrun & _ & Hhist & _).
    eauto.
  - intros w p message rest Hq Hnone.
    destruct (_process_one_unhandled w p message rest Hq Hnone)
      as (w' & Hrun & _ & (Hd & Hf) & Hcalls).
    destruct (_process_one_unhandled_run w p message rest Hq Hnone)
      as (w2 & Hrun2 & Hext & Hqueue).
    rewrite Hrun in Hrun2. injection Hrun2 as <-.
    exists w'. split; [exact Hrun |]. split; [exact Hcalls |].
    split; [exact Hd |]. split; [exact Hf |].
    split; [exact Hext | exact Hqueue].
Qed.

Lemma claimed_id (message : Message.t) w :
  Message.id (claimed message w) = Message.id message /\
  Message.priority (claimed message w) = Message.priority message /\
  Message.recipient (claimed message w) = Message.recipient message.
Proof. unfold claimed. destruct message; cbn. auto. Qed.

(** Messages sent one after the other lie in the queue in the order of
    sending, whatever their priorities. *)
Lemma send_order_is_queue_order (l : list Message.t) w :
  put_error (message_queue (hub w)) = None ->
  exists w',
    send_all l w = (Return tt, w') /\
    map (fun item => (Message.id (snd item), Message.priority (snd item)))
      (items (message_queue (hub w'))) =
    map (fun item => (Message.id (snd item), Message.priority (snd item)))
      (items (message_queue (hub w))) ++
    map (fun m => (Message.id m, Message.priority m)) l.
Proof.
  revert w. induction l as [| m l IH]; intros w Hput.
  - exists w. split; [reflexivity |]. cbn. now rewrite app_nil_r.
  - destruct (send_message_healthy m w Hput)
      as (w1 & Hrun & Hitems & _ & _ & _ & (_ & _ & _ & Hq) & _).
    destruct (IH w1) as (w2 & Hrest & Hmap); [congruence |].
    exists w2. split.
    + unfold send_all. cbn [for_each]. unfold bind at 1 2. rewrite Hrun.
      unfold ret at 1. exact Hrest.
    + rewrite Hmap, Hitems, map_app. cbn [map snd].
      destruct (claimed_id m w) as (-> & -> & _). now rewrite <- app_assoc.
Qed.

#[global] Instance observers_grow_preorder : PreOrder (@observers_grow Ext).
Proof.
  split.
  - intros w. unfold observers_grow. reflexivity.
  - intros w1 w2 w3. unfold observers_grow. intros H1 H2.
    etransitivity; eassumption.
Qed.

#[global] Instance observers_same_preorder : PreOrder (@observers_same Ext).
Proof.
  split.
  - intros w. reflexivity.
  - intros w1 w2 w3. unfold observers_same. congruence.
Qed.

Lemma observers_same_grow w w' : observers_same w w' -> observers_grow w w'.
Proof. unfold observers_same, observers_grow. now intros ->. Qed.

Lemma kept_observers_same w w' : kept w w' -> observers_same w w'.
Proof. now intros (_ & H & _). Qed.

Lemma send_message_observers (message : Message.t) :
  preserves (@observers_same Ext) (send_message message).
Proof.
  intros w r w' Hrun.
  destruct (send_message_frame message w) as (b & w1 & Hrun1 & Hk & _).
  rewrite Hrun1 in Hrun. injection Hrun as _ <-. now apply kept_observers_same.
Qed.

Lemma _process_one_observers : preserves (@observers_same Ext) _process_one.
Proof.
  intros w r w' Hrun.
  destruct (_process_one_kept w) as (w1 & Hrun1 & Hk).
  rewrite Hrun1 in Hrun. injection Hrun as _ <-. now apply kept_observers_same.
Qed.

Lemma in_env_observers {A} (m : M Env A) : preserves (@observers_same Ext) (in_env m).
Proof.
  intros w r w'. unfold in_env, zoom. destruct (m (env w)) as [r1 e1].
  intros [= _ <-]. reflexivity.
Qed.

Lemma assign_observers (f : t Ext -> t Ext) :
  (forall h, broadcast_subscribers (f h) = broadcast_subscribers h) ->
  preserves (@observers_same Ext) (assign f).
Proof. intros Hf. apply preserves_modify. intros w. apply Hf. Qed.

(** The run of [send_request]: the observer is appended, the request is
    sent, [during] runs, and the observer list at the end is the one
    [during] left. *)
Lemma send_request_run (sender recipient : AgentRole.t) (content : string)
    (message_type : MessageType.t) (during : M (World Ext) unit) w :
  exists r w' w1 rd wd,
    send_request sender recipient content message_type during w
      = (Return r, w') /\
    broadcast_subscribers (hub w1) =
      broadcast_subscribers (hub w) ++
      [ResponseHandler recipient (uuid_src (env w) (draws (env w)))
         (length (futures w))] /\
    during w1 = (rd, wd) /\
    broadcast_subscribers (hub w') = broadcast_subscribers (hub wd).
Proof.
  unfold send_request.
  erewrite bind_step by reflexivity.
  erewrite bind_step by reflexivity.
  erewrite bind_step by reflexivity.
  erewrite bind_step by reflexivity.
  match goal with |- context [try_except _ _ ?w0] => set (wb := w0) end.
  match goal with
  | |- context [send_message ?m] =>
      destruct (send_message_frame m wb) as (b & w1 & Hsend & Hk & _)
  end.
  destruct (during w1) as [rd wd] eqn:Hd.
  assert (Hb : broadcast_subscribers (hub w1) =
               broadcast_subscribers (hub w) ++
               [ResponseHandler recipient (uuid_src (env w) (draws (env w)))
                  (length (futures w))]).
  { destruct Hk as (_ & -> & _). reflexivity. }
  unfold try_except at 1. rewrite (bind_step _ _ _ _ _ Hsend).
  destruct rd as [[] | e].
  - rewrite (bind_step _ _ _ _ _ Hd).
    unfold bind at 1, future_state at 1, gets at 1.
    destruct (default Cancelled (futures wd !! _));
      eexists _, _, w1, _, wd; (split; [reflexivity |]);
      (split; [exact Hb |]); (split; [exact Hd |]); reflexivity.
  - rewrite (bind_raise _ _ _ _ _ Hd).
    eexists _, _, w1, _, wd. split; [reflexivity |].
    split; [exact Hb |]. split; [exact Hd | reflexivity].
Qed.

Lemma Op_nested_ind (P : Op Ext -> Prop) :
  P OpStart -> P OpStop ->
  (forall role callback, P (OpSubscribe role callback)) ->
  (forall callback, P (OpSubscribeToAll callback)) ->
  (forall message, P (OpSendMessage message)) ->
  P OpProcessOne ->
  (forall sender recipient content message_type during,
      Forall P during ->
      P (OpSendRequest sender recipient content message_type during)) ->
  (forall sender content message_type,
      P (OpBroadcastMessage sender content message_type)) ->
  (forall participants topic initial_data,
      P (OpStartNegotiation participants topic initial_data)) ->
  forall op, P op.
Proof.
  intros H1 H2 H3 H4 H5 H6 H7 H8 H9.
  fix IH 1.
  intros [ | | role cb | cb | m | | s r c k during | s c k | ps tp dt];
    try (clear IH; auto; fail).
  apply H7. induction during as [| o ops IHops]; constructor;
    [apply IH | exact IHops].
Qed.

Lemma turn_observers : preserves (@observers_same Ext) turn.
Proof.
  unfold turn. apply (preserves_bind observers_same); [apply (preserves_gets observers_same) |].
  intros [|]; [apply _process_one_observers | apply (preserves_ret observers_same)].
Qed.

Lemma _process_messages_observers (turns : nat) :
  preserves (@observers_same Ext) (_process_messages turns).
Proof.
  induction turns as [| n IH]; cbn [_process_messages].
  - apply (preserves_ret observers_same).
  - apply (preserves_bind observers_same); [apply (preserves_gets observers_same) |].
    intros [|]; [| apply (preserves_ret observers_same)].
    apply (preserves_bind observers_same); [apply _process_one_observers | intros _; exact IH].
Qed.

Lemma post_observers (message : Message.t) :
  preserves (@observers_same Ext) (_ <- send_message message ;; ret tt).
Proof.
  apply (preserves_bind observers_same); [apply send_message_observers |].
  intros _. apply (preserves_ret observers_same).
Qed.

Lemma start_observers : preserves (@observers_same Ext) start.
Proof.
  unfold start. apply (preserves_bind observers_same); [apply (preserves_gets observers_same) |].
  intros [|]; [apply (preserves_ret observers_same) | now apply assign_observers].
Qed.

Lemma stop_observers : preserves (@observers_same Ext) stop.
Proof.
  unfold stop. apply (preserves_bind observers_same); [apply (preserves_gets observers_same) |].
  intros [task |]; now apply assign_observers.
Qed.

Lemma broadcast_message_observers (sender : AgentRole.t) (content : string)
    (message_type : MessageType.t) :
  preserves (@observers_same Ext)
    (broadcast_message sender content message_type).
Proof.
  unfold broadcast_message. apply (preserves_bind observers_same); [apply (preserves_gets observers_same) |].
  intros subs. apply (preserves_for_each observers_same). intros role.
  destruct (AgentRole.eqb role sender); [apply (preserves_ret observers_same) |].
  apply (preserves_bind observers_same); [apply in_env_observers |]. intros i.
  apply (preserves_bind observers_same); [apply in_env_observers |]. intros message.
  apply post_observers.
Qed.

Lemma start_negotiation_observers (participants : list AgentRole.t)
    (topic : string) (initial_data : option dict) :
  preserves (@observers_same Ext)
    (start_negotiation participants topic initial_data).
Proof.
  unfold start_negotiation.
  apply (preserves_bind observers_same); [apply in_env_observers |]. intros negotiation_id.
  apply (preserves_bind observers_same); [apply in_env_observers |]. intros now.
  apply (preserves_bind observers_same); [now apply assign_observers |]. intros _.
  apply (preserves_bind observers_same); [| intros _; apply (preserves_ret observers_same)].
  apply (preserves_for_each observers_same). intros participant.
  apply (preserves_bind observers_same); [apply in_env_observers |]. intros i.
  apply (preserves_bind observers_same); [apply in_env_observers |]. intros message.
  apply post_observers.
Qed.

Lemma run_ops_observers_grow (ops : list (Op Ext)) :
  Forall (fun o => preserves observers_grow (exec o)) ops ->
  preserves observers_grow
    ((fix run (ops : list (Op Ext)) : M (World Ext) unit :=
        match ops with
        | [] => ret tt
        | o :: ops' => exec o ;; run ops'
        end) ops).
Proof.
  induction 1 as [| o ops Ho _ IH].
  - apply (preserves_ret observers_grow).
  - apply (preserves_bind observers_grow); [exact Ho | intros _; exact IH].
Qed.

Lemma exec_observers_grow (op : Op Ext) : preserves observers_grow (exec op).
Proof.
  induction op as
    [ | | role cb | cb | message | | sender recipient content message_type
      during IH | sender content message_type | participants topic data]
    using Op_nested_ind; cbn [exec].
  - eapply (preserves_weaken observers_same); [apply observers_same_grow | apply start_observers].
  - eapply (preserves_weaken observers_same); [apply observers_same_grow | apply stop_observers].
  - eapply (preserves_weaken observers_same); [apply observers_same_grow |].
    now apply assign_observers.
  - apply (preserves_modify observers_grow). intros w. unfold observers_grow. cbn.
    now apply prefix_app_r.
  - eapply (preserves_weaken observers_same); [apply observers_same_grow | apply post_observers].
  - eapply (preserves_weaken observers_same); [apply observers_same_grow | apply turn_observers].
  - apply run_ops_observers_grow in IH.
    intros w r w' Hrun.
    match type of Hrun with
    | bind (send_request _ _ _ _ ?d) _ _ = _ =>
        destruct (send_request_run sender recipient content message_type d w)
          as (r0 & w0 & w1 & rd & wd & Hreq & Hb & Hd & Hend)
    end.
    rewrite (bind_step _ _ _ _ _ Hreq) in Hrun. injection Hrun as _ <-.
    unfold observers_grow. rewrite Hend.
    transitivity (broadcast_subscribers (hub w1)).
    + rewrite Hb. now apply prefix_app_r.
    + exact (IH _ _ _ Hd).
  - eapply (preserves_weaken observers_same); [apply observers_same_grow |].
    apply broadcast_message_observers.
  - eapply (preserves_weaken observers_same); [apply observers_same_grow |].
    apply (preserves_bind observers_same); [apply start_negotiation_observers |].
    intros _. apply (preserves_ret observers_same).
Qed.

(** C9. Whatever runs while [send_request] is suspended, and so on each
    of its exit paths, the call returns normally; if what runs in
    between leaves the observer list alone, the list after the call is
    the list before it followed by the response handler of this call, so
    one element longer. No operation of the hub, and no turn of its
    dispatch loop, removes an observer: the list before is an initial
    segment of the list after. *)
Theorem send_request_leaves_observer :
  (forall (sender recipient : AgentRole.t) (content : string)
          (message_type : MessageType.t) (during : M (World Ext) unit)
          (w : World Ext),
      preserves observers_same during ->
      exists r w',
        send_request sender recipient content message_type during w
          = (Return r, w') /\
        broadcast_subscribers (hub w') =
          broadcast_subscribers (hub w) ++
          [ResponseHandler recipient (uuid_src (env w) (draws (env w)))
             (length (futures w))] /\
        length (broadcast_subscribers (hub w')) =
          Datatypes.S (length (broadcast_subscribers (hub w)))) /\
  (forall (op : Op Ext) (w : World Ext) r w',
      exec op w = (r, w') ->
      broadcast_subscribers (hub w) `prefix_of` broadcast_subscribers (hub w') /\
      (length (broadcast_subscribers (hub w)) <=
         length (broadcast_subscribers (hub w')))%nat).
Proof.
  split.
  - intros sender recipient content message_type during w Hduring.
    destruct (send_request_run sender recipient content message_type during w)
      as (r & w' & w1 & rd & wd & Hreq & Hb & Hd & Hend).
    exists r, w'. split; [exact Hreq |].
    assert (Hlist : broadcast_subscribers (hub w') =
                    broadcast_subscribers (hub w) ++
                    [ResponseHandler recipient (uuid_src (env w) (draws (env w)))
                       (length (futures w))]).
    { rewrite Hend, <- Hb. exact (Hduring _ _ _ Hd). }
    split; [exact Hlist |]. rewrite Hlist, length_app. cbn. lia.
  - intros op w r w' Hrun.
    pose proof (exec_observers_grow op w r w' Hrun) as Hgrow.
    split; [exact Hgrow | now apply prefix_length].
Qed.

Lemma send_all_enqueues (l : list Message.t) w :
  put_error (message_queue (hub w)) = None ->
  exists w' l',
    send_all l w = (Return tt, w') /\
    items (message_queue (hub w')) =
      items (message_queue (hub w)) ++ map (fun m => (MessagePriority.value (Message.priority m), m)) l' /\
    Forall2 same_routing l l' /\
    kept w w' /\ calls w' = calls w.
Proof.
  revert w. induction l as [| m l IH]; intros w Hput.
  - exists w, []. split; [reflexivity |]. cbn. rewrite app_nil_r.
    auto using kept_refl.
  - destruct (send_message_healthy m w Hput)
      as (w1 & Hrun & Hitems & _ & _ & _ & Hk1 & _ & _ & Hc1).
    destruct (IH w1) as (w2 & l' & Hrest & Hitems2 & Hall & Hk2 & Hc2).
    { destruct Hk1 as (_ & _ & _ & ->). exact Hput. }
    exists w2, (claimed m w :: l'). split.
    + unfold send_all. cbn [for_each]. unfold bind at 1 2. rewrite Hrun.
      unfold ret at 1. exact Hrest.
    + split.
      * rewrite Hitems2, Hitems. cbn [map].
        destruct (claimed_id m w) as (_ & Hp & _). rewrite Hp.
        now rewrite <- app_assoc.
      * split; [constructor; [apply claimed_id | exact Hall] |].
        split; [eauto using kept_trans | congruence].
Qed.

Lemma call_quiet (cb : Callable Ext) (m : Message.t) w :
  quiet cb ->
  exists w',
    call cb m w = (Return tt, w') /\
    hub w' = hub w /\ calls w' = calls w ++ [(cb, m)].
Proof.
  intros (name & run & -> & Hquiet). unfold call.
  unfold bind at 1, modify at 1. unfold bind at 1.
  specialize (Hquiet m (ext (set_calls (calls w ++ [(External name run, m)]) w))).
  destruct (run m _) as [r x]. cbn in Hquiet. subst r.
  eexists. split; [reflexivity |]. split; reflexivity.
Qed.

(** A queue of messages whose recipients have quiet handlers is drained
    from its head: the turns invoke the handlers on the messages in
    queue order. *)
Lemma drain_in_order (l : list Message.t) w :
  is_running (hub w) = true ->
  items (message_queue (hub w)) =
    map (fun m => (MessagePriority.value (Message.priority m), m)) l ->
  broadcast_subscribers (hub w) = [] ->
  staffed_by_quiet w l ->
  exists w',
    _process_messages (length l) w = (Return tt, w') /\
    map snd (calls w') = map snd (calls w) ++ l /\
    items (message_queue (hub w')) = [].
Proof.
  revert w. induction l as [| m l IH]; intros w Hrun Hq Hobs Hstaff.
  - exists w. split; [reflexivity |]. rewrite app_nil_r. auto.
  - cbn [length _process_messages].
    unfold bind at 1, self at 1, gets at 1. rewrite Hrun.
    destruct (Hstaff m) as (cb & Hcb & Hquiet); [now left |].
    cbn [map] in Hq.
    assert (Hturn : exists w1,
      _process_one w = (Return tt, w1) /\
      calls w1 = calls w ++ [(cb, m)] /\
      items (message_queue (hub w1)) =
        map (fun m => (MessagePriority.value (Message.priority m), m)) l /\
      is_running (hub w1) = true /\
      broadcast_subscribers (hub w1) = [] /\
      subscribers (hub w1) = subscribers (hub w)).
    { unfold _process_one. unfold try_except at 1, bind at 1.
      rewrite (queue_get_head w _ _ Hq).
      match goal with |- context [set_hub ?h w] => set (w0 := set_hub h w) end.
      unfold bind at 1, self at 1, gets at 1.
      change (subscribers (hub w0)) with (subscribers (hub w)). rewrite Hcb.
      destruct (call_quiet cb m w0 Hquiet) as (w1 & Hcall & Hhub & Hcalls).
      unfold bind at 1, try_except at 1, bind at 1. rewrite Hcall.
      unfold bump at 1, assign at 1, modify at 1.
      unfold bind at 1, self at 1, gets at 1.
      cbn [hub set_hub broadcast_subscribers set_delivery_stats].
      rewrite Hhub. cbn [hub set_hub broadcast_subscribers set_message_queue w0].
      rewrite Hobs. cbn [for_each]. unfold bind at 1, ret at 1.
      unfold task_done, bind, self, gets. cbn [hub set_hub message_queue set_delivery_stats set_message_queue unfinished_tasks].
      destruct (unfinished_tasks (message_queue (hub w)) <=? 0);
        eexists; (split; [reflexivity |]); cbn; rewrite ?Hhub; cbn; auto. }
    destruct Hturn as (w1 & Hone & Hcalls & Hitems & Hrun1 & Hobs1 & Hsubs1).
    rewrite (bind_step _ _ _ _ _ Hone).
    destruct (IH w1 Hrun1 Hitems Hobs1) as (w2 & Hrest & Hcalls2 & Hempty).
    { intros m' Hin. rewrite Hsubs1. apply Hstaff. now right. }
    exists w2. split; [exact Hrest |]. split; [| exact Hempty].
    rewrite Hcalls2, Hcalls, map_app. cbn. now rewrite <- app_assoc.
Qed.

Lemma Forall2_In_r {A B} (R : A -> B -> Prop) (l : list A) (l' : list B) (y : B) :
  Forall2 R l l' -> In y l' -> exists x, In x l /\ R x y.
Proof.
  induction 1 as [| x y' l l' Hxy _ IH]; intros Hin; [destruct Hin |].
  destruct Hin as [<- | Hin].
  - exists x. split; [now left | exact Hxy].
  - destruct (IH Hin) as (x' & Hx' & HR). exists x'. split; [now right | exact HR].
Qed.

(** On a running hub with an empty queue that accepts items, no
    observers, and a quiet handler for the recipient of every message of
    [l]: when the messages of [l] are sent and the dispatch loop then
    takes as many turns, the handlers receive the messages in the order
    of sending, whatever their priorities. *)
Lemma dispatch_is_first_in_first_out (l : list Message.t) w :
  put_error (message_queue (hub w)) = None ->
  is_running (hub w) = true ->
  items (message_queue (hub w)) = [] ->
  broadcast_subscribers (hub w) = [] ->
  staffed_by_quiet w l ->
  exists w' l',
    (send_all l ;; _process_messages (length l)) w = (Return tt, w') /\
    map snd (calls w') = map snd (calls w) ++ l' /\
    Forall2 same_routing l l'.
Proof.
  intros Hput Hrun Hempty Hobs Hstaff.
  destruct (send_all_enqueues l w Hput)
    as (w1 & l' & Hsend & Hitems & Hall & (Hsubs & Hobs1 & Hrun1 & _) & Hcalls).
  rewrite Hempty in Hitems. cbn [app] in Hitems.
  destruct (drain_in_order l' w1) as (w2 & Hdrain & Hcalls2 & _).
  - congruence.
  - exact Hitems.
  - congruence.
  - intros m' Hin.
    destruct (Forall2_In_r _ _ _ _ Hall Hin) as (m & Hm & (_ & _ & Hrec)).
    destruct (Hstaff m Hm) as (cb & Hcb & Hquiet).
    exists cb. split; [| exact Hquiet]. now rewrite Hsubs, Hrec.
  - exists w2, l'. split.
    + rewrite (bind_step _ _ _ _ _ Hsend).
      rewrite (Forall2_length _ _ _ Hall). exact Hdrain.
    + split; [congruence | exact Hall].
Qed.

End HubFacts.

Section HubRuns.

Import CommunicationHub.

(** C1. On the sample run (hub started, the tester subscribed, four
    messages with priorities low, urgent, medium, urgent sent in that
    order, four turns of the dispatch loop) the handler receives the
    messages in the order of sending, low first: the queue is a plain
    first-in-first-out queue and the priority stored with each item is
    never compared. The order is not urgent, urgent, medium, low. *)
Theorem dispatch_order_is_send_order :
  let w := snd (Sample.priority_run Sample.fresh) in
  map (fun c => (Message.id (snd c), Message.priority (snd c))) (calls w) =
    [("msg-1", MessagePriority.LOW); ("msg-2", MessagePriority.URGENT);
     ("msg-3", MessagePriority.MEDIUM); ("msg-4", MessagePriority.URGENT)] /\
  map (fun c => Message.priority (snd c)) (calls w) <>
    [MessagePriority.URGENT; MessagePriority.URGENT; MessagePriority.MEDIUM;
     MessagePriority.LOW] /\
  total_delivered (delivery_stats (hub w)) = 4.
Proof. vm_compute. repeat split; discriminate. Qed.

(** On the hub with one observer and no handler, the queued task goes to
    the observer alone and the counters stay at zero; a message sent on
    the new hub is the last of its history. *)
Lemma unhandled_message_dropped_but_observed_witness :
  (exists w',
      send_message (Sample.task "t-1" false) Sample.fresh = (Return true, w') /\
      message_history (hub w') =
        [claimed (Sample.task "t-1" false) Sample.fresh]) /\
  (exists w',
      _process_one Sample.observed = (Return tt, w') /\
      calls w' = [(Sample.monitor, Sample.task "t-1" false)] /\
      total_delivered (delivery_stats (hub w')) = 0 /\
      total_failed (delivery_stats (hub w')) = 0 /\
      items (message_queue (hub w')) = []) /\
  (exists w' queued,
      _process_one Sample.watched = (Return tt, w') /\
      calls w' = [(Sample.relay, Sample.task "t-1" false);
                  (Sample.scribe, Sample.task "t-1" false)] /\
      ext w' = ["relayed t-1"; "t-1"] /\
      items (message_queue (hub w')) = map queue_item queued /\
      Forall2 filed_as [Sample.status "1" MessagePriority.LOW] queued /\
      total_failed (delivery_stats (hub w')) = 0).
Proof.
  split; [| split].
  - destruct (@unhandled_message_dropped_but_observed unit) as (Hsend & _).
    apply (Hsend (Sample.task "t-1" false) Sample.fresh). reflexivity.
  - destruct (@unhandled_message_dropped_but_observed unit) as (_ & Hturn).
    destruct (Hturn Sample.observed 2 (Sample.task "t-1" false) [])
      as (w' & Hrun & Hcalls & Hdelivered & Hfailed & _ & Hqueue);
      [reflexivity | reflexivity |].
    exists w'. split; [exact Hrun |]. split; [exact Hcalls |].
    split; [exact Hdelivered |]. split; [apply Hfailed; reflexivity |].
    destruct (Hqueue eq_refl) as (queued & Hitems & Hall & _).
    rewrite Hitems. inversion Hall. reflexivity.
  - destruct (@unhandled_message_dropped_but_observed (list string))
      as (_ & Hturn).
    destruct (Hturn Sample.watched 2 (Sample.task "t-1" false) [])
      as (w' & Hrun & Hcalls & _ & Hfailed & Hext & Hqueue);
      [reflexivity | reflexivity |].
    destruct (Hqueue eq_refl) as (queued & Hitems & Hall & _).
    exists w', queued. split; [exact Hrun |]. split; [exact Hcalls |].
    split; [exact Hext |]. split; [exact Hitems |].
    split; [exact Hall | apply Hfailed; reflexivity].
Defined.

(** The three exit paths of a request to the subscribed developer: the
    response arrives during three turns of the dispatch loop; nothing
    runs before the deadline; an exception surfaces at the await. *)
Example send_request_exit_paths :
  let request during :=
    send_request AgentRole.PRODUCT_MANAGER AgentRole.DEVELOPER "ping"
      MessageType.TASK_REQUEST during Sample.staffed in
  (exists response w',
      request (_process_messages 3) = (Return (Some response), w') /\
      Message.content response = "Developer will implement: ping" /\
      length (broadcast_subscribers (hub w')) = 1%nat) /\
  (exists w',
      request (ret tt) = (Return None, w') /\
      futures w' = [Cancelled] /\
      length (broadcast_subscribers (hub w')) = 1%nat) /\
  (exists w',
      request (raise (Exception "lost")) = (Return None, w') /\
      length (broadcast_subscribers (hub w')) = 1%nat).
Proof.
  cbv zeta. split; [| split].
  - eexists _, _. split; [vm_compute; reflexivity |]. split; reflexivity.
  - eexists. split; [vm_compute; reflexivity |]. split; reflexivity.
  - eexists. split; [vm_compute; reflexivity |]. reflexivity.
Qed.

(** On the hub with the developer subscribed, a request answered during
    three turns of the dispatch loop, and one that times out at once,
    each leave the observer list one element longer. *)
Lemma send_request_leaves_observer_witness :
  (exists r w',
      send_request AgentRole.PRODUCT_MANAGER AgentRole.DEVELOPER "ping"
        MessageType.TASK_REQUEST (_process_messages 3) Sample.staffed
        = (Return r, w') /\
      length (broadcast_subscribers (hub w')) =
        S (length (broadcast_subscribers (hub Sample.staffed)))) /\
  (exists r w',
      send_request AgentRole.PRODUCT_MANAGER AgentRole.DEVELOPER "ping"
        MessageType.TASK_REQUEST (ret tt) Sample.staffed
        = (Return r, w') /\
      length (broadcast_subscribers (hub w')) =
        S (length (broadcast_subscribers (hub Sample.staffed)))).
Proof.
  destruct (@send_request_leaves_observer unit) as (Hreq & _). split.
  - destruct (Hreq AgentRole.PRODUCT_MANAGER AgentRole.DEVELOPER "ping"
                MessageType.TASK_REQUEST (_process_messages 3) Sample.staffed
                (_process_messages_observers 3))
      as (r & w' & Hrun & _ & Hlen).
    exists r, w'. split; [exact Hrun | exact Hlen].
  - destruct (Hreq AgentRole.PRODUCT_MANAGER AgentRole.DEVELOPER "ping"
                MessageType.TASK_REQUEST (ret tt) Sample.staffed
                (preserves_ret observers_same tt))
      as (r & w' & Hrun & _ & Hlen).
    exists r, w'. split; [exact Hrun | exact Hlen].
Defined.

End HubRuns.

(* ===================================================================== *)
(** * Properties of the agent runtime *)
(* ===================================================================== *)

Section AgentFacts.

Import BaseAgent.

Context {Sub Ext : Type}.
Implicit Types w : World Sub Ext.

Lemma AgentState_eqb_eq (a b : AgentState.t) :
  AgentState.eqb a b = true <-> a = b.
Proof. destruct a, b; cbn; split; congruence. Qed.

Lemma callbacks_swallowed (callbacks : list StateCallback)
    (old_state new_state : AgentState.t) w :
  for_each callbacks
    (fun callback =>
       try_except
         (match callback old_state new_state with
          | Some e => raise e
          | None => ret tt
          end)
         (fun e => ret tt)) w = (Return tt, w).
Proof.
  induction callbacks as [| cb l IH]; [reflexivity |].
  cbn [for_each]. unfold bind at 1, try_except at 1.
  destruct (cb old_state new_state); cbn; exact IH.
Qed.

Lemma _change_state_run (s : AgentState.t) w :
  _change_state s w = (Return tt, changed s w).
Proof.
  unfold _change_state, changed.
  unfold bind at 1, self at 1, gets at 1.
  destruct (AgentState.eqb (state (agent w)) s); [reflexivity |].
  unfold bind at 1, assign at 1, modify at 1.
  unfold bind at 1, observe at 1, modify at 1.
  unfold bind at 1, self at 1, gets at 1.
  cbn [agent set_agent state set_state state_change_callbacks hubw trace].
  apply callbacks_swallowed.
Qed.

Lemma agent_changed (s : AgentState.t) w :
  agent (changed s w) = set_state s (agent w) /\ hubw (changed s w) = hubw w.
Proof.
  unfold changed.
  destruct (AgentState.eqb (state (agent w)) s) eqn:E; [| split; reflexivity].
  apply AgentState_eqb_eq in E. subst s. destruct (agent w); split; reflexivity.
Qed.

Lemma _handle_error_run (e : Exn) (context : string) w :
  _handle_error e context w = (Return tt, errored e w).
Proof.
  unfold _handle_error, errored.
  unfold bind at 1, assign at 1, modify at 1.
  unfold bind at 1, self at 1, gets at 1.
  set (w0 := set_agent _ w).
  assert (Hto_error :
    (if negb (AgentState.eqb (state (agent w0)) AgentState.ERROR)
     then _change_state AgentState.ERROR else ret tt) w0
    = (Return tt, changed AgentState.ERROR w0)).
  { unfold changed at 1.
    destruct (AgentState.eqb (state (agent w0)) AgentState.ERROR) eqn:E; cbn [negb].
    - reflexivity.
    - rewrite _change_state_run. unfold changed. now rewrite E. }
  rewrite (bind_step _ _ _ _ _ Hto_error).
  unfold bind at 1, self at 1, gets at 1.
  unfold bind at 1, self at 1, gets at 1.
  destruct (_ <=? _); [| reflexivity].
  unfold bind at 1, observe at 1, modify at 1.
  apply _change_state_run.
Qed.

Lemma agent_errored (e : Exn) w :
  agent (errored e w) =
    set_state
      (if error_count (agent w) + 1 <=? AgentConfig.retry_count (config (agent w))
       then AgentState.IDLE else AgentState.ERROR)
      (set_error (Some e) (error_count (agent w) + 1) (agent w)) /\
  hubw (errored e w) = hubw w.
Proof.
  unfold errored. cbv zeta.
  match goal with
  | |- context [changed AgentState.ERROR ?w0] =>
      destruct (agent_changed AgentState.ERROR w0) as (Ha & Hh);
      set (w1 := changed AgentState.ERROR w0) in *
  end.
  rewrite Ha. cbn [error_count config set_state set_agent agent set_error].
  destruct (_ <=? _).
  - match goal with
    | |- context [changed AgentState.IDLE ?w2] =>
        destruct (agent_changed AgentState.IDLE w2) as (Ha2 & Hh2)
    end.
    rewrite Ha2, Hh2. cbn [agent hubw]. rewrite ?Ha, ?Hh. split; reflexivity.
  - rewrite ?Ha, ?Hh. split; reflexivity.
Qed.

Lemma claimed_fields (message : Message.t) (hw : CommunicationHub.World Ext) :
  Message.sender (claimed message hw) = Message.sender message /\
  Message.recipient (claimed message hw) = Message.recipient message /\
  Message.message_type (claimed message hw) = Message.message_type message /\
  Message.content (claimed message hw) = Message.content message /\
  Message.metadata (claimed message hw) = Message.metadata message.
Proof. unfold claimed. destruct message; cbn. auto. Qed.

(** What [_send_response] does. *)
Lemma _send_response_run (original : Message.t) (text : string)
    (kind : MessageType.t) w :
  exists w' response,
    _send_response original text kind w = (Return tt, w') /\
    agent w' = set_metrics (AgentMetrics.sent (metrics (agent w))) (agent w) /\
    trace w' = trace w /\
    Message.sender response = AgentConfig.role (config (agent w)) /\
    Message.recipient response = Message.sender original /\
    Message.message_type response = kind /\
    Message.content response = text /\
    (exists d,
        Message.metadata response = Some d /\
        d !! "response_to" = Some (VStr (Message.id original))) /\
    CommunicationHub.put_error
      (CommunicationHub.message_queue (CommunicationHub.hub (hubw w'))) =
    CommunicationHub.put_error
      (CommunicationHub.message_queue (CommunicationHub.hub (hubw w))) /\
    match CommunicationHub.put_error
            (CommunicationHub.message_queue (CommunicationHub.hub (hubw w)))
    with
    | None =>
        CommunicationHub.message_history (CommunicationHub.hub (hubw w')) =
          CommunicationHub.message_history (CommunicationHub.hub (hubw w))
          ++ [response]
    | Some _ =>
        CommunicationHub.message_history (CommunicationHub.hub (hubw w')) =
          CommunicationHub.message_history (CommunicationHub.hub (hubw w))
    end.
Proof.
  unfold _send_response.
  erewrite bind_step by reflexivity.
  erewrite bind_step by reflexivity.
  erewrite bind_step by reflexivity.
  erewrite bind_step by reflexivity.
  erewrite bind_step by reflexivity.
  match goal with
  | |- context [bind (in_hub (CommunicationHub.send_message ?m)) _ ?w0] =>
      set (response := m); set (wb := w0)
  end.
  assert (Hq : CommunicationHub.put_error
                 (CommunicationHub.message_queue
                    (CommunicationHub.hub (hubw wb))) =
               CommunicationHub.put_error
                 (CommunicationHub.message_queue
                    (CommunicationHub.hub (hubw w)))) by reflexivity.
  assert (Hh : CommunicationHub.message_history
                 (CommunicationHub.hub (hubw wb)) =
               CommunicationHub.message_history
                 (CommunicationHub.hub (hubw w))) by reflexivity.
  unfold bind at 1, in_hub at 1, zoom at 1.
  destruct (CommunicationHub.put_error
              (CommunicationHub.message_queue (CommunicationHub.hub (hubw w))))
    as [err |] eqn:Hput.
  - rewrite (send_message_faulty response (hubw wb) err Hq).
    eexists _, response. split; [reflexivity |].
    repeat (split; [reflexivity |]).
    split; [eexists; split; [reflexivity | reflexivity] |].
    split; [exact Hq | exact Hh].
  - destruct (send_message_healthy response (hubw wb) Hq)
      as (hw' & Hrun & _ & Hhist & _ & _ & (_ & _ & _ & Hq') & _).
    rewrite Hrun.
    destruct (claimed_fields response (hubw wb)) as (F1 & F2 & F3 & F4 & F5).
    eexists _, (claimed response (hubw wb)). split; [reflexivity |].
    split; [reflexivity |]. split; [reflexivity |].
    split; [rewrite F1; reflexivity |]. split; [rewrite F2; reflexivity |].
    split; [rewrite F3; reflexivity |]. split; [rewrite F4; reflexivity |].
    split; [rewrite F5; eexists; split; [reflexivity | reflexivity] |].
    cbn [hubw set_hubw agent set_agent]. split; [congruence |].
    rewrite Hhist, Hh. reflexivity.
Qed.

(** On a queue that accepts items the response of [_send_response] is
    put into the queue of the hub, behind the items waiting there, with
    the value of its priority, which is medium. *)
Lemma _send_response_queued_run (original : Message.t) (text : string)
    (kind : MessageType.t) w :
  CommunicationHub.put_error
    (CommunicationHub.message_queue (CommunicationHub.hub (hubw w))) = None ->
  exists w' response,
    _send_response original text kind w = (Return tt, w') /\
    CommunicationHub.message_history (CommunicationHub.hub (hubw w')) =
      CommunicationHub.message_history (CommunicationHub.hub (hubw w))
      ++ [response] /\
    CommunicationHub.items
      (CommunicationHub.message_queue (CommunicationHub.hub (hubw w'))) =
      CommunicationHub.items
        (CommunicationHub.message_queue (CommunicationHub.hub (hubw w)))
      ++ [(MessagePriority.value MessagePriority.MEDIUM, response)] /\
    CommunicationHub.unfinished_tasks
      (CommunicationHub.message_queue (CommunicationHub.hub (hubw w'))) =
      CommunicationHub.unfinished_tasks
        (CommunicationHub.message_queue (CommunicationHub.hub (hubw w))) + 1.
Proof.
  intros Hput. unfold _send_response.
  erewrite bind_step by reflexivity.
  erewrite bind_step by reflexivity.
  erewrite bind_step by reflexivity.
  erewrite bind_step by reflexivity.
  erewrite bind_step by reflexivity.
  match goal with
  | |- context [bind (in_hub (CommunicationHub.send_message ?m)) _ ?w0] =>
      set (response := m); set (wb := w0)
  end.
  assert (Hq : CommunicationHub.put_error
                 (CommunicationHub.message_queue
                    (CommunicationHub.hub (hubw wb))) = None) by exact Hput.
  assert (Hh : CommunicationHub.message_history
                 (CommunicationHub.hub (hubw wb)) =
               CommunicationHub.message_history
                 (CommunicationHub.hub (hubw w))) by reflexivity.
  assert (Hi : CommunicationHub.message_queue
                 (CommunicationHub.hub (hubw wb)) =
               CommunicationHub.message_queue
                 (CommunicationHub.hub (hubw w))) by reflexivity.
  unfold bind at 1, in_hub at 1, zoom at 1.
  destruct (send_message_healthy response (hubw wb) Hq)
    as (hw' & Hrun & Hitems & Hhist & _ & Hunfinished & _).
  rewrite Hrun.
  eexists _, (claimed response (hubw wb)). split; [reflexivity |].
  cbn [hubw set_hubw agent set_agent].
  rewrite Hhist, Hitems, Hunfinished, Hh, Hi.
  split; [reflexivity |]. split; [reflexivity | reflexivity].
Qed.

Lemma _send_response_queued (original : Message.t) (text : string)
    (kind : MessageType.t) w w' (response : Message.t) :
  _send_response original text kind w = (Return tt, w') ->
  CommunicationHub.put_error
    (CommunicationHub.message_queue (CommunicationHub.hub (hubw w))) = None ->
  CommunicationHub.message_history (CommunicationHub.hub (hubw w')) =
    CommunicationHub.message_history (CommunicationHub.hub (hubw w))
    ++ [response] ->
  CommunicationHub.items
    (CommunicationHub.message_queue (CommunicationHub.hub (hubw w'))) =
    CommunicationHub.items
      (CommunicationHub.message_queue (CommunicationHub.hub (hubw w)))
    ++ [(MessagePriority.value MessagePriority.MEDIUM, response)] /\
  CommunicationHub.unfinished_tasks
    (CommunicationHub.message_queue (CommunicationHub.hub (hubw w'))) =
    CommunicationHub.unfinished_tasks
      (CommunicationHub.message_queue (CommunicationHub.hub (hubw w))) + 1.
Proof.
  intros Hrun Hput Hhist.
  destruct (_send_response_queued_run original text kind w Hput)
    as (w2 & response2 & Hrun2 & Hhist2 & Hitems & Hunfinished).
  rewrite Hrun in Hrun2. injection Hrun2 as <-.
  rewrite Hhist in Hhist2. apply app_inj_tail in Hhist2 as (_ & <-).
  split; assumption.
Qed.

Ltac agent_cbn :=
  cbn [agent hubw trace set_agent set_hubw
       config agent_id state start_time short_term_memory conversation_history
       context_cache metrics message_handlers state_change_callbacks
       last_error error_count sub
       set_state set_conversation_history set_metrics set_message_handlers
       set_state_change_callbacks set_error set_sub].

Ltac step := erewrite bind_step by reflexivity; agent_cbn.

Lemma received_fields (message : Message.t) w :
  state (agent (received message w)) = state (agent w) /\
  message_handlers (agent (received message w)) = message_handlers (agent w) /\
  sub (agent (received message w)) = sub (agent w).
Proof. unfold received. agent_cbn. auto. Qed.

(** The run of [_handle_message] when the applicable hook raises. *)
Lemma _handle_message_failure (handle_message : Hook Sub)
    (message : Message.t) w (e : Exn) (x : Sub) :
  applicable handle_message message (agent w) message (sub (agent w))
    = (Raise e, x) ->
  exists w7,
    _handle_message handle_message message w
      = (Return tt, changed (target_state (state (agent w))) w7) /\
    if Message.requires_response message
    then
      _send_response message ("Error processing request: " +:+ str e)
        MessageType.ERROR_REPORT (caught message e x w) = (Return tt, w7)
    else w7 = caught message e x w.
Proof.
  intros Hhook. unfold _handle_message.
  unfold try_except at 1.
  step. step. step. step. step.
  match goal with
  | |- context [bind (if ?c then _ else _) _ ?w0] =>
      assert (Htrim : (if c
                       then assign
                              (set_conversation_history
                                 (slice_last
                                    (AgentConfig.max_memory_size (config (agent w)))
                                    (conversation_history (agent w) ++ [message])))
                       else ret tt) w0 = (Return tt, received message w))
        by (unfold received; destruct c; reflexivity)
  end.
  rewrite (bind_step _ _ _ _ _ Htrim). clear Htrim.
  destruct (received_fields message w) as (Hst & Hmh & Hsub).
  unfold bind at 1, self at 1, gets at 1. rewrite Hst.
  rewrite (bind_step _ _ _ _ _ (_change_state_run _ _)).
  fold (target_state (state (agent w))).
  destruct (agent_changed AgentState.PROCESSING (received message w))
    as (Ha3 & Hh3).
  unfold caught. cbv zeta.
  set (w3 := changed AgentState.PROCESSING (received message w)) in *.
  unfold try_finally at 1, try_except at 1.
  unfold bind at 1, self at 1, gets at 1.
  assert (Hrun :
    match handler_for (Message.message_type message)
            (message_handlers (agent w3)) with
    | Some h => run_hook h message
    | None => run_hook handle_message message
    end w3 = (Raise e, set_agent (set_sub x (agent w3)) w3)).
  { unfold applicable in Hhook. rewrite Ha3. agent_cbn. rewrite Hmh.
    destruct (handler_for _ _); unfold run_hook; rewrite Ha3; agent_cbn;
      rewrite Hsub, Hhook; reflexivity. }
  rewrite (bind_raise _ _ _ _ _ Hrun).
  step.
  rewrite (bind_step _ _ _ _ _ (_handle_error_run _ _ _)).
  match goal with
  | |- context [errored e ?w5] => set (w6 := errored e w5)
  end.
  destruct (Message.requires_response message).
  - destruct (_send_response_run message
                ("Error processing request: " +:+ str e)
                MessageType.ERROR_REPORT w6) as (w7 & response & Hsend & _).
    rewrite Hsend. rewrite _change_state_run.
    exists w7. split; [reflexivity | exact Hsend].
  - unfold ret at 1. rewrite _change_state_run.
    exists w6. split; reflexivity.
Qed.

Lemma caught_fields (message : Message.t) (e : Exn) (x : Sub) w :
  let a := agent (caught message e x w) in
  AgentMetrics.tasks_failed (metrics a) =
    AgentMetrics.tasks_failed (metrics (agent w)) + 1 /\
  AgentMetrics.messages_sent (metrics a) =
    AgentMetrics.messages_sent (metrics (agent w)) /\
  last_error a = Some e /\
  error_count a = error_count (agent w) + 1 /\
  config a = config (agent w) /\
  CommunicationHub.hub (hubw (caught message e x w)) =
    CommunicationHub.hub (hubw w).
Proof.
  unfold caught. cbv zeta.
  match goal with
  | |- context [errored e ?w5] =>
      destruct (agent_errored e w5) as (Ha & Hh); rewrite Ha, Hh
  end.
  agent_cbn.
  destruct (agent_changed AgentState.PROCESSING (received message w))
    as (Ha3 & Hh3).
  rewrite Ha3, Hh3. unfold received. agent_cbn. cbn. auto 10.
Qed.

(** C5. If the hook that applies to a message (the handler registered
    for its type, or else [handle_message]) raises, [_handle_message]
    still returns normally, so nothing is raised into the dispatch loop
    of the hub. The failed count has grown by one, the exception is the
    last error and the error count has grown by one. If the message
    requires a response, [_send_response] was called once (the sent
    count has grown by one) and, on a queue that accepts items, the
    history of the hub has grown by exactly one message: an error report
    from the agent's role to the sender of the message, whose content is
    the failure description and whose metadata names the id of the
    message under "response_to"; and that message has been put into the
    queue of the hub, behind the items waiting there, as the one new
    item to dispatch. If the message requires no response, nothing was
    sent: the history and the queue of the hub are as before. *)
Theorem handler_failure_is_contained (handle_message : Hook Sub)
    (message : Message.t) (w : World Sub Ext) (e : Exn) (x : Sub) :
  applicable handle_message message (agent w) message (sub (agent w))
    = (Raise e, x) ->
  exists w',
    _handle_message handle_message message w = (Return tt, w') /\
    AgentMetrics.tasks_failed (metrics (agent w')) =
      AgentMetrics.tasks_failed (metrics (agent w)) + 1 /\
    last_error (agent w') = Some e /\
    error_count (agent w') = error_count (agent w) + 1 /\
    if Message.requires_response message
    then
      AgentMetrics.messages_sent (metrics (agent w')) =
        AgentMetrics.messages_sent (metrics (agent w)) + 1 /\
      (CommunicationHub.put_error
         (CommunicationHub.message_queue (CommunicationHub.hub (hubw w)))
         = None ->
       exists response d,
         CommunicationHub.message_history (CommunicationHub.hub (hubw w')) =
           CommunicationHub.message_history (CommunicationHub.hub (hubw w))
           ++ [response] /\
         Message.message_type response = MessageType.ERROR_REPORT /\
         Message.content response = "Error processing request: " +:+ str e /\
         Message.metadata response = Some d /\
         d !! "response_to" = Some (VStr (Message.id message)) /\
         Message.sender response = AgentConfig.role (config (agent w)) /\
         Message.recipient response = Message.sender message /\
         CommunicationHub.items
           (CommunicationHub.message_queue
              (CommunicationHub.hub (hubw w'))) =
           CommunicationHub.items
             (CommunicationHub.message_queue
                (CommunicationHub.hub (hubw w)))
           ++ [(MessagePriority.value MessagePriority.MEDIUM, response)] /\
         CommunicationHub.unfinished_tasks
           (CommunicationHub.message_queue
              (CommunicationHub.hub (hubw w'))) =
           CommunicationHub.unfinished_tasks
             (CommunicationHub.message_queue
                (CommunicationHub.hub (hubw w))) + 1)
    else
      AgentMetrics.messages_sent (metrics (agent w')) =
        AgentMetrics.messages_sent (metrics (agent w)) /\
      CommunicationHub.message_history (CommunicationHub.hub (hubw w')) =
        CommunicationHub.message_history (CommunicationHub.hub (hubw w)) /\
      CommunicationHub.message_queue (CommunicationHub.hub (hubw w')) =
        CommunicationHub.message_queue (CommunicationHub.hub (hubw w)).
Proof.
  intros Hhook.
  destruct (_handle_message_failure handle_message message w e x Hhook)
    as (w7 & Hrun & Hw7).
  destruct (caught_fields message e x w) as (Hf & Hs & Hl & Hc & Hcfg & Hhub).
  destruct (agent_changed (target_state (state (agent w))) w7) as (Ha & Hh).
  exists (changed (target_state (state (agent w))) w7).
  split; [exact Hrun |]. rewrite Ha, Hh. clear Hrun Ha Hh Hhook.
  revert Hw7 Hf Hs Hl Hc Hcfg Hhub.
  generalize (caught message e x w). intros wc Hw7 Hf Hs Hl Hc Hcfg Hhub.
  assert (Hset : forall s (a : t Sub),
             metrics (set_state s a) = metrics a /\
             last_error (set_state s a) = last_error a /\
             error_count (set_state s a) = error_count a)
    by (intros s a; repeat split).
  destruct (Hset (target_state (state (agent w))) (agent w7))
    as (-> & -> & ->). clear Hset.
  destruct (Message.requires_response message).
  - destruct (_send_response_run message
                ("Error processing request: " +:+ str e)
                MessageType.ERROR_REPORT wc)
      as (w8 & response & Hsend & Hagent & _ & F1 & F2 & F3 & F4 & (d & F5 & F6)
          & _ & Hhist).
    rewrite Hsend in Hw7. injection Hw7 as <-.
    assert (Hsent : forall (m : AgentMetrics.t) (a : t Sub),
               AgentMetrics.tasks_failed (metrics (set_metrics (AgentMetrics.sent m) a))
                 = AgentMetrics.tasks_failed m /\
               AgentMetrics.messages_sent (metrics (set_metrics (AgentMetrics.sent m) a))
                 = AgentMetrics.messages_sent m + 1 /\
               last_error (set_metrics (AgentMetrics.sent m) a) = last_error a /\
               error_count (set_metrics (AgentMetrics.sent m) a) = error_count a)
      by (intros m a; repeat split).
    rewrite Hagent.
    destruct (Hsent (metrics (agent wc)) (agent wc)) as (-> & -> & -> & ->).
    rewrite Hf, Hs, Hl, Hc.
    repeat (split; [reflexivity |]).
    intros Hput.
    assert (Hput' : CommunicationHub.put_error
                      (CommunicationHub.message_queue
                         (CommunicationHub.hub (hubw wc))) = None)
      by (rewrite Hhub; exact Hput).
    rewrite Hput' in Hhist.
    destruct (_send_response_queued _ _ _ _ _ _ Hsend Hput' Hhist)
      as (Hitems & Hunfinished).
    rewrite Hhub in Hhist, Hitems, Hunfinished.
    exists response, d. rewrite Hcfg in F1.
    repeat (split; [assumption |]). assumption.
  - subst w7. rewrite Hf, Hs, Hl, Hc, Hhub.
    repeat (split; [reflexivity |]). reflexivity.
Qed.

Lemma changed_to_other (s : AgentState.t) w :
  AgentState.eqb (state (agent w)) s = false ->
  changed s w =
    {| agent := set_state s (agent w); hubw := hubw w;
       trace := trace w ++ [Transition (state (agent w)) s] |}.
Proof. intros Hne. unfold changed. now rewrite Hne. Qed.

Lemma errored_trace (e : Exn) w :
  AgentState.eqb (state (agent w)) AgentState.ERROR = false ->
  trace (errored e w) =
    trace w ++
    [Transition (state (agent w)) AgentState.ERROR] ++
    (if error_count (agent w) + 1 <=?
          AgentConfig.retry_count (config (agent w))
     then [Sleep (1 * float_of_int (error_count (agent w) + 1))%Q;
           Transition AgentState.ERROR AgentState.IDLE]
     else []).
Proof.
  intros Hne. unfold errored. cbv zeta.
  rewrite (changed_to_other AgentState.ERROR) by exact Hne.
  agent_cbn.
  destruct (error_count (agent w) + 1 <=?
              AgentConfig.retry_count (config (agent w))).
  - rewrite (changed_to_other AgentState.IDLE) by reflexivity.
    agent_cbn. now rewrite <- !app_assoc.
  - reflexivity.
Qed.

Lemma received_kept (message : Message.t) w :
  error_count (agent (received message w)) = error_count (agent w) /\
  config (agent (received message w)) = config (agent w) /\
  trace (received message w) = trace w.
Proof. unfold received. agent_cbn. auto. Qed.

(** The state and the trace after the [except] clause, for an agent that
    was idle when the message arrived. *)
Lemma caught_from_idle (message : Message.t) (e : Exn) (x : Sub) w :
  state (agent w) = AgentState.IDLE ->
  state (agent (caught message e x w)) =
    (if error_count (agent w) + 1 <=?
          AgentConfig.retry_count (config (agent w))
     then AgentState.IDLE else AgentState.ERROR) /\
  trace (caught message e x w) =
    trace w ++
    [Transition AgentState.IDLE AgentState.PROCESSING;
     Transition AgentState.PROCESSING AgentState.ERROR] ++
    (if error_count (agent w) + 1 <=?
          AgentConfig.retry_count (config (agent w))
     then [Sleep (1 * float_of_int (error_count (agent w) + 1))%Q;
           Transition AgentState.ERROR AgentState.IDLE]
     else []).
Proof.
  intros Hidle.
  destruct (received_fields message w) as (Hst & _ & _).
  destruct (received_kept message w) as (Hec & Hcfg & Htr).
  unfold caught. cbv zeta.
  rewrite (changed_to_other AgentState.PROCESSING)
    by (rewrite Hst, Hidle; reflexivity).
  rewrite Hst, Hidle, Htr. agent_cbn.
  revert Hec Hcfg. generalize (agent (received message w)). intros a Hec Hcfg.
  match goal with
  | |- context [errored e ?w5] =>
      destruct (agent_errored e w5) as (Ha & _);
      pose proof (errored_trace e w5 eq_refl) as Ht;
      revert Ha Ht; generalize (errored e w5)
  end.
  agent_cbn. rewrite Hec, Hcfg. intros w6 -> ->.
  split; [reflexivity |]. now rewrite <- app_assoc.
Qed.

(** An idle agent whose hook raises is idle again when
    [_handle_message] returns, within the retry budget or beyond it.
    Within the budget it passes through processing and error, sleeps for
    as many seconds as errors were counted, and goes to idle; beyond the
    budget it passes through processing and error and is put back to
    idle by the [finally] clause, without sleeping. *)
Lemma failure_from_idle (handle_message : Hook Sub)
    (message : Message.t) (w : World Sub Ext) (e : Exn) (x : Sub) :
  applicable handle_message message (agent w) message (sub (agent w))
    = (Raise e, x) ->
  state (agent w) = AgentState.IDLE ->
  exists w',
    _handle_message handle_message message w = (Return tt, w') /\
    state (agent w') = AgentState.IDLE /\
    trace w' =
      trace w ++
      [Transition AgentState.IDLE AgentState.PROCESSING;
       Transition AgentState.PROCESSING AgentState.ERROR] ++
      (if error_count (agent w) + 1 <=?
            AgentConfig.retry_count (config (agent w))
       then [Sleep (1 * float_of_int (error_count (agent w) + 1))%Q;
             Transition AgentState.ERROR AgentState.IDLE]
       else [Transition AgentState.ERROR AgentState.IDLE]).
Proof.
  intros Hhook Hidle.
  destruct (_handle_message_failure handle_message message w e x Hhook)
    as (w7 & Hrun & Hw7).
  rewrite Hidle in Hrun. cbn [target_state AgentState.eqb] in Hrun.
  exists (changed AgentState.IDLE w7). split; [exact Hrun |].
  clear Hrun Hhook.
  destruct (caught_from_idle message e x w Hidle) as (Hst & Htr).
  revert Hw7 Hst Htr. generalize (caught message e x w).
  intros wc Hw7 Hst Htr.
  assert (H7 : state (agent w7) = state (agent wc) /\ trace w7 = trace wc).
  { destruct (Message.requires_response message).
    - destruct (_send_response_run message
                  ("Error processing request: " +:+ str e)
                  MessageType.ERROR_REPORT wc)
        as (w8 & response & Hsend & Hagent & Htrace & _).
      rewrite Hsend in Hw7. injection Hw7 as <-.
      rewrite Hagent, Htrace. split; reflexivity.
    - subst w7. split; reflexivity. }
  destruct H7 as (Hst7 & Htr7). rewrite Hst in Hst7. rewrite Htr in Htr7.
  clear Hw7 Hst Htr.
  destruct (error_count (agent w) + 1 <=?
              AgentConfig.retry_count (config (agent w))).
  - unfold changed. rewrite Hst7. cbn [AgentState.eqb].
    split; [exact Hst7 | exact Htr7].
  - rewrite (changed_to_other AgentState.IDLE) by (now rewrite Hst7).
    agent_cbn. rewrite Hst7, Htr7, <- !app_assoc. split; reflexivity.
Qed.

End AgentFacts.

Section AgentRuns.

Import BaseAgent.

(** The run of [test_error_handling]: the test agent fails on a task that
    requires a response. *)
Lemma handler_failure_is_contained_witness :
  exists w',
    _handle_message Sample.failing (Sample.task "error-msg-1" true)
      Sample.developer = (Return tt, w') /\
    AgentMetrics.tasks_failed (metrics (agent w')) = 1 /\
    last_error (agent w') = Some (Exception "Simulated error") /\
    error_count (agent w') = 1 /\
    AgentMetrics.messages_sent (metrics (agent w')) = 1 /\
    exists response,
      CommunicationHub.message_history (CommunicationHub.hub (hubw w')) =
        [response] /\
      CommunicationHub.items
        (CommunicationHub.message_queue (CommunicationHub.hub (hubw w'))) =
        [(2, response)] /\
      Message.message_type response = MessageType.ERROR_REPORT /\
      Message.content response = "Error processing request: Simulated error".
Proof.
  destruct (handler_failure_is_contained Sample.failing
              (Sample.task "error-msg-1" true) Sample.developer
              (Exception "Simulated error") tt eq_refl)
    as (w' & Hrun & Hfailed & Hlast & Hcount & Hsent & Hresponse).
  exists w'. split; [exact Hrun |]. split; [exact Hfailed |].
  split; [exact Hlast |]. split; [exact Hcount |]. split; [exact Hsent |].
  destruct (Hresponse eq_refl)
    as (response & d & Hhist & Hkind & Htext & _ & _ & _ & _ & Hitems & _).
  exists response. split; [exact Hhist |]. split; [exact Hitems |].
  split; [exact Hkind | exact Htext].
Defined.

(** C2. The test agent (retry budget three, idle, a hook that fails on
    every message) receives four messages. After each of the first three
    it has gone to error, slept one, two and three seconds, and returned
    to idle. After the fourth the error count is four, beyond the
    budget, and [_handle_error] leaves the agent in error without
    sleeping; but the [finally] clause of [_handle_message] then puts it
    back to the state it had when the message arrived, idle. The agent
    does not remain in error. *)
Theorem agent_beyond_budget_returns_to_idle :
  trace (Sample.after_failures 3) =
    [Transition AgentState.IDLE AgentState.PROCESSING;
     Transition AgentState.PROCESSING AgentState.ERROR;
     Sleep 1%Q;
     Transition AgentState.ERROR AgentState.IDLE;
     Transition AgentState.IDLE AgentState.PROCESSING;
     Transition AgentState.PROCESSING AgentState.ERROR;
     Sleep 2%Q;
     Transition AgentState.ERROR AgentState.IDLE;
     Transition AgentState.IDLE AgentState.PROCESSING;
     Transition AgentState.PROCESSING AgentState.ERROR;
     Sleep 3%Q;
     Transition AgentState.ERROR AgentState.IDLE] /\
  error_count (agent (Sample.after_failures 3)) = 3 /\
  trace (Sample.after_failures 4) =
    trace (Sample.after_failures 3) ++
    [Transition AgentState.IDLE AgentState.PROCESSING;
     Transition AgentState.PROCESSING AgentState.ERROR;
     Transition AgentState.ERROR AgentState.IDLE] /\
  error_count (agent (Sample.after_failures 4)) = 4 /\
  state (agent (Sample.after_failures 4)) = AgentState.IDLE /\
  state (agent (Sample.after_failures 4)) <> AgentState.ERROR.
Proof. vm_compute. repeat split; discriminate. Qed.

End AgentRuns.

(* ===================================================================== *)
(** * Properties of the memory store *)
(* ===================================================================== *)

Section StoreFacts.

Import InMemoryStore.

Lemma list_mem_In (x : string) (l : list string) :
  list_mem x l = true <-> In x l.
Proof.
  unfold list_mem. rewrite existsb_exists. split.
  - intros (y & Hin & Heq). apply String.eqb_eq in Heq. now subst.
  - intros Hin. exists x. split; [exact Hin | apply String.eqb_refl].
Qed.

Lemma list_remove_In (x y : string) (l : list string) :
  In y (list_remove x l) -> In y l.
Proof.
  induction l as [| z l IH]; cbn; [auto |].
  destruct (String.eqb x z); cbn; intuition.
Qed.

Lemma list_remove_NoDup (x : string) (l : list string) :
  NoDup l -> NoDup (list_remove x l).
Proof.
  induction 1 as [| z l Hz Hl IH]; cbn; [constructor |].
  destruct (String.eqb x z); [exact Hl |].
  constructor; [| exact IH]. intros Hin. apply Hz.
  apply list_elem_of_In. eapply list_remove_In. apply list_elem_of_In. exact Hin.
Qed.

Lemma list_remove_gone (x : string) (l : list string) :
  NoDup l -> ~ In x (list_remove x l).
Proof.
  induction 1 as [| z l Hz Hl IH]; cbn; [auto |].
  destruct (String.eqb_spec x z) as [-> | Hne].
  - rewrite <- list_elem_of_In. exact Hz.
  - cbn. intros [Heq | Hin]; [congruence | contradiction].
Qed.

Lemma unindex_tag_nodup (memory_id tag : string) ix :
  lists_nodup ix -> lists_nodup (unindex_tag memory_id tag ix).
Proof.
  intros Hix. unfold unindex_tag.
  destruct (ix !! tag) as [l |] eqn:Hl; [| exact Hix].
  destruct (list_mem memory_id l); [| exact Hix].
  pose proof (list_remove_NoDup memory_id l (Hix _ _ Hl)) as Hnd.
  destruct (list_remove memory_id l) as [| y l'] eqn:Hrem.
  - intros t k Hk. apply lookup_delete_Some in Hk as (_ & Hk). eauto.
  - intros t k Hk. apply lookup_insert_Some in Hk as [(_ & <-) | (_ & Hk)];
      eauto.
Qed.

Lemma unindex_tag_absent (memory_id tag : string) ix :
  lists_nodup ix -> absent_from memory_id tag (unindex_tag memory_id tag ix).
Proof.
  intros Hix. unfold unindex_tag, absent_from.
  destruct (ix !! tag) as [l |] eqn:Hl.
  - destruct (list_mem memory_id l) eqn:Hmem.
    + pose proof (list_remove_gone memory_id l (Hix _ _ Hl)) as Hgone.
      destruct (list_remove memory_id l) as [| y l'] eqn:Hrem.
      * intros k Hk. now rewrite lookup_delete_eq in Hk.
      * intros k Hk. rewrite lookup_insert_eq in Hk. now injection Hk as <-.
    + intros k Hk. rewrite Hl in Hk. injection Hk as <-.
      intros Hin. apply list_mem_In in Hin. congruence.
  - intros k Hk. congruence.
Qed.

Lemma unindex_tag_keeps_absent (memory_id tag tag' : string) ix :
  absent_from memory_id tag ix ->
  absent_from memory_id tag (unindex_tag memory_id tag' ix).
Proof.
  intros Habs. unfold unindex_tag.
  destruct (ix !! tag') as [l |] eqn:Hl; [| exact Habs].
  destruct (list_mem memory_id l) eqn:Hmem; [| exact Habs].
  destruct (String.eqb_spec tag tag') as [-> | Hne].
  - exfalso. apply (Habs l Hl). now apply list_mem_In.
  - destruct (list_remove memory_id l) as [| y l'].
    + intros k Hk. rewrite lookup_delete_ne in Hk by congruence. eauto.
    + intros k Hk. rewrite lookup_insert_ne in Hk by congruence. eauto.
Qed.

Lemma unindex_all_nodup (memory_id : string) (tags : list string) ix :
  lists_nodup ix ->
  lists_nodup (fold_left (fun ix tag => unindex_tag memory_id tag ix) tags ix).
Proof.
  revert ix. induction tags as [| tag tags IH]; intros ix Hix; cbn; [exact Hix |].
  apply IH. now apply unindex_tag_nodup.
Qed.

Lemma unindex_all_keeps_absent (memory_id tag : string) (tags : list string) ix :
  absent_from memory_id tag ix ->
  absent_from memory_id tag
    (fold_left (fun ix tag => unindex_tag memory_id tag ix) tags ix).
Proof.
  revert ix. induction tags as [| tag' tags IH]; intros ix Habs; cbn;
    [exact Habs |].
  apply IH. now apply unindex_tag_keeps_absent.
Qed.

Lemma unindex_all_absent (memory_id tag : string) (tags : list string) ix :
  lists_nodup ix ->
  In tag tags ->
  absent_from memory_id tag
    (fold_left (fun ix tag => unindex_tag memory_id tag ix) tags ix).
Proof.
  revert ix. induction tags as [| tag' tags IH]; intros ix Hix Hin;
    [destruct Hin |].
  cbn. destruct Hin as [-> | Hin].
  - apply unindex_all_keeps_absent. now apply unindex_tag_absent.
  - apply IH; [now apply unindex_tag_nodup | exact Hin].
Qed.

(** What [delete] does to a stored entry. *)
Lemma delete_stored (memory_id : string) (entry : MemoryEntry.t) (w : World) :
  memories (this w) !! memory_id = Some entry ->
  no_duplicates (this w) ->
  exists w',
    delete memory_id w = (Return true, w') /\
    env w' = env w /\
    memories (this w') = base.delete memory_id (memories (this w)) /\
    ~ In memory_id (type_index (this w') (MemoryEntry.memory_type entry)) /\
    (forall tag, In tag (MemoryEntry.tags entry) ->
                 absent_from memory_id tag (tag_index (this w'))) /\
    no_duplicates (this w').
Proof.
  intros Hentry (Htypes & Htags).
  unfold delete. unfold bind at 1, self at 1, gets at 1. rewrite Hentry.
  unfold bind, assign, modify, ret.
  eexists. split; [reflexivity |]. unfold no_duplicates.
  cbn [env this memories type_index tag_index].
  split; [reflexivity |]. split; [reflexivity |].
  set (k := MemoryEntry.memory_type entry).
  split; [| split; [| split]].
  - destruct (list_mem memory_id (type_index (this w) k)) eqn:Hmem.
    + unfold type_index_set. replace (MemoryType.eqb k k) with true
        by (now destruct k).
      apply list_remove_gone, Htypes.
    + intros Hin. apply list_mem_In in Hin. congruence.
  - intros tag Hin. now apply unindex_all_absent.
  - intros k'. destruct (list_mem memory_id (type_index (this w) k));
      [| apply Htypes].
    unfold type_index_set. destruct (MemoryType.eqb k k'); [| apply Htypes].
    apply list_remove_NoDup, Htypes.
  - now apply unindex_all_nodup.
Qed.

Lemma unindex_tag_subset (memory_id tag tag' : string) ix (l' : list string) :
  unindex_tag memory_id tag' ix !! tag = Some l' ->
  exists l, ix !! tag = Some l /\ forall y, In y l' -> In y l.
Proof.
  unfold unindex_tag.
  destruct (ix !! tag') as [k |] eqn:Hk; [| eauto].
  destruct (list_mem memory_id k); [| eauto].
  destruct (String.eqb_spec tag tag') as [-> | Hne].
  - destruct (list_remove memory_id k) as [| y k'] eqn:Hrem.
    + now rewrite lookup_delete_eq.
    + rewrite lookup_insert_eq. intros [= <-]. exists k. split; [exact Hk |].
      intros z Hz. apply (list_remove_In memory_id). now rewrite Hrem.
  - destruct (list_remove memory_id k) as [| y k'].
    + rewrite lookup_delete_ne by congruence. eauto.
    + rewrite lookup_insert_ne by congruence. eauto.
Qed.

Lemma unindex_all_subset (memory_id tag : string) (tags : list string) ix
    (l' : list string) :
  fold_left (fun ix tag => unindex_tag memory_id tag ix) tags ix !! tag
    = Some l' ->
  exists l, ix !! tag = Some l /\ forall y, In y l' -> In y l.
Proof.
  revert ix l'. induction tags as [| tag' tags IH]; intros ix l' Hl'; cbn in Hl'.
  - eauto.
  - destruct (IH _ _ Hl') as (l1 & Hl1 & Hsub1).
    destruct (unindex_tag_subset _ _ _ _ _ Hl1) as (l & Hl & Hsub).
    exists l. split; [exact Hl | auto].
Qed.

(** With indexes that agree with the map, [delete] leaves the id in no
    index list at all. *)
Lemma delete_clears_indexes (memory_id : string) (entry : MemoryEntry.t)
    (w w' : World) :
  memories (this w) !! memory_id = Some entry ->
  no_duplicates (this w) ->
  indexes_consistent (this w) ->
  delete memory_id w = (Return true, w') ->
  (forall k, ~ In memory_id (type_index (this w') k)) /\
  (forall tag l, tag_index (this w') !! tag = Some l -> ~ In memory_id l).
Proof.
  intros Hentry Hnodup (Hctype & Hctag) Hrun.
  destruct (delete_stored memory_id entry w Hentry Hnodup)
    as (w1 & Hrun1 & _ & _ & Htype & Htag & _).
  rewrite Hrun in Hrun1. injection Hrun1 as <-.
  revert Hrun Htype Htag.
  unfold delete. unfold bind at 1, self at 1, gets at 1. rewrite Hentry.
  unfold bind, assign, modify, ret. intros [= <-].
  cbn [this type_index tag_index]. intros Htype Htag. split.
  - intros k Hin.
    assert (Hold : In memory_id (type_index (this w) k)).
    { destruct (list_mem memory_id
                  (type_index (this w) (MemoryEntry.memory_type entry)));
        [| exact Hin].
      unfold type_index_set in Hin.
      destruct (MemoryType.eqb (MemoryEntry.memory_type entry) k) eqn:Hk;
        [| exact Hin].
      assert (MemoryEntry.memory_type entry = k) as <-
          by (destruct (MemoryEntry.memory_type entry), k; cbn in Hk; congruence).
      now apply list_remove_In in Hin. }
    destruct (Hctype k memory_id Hold) as (entry' & Hentry' & Hk).
    rewrite Hentry in Hentry'. injection Hentry' as <-. subst k.
    exact (Htype Hin).
  - intros tag l' Hl' Hin.
    destruct (unindex_all_subset _ _ _ _ _ Hl') as (l & Hl & Hsub).
    destruct (Hctag tag l memory_id Hl (Hsub _ Hin)) as (entry' & Hentry' & Htagged).
    rewrite Hentry in Hentry'. injection Hentry' as <-.
    exact (Htag tag Htagged l' Hl' Hin).
Qed.

Lemma still_expired (e : Env) (deadline : float) :
  monotone_clock e ->
  float_gt (time_src e (ticks e)) deadline = true ->
  float_gt (time_src e (S (ticks e))) deadline = true.
Proof.
  unfold float_gt. intros Hmono Hgt.
  apply negb_true_iff in Hgt. apply negb_true_iff.
  destruct (Qle_bool (time_src e (S (ticks e))) deadline) eqn:Hle; [| reflexivity].
  apply Qle_bool_iff in Hle.
  assert (Hfirst : (time_src e (ticks e) <= deadline)%Q).
  { eapply Qle_trans; [apply (Hmono (ticks e) (S (ticks e))); lia | exact Hle]. }
  apply Qle_bool_iff in Hfirst. congruence.
Qed.

(** What [retrieve] does on a store whose indexes agree with the map.
    With a clock that does not run backwards and index lists without
    duplicates, [retrieve] returns normally. If no entry is
    stored under the id, the result is absent and nothing changes. If the
    stored entry is expired at the first clock reading, the result is
    absent and the entry has been deleted: the id is no longer in the
    main map, nor in the index list of the entry's type, nor in the
    index list of any of the entry's tags; and where the indexes agreed
    with the map, the id is left in no index list at all. Otherwise the
    result is the stored entry with its access count incremented and its
    last-accessed time set to a later clock reading, and that updated
    entry is what the store now holds. So an entry found expired is
    never returned. *)
Theorem retrieve_never_returns_expired (memory_id : string) (w : World) :
  monotone_clock (env w) ->
  no_duplicates (this w) ->
  exists r w',
    retrieve memory_id w = (Return r, w') /\
    match memories (this w) !! memory_id with
    | None => r = None /\ w' = w
    | Some entry =>
        if expired_at (time_src (env w) (ticks (env w))) entry
        then
          r = None /\
          memories (this w') !! memory_id = None /\
          ~ In memory_id
              (type_index (this w') (MemoryEntry.memory_type entry)) /\
          (forall tag l,
              In tag (MemoryEntry.tags entry) ->
              tag_index (this w') !! tag = Some l ->
              ~ In memory_id l) /\
          (indexes_consistent (this w) ->
           (forall k, ~ In memory_id (type_index (this w') k)) /\
           (forall tag l,
               tag_index (this w') !! tag = Some l -> ~ In memory_id l))
        else
          exists (now : float) (n : nat),
            r = Some (accessed now entry) /\
            memories (this w') !! memory_id = Some (accessed now entry) /\
            MemoryEntry.access_count (accessed now entry) =
              MemoryEntry.access_count entry + 1 /\
            MemoryEntry.last_accessed (accessed now entry) = now /\
            now = time_src (env w) n /\ (ticks (env w) <= n)%nat
    end.
Proof.
  intros Hmono Hnodup. unfold retrieve.
  unfold bind at 1, self at 1, gets at 1.
  destruct (memories (this w) !! memory_id) as [entry |] eqn:Hentry;
    [| exists None, w; split; [reflexivity | split; reflexivity]].
  unfold expired_at, MemoryEntry.is_expired.
  destruct (MemoryEntry.expires_at entry) as [deadline |] eqn:Hexp.
  - unfold bind at 1, in_env at 1, zoom at 1, bind at 1, time_time at 1, ret at 1.
    cbn [env this].
    destruct (float_gt (time_src (env w) (ticks (env w))) deadline) eqn:Hgt;
      cbn [negb].
    + unfold bind at 1, in_env at 1, zoom at 1, bind at 1, time_time at 1,
        ret at 1.
      cbn [env this time_src ticks uuid_src draws].
      rewrite (still_expired (env w) deadline Hmono Hgt).
      match goal with
      | |- context [bind (bind (delete memory_id) _) _ ?w2] =>
          destruct (delete_stored memory_id entry w2 Hentry Hnodup)
            as (w' & Hdel & _ & Hmem & Htype & Htag & _)
      end.
      unfold bind at 1. unfold bind at 1. rewrite Hdel. unfold ret.
      exists None, w'. split; [reflexivity |]. split; [reflexivity |].
      split; [rewrite Hmem; apply lookup_delete_eq |].
      split; [exact Htype |].
      split; [intros tag l Hin Hl; exact (Htag tag Hin l Hl) |].
      intros Hcons.
      match type of Hdel with
      | delete _ ?w2 = _ =>
          exact (delete_clears_indexes memory_id entry w2 w' Hentry Hnodup
                   Hcons Hdel)
      end.
    + unfold bind, in_env, zoom, MemoryEntry.access, time_time, assign, modify,
        ret.
      cbn [env this time_src ticks uuid_src draws memories].
      eexists _, _. split; [reflexivity |].
      exists (time_src (env w) (S (ticks (env w)))), (S (ticks (env w))).
      cbn [this memories]. rewrite lookup_insert_eq.
      repeat split; lia.
  - unfold bind, in_env, zoom, MemoryEntry.access, time_time, assign, modify,
      ret.
    cbn [env this time_src ticks uuid_src draws memories negb].
    eexists _, _. split; [reflexivity |].
    exists (time_src (env w) (ticks (env w))), (ticks (env w)).
    cbn [this memories]. rewrite lookup_insert_eq.
    repeat split; lia.
Qed.

Lemma index_tag_nodup (memory_id tag : string) ix :
  lists_nodup ix -> lists_nodup (index_tag memory_id tag ix).
Proof.
  intros Hix. unfold index_tag.
  destruct (ix !! tag) as [l |] eqn:Hl.
  - destruct (list_mem memory_id l) eqn:Hmem; [exact Hix |].
    intros t k Hk. apply lookup_insert_Some in Hk as [(_ & <-) | (_ & Hk)];
      [| eauto].
    apply NoDup_app. split; [eauto |]. split; [| apply NoDup_singleton].
    intros y Hy Hin. apply list_elem_of_singleton in Hin. subst y.
    apply list_elem_of_In, list_mem_In in Hy. congruence.
  - intros t k Hk. apply lookup_insert_Some in Hk as [(_ & <-) | (_ & Hk)];
      [apply NoDup_singleton | eauto].
Qed.

Lemma index_all_nodup (memory_id : string) (tags : list string) ix :
  lists_nodup ix ->
  lists_nodup (fold_left (fun ix tag => index_tag memory_id tag ix) tags ix).
Proof.
  revert ix. induction tags as [| tag tags IH]; intros ix Hix; cbn; [exact Hix |].
  apply IH. now apply index_tag_nodup.
Qed.

Lemma init_no_duplicates : no_duplicates __init__.
Proof.
  split.
  - intros k. apply NoDup_nil_2.
  - intros tag l Hl. cbn in Hl. now rewrite lookup_empty in Hl.
Qed.

(** [store] returns true, holds the entry under its id, and keeps the
    index lists free of duplicates. *)
Lemma store_stored (entry : MemoryEntry.t) (w : World) :
  no_duplicates (this w) ->
  exists w',
    store entry w = (Return true, w') /\
    env w' = env w /\
    memories (this w') = <[MemoryEntry.id entry := entry]> (memories (this w)) /\
    no_duplicates (this w').
Proof.
  intros (Htypes & Htags). unfold store, try_except, bind, assign, modify, ret.
  eexists. split; [reflexivity |]. unfold no_duplicates.
  cbn [env this memories type_index tag_index].
  split; [reflexivity |]. split; [reflexivity |]. split.
  - intros k'.
    destruct (list_mem (MemoryEntry.id entry)
                (type_index (this w) (MemoryEntry.memory_type entry))) eqn:Hmem;
      [apply Htypes |].
    unfold type_index_set.
    destruct (MemoryType.eqb (MemoryEntry.memory_type entry) k');
      [| apply Htypes].
    apply NoDup_app. split; [apply Htypes |]. split; [| apply NoDup_singleton].
    intros y Hy Hin. apply list_elem_of_singleton in Hin. subst y.
    apply list_elem_of_In, list_mem_In in Hy. congruence.
  - now apply index_all_nodup.
Qed.

Lemma index_tag_member (memory_id t tag i : string) ix (l' : list string) :
  index_tag memory_id t ix !! tag = Some l' ->
  In i l' ->
  (exists l, ix !! tag = Some l /\ In i l) \/ (i = memory_id /\ tag = t).
Proof.
  unfold index_tag.
  destruct (ix !! t) as [k |] eqn:Hk.
  - destruct (list_mem memory_id k); [eauto |].
    destruct (String.eqb_spec tag t) as [-> | Hne].
    + rewrite lookup_insert_eq. intros [= <-] Hin.
      apply in_app_or in Hin as [Hin | [<- | []]]; eauto.
    + rewrite lookup_insert_ne by congruence. eauto.
  - destruct (String.eqb_spec tag t) as [-> | Hne].
    + rewrite lookup_insert_eq. intros [= <-] [<- | []]. auto.
    + rewrite lookup_insert_ne by congruence. eauto.
Qed.

Lemma index_all_member (memory_id tag i : string) (tags : list string) ix
    (l' : list string) :
  fold_left (fun ix tag => index_tag memory_id tag ix) tags ix !! tag
    = Some l' ->
  In i l' ->
  (exists l, ix !! tag = Some l /\ In i l) \/
  (i = memory_id /\ In tag tags).
Proof.
  revert ix l'. induction tags as [| t tags IH]; intros ix l' Hl' Hin;
    cbn in Hl'.
  - eauto.
  - destruct (IH _ _ Hl' Hin) as [(l1 & Hl1 & Hin1) | (-> & Htag)].
    + destruct (index_tag_member _ _ _ _ _ _ Hl1 Hin1)
        as [Hold | (-> & ->)]; [now left | right].
      split; [reflexivity | now left].
    + right. split; [reflexivity | now right].
Qed.

Lemma init_consistent : indexes_consistent __init__.
Proof.
  split.
  - intros k i [].
  - intros tag l i Hl. cbn in Hl. now rewrite lookup_empty in Hl.
Qed.

(** Storing an entry under an id that is not yet stored keeps the
    indexes consistent with the map. *)
Lemma store_consistent (entry : MemoryEntry.t) (w w' : World) :
  indexes_consistent (this w) ->
  memories (this w) !! MemoryEntry.id entry = None ->
  store entry w = (Return true, w') ->
  indexes_consistent (this w').
Proof.
  intros (Hctype & Hctag) Hfresh.
  unfold store, try_except, bind, assign, modify, ret. intros [= <-].
  unfold indexes_consistent. cbn [this memories type_index tag_index].
  assert (Hkeep : forall i e0,
             memories (this w) !! i = Some e0 ->
             <[MemoryEntry.id entry := entry]> (memories (this w)) !! i
               = Some e0).
  { intros i e0 Hi. rewrite lookup_insert_ne; [exact Hi | congruence]. }
  split.
  - intros k i Hin.
    assert (Hcases : In i (type_index (this w) k) \/
                     (i = MemoryEntry.id entry /\
                      MemoryEntry.memory_type entry = k)).
    { destruct (list_mem (MemoryEntry.id entry)
                  (type_index (this w) (MemoryEntry.memory_type entry)));
        [now left |].
      unfold type_index_set in Hin.
      destruct (MemoryType.eqb (MemoryEntry.memory_type entry) k) eqn:Hk;
        [| now left].
      assert (MemoryEntry.memory_type entry = k) as <-
          by (destruct (MemoryEntry.memory_type entry), k; cbn in Hk; congruence).
      apply in_app_or in Hin as [Hin | [<- | []]]; auto. }
    destruct Hcases as [Hold | (-> & <-)].
    + destruct (Hctype k i Hold) as (e0 & He0 & Hk). eauto.
    + exists entry. split; [apply lookup_insert_eq | reflexivity].
  - intros tag l' i Hl' Hin.
    destruct (index_all_member _ _ _ _ _ _ Hl' Hin)
      as [(l & Hl & Hold) | (-> & Htag)].
    + destruct (Hctag tag l i Hl Hold) as (e0 & He0 & Ht). eauto.
    + exists entry. split; [apply lookup_insert_eq | exact Htag].
Qed.

(** The condition on the id cannot be dropped: [store] does not unindex
    the entry it overwrites, so after storing under a stored id with
    another type and other tags the id is still listed under the old
    type and the old tags. *)
Lemma store_overwrite_keeps_old_index :
  exists w',
    store Sample.restated Sample.memory = (Return true, w') /\
    memories (this w') !! "m-1" = Some Sample.restated /\
    In "m-1" (type_index (this w') MemoryType.TASK) /\
    tag_index (this w') !! "deadline" = Some ["m-1"] /\
    ~ indexes_consistent (this w').
Proof.
  set (w' := snd (store Sample.restated Sample.memory)).
  assert (Hstored : memories (this w') !! "m-1" = Some Sample.restated)
    by (vm_compute; reflexivity).
  assert (Hlisted : In "m-1" (type_index (this w') MemoryType.TASK))
    by (vm_compute; auto).
  exists w'. split; [reflexivity |].
  split; [exact Hstored |]. split; [exact Hlisted |].
  split; [vm_compute; reflexivity |].
  intros (Htype & _).
  destruct (Htype MemoryType.TASK "m-1" Hlisted) as (entry & Hentry & Hk).
  rewrite Hstored in Hentry. injection Hentry as <-. discriminate Hk.
Qed.

(** C10. On a store in which an id was stored twice, [retrieve] of the
    expired entry returns nothing and deletes the entry from the main
    map, but does not remove the id from every index: the sample memory
    is stored first as a task with the tags "project" and "deadline",
    then again under the same id as a fact with the tag "archive"; once
    it has expired, [retrieve] removes the id from the list of facts and
    from the list of "archive" only, and the id stays listed under the
    tasks, under "deadline" and under "project" with no entry behind
    it. *)
Theorem retrieve_leaves_overwritten_index :
  exists w' w'',
    store Sample.restated Sample.memory = (Return true, w') /\
    retrieve "m-1" w' = (Return None, w'') /\
    memories (this w'') !! "m-1" = None /\
    type_index (this w'') MemoryType.TASK = ["m-1"] /\
    type_index (this w'') MemoryType.FACT = ["m-2"] /\
    tag_index (this w'') !! "deadline" = Some ["m-1"] /\
    tag_index (this w'') !! "project" = Some ["m-1"; "m-2"] /\
    tag_index (this w'') !! "archive" = None.
Proof.
  exists (snd (store Sample.restated Sample.memory)).
  exists (snd (retrieve "m-1" (snd (store Sample.restated Sample.memory)))).
  split; [reflexivity |].
  split; [vm_compute; reflexivity |].
  repeat split; vm_compute; reflexivity.
Qed.

Lemma sample_clock_monotone : monotone_clock Sample.later.
Proof.
  intros i j Hle. cbn. rewrite <- Zle_Qle. lia.
Qed.

Lemma sample_memory_well_formed :
  no_duplicates (this Sample.memory) /\ indexes_consistent (this Sample.memory).
Proof.
  set (w0 := {| env := Sample.later; this := __init__ |}).
  destruct (store_stored Sample.stale w0 init_no_duplicates)
    as (w1 & Hrun1 & _ & Hmem1 & Hnodup1).
  destruct (store_stored Sample.fact w1 Hnodup1)
    as (w2 & Hrun2 & _ & _ & Hnodup2).
  assert (Hcons1 : indexes_consistent (this w1)).
  { apply (store_consistent Sample.stale w0 w1);
      [apply init_consistent | reflexivity | exact Hrun1]. }
  assert (Hcons2 : indexes_consistent (this w2)).
  { apply (store_consistent Sample.fact w1 w2);
      [exact Hcons1 | | exact Hrun2].
    rewrite Hmem1. reflexivity. }
  unfold Sample.memory. fold w0. rewrite (bind_step _ _ _ _ _ Hrun1), Hrun2.
  split; [exact Hnodup2 | exact Hcons2].
Qed.

(** On the sample store, at clock reading ten: the task memory that
    expired at five is not returned and is gone from the map and from
    every index list; the fact is returned with an access count of
    one. *)
Lemma retrieve_never_returns_expired_witness :
  (exists w',
      retrieve "m-1" Sample.memory = (Return None, w') /\
      memories (this w') !! "m-1" = None /\
      (forall k, ~ In "m-1" (type_index (this w') k)) /\
      (forall tag l,
          tag_index (this w') !! tag = Some l -> ~ In "m-1" l)) /\
  (exists entry w',
      retrieve "m-2" Sample.memory = (Return (Some entry), w') /\
      MemoryEntry.access_count entry = 1).
Proof.
  split.
  - destruct (retrieve_never_returns_expired "m-1" Sample.memory
                sample_clock_monotone (proj1 sample_memory_well_formed))
      as (r & w' & Hrun & Hcase).
    assert (Hstored : memories (this Sample.memory) !! "m-1" = Some Sample.stale)
      by (vm_compute; reflexivity).
    rewrite Hstored in Hcase.
    change (expired_at (time_src (env Sample.memory) (ticks (env Sample.memory)))
              Sample.stale) with true in Hcase.
    destruct Hcase as (-> & Hgone & _ & _ & Hall).
    exists w'. split; [exact Hrun |]. split; [exact Hgone |].
    exact (Hall (proj2 sample_memory_well_formed)).
  - destruct (retrieve_never_returns_expired "m-2" Sample.memory
                sample_clock_monotone (proj1 sample_memory_well_formed))
      as (r & w' & Hrun & Hcase).
    assert (Hstored : memories (this Sample.memory) !! "m-2" = Some Sample.fact)
      by (vm_compute; reflexivity).
    rewrite Hstored in Hcase.
    change (expired_at (time_src (env Sample.memory) (ticks (env Sample.memory)))
              Sample.fact) with false in Hcase.
    destruct Hcase as (now & n & -> & _ & Hcount & _).
    exists (accessed now Sample.fact), w'. split; [exact Hrun | exact Hcount].
Defined.

End StoreFacts.

(* ===================================================================== *)
(** * Further properties of Message and ConversationThread *)
(* ===================================================================== *)

Section MessageEdges.

Lemma AgentRole_of_value_inv (v : PyVal) (r : AgentRole.t) :
  AgentRole.of_value v = Return r -> v = VStr (AgentRole.value r).
Proof.
  destruct v as [| | | | s | |]; try discriminate. cbn.
  repeat match goal with
         | |- context [String.eqb s ?c] =>
             destruct (String.eqb_spec s c) as [-> | _];
             [intros [= <-]; reflexivity |]
         end.
  discriminate.
Qed.

Lemma MessageType_of_value_inv (v : PyVal) (k : MessageType.t) :
  MessageType.of_value v = Return k -> v = VStr (MessageType.value k).
Proof.
  destruct v as [| | | | s | |]; try discriminate. cbn.
  repeat match goal with
         | |- context [String.eqb s ?c] =>
             destruct (String.eqb_spec s c) as [-> | _];
             [intros [= <-]; reflexivity |]
         end.
  discriminate.
Qed.

Lemma MessagePriority_of_value_inv (v : PyVal) (p : MessagePriority.t) :
  MessagePriority.of_value v = Return p ->
  MessagePriority.as_int v = Some (MessagePriority.value p).
Proof.
  unfold MessagePriority.of_value.
  destruct (MessagePriority.as_int v) as [z |]; [| discriminate].
  destruct z as [| q | q]; try discriminate.
  do 3 (try destruct q as [q | q |]; try discriminate);
    intros [= <-]; reflexivity.
Qed.

(** X1. A mapping that lacks one of the seven entries [from_dict] reads
    with [data[key]] is refused: [from_dict] raises, builds no message,
    reads no clock and draws no uuid. If the missing entry is the id,
    the first one read, the exception is the [KeyError] for it. *)
Theorem from_dict_requires_keys (data : dict) (e : Env) (key : string) :
  In key required_keys ->
  data !! key = None ->
  (exists err, Message.from_dict data e = (Raise err, e)) /\
  (key = "id" -> Message.from_dict data e = (Raise (KeyError "id"), e)).
Proof.
  intros Hin Hnone. split.
  - unfold Message.from_dict, Message.getitem, Message.lift, bind, ret, raise.
    cbn in Hin.
    destruct Hin as [<- | [<- | [<- | [<- | [<- | [<- | [<- | []]]]]]]];
      rewrite Hnone; cbn.
    all: repeat match goal with
           | |- context [match ?d !! ?k with _ => _ end] =>
               destruct (d !! k) eqn:?; [| eexists; reflexivity]
           | |- context [match AgentRole.of_value ?v with _ => _ end] =>
               destruct (AgentRole.of_value v) eqn:?; [| eexists; reflexivity]
           | |- context [match MessageType.of_value ?v with _ => _ end] =>
               destruct (MessageType.of_value v) eqn:?; [| eexists; reflexivity]
           | |- context [match MessagePriority.of_value ?v with _ => _ end] =>
               destruct (MessagePriority.of_value v) eqn:?;
               [| eexists; reflexivity]
           end.
    all: try (eexists; reflexivity).
  - intros ->. unfold Message.from_dict, Message.getitem, bind, raise.
    now rewrite Hnone.
Qed.

Lemma from_dict_requires_keys_witness :
  Message.from_dict (base.delete "priority" (Message.to_dict Sample.serial_test))
    Sample.env = (Raise (KeyError "priority"), Sample.env) /\
  Message.from_dict (base.delete "id" (Message.to_dict Sample.serial_test))
    Sample.env = (Raise (KeyError "id"), Sample.env).
Proof.
  split.
  - destruct (from_dict_requires_keys
                (base.delete "priority" (Message.to_dict Sample.serial_test))
                Sample.env "priority") as ((err & Herr) & _).
    + cbn. auto 10.
    + reflexivity.
    + rewrite Herr. vm_compute in Herr. injection Herr as <-. reflexivity.
  - apply (from_dict_requires_keys
             (base.delete "id" (Message.to_dict Sample.serial_test))
             Sample.env "id").
    + cbn. auto.
    + reflexivity.
    + reflexivity.
Defined.

Lemma AgentRole_of_value_raises (v : PyVal) (err : Exn) :
  AgentRole.of_value v = Raise err -> exists what, err = ValueError what.
Proof.
  destruct v as [| | | | s | |]; cbn; try (intros [= <-]; eauto).
  repeat match goal with
         | |- context [String.eqb s ?c] => destruct (String.eqb s c)
         end; try discriminate; intros [= <-]; eauto.
Qed.

Lemma MessageType_of_value_raises (v : PyVal) (err : Exn) :
  MessageType.of_value v = Raise err -> exists what, err = ValueError what.
Proof.
  destruct v as [| | | | s | |]; cbn; try (intros [= <-]; eauto).
  repeat match goal with
         | |- context [String.eqb s ?c] => destruct (String.eqb s c)
         end; try discriminate; intros [= <-]; eauto.
Qed.

Lemma MessagePriority_of_value_raises (v : PyVal) (err : Exn) :
  MessagePriority.of_value v = Raise err -> exists what, err = ValueError what.
Proof.
  unfold MessagePriority.of_value.
  destruct (MessagePriority.as_int v) as [z |]; [| intros [= <-]; eauto].
  destruct z as [| q | q]; try (intros [= <-]; eauto).
  do 3 (try destruct q as [q | q |]); try discriminate;
    intros [= <-]; eauto.
Qed.

(** X2. On a mapping whose entries for the id, the content, the
    timestamp, [requires_response] and the conversation id have the
    types of those fields, [from_dict] either returns a message that
    agrees with the mapping or raises without reading the clock or
    drawing a uuid. The message it returns has the roles and the kind
    whose values the mapping names, the priority whose value the
    mapping's entry equals, the mapping's string as content, and the
    mapping's id and timestamp unless those entries are null. The
    exception it raises is the [KeyError] of a key the mapping lacks or
    the [ValueError] of an enum. *)
Theorem from_dict_reads_entries (data : dict) (e : Env) :
  annotated data = true ->
  match Message.from_dict data e with
  | (Return m, e') =>
      data !! "sender" = Some (VStr (AgentRole.value (Message.sender m))) /\
      data !! "recipient" =
        Some (VStr (AgentRole.value (Message.recipient m))) /\
      data !! "message_type" =
        Some (VStr (MessageType.value (Message.message_type m))) /\
      data !! "content" = Some (VStr (Message.content m)) /\
      (exists v, data !! "priority" = Some v /\
                 MessagePriority.as_int v =
                   Some (MessagePriority.value (Message.priority m))) /\
      (data !! "id" = Some (VStr (Message.id m)) \/
       data !! "id" = Some VNone) /\
      (data !! "timestamp" = Some (VFloat (Message.timestamp m)) \/
       data !! "timestamp" = Some VNone)
  | (Raise err, e') =>
      e' = e /\
      ((exists key, err = KeyError key /\ data !! key = None) \/
       (exists what, err = ValueError what))
  end.
Proof.
  intros Hann. unfold annotated in Hann.
  unfold Message.from_dict, Message.getitem, Message.lift, bind, raise, ret.
  destruct (data !! "id") as [v_id |] eqn:Hid;
    [| split; [reflexivity | left; eauto]].
  destruct (data !! "sender") as [v_s |] eqn:Hsender;
    [| split; [reflexivity | left; eauto]].
  destruct (AgentRole.of_value v_s) as [a_s | err] eqn:Hs;
    [| split; [reflexivity | right; eapply AgentRole_of_value_raises; eauto]].
  destruct (data !! "recipient") as [v_r |] eqn:Hrecipient;
    [| split; [reflexivity | left; eauto]].
  destruct (AgentRole.of_value v_r) as [a_r | err] eqn:Hr;
    [| split; [reflexivity | right; eapply AgentRole_of_value_raises; eauto]].
  destruct (data !! "message_type") as [v_k |] eqn:Hkind;
    [| split; [reflexivity | left; eauto]].
  destruct (MessageType.of_value v_k) as [a_k | err] eqn:Hk;
    [| split; [reflexivity | right; eapply MessageType_of_value_raises; eauto]].
  destruct (data !! "content") as [v_c |] eqn:Hcontent;
    [| split; [reflexivity | left; eauto]].
  destruct (data !! "priority") as [v_p |] eqn:Hpriority;
    [| split; [reflexivity | left; eauto]].
  destruct (MessagePriority.of_value v_p) as [a_p | err] eqn:Hp;
    [| split; [reflexivity
              | right; eapply MessagePriority_of_value_raises; eauto]].
  destruct (data !! "timestamp") as [v_t |] eqn:Htimestamp;
    [| split; [reflexivity | left; eauto]].
  apply AgentRole_of_value_inv in Hs, Hr. apply MessageType_of_value_inv in Hk.
  apply MessagePriority_of_value_inv in Hp. subst v_s v_r v_k.
  repeat (apply andb_true_iff in Hann; destruct Hann as (Hann & ?)).
  unfold Message.as_opt_str, Message.as_str, Message.as_opt_float,
    Message.as_bool, raise, ret.
  destruct v_id; try discriminate;
    destruct v_c; try discriminate;
    destruct v_t; try discriminate;
    (destruct (data !! "requires_response") as [[] |]; try discriminate);
    (destruct (data !! "conversation_id") as [[] |]; try discriminate);
    unfold Message.__init__, Message.__post_init__, bind, ret, time_time, uuid4;
    cbn; eauto 12.
Qed.

Lemma from_dict_reads_entries_witness :
  Message.to_dict Sample.serial_test !! "sender" = Some (VStr "tester") /\
  Message.to_dict Sample.serial_test !! "content" =
    Some (VStr "Serialization test").
Proof.
  pose proof (from_dict_reads_entries (Message.to_dict Sample.serial_test)
                Sample.env eq_refl) as H.
  assert (Hrun : Message.from_dict (Message.to_dict Sample.serial_test)
                   Sample.env = (Return Sample.serial_test, Sample.env))
    by reflexivity.
  rewrite Hrun in H. destruct H as (Hs & _ & _ & Hc & _).
  split; [exact Hs | exact Hc].
Defined.

(** X3. A mapping that holds the seven required entries and no others
    is read with the defaults: the metadata is empty, no response is
    required, and the conversation id is the next uuid drawn. *)
Theorem from_dict_defaults (data : dict) (m : Message.t) (e : Env) :
  data !! "id" = Some (VStr (Message.id m)) ->
  data !! "sender" = Some (VStr (AgentRole.value (Message.sender m))) ->
  data !! "recipient" = Some (VStr (AgentRole.value (Message.recipient m))) ->
  data !! "message_type" =
    Some (VStr (MessageType.value (Message.message_type m))) ->
  data !! "content" = Some (VStr (Message.content m)) ->
  data !! "priority" =
    Some (VInt (MessagePriority.value (Message.priority m))) ->
  data !! "timestamp" = Some (VFloat (Message.timestamp m)) ->
  data !! "metadata" = None ->
  data !! "requires_response" = None ->
  data !! "conversation_id" = None ->
  exists m' e',
    Message.from_dict data e = (Return m', e') /\
    Message.metadata m' = Some ∅ /\
    Message.requires_response m' = false /\
    Message.conversation_id m' = uuid_src e (draws e) /\
    draws e' = S (draws e) /\ ticks e' = ticks e /\
    Message.id m' = Message.id m /\
    Message.sender m' = Message.sender m /\
    Message.recipient m' = Message.recipient m /\
    Message.message_type m' = Message.message_type m /\
    Message.content m' = Message.content m /\
    Message.priority m' = Message.priority m /\
    Message.timestamp m' = Message.timestamp m.
Proof.
  intros Hid Hs Hr Hk Hc Hp Ht Hm Hq Hv.
  unfold Message.from_dict, Message.getitem.
  rewrite Hid, Hs, Hr, Hk, Hc, Hp, Ht, Hq, Hv, Hm.
  unfold bind, ret, Message.lift.
  rewrite !AgentRole_of_value_value, MessageType_of_value_value,
    MessagePriority_of_value_value.
  cbn. eexists _, _. split; [reflexivity |]. cbn. auto 15.
Qed.

Lemma from_dict_defaults_witness :
  exists m' e',
    Message.from_dict
      (base.delete "metadata"
         (base.delete "requires_response"
            (base.delete "conversation_id"
               (Message.to_dict Sample.serial_test)))) Sample.env
      = (Return m', e') /\
    Message.metadata m' = Some ∅ /\
    Message.requires_response m' = false /\
    Message.conversation_id m' = "uuid-0".
Proof.
  destruct (from_dict_defaults
              (base.delete "metadata"
                 (base.delete "requires_response"
                    (base.delete "conversation_id"
                       (Message.to_dict Sample.serial_test))))
              Sample.serial_test Sample.env)
    as (m' & e' & Hrun & Hm & Hq & Hc & _); try reflexivity.
  exists m', e'. split; [exact Hrun |]. split; [exact Hm |].
  split; [exact Hq | exact Hc].
Defined.

End MessageEdges.

Section ThreadEdges.

(** X4. With a negative limit [get_context] does not return the most
    recent messages: the slice [messages[-limit:]] then starts at the
    positive index [-limit], so the result is the thread without its
    first [-limit] messages, and empty when the thread has no more than
    that. *)
Theorem get_context_negative_limit (limit : Z) (th : ConversationThread.t) :
  limit < 0 ->
  ConversationThread.get_context limit th =
    drop (Z.to_nat (- limit)) (ConversationThread.messages th) /\
  (Z.of_nat (length (ConversationThread.messages th)) <= - limit ->
   ConversationThread.get_context limit th = []).
Proof.
  intros Hneg. unfold ConversationThread.get_context, slice_last, slice_from.
  destruct (Z.ltb_spec (- limit) 0) as [Hlt | _]; [lia |].
  split.
  - destruct (Z.le_ge_cases (- limit)
                (Z.of_nat (length (ConversationThread.messages th))))
      as [Hle | Hge].
    + now rewrite Z.min_l by exact Hle.
    + rewrite Z.min_r by exact Hge. rewrite Nat2Z.id.
      rewrite !drop_ge; [reflexivity | lia | lia].
  - intros Hshort. rewrite Z.min_r by exact Hshort. rewrite Nat2Z.id.
    now apply drop_ge.
Qed.

Lemma get_context_negative_limit_witness :
  map Message.id
    (ConversationThread.get_context (-2)
       (Sample.thread
          (map (fun i => Sample.status i MessagePriority.MEDIUM)
             ["0"; "1"; "2"]))) = ["msg-2"].
Proof.
  destruct (get_context_negative_limit (-2)
              (Sample.thread
                 (map (fun i => Sample.status i MessagePriority.MEDIUM)
                    ["0"; "1"; "2"]))) as (-> & _); [lia |].
  reflexivity.
Defined.

End ThreadEdges.

Section HubTables.

Import CommunicationHub.

Context {Ext : Type}.
Implicit Types w : World Ext.

Lemma AgentRole_eqb_eq (a b : AgentRole.t) :
  AgentRole.eqb a b = true <-> a = b.
Proof. destruct a, b; cbn; split; congruence. Qed.

Lemma AgentRole_eqb_neq (a b : AgentRole.t) :
  AgentRole.eqb a b = false <-> a <> b.
Proof. destruct a, b; cbn; split; congruence. Qed.

Lemma dict_get_set_eq (k : AgentRole.t) (v : Callable Ext) d :
  dict_get k (dict_set k v d) = Some v.
Proof.
  induction d as [| [k' v'] d IH]; cbn.
  - now replace (AgentRole.eqb k k) with true by (now destruct k).
  - destruct (AgentRole.eqb k k') eqn:E; cbn.
    + now replace (AgentRole.eqb k k) with true by (now destruct k).
    + now rewrite E.
Qed.

Lemma dict_get_set_ne (k k' : AgentRole.t) (v : Callable Ext) d :
  k' <> k -> dict_get k' (dict_set k v d) = dict_get k' d.
Proof.
  intros Hne. induction d as [| [k0 v0] d IH]; cbn.
  - apply AgentRole_eqb_neq in Hne. now rewrite Hne.
  - destruct (AgentRole.eqb k k0) eqn:E; cbn.
    + apply AgentRole_eqb_eq in E. subst k0.
      apply AgentRole_eqb_neq in Hne. now rewrite Hne.
    + destruct (AgentRole.eqb k' k0); [reflexivity | exact IH].
Qed.

Lemma dict_set_length (k : AgentRole.t) (v : Callable Ext) d :
  length (dict_set k v d) =
    match dict_get k d with
    | Some _ => length d
    | None => S (length d)
    end.
Proof.
  induction d as [| [k0 v0] d IH]; cbn; [reflexivity |].
  destruct (AgentRole.eqb k k0); cbn; [reflexivity |].
  rewrite IH. now destruct (dict_get k d).
Qed.

Lemma slice_last_In {A} (k : Z) (l : list A) (x : A) :
  In x (slice_last k l) -> In x l.
Proof.
  unfold slice_last, slice_from. intros Hin.
  apply list_elem_of_In. apply list_elem_of_In in Hin.
  eapply elem_of_sublist; [exact Hin | apply sublist_drop].
Qed.

(** X5. [get_conversation_history] returns only messages between the
    two agents, in either direction and in the order of the history; it
    returns the same list when the two agents are given in the other
    order; and a limit of zero returns every such message, not none. *)
Theorem get_conversation_history_between (agent1 agent2 : AgentRole.t)
    (limit : Z) (h : t Ext) :
  (forall m, In m (get_conversation_history agent1 agent2 limit h) ->
     between agent1 agent2 m /\ In m (message_history h)) /\
  get_conversation_history agent1 agent2 limit h
    `sublist_of` message_history h /\
  get_conversation_history agent2 agent1 limit h =
    get_conversation_history agent1 agent2 limit h /\
  (forall m, In m (message_history h) -> between agent1 agent2 m ->
     In m (get_conversation_history agent1 agent2 0 h)).
Proof.
  unfold get_conversation_history. repeat split.
  - apply slice_last_In, list_elem_of_In, list_elem_of_filter in H
      as (Hp & _).
    apply Is_true_true in Hp. apply orb_true_iff in Hp.
    unfold between.
    destruct Hp as [Hp | Hp]; apply andb_true_iff in Hp as (H1 & H2);
      apply AgentRole_eqb_eq in H1, H2; auto.
  - apply slice_last_In, list_elem_of_In, list_elem_of_filter in H
      as (_ & Hin).
    now apply list_elem_of_In.
  - unfold slice_last, slice_from.
    etransitivity; [apply sublist_drop | apply sublist_filter].
  - f_equal. apply list_filter_iff. intros m.
    rewrite !Is_true_true, !orb_true_iff. tauto.
  - intros m Hin Hb.
    unfold slice_last, slice_from. cbn. rewrite Z.min_l by lia. cbn.
    apply list_elem_of_In, list_elem_of_filter. split.
    + apply Is_true_true, orb_true_iff. unfold between in Hb.
      destruct Hb as [(H1 & H2) | (H1 & H2)]; [left | right];
        apply andb_true_iff; split; now apply AgentRole_eqb_eq.
    + now apply list_elem_of_In.
Qed.

End HubTables.

(* ===================================================================== *)
(** * Invariants of the hub *)
(* ===================================================================== *)

Section HubInvariants.

Import CommunicationHub.

Context {Ext : Type}.
Implicit Types w : World Ext.

(** ** A proof principle for the operations of the hub *)

Section Principle.

Variable R : World Ext -> World Ext -> Prop.
Context `{!PreOrder R}.

Hypothesis R_env : forall w e, R w (set_env e w).
Hypothesis R_futures : forall w f, R w (set_futures f w).
Hypothesis R_tables :
  forall w h',
    message_queue h' = message_queue (hub w) ->
    conversations h' = conversations (hub w) ->
    message_history h' = message_history (hub w) ->
    delivery_stats h' = delivery_stats (hub w) ->
    R w (set_hub h' w).
Hypothesis R_send : forall m, preserves R (send_message m).
Hypothesis R_turn : preserves R _process_one.

Lemma in_env_preserves {A} (m : M Env A) : preserves R (in_env m).
Proof.
  intros w r w'. unfold in_env, zoom. destruct (m (env w)) as [r1 e1].
  intros [= _ <-]. apply R_env.
Qed.

Lemma tables_preserve (f : t Ext -> t Ext) :
  (forall h, message_queue (f h) = message_queue h /\
             conversations (f h) = conversations h /\
             message_history (f h) = message_history h /\
             delivery_stats (f h) = delivery_stats h) ->
  preserves R (assign f).
Proof.
  intros Hf. apply (preserves_modify R). intros w.
  destruct (Hf (hub w)) as (H1 & H2 & H3 & H4). now apply R_tables.
Qed.

Lemma post_preserves (message : Message.t) :
  preserves R (_ <- send_message message ;; ret tt).
Proof.
  apply (preserves_bind R); [apply R_send |].
  intros _. apply (preserves_ret R).
Qed.

Lemma send_request_preserves (sender recipient : AgentRole.t)
    (content : string) (message_type : MessageType.t)
    (during : M (World Ext) unit) :
  preserves R during ->
  preserves R (send_request sender recipient content message_type during).
Proof.
  intros Hduring. unfold send_request.
  apply (preserves_bind R); [apply in_env_preserves |]. intros request_id.
  apply (preserves_bind R); [apply in_env_preserves |]. intros request_msg.
  apply (preserves_bind R).
  { intros w r w' [= _ <-]. apply R_futures. }
  intros response_future.
  apply (preserves_bind R).
  { apply tables_preserve. intros h. repeat split. }
  intros _. apply (preserves_try_except R); [| intros e; apply (preserves_ret R)].
  apply (preserves_bind R); [apply R_send |]. intros _.
  apply (preserves_bind R); [exact Hduring |]. intros _.
  apply (preserves_bind R); [apply (preserves_gets R) |]. intros f.
  destruct f; try apply (preserves_ret R);
    (apply (preserves_bind R);
     [apply (preserves_modify R); intros w; apply R_futures
     | intros _; apply (preserves_raise R)]).
Qed.

Lemma run_ops_preserve (ops : list (Op Ext)) :
  Forall (fun o => preserves R (exec o)) ops ->
  preserves R
    ((fix run (ops : list (Op Ext)) : M (World Ext) unit :=
        match ops with
        | [] => ret tt
        | o :: ops' => exec o ;; run ops'
        end) ops).
Proof.
  induction 1 as [| o ops Ho _ IH].
  - apply (preserves_ret R).
  - apply (preserves_bind R); [exact Ho | intros _; exact IH].
Qed.

Lemma exec_preserves (op : Op Ext) : preserves R (exec op).
Proof.
  induction op as
    [ | | role cb | cb | message | | sender recipient content message_type
      during IH | sender content message_type | participants topic data]
    using Op_nested_ind; cbn [exec].
  - unfold start. apply (preserves_bind R); [apply (preserves_gets R) |].
    intros [|]; [apply (preserves_ret R) |].
    apply tables_preserve. intros h. repeat split.
  - unfold stop. apply (preserves_bind R); [apply (preserves_gets R) |].
    intros [task |]; apply tables_preserve; intros h; repeat split.
  - apply tables_preserve. intros h. repeat split.
  - apply tables_preserve. intros h. repeat split.
  - apply post_preserves.
  - unfold turn. apply (preserves_bind R); [apply (preserves_gets R) |].
    intros [|]; [apply R_turn | apply (preserves_ret R)].
  - apply (preserves_bind R); [| intros _; apply (preserves_ret R)].
    apply send_request_preserves. now apply run_ops_preserve.
  - unfold broadcast_message.
    apply (preserves_bind R); [apply (preserves_gets R) |]. intros subs.
    apply (preserves_for_each R). intros role.
    destruct (AgentRole.eqb role sender); [apply (preserves_ret R) |].
    apply (preserves_bind R); [apply in_env_preserves |]. intros i.
    apply (preserves_bind R); [apply in_env_preserves |]. intros message.
    apply post_preserves.
  - apply (preserves_bind R); [| intros _; apply (preserves_ret R)].
    unfold start_negotiation.
    apply (preserves_bind R); [apply in_env_preserves |]. intros negotiation_id.
    apply (preserves_bind R); [apply in_env_preserves |]. intros now.
    apply (preserves_bind R).
    { apply tables_preserve. intros h. repeat split. }
    intros _.
    apply (preserves_bind R); [| intros _; apply (preserves_ret R)].
    apply (preserves_for_each R). intros participant.
    apply (preserves_bind R); [apply in_env_preserves |]. intros i.
    apply (preserves_bind R); [apply in_env_preserves |]. intros message.
    apply post_preserves.
Qed.

Lemma exec_all_preserves (ops : list (Op Ext)) : preserves R (exec_all ops).
Proof. apply (preserves_for_each R). apply exec_preserves. Qed.

End Principle.

Section CallPrinciple.

Variable R : World Ext -> World Ext -> Prop.
Context `{!PreOrder R}.

Hypothesis R_ext : forall w x, R w (set_ext x w).
Hypothesis R_calls : forall w c, R w (set_calls c w).
Hypothesis R_futures : forall w f, R w (set_futures f w).
Hypothesis R_send : forall m, preserves R (send_message m).

Lemma call_preserves (callback : Callable Ext) (message : Message.t) :
  preserves R (call callback message).
Proof.
  unfold call. apply (preserves_bind R).
  { apply (preserves_modify R). intros w. apply R_calls. }
  intros _. destruct callback as [name run | recipient request_id fut].
  - apply (preserves_bind R).
    { intros w r w'. destruct (run message (ext w)) as [r0 x].
      intros [= _ <-]. apply R_ext. }
    intros r. apply (preserves_bind R).
    { apply (preserves_for_each R). intros p.
      apply (preserves_bind R); [apply R_send |].
      intros _. apply (preserves_ret R). }
    intros _. destruct (raises r); [apply (preserves_raise R) | apply (preserves_ret R)].
  - apply (preserves_bind R); [| intros _; apply (preserves_raise R)].
    destruct (_ && _); [| apply (preserves_ret R)].
    apply (preserves_bind R); [apply (preserves_gets R) |]. intros f.
    destruct (done f); [apply (preserves_ret R) |].
    apply (preserves_modify R). intros w. apply R_futures.
Qed.

Lemma observers_preserve (observers : list (Callable Ext))
    (message : Message.t) :
  preserves R
    (for_each observers
       (fun subscriber =>
          try_except (call subscriber message) (fun e => ret tt))).
Proof.
  apply (preserves_for_each R). intros subscriber.
  apply (preserves_try_except R); [apply call_preserves |].
  intros e. apply (preserves_ret R).
Qed.

Hypothesis R_books :
  forall w h',
    conversations h' = conversations (hub w) ->
    message_history h' = message_history (hub w) ->
    R w (set_hub h' w).

Lemma books_preserve (f : t Ext -> t Ext) :
  (forall h, conversations (f h) = conversations h /\
             message_history (f h) = message_history h) ->
  preserves R (assign f).
Proof.
  intros Hf. apply (preserves_modify R). intros w.
  destruct (Hf (hub w)) as (H1 & H2). now apply R_books.
Qed.

Lemma _process_one_preserves : preserves R _process_one.
Proof.
  unfold _process_one.
  apply (preserves_try_except R); [| intros e; apply (preserves_ret R)].
  apply (preserves_bind R).
  { unfold queue_get. apply (preserves_bind R); [apply (preserves_gets R) |].
    intros q. destruct (items q); [apply (preserves_raise R) |].
    apply (preserves_bind R); [| intros _; apply (preserves_ret R)].
    apply books_preserve. intros h. split; reflexivity. }
  intros [priority message].
  apply (preserves_bind R); [apply (preserves_gets R) |]. intros subs.
  apply (preserves_bind R).
  { destruct (dict_get _ _) as [handler |]; [| apply (preserves_ret R)].
    apply (preserves_try_except R).
    - apply (preserves_bind R); [apply call_preserves |]. intros _.
      apply books_preserve. intros h. split; reflexivity.
    - intros e. apply books_preserve. intros h. split; reflexivity. }
  intros _.
  apply (preserves_bind R); [apply (preserves_gets R) |]. intros observers.
  apply (preserves_bind R); [apply observers_preserve |].
  intros _. unfold task_done.
  apply (preserves_bind R); [apply (preserves_gets R) |]. intros q.
  destruct (_ <=? _); [apply (preserves_raise R) |].
  apply books_preserve. intros h. split; reflexivity.
Qed.

End CallPrinciple.

(** ** What a send does to the books *)

Ltac hub_run :=
  cbv [send_message try_except bind queue_put queue_get task_done self gets
       assign modify bump ret _track_conversation alias_claimed in_env zoom
       uuid4 raise];
  cbn [hub set_hub message_queue set_message_queue set_message_history
       message_history set_delivery_stats delivery_stats env set_env
       conversations set_conversations items unfinished_tasks put_error
       ConversationThread.add_message ConversationThread.id
       ConversationThread.messages ConversationThread.participants
       ConversationThread.created_at ConversationThread.status
       subscribers broadcast_subscribers
       is_running processing_task active_negotiations ext futures calls
       total_sent total_delivered total_failed count_sent count_failed
       count_delivered Message.priority Message.set_conversation_id].

Lemma send_message_files (message : Message.t) w :
  put_error (message_queue (hub w)) = None ->
  exists w',
    send_message message w = (Return true, w') /\
    claimed message w =
      Message.set_conversation_id
        (ConversationThread.id (filing_thread message w)) message /\
    conversations (hub w') =
      <[filing_key message w :=
          {| ConversationThread.id :=
               ConversationThread.id (filing_thread message w);
             ConversationThread.participants :=
               ConversationThread.participants (filing_thread message w);
             ConversationThread.messages :=
               ConversationThread.messages (filing_thread message w)
               ++ [claimed message w];
             ConversationThread.created_at :=
               ConversationThread.created_at (filing_thread message w);
             ConversationThread.status :=
               ConversationThread.status (filing_thread message w) |}]>
        (conversations (hub w)) /\
    message_history (hub w') = message_history (hub w) ++ [claimed message w].
Proof.
  intros Hput. unfold claimed, filing_thread, filing_key. hub_run.
  rewrite Hput.
  destruct (String.eqb (Message.conversation_id message) "");
    hub_run;
    (match goal with |- context [?m !! ?k] => destruct (m !! k) end);
    (eexists; split; [reflexivity |]); hub_run;
    rewrite ?replace_last_app; auto.
Qed.

Lemma send_message_faulty_books (message : Message.t) w (e : Exn) r w' :
  put_error (message_queue (hub w)) = Some e ->
  send_message message w = (r, w') ->
  conversations (hub w') = conversations (hub w) /\
  message_history (hub w') = message_history (hub w) /\
  message_queue (hub w') = message_queue (hub w) /\
  total_sent (delivery_stats (hub w')) = total_sent (delivery_stats (hub w)).
Proof.
  intros Hput. rewrite (send_message_faulty message w e Hput).
  intros [= _ <-]. repeat split.
Qed.

(** ** Records only grow *)

#[global] Instance records_grow_preorder : PreOrder (@records_grow Ext).
Proof.
  split.
  - intros w. split; [reflexivity |]. intros k th Hth.
    exists th. repeat split; [exact Hth | reflexivity].
  - intros w1 w2 w3 (Hh1 & Ht1) (Hh2 & Ht2). split.
    + etransitivity; eassumption.
    + intros k th Hth.
      destruct (Ht1 k th Hth) as (th2 & Hth2 & Hi & Hp & Hc & Hs & Hm).
      destruct (Ht2 k th2 Hth2) as (th3 & Hth3 & Hi' & Hp' & Hc' & Hs' & Hm').
      exists th3. split; [exact Hth3 |].
      repeat split; try congruence. etransitivity; eassumption.
Qed.

Lemma records_grow_books w (h' : t Ext) :
  conversations h' = conversations (hub w) ->
  message_history h' = message_history (hub w) ->
  records_grow w (set_hub h' w).
Proof.
  intros Hc Hh. split; cbn.
  - now rewrite Hh.
  - intros k th Hth. exists th. rewrite Hc.
    repeat split; [exact Hth | reflexivity].
Qed.

Lemma send_message_records (message : Message.t) :
  preserves (@records_grow Ext) (send_message message).
Proof.
  intros w r w' Hrun.
  destruct (put_error (message_queue (hub w))) as [e |] eqn:Hput.
  - destruct (send_message_faulty_books message w e r w' Hput Hrun)
      as (Hc & Hh & _).
    split; [now rewrite Hh |].
    intros k th Hth. exists th. rewrite Hc.
    repeat split; [exact Hth | reflexivity].
  - destruct (send_message_files message w Hput)
      as (w1 & Hrun1 & _ & Hc & Hh).
    rewrite Hrun1 in Hrun. injection Hrun as _ <-. split.
    + rewrite Hh. now apply prefix_app_r.
    + intros k th Hth. rewrite Hc.
      destruct (decide (k = filing_key message w)) as [-> | Hne].
      * rewrite lookup_insert_eq. eexists. split; [reflexivity |].
        unfold filing_thread. rewrite Hth. cbn.
        repeat split. now apply prefix_app_r.
      * rewrite lookup_insert_ne by congruence.
        exists th. repeat split; [exact Hth | reflexivity].
Qed.

Lemma exec_records_grow (op : Op Ext) : preserves records_grow (exec op).
Proof.
  apply exec_preserves.
  - apply records_grow_preorder.
  - intros w e. split; [reflexivity |]. intros k th Hth. exists th.
    repeat split; [exact Hth | reflexivity].
  - intros w f. split; [reflexivity |]. intros k th Hth. exists th.
    repeat split; [exact Hth | reflexivity].
  - intros w h' _ Hc Hh _. now apply records_grow_books.
  - apply send_message_records.
  - apply _process_one_preserves.
    + apply records_grow_preorder.
    + intros w x. split; [reflexivity |]. intros k th Hth. exists th.
      repeat split; [exact Hth | reflexivity].
    + intros w c. split; [reflexivity |]. intros k th Hth. exists th.
      repeat split; [exact Hth | reflexivity].
    + intros w f. split; [reflexivity |]. intros k th Hth. exists th.
      repeat split; [exact Hth | reflexivity].
    + apply send_message_records.
    + intros w h'. apply records_grow_books.
Qed.

(** X6. No operation of the hub, turn of its dispatch loop or callback
    removes or rewrites what has been recorded: the history only grows
    at its end, and every conversation thread stays in place with the
    participants, creation time and status it was created with, its
    messages only growing at the end. In particular nothing ever
    completes or archives a thread, and an agent that joins a
    conversation later is not added to its participants. *)
Theorem records_only_grow (ops : list (Op Ext)) (w : World Ext)
    (r : Result unit) (w' : World Ext) :
  exec_all ops w = (r, w') ->
  message_history (hub w) `prefix_of` message_history (hub w') /\
  forall k th,
    conversations (hub w) !! k = Some th ->
    exists th',
      conversations (hub w') !! k = Some th' /\
      ConversationThread.participants th' =
        ConversationThread.participants th /\
      ConversationThread.status th' = ConversationThread.status th /\
      ConversationThread.created_at th' = ConversationThread.created_at th /\
      ConversationThread.messages th
        `prefix_of` ConversationThread.messages th'.
Proof.
  intros Hrun.
  assert (Hgrow : records_grow w w').
  { eapply (exec_all_preserves records_grow); [| | | | | exact Hrun].
    - intros w0 e. split; [reflexivity |]. intros k th Hth. exists th.
      repeat split; [exact Hth | reflexivity].
    - intros w0 f. split; [reflexivity |]. intros k th Hth. exists th.
      repeat split; [exact Hth | reflexivity].
    - intros w0 h' _ Hc Hh _. now apply records_grow_books.
    - apply send_message_records.
    - apply _process_one_preserves.
      + apply records_grow_preorder.
      + intros w0 x. split; [reflexivity |]. intros k th Hth. exists th.
        repeat split; [exact Hth | reflexivity].
      + intros w0 c. split; [reflexivity |]. intros k th Hth. exists th.
        repeat split; [exact Hth | reflexivity].
      + intros w0 f. split; [reflexivity |]. intros k th Hth. exists th.
        repeat split; [exact Hth | reflexivity].
      + apply send_message_records.
      + intros w0 h'. apply records_grow_books. }
  destruct Hgrow as (Hh & Ht). split; [exact Hh |].
  intros k th Hth.
  destruct (Ht k th Hth) as (th' & Hth' & _ & Hp & Hc & Hs & Hm).
  exists th'. auto.
Qed.

(** ** Messages are filed *)

Lemma filing_thread_id (message : Message.t) w :
  threads_keyed w ->
  ConversationThread.id (filing_thread message w) = filing_key message w.
Proof.
  intros Hkeyed. unfold filing_thread.
  destruct (conversations (hub w) !! filing_key message w) as [th |] eqn:Hth.
  - exact (Hkeyed _ _ Hth).
  - reflexivity.
Qed.

Lemma send_message_filed (message : Message.t) w r w' :
  filed w -> send_message message w = (r, w') -> filed w'.
Proof.
  intros (Hkeyed & Hcarry & Hfiled) Hrun.
  destruct (put_error (message_queue (hub w))) as [e |] eqn:Hput.
  - destruct (send_message_faulty_books message w e r w' Hput Hrun)
      as (Hc & Hh & _).
    unfold filed, threads_keyed. rewrite Hc, Hh. auto.
  - destruct (send_message_files message w Hput)
      as (w1 & Hrun1 & Hclaimed & Hc & Hh).
    rewrite Hrun1 in Hrun. injection Hrun as _ <-.
    pose proof (filing_thread_id message w Hkeyed) as Hid.
    assert (Hcid : Message.conversation_id (claimed message w) =
                   filing_key message w).
    { rewrite Hclaimed, Hid. now destruct message. }
    assert (Hold : forall m,
               In m (ConversationThread.messages (filing_thread message w)) ->
               Message.conversation_id m = filing_key message w).
    { intros m Hin. unfold filing_thread in Hin.
      destruct (conversations (hub w) !! filing_key message w) as [th |] eqn:Hth.
      - exact (Hcarry _ _ _ Hth Hin).
      - destruct Hin. }
    unfold filed, threads_keyed. rewrite Hc, Hh.
    split; [| split].
    + intros k th Hth. apply lookup_insert_Some in Hth as [(<- & <-) | (_ & Hth)].
      * exact Hid.
      * exact (Hkeyed _ _ Hth).
    + intros k th m Hth Hin.
      apply lookup_insert_Some in Hth as [(<- & <-) | (_ & Hth)].
      * cbn in Hin. apply in_app_or in Hin as [Hin | [<- | []]].
        -- now apply Hold.
        -- exact Hcid.
      * exact (Hcarry _ _ _ Hth Hin).
    + intros m Hin. apply in_app_or in Hin as [Hin | [<- | []]].
      * destruct (Hfiled m Hin) as (th & Hth & Hm).
        destruct (decide (Message.conversation_id m = filing_key message w))
          as [Heq | Hne].
        -- rewrite Heq, lookup_insert_eq. eexists. split; [reflexivity |].
           cbn. apply in_or_app. left.
           unfold filing_thread. rewrite <- Heq, Hth. exact Hm.
        -- rewrite lookup_insert_ne by congruence. eauto.
      * rewrite Hcid, lookup_insert_eq. eexists. split; [reflexivity |].
        cbn. apply in_or_app. right. now left.
Qed.

#[global] Instance keeps_filed_preorder : PreOrder (@keeps_filed Ext).
Proof. split; unfold keeps_filed; [intros w; auto | intros w1 w2 w3; auto]. Qed.

Lemma filed_books w (h' : t Ext) :
  conversations h' = conversations (hub w) ->
  message_history h' = message_history (hub w) ->
  keeps_filed w (set_hub h' w).
Proof.
  intros Hc Hh. unfold keeps_filed, filed, threads_keyed. cbn.
  now rewrite Hc, Hh.
Qed.

Lemma exec_all_filed (ops : list (Op Ext)) : preserves (@keeps_filed Ext) (exec_all ops).
Proof.
  apply exec_all_preserves.
  - apply keeps_filed_preorder.
  - intros w e. exact (fun H => H).
  - intros w f. exact (fun H => H).
  - intros w h' _ Hc Hh _. now apply filed_books.
  - intros m w r w' Hrun Hf. exact (send_message_filed m w r w' Hf Hrun).
  - apply _process_one_preserves.
    + apply keeps_filed_preorder.
    + intros w x. exact (fun H => H).
    + intros w c. exact (fun H => H).
    + intros w f. exact (fun H => H).
    + intros m w r w' Hrun Hf. exact (send_message_filed m w r w' Hf Hrun).
    + intros w h'. apply filed_books.
Qed.

(** X7. On a hub whose records are filed (as on a new hub), they stay
    filed through every operation, turn of the dispatch loop and
    callback: each message of the history lies in the conversation
    thread stored under the conversation id it carries, and each thread
    is stored under its own id and holds only messages carrying it. *)
Theorem messages_stay_filed (ops : list (Op Ext)) (w : World Ext)
    (r : Result unit) (w' : World Ext) :
  filed w ->
  exec_all ops w = (r, w') ->
  filed w'.
Proof. intros Hf Hrun. exact (exec_all_filed ops w r w' Hrun Hf). Qed.

Lemma new_hub_filed (e : Env) (x : Ext) : filed (new_hub e x).
Proof.
  unfold filed, threads_keyed, new_hub. cbn. split; [| split].
  - intros k th Hth. now rewrite lookup_empty in Hth.
  - intros k th m Hth. now rewrite lookup_empty in Hth.
  - intros m [].
Qed.

#[global] Instance keeps_accounted_preorder (k : Z) :
  PreOrder (@keeps_accounted Ext k).
Proof.
  split; unfold keeps_accounted; [intros w; auto | intros w1 w2 w3; auto].
Qed.

Lemma send_message_accounted (k : Z) (message : Message.t) :
  preserves (@keeps_accounted Ext k) (send_message message).
Proof.
  intros w r w' Hrun (Hsent & Hunf & Hsuf).
  destruct (put_error (message_queue (hub w))) as [e |] eqn:Hput.
  - destruct (send_message_faulty_books message w e r w' Hput Hrun)
      as (_ & Hh & Hq & Hs).
    unfold accounted_with. cbv zeta. rewrite Hh, Hq, Hs. auto.
  - destruct (send_message_healthy message w Hput)
      as (w1 & Hrun1 & Hitems & Hhist & Hstats & Hunf1 & _).
    rewrite Hrun1 in Hrun. injection Hrun as _ <-.
    unfold accounted_with. cbv zeta.
    rewrite Hitems, Hhist, Hstats, Hunf1, !length_app, map_app. cbn.
    split; [lia |]. split; [lia |]. now apply suffix_app.
Qed.

Lemma call_accounted (k : Z) (callback : Callable Ext) (message : Message.t) :
  preserves (@keeps_accounted Ext k) (call callback message).
Proof.
  apply call_preserves.
  - apply keeps_accounted_preorder.
  - intros w x. exact (fun H => H).
  - intros w c. exact (fun H => H).
  - intros w f. exact (fun H => H).
  - apply send_message_accounted.
Qed.

Lemma _process_one_accounted : preserves (@keeps_accounted Ext 0) _process_one.
Proof.
  intros w r w' Hrun Hacc. revert Hrun. unfold _process_one.
  destruct (items (message_queue (hub w))) as [| [p message] rest] eqn:Hq.
  - unfold try_except at 1, bind at 1. rewrite (queue_get_empty w Hq).
    intros [= _ <-]. exact Hacc.
  - unfold try_except at 1, bind at 1. rewrite (queue_get_head w _ _ Hq).
    match goal with |- context [set_hub ?h w] => set (w0 := set_hub h w) end.
    assert (H0 : accounted_with 1 w0).
    { destruct Hacc as (Hsent & Hunf & Hsuf). unfold accounted_with. cbn.
      rewrite Hq in Hunf, Hsuf. cbn in Hunf, Hsuf.
      split; [exact Hsent |]. split; [lia |].
      eapply suffix_cons_l. exact Hsuf. }
    clearbody w0.
    unfold bind at 1, self at 1, gets at 1.
    destruct (match dict_get (Message.recipient message) (subscribers (hub w0))
              with
              | Some handler =>
                  try_except (call handler message ;; bump count_delivered)
                    (fun _ => bump count_failed)
              | None => ret tt
              end w0) as [r1 w1] eqn:Hdeliver.
    assert (H1 : accounted_with 1 w1 /\ r1 = Return tt).
    { destruct (dict_get (Message.recipient message) (subscribers (hub w0)))
        as [handler |].
      - revert Hdeliver. unfold try_except, bind.
        destruct (call handler message w0) as [rc wc] eqn:Hcall.
        pose proof (call_accounted 1 handler message w0 rc wc Hcall H0) as Hc.
        destruct rc; intros [= <- <-]; split; try reflexivity; exact Hc.
      - injection Hdeliver as <- <-. split; [exact H0 | reflexivity]. }
    destruct H1 as (H1 & ->).
    unfold bind at 1. rewrite Hdeliver.
    unfold bind at 1, self at 1, gets at 1.
    destruct (observers_frame (broadcast_subscribers (hub w1)) message w1)
      as (w2 & Hobs & _).
    assert (H2 : accounted_with 1 w2).
    { eapply (observers_preserve (@keeps_accounted Ext 1));
        [| | | | exact Hobs | exact H1].
      - intros w3 x. exact (fun H => H).
      - intros w3 c. exact (fun H => H).
      - intros w3 f. exact (fun H => H).
      - apply send_message_accounted. }
    unfold bind at 1. rewrite Hobs.
    unfold task_done, bind, self, gets.
    destruct H2 as (Hsent & Hunf & Hsuf).
    destruct (Z.leb_spec (unfinished_tasks (message_queue (hub w2))) 0)
      as [Hle | Hgt]; [lia |].
    unfold assign, modify. intros [= _ <-].
    unfold accounted_with. cbn. split; [exact Hsent |].
    split; [lia | exact Hsuf].
Qed.

Lemma exec_all_accounted (ops : list (Op Ext)) :
  preserves (@keeps_accounted Ext 0) (exec_all ops).
Proof.
  apply exec_all_preserves.
  - apply keeps_accounted_preorder.
  - intros w e. exact (fun H => H).
  - intros w f. exact (fun H => H).
  - intros w h' Hq _ Hh Hs. unfold keeps_accounted, accounted_with. cbn.
    now rewrite Hq, Hh, Hs.
  - apply send_message_accounted.
  - apply _process_one_accounted.
Qed.

(** X8. On a hub whose books balance (as on a new hub), they balance
    after every operation, turn of the dispatch loop and callback: the
    sent count is the number of messages in the history, the queue's
    count of unfinished tasks is the number of queued items, so that
    [task_done] is never called once too often, and the queue holds the
    most recent messages of the history in the order of the history. *)
Theorem books_stay_balanced (ops : list (Op Ext)) (w : World Ext)
    (r : Result unit) (w' : World Ext) :
  accounted w ->
  exec_all ops w = (r, w') ->
  total_sent (delivery_stats (hub w')) =
    Z.of_nat (length (message_history (hub w'))) /\
  unfinished_tasks (message_queue (hub w')) =
    Z.of_nat (length (items (message_queue (hub w')))) /\
  map snd (items (message_queue (hub w')))
    `suffix_of` message_history (hub w').
Proof.
  intros Hacc Hrun.
  destruct (exec_all_accounted ops w r w' Hrun Hacc) as (H1 & H2 & H3).
  split; [exact H1 |]. split; [lia | exact H3].
Qed.

Lemma new_hub_accounted (e : Env) (x : Ext) : accounted (new_hub e x).
Proof.
  unfold accounted, accounted_with, new_hub. cbn.
  split; [reflexivity |]. split; [reflexivity |]. reflexivity.
Qed.

Lemma suffix_length_le {A} (l k : list A) :
  l `suffix_of` k -> (length l <= length k)%nat.
Proof. intros (l0 & ->). rewrite length_app. lia. Qed.

(** X9. [get_stats] changes nothing in the hub and never raises; it
    reads the clock only if the history is not empty. On a hub whose
    books balance the report is consistent: the number of messages it
    gives is the sent count of its delivery statistics, and the queue
    size is at most that number. *)
Theorem get_stats_is_consistent (w : World Ext) :
  accounted w ->
  exists report w',
    get_stats w = (Return report, w') /\
    hub w' = hub w /\
    (message_history (hub w) = [] ->
     env w' = env w /\ r_uptime report = 0%Q) /\
    r_total_messages report = total_sent (r_delivery_stats report) /\
    r_queue_size report <= r_total_messages report /\
    r_subscriber_count report = Z.of_nat (length (subscribers (hub w))).
Proof.
  intros (Hsent & Hunf & Hsuf). unfold get_stats.
  unfold bind at 1, self at 1, gets at 1.
  apply suffix_length_le in Hsuf. rewrite length_map in Hsuf.
  destruct (message_history (hub w)) as [| first history] eqn:Hh.
  - eexists _, _. split; [reflexivity |]. cbn.
    rewrite Hh. cbn in *. split; [reflexivity |]. split; [auto |].
    split; [symmetry; exact Hsent |]. split; [lia | reflexivity].
  - eexists _, _. split; [reflexivity |]. cbn.
    rewrite Hh. cbn [length] in *. split; [reflexivity |].
    split; [discriminate |].
    split; [symmetry; exact Hsent |]. split; [lia | reflexivity].
Qed.

End HubInvariants.

(* ===================================================================== *)
(** * Dispatch, broadcast and negotiation *)
(* ===================================================================== *)

Section HubDispatch.

Import CommunicationHub.

Context {Ext : Type}.
Implicit Types w : World Ext.



(** ** Notices *)

Lemma kept_put_error w w' :
  kept w w' ->
  put_error (message_queue (hub w)) = None ->
  put_error (message_queue (hub w')) = None.
Proof. intros (_ & _ & _ & ->). auto. Qed.

Lemma send_message_negotiations (message : Message.t) w r w' :
  send_message message w = (r, w') ->
  active_negotiations (hub w') = active_negotiations (hub w).
Proof.
  cbv [send_message try_except bind queue_put self gets assign modify bump
       ret _track_conversation alias_claimed in_env zoom uuid4 raise].
  cbn [hub set_hub message_queue put_error].
  destruct (put_error (message_queue (hub w))); [intros [= _ <-]; reflexivity |].
  cbn [hub set_hub message_queue set_message_queue set_message_history
       message_history set_delivery_stats delivery_stats env set_env
       conversations set_conversations].
  destruct (String.eqb (Message.conversation_id message) "");
    cbn [hub set_hub message_queue set_message_queue set_message_history
         message_history set_delivery_stats delivery_stats env set_env
         conversations set_conversations];
    (match goal with |- context [?m !! ?k] => destruct (m !! k) end);
    intros [= _ <-]; reflexivity.
Qed.

(** One notice: a uuid is drawn for the id, the message is built and
    sent. *)
Lemma notice_sent (sender recipient : AgentRole.t) (kind : MessageType.t)
    (content : string) (metadata : dict) w :
  put_error (message_queue (hub w)) = None ->
  exists w' m,
    (i <- in_env uuid4 ;;
     message <-
       in_env (Message.__init__
                 (Message.with_metadata (Some metadata)
                    (Message.with_id i
                       (Message.positional sender recipient kind content)))) ;;
     _ <- send_message message ;;
     ret tt) w = (Return tt, w') /\
    notice sender recipient kind content metadata m /\
    items (message_queue (hub w')) =
      items (message_queue (hub w))
      ++ [(MessagePriority.value (Message.priority m), m)] /\
    message_history (hub w') = message_history (hub w) ++ [m] /\
    total_sent (delivery_stats (hub w')) =
      total_sent (delivery_stats (hub w)) + 1 /\
    active_negotiations (hub w') = active_negotiations (hub w) /\
    kept w w'.
Proof.
  intros Hput.
  erewrite bind_step by reflexivity.
  erewrite bind_step by reflexivity.
  match goal with
  | |- context [bind (send_message ?m) _ ?w0] =>
      set (message := m); set (wb := w0)
  end.
  assert (Hputb : put_error (message_queue (hub wb)) = None) by exact Hput.
  destruct (send_message_healthy message wb Hputb)
    as (w' & Hrun & Hitems & Hhist & Hstats & _ & Hk & _).
  rewrite (bind_step _ _ _ _ _ Hrun).
  destruct (claimed_fields message wb) as (F1 & F2 & F3 & F4 & F5).
  destruct (claimed_id message wb) as (_ & F6 & _).
  exists w', (claimed message wb). split; [reflexivity |].
  split.
  { unfold notice. rewrite F1, F2, F3, F4, F5, F6.
    repeat split. }
  split; [rewrite Hitems, F6; reflexivity |].
  split; [exact Hhist |].
  split; [rewrite Hstats; reflexivity |].
  split; [exact (send_message_negotiations message wb _ _ Hrun) |].
  destruct Hk as (K1 & K2 & K3 & K4). repeat split; assumption.
Qed.

(** X11. On a queue that accepts items, [broadcast_message] sends one
    notice to every subscribed role other than the sender, in
    subscription order, and none to the sender itself; each carries the
    given content and kind and the metadata [{'broadcast': True}]. With
    no subscriber other than the sender nothing is sent. *)
Theorem broadcast_reaches_the_others (sender : AgentRole.t)
    (content : string) (kind : MessageType.t) (w : World Ext) :
  put_error (message_queue (hub w)) = None ->
  exists w' sent,
    broadcast_message sender content kind w = (Return tt, w') /\
    map Message.recipient sent =
      List.filter (fun role => negb (AgentRole.eqb role sender))
        (map fst (subscribers (hub w))) /\
    Forall (fun m =>
              notice sender (Message.recipient m) kind content
                (<["broadcast" := VBool true]> ∅) m) sent /\
    map snd (items (message_queue (hub w'))) =
      map snd (items (message_queue (hub w))) ++ sent /\
    message_history (hub w') = message_history (hub w) ++ sent /\
    total_sent (delivery_stats (hub w')) =
      total_sent (delivery_stats (hub w)) + Z.of_nat (length sent).
Proof.
  intros Hput. unfold broadcast_message.
  unfold bind at 1, self at 1, gets at 1.
  generalize (map fst (subscribers (hub w))). intros roles.
  revert w Hput. induction roles as [| role roles IH]; intros w Hput.
  - exists w, []. split; [reflexivity |].
    rewrite !app_nil_r. cbn. repeat split; try constructor. lia.
  - cbn [for_each List.filter].
    destruct (AgentRole.eqb role sender) eqn:E; cbn [negb].
    + unfold bind at 1, ret at 1. exact (IH w Hput).
    +       destruct (notice_sent sender role kind content
                  (<["broadcast" := VBool true]> ∅) w Hput)
        as (w1 & m & Hrun & Hm & Hitems & Hhist & Hsent & _ & Hk).
      destruct (IH w1 (kept_put_error w w1 Hk Hput))
        as (w2 & sent & Hrest & Hrec & Hall & Hitems2 & Hhist2 & Hsent2).
      exists w2, (m :: sent). split.
      { unfold bind at 1. rewrite Hrun. exact Hrest. }
      split; [cbn; rewrite Hrec; f_equal; apply Hm |].
      split.
      { constructor; [| exact Hall].
        destruct Hm as (M1 & M2 & M3 & M4 & M5 & M6 & M7).
        unfold notice. rewrite M2. auto 10. }
      split; [rewrite Hitems2, Hitems, map_app; cbn; now rewrite <- app_assoc |].
      split; [rewrite Hhist2, Hhist; now rewrite <- app_assoc |].
      rewrite Hsent2, Hsent. cbn [length]. lia.
Qed.

(** X12. On a queue that accepts items, [start_negotiation] returns the
    uuid it drew first, records the negotiation under it as active with
    the given participants, topic and data (an absent data argument is
    an empty mapping), and sends one notice from the orchestrator to
    each participant in the order given, whether or not the role is
    subscribed; with no participants it records the negotiation and
    sends nothing. *)
Theorem start_negotiation_notifies (participants : list AgentRole.t)
    (topic : string) (initial_data : option dict) (w : World Ext) :
  put_error (message_queue (hub w)) = None ->
  exists w' sent record,
    start_negotiation participants topic initial_data w
      = (Return (uuid_src (env w) (draws (env w))), w') /\
    active_negotiations (hub w') !! uuid_src (env w) (draws (env w))
      = Some record /\
    n_participants record = participants /\
    n_topic record = topic /\
    n_data record = default ∅ initial_data /\
    n_status record = "active" /\
    n_proposals record = [] /\
    n_created_at record = time_src (env w) (ticks (env w)) /\
    map Message.recipient sent = participants /\
    Forall (fun m =>
              Message.sender m = AgentRole.ORCHESTRATOR /\
              Message.message_type m = MessageType.NEGOTIATION /\
              Message.content m = "Negotiation started: " +:+ topic) sent /\
    message_history (hub w') = message_history (hub w) ++ sent /\
    map snd (items (message_queue (hub w'))) =
      map snd (items (message_queue (hub w))) ++ sent.
Proof.
  intros Hput. unfold start_negotiation.
  erewrite bind_step by reflexivity.
  erewrite bind_step by reflexivity.
  erewrite bind_step by reflexivity.
  match goal with
  | |- context [bind (for_each _ ?body) _ ?w0] =>
      set (notify := body); set (wb := w0)
  end.
  assert (Hloop : forall roles w0,
    put_error (message_queue (hub w0)) = None ->
    exists w1 sent,
      for_each roles notify w0 = (Return tt, w1) /\
      map Message.recipient sent = roles /\
      Forall (fun m =>
                Message.sender m = AgentRole.ORCHESTRATOR /\
                Message.message_type m = MessageType.NEGOTIATION /\
                Message.content m = "Negotiation started: " +:+ topic) sent /\
      message_history (hub w1) = message_history (hub w0) ++ sent /\
      map snd (items (message_queue (hub w1))) =
        map snd (items (message_queue (hub w0))) ++ sent /\
      active_negotiations (hub w1) = active_negotiations (hub w0)).
  { induction roles as [| role roles IH]; intros w0 Hput0.
    - exists w0, []. rewrite !app_nil_r. repeat split; constructor.
    - cbn [for_each]. subst notify. cbv beta.
      match goal with
      | |- context [Message.with_metadata (Some ?md)] =>
          destruct (notice_sent AgentRole.ORCHESTRATOR role
                      MessageType.NEGOTIATION
                      ("Negotiation started: " +:+ topic) md w0 Hput0)
            as (w1 & m & Hrun & Hm & Hitems & Hhist & _ & Hneg & Hk)
      end.
      destruct (IH w1 (kept_put_error w0 w1 Hk Hput0))
        as (w2 & sent & Hrest & Hrec & Hall & Hhist2 & Hitems2 & Hneg2).
      exists w2, (m :: sent). split.
      { unfold bind at 1. rewrite Hrun. exact Hrest. }
      destruct Hm as (M1 & M2 & M3 & M4 & _).
      split; [cbn; now rewrite Hrec, M2 |].
      split; [constructor; [auto | exact Hall] |].
      split; [rewrite Hhist2, Hhist; now rewrite <- app_assoc |].
      split; [rewrite Hitems2, Hitems, map_app; cbn; now rewrite <- app_assoc |].
      congruence. }
  destruct (Hloop participants wb Hput)
    as (w1 & sent & Hrun & Hrec & Hall & Hhist & Hitems & Hneg).
  rewrite (bind_step _ _ _ _ _ Hrun).
  eexists w1, sent, _. split; [reflexivity |].
  split; [rewrite Hneg; apply lookup_insert_eq |].
  repeat split; assumption.
Qed.

(** X13. [stop] halts dispatch and nothing else: afterwards the hub is
    not running, the queue, the handlers and the observers are as
    before, the dispatch loop takes no further turn however long it is
    observed, and a message sent meanwhile is still accepted and waits
    in the queue. [start] on a running hub changes nothing. *)
Theorem stop_halts_dispatch (w : World Ext) :
  exists w',
    stop w = (Return tt, w') /\
    is_running (hub w') = false /\
    message_queue (hub w') = message_queue (hub w) /\
    subscribers (hub w') = subscribers (hub w) /\
    broadcast_subscribers (hub w') = broadcast_subscribers (hub w) /\
    (forall turns, _process_messages turns w' = (Return tt, w')) /\
    (forall message,
        put_error (message_queue (hub w)) = None ->
        exists w'',
          send_message message w' = (Return true, w'') /\
          length (items (message_queue (hub w''))) =
            S (length (items (message_queue (hub w)))) /\
          forall turns, _process_messages turns w'' = (Return tt, w'')) /\
    (is_running (hub w) = true -> start w = (Return tt, w)).
Proof.
  assert (Hidle : forall w0 turns,
             is_running (hub w0) = false ->
             _process_messages turns w0 = (Return tt, w0)).
  { intros w0 [| n] Hoff; [reflexivity |]. cbn [_process_messages].
    unfold bind, self, gets. now rewrite Hoff. }
  unfold stop. unfold bind, self, gets.
  destruct (processing_task (hub w)) as [task |];
    (eexists; split; [reflexivity |]); cbn;
    (split; [reflexivity |]); (split; [reflexivity |]);
    (split; [reflexivity |]); (split; [reflexivity |]);
    (split; [intros turns; now apply Hidle |]);
    (split;
     [intros message Hput;
      match goal with
      | |- context [send_message message ?w1] =>
          destruct (send_message_healthy message w1 Hput)
            as (w2 & Hrun & Hitems & _ & _ & _ & (_ & _ & Hr & _) & _)
      end;
      exists w2; split; [exact Hrun |];
      split; [rewrite Hitems, length_app; cbn; lia |];
      intros turns; apply Hidle; rewrite Hr; reflexivity
     | intros Hon; unfold start, bind, self, gets; now rewrite Hon]).
Qed.

End HubDispatch.

(* ===================================================================== *)
(** * The run of an agent *)
(* ===================================================================== *)

Section AgentSuccess.

Import BaseAgent.

Context {Sub Ext : Type}.
Implicit Types w : World Sub Ext.

Ltac agent_cbn :=
  cbn [agent hubw trace set_agent set_hubw
       config agent_id state start_time short_term_memory conversation_history
       context_cache metrics message_handlers state_change_callbacks
       last_error error_count sub
       set_state set_conversation_history set_metrics set_message_handlers
       set_state_change_callbacks set_error set_sub].

Ltac step := erewrite bind_step by reflexivity; agent_cbn.

(** The run of [_handle_message] when the applicable hook returns. *)
Lemma _handle_message_success (handle_message : Hook Sub)
    (message : Message.t) w (reply : option string) (x : Sub) :
  applicable handle_message message (agent w) message (sub (agent w))
    = (Return reply, x) ->
  let w4 :=
    set_agent (set_sub x (agent (processing message w)))
      (processing message w) in
  exists w5 w6,
    _handle_message handle_message message w
      = (Return tt, changed (target_state (state (agent w))) w6) /\
    (if Message.requires_response message && truthy_str reply
     then
       _send_response message (default "" reply) MessageType.TASK_RESPONSE w4
         = (Return tt, w5)
     else w5 = w4) /\
    (exists response_time,
        agent w6 =
          set_metrics
            (AgentMetrics.completed
               (AgentMetrics.update_response_time response_time
                  (metrics (agent w5)))) (agent w5)) /\
    CommunicationHub.hub (hubw w6) = CommunicationHub.hub (hubw w5) /\
    trace w6 = trace w5.
Proof.
  intros Hhook w4. subst w4. unfold processing, _handle_message.
  unfold try_except at 1.
  step. step. step. step. step.
  match goal with
  | |- context [bind (if ?c then _ else _) _ ?w0] =>
      assert (Htrim : (if c
                       then assign
                              (set_conversation_history
                                 (slice_last
                                    (AgentConfig.max_memory_size (config (agent w)))
                                    (conversation_history (agent w) ++ [message])))
                       else ret tt) w0 = (Return tt, received message w))
        by (unfold received; destruct c; reflexivity)
  end.
  rewrite (bind_step _ _ _ _ _ Htrim). clear Htrim.
  destruct (received_fields message w) as (Hst & Hmh & Hsub).
  unfold bind at 1, self at 1, gets at 1. rewrite Hst.
  rewrite (bind_step _ _ _ _ _ (_change_state_run _ _)).
  fold (target_state (state (agent w))).
  destruct (agent_changed AgentState.PROCESSING (received message w))
    as (Ha3 & Hh3).
  set (w3 := changed AgentState.PROCESSING (received message w)) in *.
  unfold try_finally at 1, try_except at 1.
  unfold bind at 1, self at 1, gets at 1.
  assert (Hrun :
    match handler_for (Message.message_type message)
            (message_handlers (agent w3)) with
    | Some h => run_hook h message
    | None => run_hook handle_message message
    end w3 = (Return reply, set_agent (set_sub x (agent w3)) w3)).
  { unfold applicable in Hhook. rewrite Ha3. agent_cbn. rewrite Hmh.
    destruct (handler_for _ _); unfold run_hook; rewrite Ha3; agent_cbn;
      rewrite Hsub, Hhook; reflexivity. }
  rewrite (bind_step _ _ _ _ _ Hrun).
  set (w4 := set_agent (set_sub x (agent w3)) w3).
  clearbody w4. clear Hrun.
  assert (Hsend : exists w5,
    (if Message.requires_response message && truthy_str reply
     then _send_response message (default "" reply) MessageType.TASK_RESPONSE
     else ret tt) w4 = (Return tt, w5) /\
    (if Message.requires_response message && truthy_str reply
     then
       _send_response message (default "" reply) MessageType.TASK_RESPONSE w4
         = (Return tt, w5)
     else w5 = w4)).
  { destruct (Message.requires_response message && truthy_str reply).
    - destruct (_send_response_run message (default "" reply)
                  MessageType.TASK_RESPONSE w4) as (w5 & response & Hs & _).
      exists w5. split; exact Hs.
    - exists w4. split; reflexivity. }
  destruct Hsend as (w5 & Hsend & Hw5).
  rewrite (bind_step _ _ _ _ _ Hsend). clearbody w3. clear Hsend.
  step. step.
  unfold assign at 1, modify at 1. agent_cbn.
  rewrite _change_state_run.
  eexists w5, _. split; [reflexivity |]. split; [exact Hw5 |].
  agent_cbn. split; [eexists; reflexivity |]. split; reflexivity.
Qed.

Lemma processing_fields (message : Message.t) w :
  let a := agent (processing message w) in
  AgentMetrics.tasks_completed (metrics a) =
    AgentMetrics.tasks_completed (metrics (agent w)) /\
  AgentMetrics.tasks_failed (metrics a) =
    AgentMetrics.tasks_failed (metrics (agent w)) /\
  AgentMetrics.messages_sent (metrics a) =
    AgentMetrics.messages_sent (metrics (agent w)) /\
  AgentMetrics.messages_received (metrics a) =
    AgentMetrics.messages_received (metrics (agent w)) + 1 /\
  last_error a = last_error (agent w) /\
  error_count a = error_count (agent w) /\
  config a = config (agent w) /\
  CommunicationHub.hub (hubw (processing message w)) =
    CommunicationHub.hub (hubw w).
Proof.
  unfold processing. cbv zeta.
  destruct (agent_changed AgentState.PROCESSING (received message w))
    as (Ha3 & Hh3).
  rewrite Ha3, Hh3. unfold received. agent_cbn. cbn. auto 10.
Qed.

(** X14. If the hook that applies to a message returns, [_handle_message]
    returns normally with the message counted as received and as
    completed, nothing counted as failed and the error record untouched,
    and the agent is back in the state it had when the message arrived
    (idle if that was processing). A response is sent exactly when the
    message requires one and the hook returned a text that is not
    empty: then the sent count grows by one and, on a queue that
    accepts items, the history of the hub grows by one task response to
    the sender of the message, carrying the text and the id of the
    message under "response_to", and that response is put into the
    queue of the hub, behind the items waiting there, as the one new
    item to dispatch. A hook that returns nothing or an empty text sends
    nothing, also when a response is required: the history and the
    queue of the hub are as before. *)
Theorem handler_success_is_recorded (handle_message : Hook Sub)
    (message : Message.t) (w : World Sub Ext) (reply : option string)
    (x : Sub) :
  applicable handle_message message (agent w) message (sub (agent w))
    = (Return reply, x) ->
  exists w',
    _handle_message handle_message message w = (Return tt, w') /\
    state (agent w') = target_state (state (agent w)) /\
    sub (agent w') = x /\
    AgentMetrics.messages_received (metrics (agent w')) =
      AgentMetrics.messages_received (metrics (agent w)) + 1 /\
    AgentMetrics.tasks_completed (metrics (agent w')) =
      AgentMetrics.tasks_completed (metrics (agent w)) + 1 /\
    AgentMetrics.tasks_failed (metrics (agent w')) =
      AgentMetrics.tasks_failed (metrics (agent w)) /\
    last_error (agent w') = last_error (agent w) /\
    error_count (agent w') = error_count (agent w) /\
    if Message.requires_response message && truthy_str reply
    then
      AgentMetrics.messages_sent (metrics (agent w')) =
        AgentMetrics.messages_sent (metrics (agent w)) + 1 /\
      (CommunicationHub.put_error
         (CommunicationHub.message_queue (CommunicationHub.hub (hubw w)))
         = None ->
       exists response d,
         CommunicationHub.message_history (CommunicationHub.hub (hubw w')) =
           CommunicationHub.message_history (CommunicationHub.hub (hubw w))
           ++ [response] /\
         Message.message_type response = MessageType.TASK_RESPONSE /\
         Message.content response = default "" reply /\
         Message.metadata response = Some d /\
         d !! "response_to" = Some (VStr (Message.id message)) /\
         Message.sender response = AgentConfig.role (config (agent w)) /\
         Message.recipient response = Message.sender message /\
         CommunicationHub.items
           (CommunicationHub.message_queue
              (CommunicationHub.hub (hubw w'))) =
           CommunicationHub.items
             (CommunicationHub.message_queue
                (CommunicationHub.hub (hubw w)))
           ++ [(MessagePriority.value MessagePriority.MEDIUM, response)] /\
         CommunicationHub.unfinished_tasks
           (CommunicationHub.message_queue
              (CommunicationHub.hub (hubw w'))) =
           CommunicationHub.unfinished_tasks
             (CommunicationHub.message_queue
                (CommunicationHub.hub (hubw w))) + 1)
    else
      AgentMetrics.messages_sent (metrics (agent w')) =
        AgentMetrics.messages_sent (metrics (agent w)) /\
      CommunicationHub.message_history (CommunicationHub.hub (hubw w')) =
        CommunicationHub.message_history (CommunicationHub.hub (hubw w)) /\
      CommunicationHub.message_queue (CommunicationHub.hub (hubw w')) =
        CommunicationHub.message_queue (CommunicationHub.hub (hubw w)).
Proof.
  intros Hhook.
  destruct (_handle_message_success handle_message message w reply x Hhook)
    as (w5 & w6 & Hrun & Hw5 & (rt & Ha6) & Hh6 & _).
  destruct (processing_fields message w)
    as (Hc & Hf & Hs & Hr & Hl & He & Hcfg & Hhub).
  destruct (agent_changed (target_state (state (agent w))) w6) as (Ha & Hh).
  exists (changed (target_state (state (agent w))) w6).
  split; [exact Hrun |]. rewrite Ha, Hh, Hh6, Ha6. clear Hrun Ha Hh Hhook Ha6 Hh6.
  revert Hw5 Hc Hf Hs Hr Hl He Hcfg Hhub.
  generalize (processing message w). intros wp Hw5 Hc Hf Hs Hr Hl He Hcfg Hhub.
  agent_cbn.
  destruct (Message.requires_response message && truthy_str reply).
  - destruct (_send_response_run message (default "" reply)
                MessageType.TASK_RESPONSE
                (set_agent (set_sub x (agent wp)) wp))
      as (w8 & response & Hsend & Hagent & _ & F1 & F2 & F3 & F4 & (d & F5 & F6)
          & _ & Hhist).
    rewrite Hsend in Hw5. injection Hw5 as <-.
    rewrite Hagent. agent_cbn. cbn.
    rewrite Hc, Hf, Hs, Hr, Hl, He.
    repeat (split; [reflexivity |]).
    intros Hput.
    assert (Hput' : CommunicationHub.put_error
                      (CommunicationHub.message_queue
                         (CommunicationHub.hub
                            (hubw (set_agent (set_sub x (agent wp)) wp))))
                    = None)
      by (cbn [hubw set_agent]; rewrite Hhub; exact Hput).
    rewrite Hput' in Hhist.
    destruct (_send_response_queued _ _ _ _ _ _ Hsend Hput' Hhist)
      as (Hitems & Hunfinished).
    cbn [hubw set_agent] in Hhist, Hitems, Hunfinished.
    rewrite Hhub in Hhist, Hitems, Hunfinished.
    exists response, d. agent_cbn. cbn [agent set_agent config set_sub] in F1.
    rewrite Hcfg in F1.
    repeat (split; [assumption |]). assumption.
  - subst w5. agent_cbn. cbn. rewrite Hc, Hf, Hs, Hr, Hl, He, Hhub.
    repeat (split; [reflexivity |]). reflexivity.
Qed.

(** ** The conversation history of the agent *)

#[global] Instance history_same_preorder : PreOrder (@history_same Sub Ext).
Proof.
  split; unfold history_same; [intros w; reflexivity |].
  intros w1 w2 w3. congruence.
Qed.

Lemma preserves_try_finally {S A} (I : S -> S -> Prop) `{!PreOrder I}
    (m : M S A) (f : M S unit) :
  preserves I m -> preserves I f -> preserves I (try_finally m f).
Proof.
  intros Hm Hf s r s'. unfold try_finally.
  destruct (m s) as [r1 s1] eqn:Hrun.
  destruct (f s1) as [[[] | e] s2] eqn:Hfin; intros [= _ <-];
    (etransitivity; [eapply Hm | eapply Hf]; eassumption).
Qed.

Lemma _change_state_history (s : AgentState.t) :
  preserves (@history_same Sub Ext) (_change_state s).
Proof.
  intros w r w'. rewrite _change_state_run. intros [= _ <-].
  unfold history_same.
  destruct (agent_changed s w) as (-> & _). reflexivity.
Qed.

Lemma _handle_error_history (e : Exn) (context : string) :
  preserves (@history_same Sub Ext) (_handle_error e context).
Proof.
  intros w r w'. rewrite _handle_error_run. intros [= _ <-].
  unfold history_same.
  destruct (agent_errored e w) as (-> & _). reflexivity.
Qed.

Lemma _send_response_history (original : Message.t) (text : string)
    (kind : MessageType.t) :
  preserves (@history_same Sub Ext) (_send_response original text kind).
Proof.
  intros w r w' Hrun.
  destruct (_send_response_run original text kind w)
    as (w1 & response & Hrun1 & Hagent & _).
  rewrite Hrun1 in Hrun. injection Hrun as _ <-.
  unfold history_same. now rewrite Hagent.
Qed.

Lemma run_hook_history (h : Hook Sub) (message : Message.t) :
  preserves (@history_same Sub Ext) (run_hook h message).
Proof.
  intros w r w'. unfold run_hook.
  destruct (h message (sub (agent w))) as [r1 x]. intros [= _ <-].
  reflexivity.
Qed.

Lemma agent_in_env_history {A} (m : M Env A) :
  preserves (@history_same Sub Ext) (@in_env Sub Ext A m).
Proof.
  intros w r w'. unfold in_env, in_hub, zoom, CommunicationHub.in_env, zoom.
  destruct (m _) as [r1 e1]. intros [= _ <-]. reflexivity.
Qed.

Lemma slice_last_length {A} (k : Z) (l : list A) :
  0 < k ->
  Z.of_nat (length (slice_last k l)) = Z.min (Z.of_nat (length l)) k.
Proof.
  intros Hk. rewrite slice_last_positive by exact Hk.
  rewrite length_drop. lia.
Qed.

Lemma slice_last_keeps_last {A} (k : Z) (l : list A) (x : A) :
  0 < k -> last (slice_last k (l ++ [x])) = Some x.
Proof.
  intros Hk. rewrite slice_last_positive by exact Hk.
  rewrite length_app. cbn [length].
  rewrite drop_app_le by lia. apply last_snoc.
Qed.

(** X15. Whatever the hook does, after [_handle_message] the agent's
    conversation history is the earlier history with the message
    appended, trimmed to the configured size. For a size of at least one
    the history then holds at most that many messages, the last being
    the message just handled. A size of zero trims nothing: the slice
    [history[-0:]] is the whole list, so the history keeps every
    message. *)
Theorem history_is_trimmed (handle_message : Hook Sub)
    (message : Message.t) (w : World Sub Ext) (r : Result unit)
    (w' : World Sub Ext) :
  _handle_message handle_message message w = (r, w') ->
  let limit := AgentConfig.max_memory_size (config (agent w)) in
  conversation_history (agent w') =
    trimmed limit (conversation_history (agent w)) message /\
  (0 < limit ->
   Z.of_nat (length (conversation_history (agent w'))) <= limit /\
   last (conversation_history (agent w')) = Some message) /\
  (limit = 0 ->
   conversation_history (agent w') =
     conversation_history (agent w) ++ [message]).
Proof.
  intros Hrun limit.
  assert (Hhist : conversation_history (agent w') =
                  trimmed limit (conversation_history (agent w)) message).
  { revert Hrun. unfold _handle_message.
    unfold try_except at 1.
    step. step. step. step. step.
    match goal with
    | |- context [bind (if ?c then _ else _) _ ?w0] =>
        assert (Htrim : (if c
                         then assign
                                (set_conversation_history
                                   (slice_last
                                      (AgentConfig.max_memory_size (config (agent w)))
                                      (conversation_history (agent w) ++ [message])))
                         else ret tt) w0 = (Return tt, received message w))
          by (unfold received; destruct c; reflexivity)
    end.
    rewrite (bind_step _ _ _ _ _ Htrim). clear Htrim.
    assert (Hrec : conversation_history (agent (received message w)) =
                   trimmed limit (conversation_history (agent w)) message)
      by reflexivity.
    revert Hrec. generalize (received message w). intros w2 Hrec.
    match goal with
    | |- match ?c w2 with _ => _ end = _ -> _ =>
        assert (Hrest : preserves (@history_same Sub Ext) c)
    end.
    { apply (preserves_bind (@history_same Sub Ext)); [apply (preserves_gets (@history_same Sub Ext)) |].
      intros previous_state.
      apply (preserves_bind (@history_same Sub Ext)); [apply _change_state_history |].
      intros _. apply (preserves_try_finally (@history_same Sub Ext));
        [| apply _change_state_history].
      apply (preserves_try_except (@history_same Sub Ext)).
      - apply (preserves_bind (@history_same Sub Ext)); [apply (preserves_gets (@history_same Sub Ext)) |].
        intros handlers.
        apply (preserves_bind (@history_same Sub Ext)).
        { destruct (handler_for _ _); apply run_hook_history. }
        intros response.
        apply (preserves_bind (@history_same Sub Ext)).
        { destruct (_ && _); [apply _send_response_history
                             | apply (preserves_ret (@history_same Sub Ext))]. }
        intros _.
        apply (preserves_bind (@history_same Sub Ext)); [apply agent_in_env_history |].
        intros now.
        apply (preserves_bind (@history_same Sub Ext));
          [apply (preserves_modify (@history_same Sub Ext)); intros w0; reflexivity |].
        intros _. apply (preserves_modify (@history_same Sub Ext)). intros w0. reflexivity.
      - intros e.
        apply (preserves_bind (@history_same Sub Ext));
          [apply (preserves_modify (@history_same Sub Ext)); intros w0; reflexivity |].
        intros _.
        apply (preserves_bind (@history_same Sub Ext)); [apply _handle_error_history |].
        intros _.
        destruct (Message.requires_response message);
          [apply _send_response_history | apply (preserves_ret (@history_same Sub Ext))]. }
    match goal with
    | |- match ?c w2 with _ => _ end = _ -> _ =>
        destruct (c w2) as [[a | e] w3] eqn:Hc
    end.
    - intros [= _ <-]. rewrite <- Hrec. exact (Hrest _ _ _ Hc).
    - intros Herr. rewrite <- Hrec.
      transitivity (conversation_history (agent w3)).
      + exact (_handle_error_history _ _ _ _ _ Herr).
      + exact (Hrest _ _ _ Hc). }
  split; [exact Hhist |]. rewrite Hhist. unfold trimmed. split.
  - intros Hpos.
    destruct (Z.gtb_spec
                (Z.of_nat (length (conversation_history (agent w) ++ [message])))
                limit) as [Hgt | Hle].
    + split; [rewrite slice_last_length by exact Hpos; lia |].
      now apply slice_last_keeps_last.
    + split; [exact Hle | apply last_snoc].
  - intros Hzero. rewrite Hzero.
    destruct (_ >? 0); [| reflexivity].
    unfold slice_last, slice_from. cbn. now rewrite Z.min_l by lia.
Qed.

(** ** Registration *)

Lemma MessageType_eqb_eq (a b : MessageType.t) :
  MessageType.eqb a b = true <-> a = b.
Proof. destruct a, b; cbn; split; congruence. Qed.

Lemma handler_for_set_eq (k : MessageType.t) (h : Hook Sub) d :
  handler_for k (handler_set k h d) = Some h.
Proof.
  assert (Hkk : MessageType.eqb k k = true) by (now destruct k).
  induction d as [| [k' h'] d IH]; cbn.
  - now rewrite Hkk.
  - destruct (MessageType.eqb k k') eqn:E; cbn.
    + now rewrite Hkk.
    + now rewrite E.
Qed.

Lemma handler_for_set_ne (k k' : MessageType.t) (h : Hook Sub) d :
  k' <> k -> handler_for k' (handler_set k h d) = handler_for k' d.
Proof.
  intros Hne.
  assert (Hk : MessageType.eqb k' k = false).
  { destruct (MessageType.eqb k' k) eqn:E; [| reflexivity].
    apply MessageType_eqb_eq in E. contradiction. }
  induction d as [| [k0 h0] d IH]; cbn.
  - now rewrite Hk.
  - destruct (MessageType.eqb k k0) eqn:E; cbn.
    + apply MessageType_eqb_eq in E. subst k0. now rewrite Hk.
    + destruct (MessageType.eqb k' k0); [reflexivity | exact IH].
Qed.

(** X16. After [register_message_handler(message_type, handler)] the
    hook that [_handle_message] applies to a message of that type is
    the handler just registered, in place of [handle_message] and of
    any handler registered for the type before; messages of the other
    types go where they went before. *)
Theorem registered_handler_applies (handle_message : Hook Sub)
    (message_type : MessageType.t) (handler : Hook Sub)
    (w : World Sub Ext) :
  exists w',
    register_message_handler message_type handler w = (Return tt, w') /\
    (forall message,
        Message.message_type message = message_type ->
        applicable handle_message message (agent w') = handler) /\
    (forall message,
        Message.message_type message <> message_type ->
        applicable handle_message message (agent w') =
          applicable handle_message message (agent w)) /\
    state (agent w') = state (agent w) /\
    hubw w' = hubw w.
Proof.
  eexists. split; [reflexivity |]. unfold applicable. agent_cbn.
  split; [| split; [| split; reflexivity]].
  - intros message ->. now rewrite handler_for_set_eq.
  - intros message Hne. now rewrite handler_for_set_ne.
Qed.

(** ** Lifecycle *)

(** X17. [start] subscribes the agent's handler at the hub under the
    agent's role whatever [initialize] does. If [initialize] returns,
    [start] returns with the agent idle and its error record untouched.
    If [initialize] raises, [start] raises the same exception after
    recording it: the error count grows by one and the agent ends idle
    if the count is within the retry budget and in error otherwise; in
    both cases the agent stays subscribed at the hub. *)
Theorem start_outcomes (initialize : LifecycleHook)
    (bound : CommunicationHub.Callable Ext) (w : World Sub Ext)
    (r : Result unit) (x : Sub) :
  initialize (sub (agent w)) = (r, x) ->
  exists w',
    start initialize bound w =
      (match r with Return _ => Return tt | Raise e => Raise e end, w') /\
    CommunicationHub.dict_get (AgentConfig.role (config (agent w)))
      (CommunicationHub.subscribers (CommunicationHub.hub (hubw w')))
      = Some bound /\
    sub (agent w') = x /\
    match r with
    | Return _ =>
        state (agent w') = AgentState.IDLE /\
        error_count (agent w') = error_count (agent w) /\
        last_error (agent w') = last_error (agent w)
    | Raise e =>
        last_error (agent w') = Some e /\
        error_count (agent w') = error_count (agent w) + 1 /\
        state (agent w') =
          (if error_count (agent w) + 1 <=?
                AgentConfig.retry_count (config (agent w))
           then AgentState.IDLE else AgentState.ERROR)
    end.
Proof.
  intros Hinit. unfold start, try_except.
  step. step. unfold _initialize_tools, _initialize_memory.
  step. step.
  match goal with
  | |- context [bind (run_lifecycle initialize) _ ?w0] => set (w1 := w0)
  end.
  assert (Hsubs : CommunicationHub.dict_get (AgentConfig.role (config (agent w)))
                    (CommunicationHub.subscribers
                       (CommunicationHub.hub (hubw w1))) = Some bound)
    by apply dict_get_set_eq.
  assert (Hagent : agent w1 = agent w) by reflexivity.
  clearbody w1.
  assert (Hrun : run_lifecycle initialize w1 =
                 (r, set_agent (set_sub x (agent w1)) w1)).
  { unfold run_lifecycle. rewrite Hagent, Hinit. reflexivity. }
  destruct r as [[] | e].
  - rewrite (bind_step _ _ _ _ _ Hrun). rewrite _change_state_run.
    eexists. split; [reflexivity |].
    match goal with
    | |- context [changed AgentState.IDLE ?w2] =>
        destruct (agent_changed AgentState.IDLE w2) as (-> & ->)
    end.
    agent_cbn. rewrite Hagent. auto.
  - rewrite (bind_raise _ _ _ _ _ Hrun).
    rewrite (bind_step _ _ _ _ _ (_handle_error_run _ _ _)).
    eexists. split; [reflexivity |].
    match goal with
    | |- context [errored e ?w2] =>
        destruct (agent_errored e w2) as (-> & ->)
    end.
    agent_cbn. rewrite Hagent. auto.
Qed.

(** X18. [stop] never raises and leaves the agent shut down. If
    [cleanup] returns, the short-term memory and the context cache are
    emptied and the uptime is the clock reading less the start time; if
    [cleanup] raises, the exception is dropped and the memory, the cache
    and the uptime stay as they were. In both cases the hub is as
    before: the agent's handler stays subscribed, so the hub goes on
    dispatching messages to the stopped agent. *)
Theorem stop_outcomes (cleanup : LifecycleHook) (w : World Sub Ext)
    (r : Result unit) (x : Sub) :
  cleanup (sub (agent w)) = (r, x) ->
  exists w',
    stop cleanup w = (Return tt, w') /\
    state (agent w') = AgentState.SHUTDOWN /\
    sub (agent w') = x /\
    CommunicationHub.hub (hubw w') = CommunicationHub.hub (hubw w) /\
    match r with
    | Return _ =>
        short_term_memory (agent w') = [] /\
        context_cache (agent w') = ∅ /\
        AgentMetrics.uptime (metrics (agent w')) =
          (time_src (CommunicationHub.env (hubw w))
             (ticks (CommunicationHub.env (hubw w)))
           - start_time (agent w))%Q
    | Raise _ =>
        short_term_memory (agent w') = short_term_memory (agent w) /\
        context_cache (agent w') = context_cache (agent w) /\
        AgentMetrics.uptime (metrics (agent w')) =
          AgentMetrics.uptime (metrics (agent w))
    end.
Proof.
  intros Hclean. unfold stop, try_except.
  rewrite (bind_step _ _ _ _ _ (_change_state_run _ _)).
  destruct (agent_changed AgentState.SHUTDOWN w) as (Ha & Hh).
  revert Ha Hh. generalize (changed AgentState.SHUTDOWN w). intros w1 Ha Hh.
  assert (Hrun : run_lifecycle cleanup w1 =
                 (r, set_agent (set_sub x (agent w1)) w1)).
  { unfold run_lifecycle. rewrite Ha. agent_cbn. rewrite Hclean. reflexivity. }
  destruct r as [[] | e].
  - rewrite (bind_step _ _ _ _ _ Hrun).
    step. step. step.
    eexists. split; [reflexivity |]. agent_cbn. rewrite Ha, Hh. cbn. auto 10.
  - rewrite (bind_raise _ _ _ _ _ Hrun).
    eexists. split; [reflexivity |]. agent_cbn. rewrite Ha, Hh. cbn. auto 10.
Qed.

End AgentSuccess.

(* ===================================================================== *)
(** * The shape of the memory store *)
(* ===================================================================== *)

Section StoreInvariant.

Import InMemoryStore.

Lemma index_tag_listed (memory_id tag : string) ix :
  listed memory_id tag (index_tag memory_id tag ix).
Proof.
  unfold index_tag, listed.
  destruct (ix !! tag) as [l |] eqn:Hl.
  - destruct (list_mem memory_id l) eqn:Hmem.
    + exists l. split; [exact Hl | now apply list_mem_In].
    + rewrite lookup_insert_eq. eexists. split; [reflexivity |].
      apply in_or_app. right. now left.
  - rewrite lookup_insert_eq. eexists. split; [reflexivity | now left].
Qed.

Lemma index_tag_keeps (memory_id tag i t : string) ix :
  listed i t ix -> listed i t (index_tag memory_id tag ix).
Proof.
  intros (l & Hl & Hin). unfold index_tag, listed.
  destruct (ix !! tag) as [k |] eqn:Hk.
  - destruct (list_mem memory_id k); [eauto |].
    destruct (String.eqb_spec t tag) as [-> | Hne].
    + rewrite lookup_insert_eq. eexists. split; [reflexivity |].
      rewrite Hk in Hl. injection Hl as ->. apply in_or_app. now left.
    + rewrite lookup_insert_ne by congruence. eauto.
  - destruct (String.eqb_spec t tag) as [-> | Hne]; [congruence |].
    rewrite lookup_insert_ne by congruence. eauto.
Qed.

Lemma index_all_keeps (memory_id i t : string) (tags : list string) ix :
  listed i t ix ->
  listed i t (fold_left (fun ix tag => index_tag memory_id tag ix) tags ix).
Proof.
  revert ix. induction tags as [| tag tags IH]; intros ix H; cbn; [exact H |].
  apply IH. now apply index_tag_keeps.
Qed.

Lemma index_all_listed (memory_id tag : string) (tags : list string) ix :
  In tag tags ->
  listed memory_id tag
    (fold_left (fun ix tag => index_tag memory_id tag ix) tags ix).
Proof.
  revert ix. induction tags as [| t tags IH]; intros ix Hin; [destruct Hin |].
  cbn. destruct Hin as [-> | Hin].
  - apply index_all_keeps, index_tag_listed.
  - now apply IH.
Qed.

Lemma list_remove_other (x y : string) (l : list string) :
  y <> x -> In y l -> In y (list_remove x l).
Proof.
  intros Hne. induction l as [| z l IH]; [auto |]. cbn.
  destruct (String.eqb_spec x z) as [-> | Hxz].
  - intros [-> | Hin]; [contradiction | exact Hin].
  - intros [-> | Hin]; [now left | right; auto].
Qed.

Lemma unindex_tag_keeps_other (memory_id tag i t : string) ix :
  i <> memory_id -> listed i t ix -> listed i t (unindex_tag memory_id tag ix).
Proof.
  intros Hne (l & Hl & Hin). unfold unindex_tag, listed.
  destruct (ix !! tag) as [k |] eqn:Hk; [| eauto].
  destruct (list_mem memory_id k); [| eauto].
  destruct (String.eqb_spec t tag) as [-> | Hnt].
  - rewrite Hk in Hl. injection Hl as ->.
    pose proof (list_remove_other memory_id i l Hne Hin) as Hrem.
    destruct (list_remove memory_id l) as [| y k'] eqn:E; [destruct Hrem |].
    rewrite lookup_insert_eq. eauto.
  - destruct (list_remove memory_id k) as [| y k'].
    + rewrite lookup_delete_ne by congruence. eauto.
    + rewrite lookup_insert_ne by congruence. eauto.
Qed.

Lemma unindex_all_keeps_other (memory_id i t : string) (tags : list string)
    ix :
  i <> memory_id -> listed i t ix ->
  listed i t (fold_left (fun ix tag => unindex_tag memory_id tag ix) tags ix).
Proof.
  intros Hne. revert ix. induction tags as [| tag tags IH]; intros ix H; cbn;
    [exact H |].
  apply IH. now apply unindex_tag_keeps_other.
Qed.

Lemma MemoryType_eqb_eq (a b : MemoryType.t) :
  MemoryType.eqb a b = true <-> a = b.
Proof. destruct a, b; cbn; split; congruence. Qed.

Lemma MemoryType_cases (a b : MemoryType.t) : a = b \/ a <> b.
Proof. destruct a, b; (now left) || (right; discriminate). Qed.

Lemma type_index_set_same (k : MemoryType.t) (l : list string) ix :
  type_index_set k l ix k = l.
Proof.
  unfold type_index_set.
  now replace (MemoryType.eqb k k) with true by (now destruct k).
Qed.

Lemma type_index_set_other (k k' : MemoryType.t) (l : list string) ix :
  k' <> k -> type_index_set k l ix k' = ix k'.
Proof.
  intros Hne. unfold type_index_set.
  destruct (MemoryType.eqb k k') eqn:E; [| reflexivity].
  apply MemoryType_eqb_eq in E. congruence.
Qed.

Lemma store_well_formed (entry : MemoryEntry.t) (w : World) :
  well_formed (this w) ->
  exists w',
    store entry w = (Return true, w') /\
    env w' = env w /\
    memories (this w') =
      <[MemoryEntry.id entry := entry]> (memories (this w)) /\
    well_formed (this w').
Proof.
  intros (Hnodup & Hkeys & Hcomplete).
  destruct (store_stored entry w Hnodup) as (w' & Hrun & Henv & Hmem & Hnodup').
  exists w'. split; [exact Hrun |]. split; [exact Henv |].
  split; [exact Hmem |]. split; [exact Hnodup' |].
  revert Hrun. unfold store, try_except, bind, assign, modify, ret.
  intros [= <-]. clear Hmem Hnodup' Henv.
  split.
  - intros i e. cbn [this memories].
    intros [(<- & <-) | (_ & He)]%lookup_insert_Some; [reflexivity | eauto].
  - intros i e. cbn [this memories type_index tag_index].
    set (k := MemoryEntry.memory_type entry).
    assert (Hgrow : forall k' j,
               In j (type_index (this w) k') ->
               In j ((if list_mem (MemoryEntry.id entry) (type_index (this w) k)
                      then type_index (this w)
                      else type_index_set k
                             (type_index (this w) k ++ [MemoryEntry.id entry])
                             (type_index (this w))) k')).
    { intros k' j Hj. destruct (list_mem _ _); [exact Hj |].
      destruct (MemoryType_cases k' k) as [-> | Hne].
      - rewrite type_index_set_same. apply in_or_app. now left.
      - now rewrite type_index_set_other. }
    intros [(<- & <-) | (Hne & He)]%lookup_insert_Some.
    + split.
      * fold k. destruct (list_mem (MemoryEntry.id entry) (type_index (this w) k))
          eqn:Hmem.
        -- now apply list_mem_In.
        -- rewrite type_index_set_same. apply in_or_app. right. now left.
      * intros tag Hin. now apply index_all_listed.
    + destruct (Hcomplete i e He) as (Htype & Htags). split.
      * now apply Hgrow.
      * intros tag Hin. apply index_all_keeps. now apply Htags.
Qed.

Lemma delete_well_formed (memory_id : string) (w : World) :
  well_formed (this w) ->
  exists b w',
    delete memory_id w = (Return b, w') /\
    env w' = env w /\
    memories (this w') = base.delete memory_id (memories (this w)) /\
    (b = true <-> is_Some (memories (this w) !! memory_id)) /\
    well_formed (this w').
Proof.
  intros (Hnodup & Hkeys & Hcomplete).
  destruct (memories (this w) !! memory_id) as [entry |] eqn:Hentry.
  - destruct (delete_stored memory_id entry w Hentry Hnodup)
      as (w' & Hrun & Henv & Hmem & _ & _ & Hnodup').
    exists true, w'. split; [exact Hrun |]. split; [exact Henv |].
    split; [exact Hmem |]. split; [split; eauto |].
    split; [exact Hnodup' |].
    revert Hrun. unfold delete. unfold bind at 1, self at 1, gets at 1.
    rewrite Hentry. unfold bind, assign, modify, ret. intros [= <-].
    clear Hmem Hnodup' Henv. split.
    + intros i e. cbn [this memories].
      intros (_ & He)%lookup_delete_Some. eauto.
    + intros i e. cbn [this memories type_index tag_index].
      intros (Hne & He)%lookup_delete_Some.
      destruct (Hcomplete i e He) as (Htype & Htags). split.
      * destruct (list_mem memory_id _); [| exact Htype].
        destruct (MemoryType_cases (MemoryEntry.memory_type e)
                    (MemoryEntry.memory_type entry)) as [Heq | Hk].
        -- rewrite Heq in *. rewrite type_index_set_same.
           apply list_remove_other; [congruence | exact Htype].
        -- now rewrite type_index_set_other.
      * intros tag Hin. apply unindex_all_keeps_other; [congruence |].
        now apply Htags.
  - exists false, w. unfold delete. unfold bind at 1, self at 1, gets at 1.
    rewrite Hentry. split; [reflexivity |]. split; [reflexivity |].
    split; [symmetry; now apply delete_id |].
    split; [split; [discriminate | intros [? ?]; discriminate] |].
    exact (conj Hnodup (conj Hkeys Hcomplete)).
Qed.

Lemma retrieve_well_formed (memory_id : string) (w : World) r w' :
  well_formed (this w) ->
  retrieve memory_id w = (r, w') ->
  well_formed (this w').
Proof.
  intros Hwf. unfold retrieve. unfold bind at 1, self at 1, gets at 1.
  destruct (memories (this w) !! memory_id) as [entry |] eqn:Hentry;
    [| intros [= _ <-]; exact Hwf].
  assert (Htouch : forall now : float,
    well_formed
      {| memories := <[memory_id := accessed now entry]> (memories (this w));
         type_index := type_index (this w);
         tag_index := tag_index (this w) |}).
  { intros now. destruct Hwf as (Hnodup & Hkeys & Hcomplete).
    split; [exact Hnodup |]. split.
    - intros i e. cbn [memories].
      intros [(<- & <-) | (_ & He)]%lookup_insert_Some; [| eauto].
      cbn. eauto.
    - intros i e. cbn [memories type_index tag_index].
      intros [(<- & <-) | (_ & He)]%lookup_insert_Some; [| eauto].
      exact (Hcomplete _ _ Hentry). }
  assert (Hdel : forall e0 : Env,
    well_formed (this (snd (delete memory_id {| env := e0; this := this w |})))).
  { intros e0.
    destruct (delete_well_formed memory_id {| env := e0; this := this w |} Hwf)
      as (b & w1 & Hrun & _ & _ & _ & Hwf1).
    now rewrite Hrun. }
  unfold MemoryEntry.is_expired.
  destruct (MemoryEntry.expires_at entry) as [deadline |].
  - unfold bind at 1, in_env at 1, zoom at 1, bind at 1, time_time at 1, ret at 1.
    cbn [env this].
    destruct (float_gt (time_src (env w) (ticks (env w))) deadline); cbn [negb].
    + unfold bind at 1, in_env at 1, zoom at 1, bind at 1, time_time at 1,
        ret at 1.
      cbn [env this time_src ticks uuid_src draws].
      destruct (float_gt (time_src (env w) (S (ticks (env w)))) deadline).
      * match goal with
        | |- context [bind (bind (delete memory_id) _) _ ?w2] =>
            pose proof (Hdel (env w2)) as Hd;
            destruct (delete memory_id w2) as [rd wd] eqn:Hrun
        end.
        cbn [env] in Hd. rewrite Hrun in Hd. cbn [snd] in Hd.
        unfold bind at 1. unfold bind at 1. rewrite Hrun.
        destruct rd; cbn; intros [= _ <-]; exact Hd.
      * cbn. intros [= _ <-]. exact Hwf.
    + unfold bind, in_env, zoom, MemoryEntry.access, time_time, assign, modify,
        ret.
      cbn [env this time_src ticks uuid_src draws memories].
      intros [= _ <-]. cbn [this]. apply Htouch.
  - unfold bind, in_env, zoom, MemoryEntry.access, time_time, assign, modify,
      ret.
    cbn [env this time_src ticks uuid_src draws memories negb].
    intros [= _ <-]. cbn [this]. apply Htouch.
Qed.

Lemma init_well_formed : well_formed __init__.
Proof.
  split; [apply init_no_duplicates |]. split.
  - intros i e H. cbn in H. now rewrite lookup_empty in H.
  - intros i e H. cbn in H. now rewrite lookup_empty in H.
Qed.

(** X19. A store built by its own operations stays well formed: after
    [store], [delete] or [retrieve] on a well-formed store (a new store
    is one) no index list holds an id twice, every entry is stored
    under its own id, and every stored entry is listed under its type
    and under each of its tags, so that the type and tag filters of a
    search never lose a stored entry. *)
Theorem store_stays_well_formed (w : World) :
  well_formed (this w) ->
  (forall entry r w',
      store entry w = (r, w') -> well_formed (this w')) /\
  (forall memory_id r w',
      delete memory_id w = (r, w') -> well_formed (this w')) /\
  (forall memory_id r w',
      retrieve memory_id w = (r, w') -> well_formed (this w')).
Proof.
  intros Hwf. split; [| split].
  - intros entry r w' Hrun.
    destruct (store_well_formed entry w Hwf) as (w1 & Hrun1 & _ & _ & Hwf1).
    rewrite Hrun1 in Hrun. now injection Hrun as _ <-.
  - intros memory_id r w' Hrun.
    destruct (delete_well_formed memory_id w Hwf)
      as (b & w1 & Hrun1 & _ & _ & _ & Hwf1).
    rewrite Hrun1 in Hrun. now injection Hrun as _ <-.
  - intros memory_id r w' Hrun.
    exact (retrieve_well_formed memory_id w r w' Hwf Hrun).
Qed.

Lemma retrieve_live (memory_id : string) (entry : MemoryEntry.t) (w : World) :
  memories (this w) !! memory_id = Some entry ->
  expired_at (time_src (env w) (ticks (env w))) entry = false ->
  exists now w',
    retrieve memory_id w = (Return (Some (accessed now entry)), w') /\
    memories (this w') = <[memory_id := accessed now entry]> (memories (this w)) /\
    type_index (this w') = type_index (this w) /\
    tag_index (this w') = tag_index (this w).
Proof.
  intros Hentry Hlive. unfold retrieve.
  unfold bind at 1, self at 1, gets at 1. rewrite Hentry.
  unfold expired_at in Hlive. unfold MemoryEntry.is_expired.
  destruct (MemoryEntry.expires_at entry) as [deadline |].
  - unfold bind at 1, in_env at 1, zoom at 1, bind at 1, time_time at 1, ret at 1.
    cbn [env this]. rewrite Hlive. cbn [negb].
    unfold bind, in_env, zoom, MemoryEntry.access, time_time, assign, modify,
      ret.
    cbn [env this time_src ticks uuid_src draws memories].
    eexists _, _. split; [reflexivity |]. cbn. auto.
  - unfold bind, in_env, zoom, MemoryEntry.access, time_time, assign, modify,
      ret.
    cbn [env this time_src ticks uuid_src draws memories negb].
    eexists _, _. split; [reflexivity |]. cbn. auto.
Qed.

(** X20. An entry that is stored and then retrieved under its id, before
    it expires, comes back as it was stored: same id, content, type,
    priority, tags, metadata and times of creation and expiry, with
    only the access count raised by one and the access time set to the
    clock; and that is what the store then holds under the id. *)
Theorem store_then_retrieve (entry : MemoryEntry.t) (w : World) :
  expired_at (time_src (env w) (ticks (env w))) entry = false ->
  exists found w',
    (store entry ;; retrieve (MemoryEntry.id entry)) w
      = (Return (Some found), w') /\
    memories (this w') !! MemoryEntry.id entry = Some found /\
    MemoryEntry.id found = MemoryEntry.id entry /\
    MemoryEntry.content found = MemoryEntry.content entry /\
    MemoryEntry.memory_type found = MemoryEntry.memory_type entry /\
    MemoryEntry.priority found = MemoryEntry.priority entry /\
    MemoryEntry.tags found = MemoryEntry.tags entry /\
    MemoryEntry.metadata found = MemoryEntry.metadata entry /\
    MemoryEntry.created_at found = MemoryEntry.created_at entry /\
    MemoryEntry.expires_at found = MemoryEntry.expires_at entry /\
    MemoryEntry.access_count found = MemoryEntry.access_count entry + 1.
Proof.
  intros Hlive.
  unfold store at 1. unfold bind at 1, try_except, bind, assign, modify, ret.
  match goal with
  | |- context [retrieve _ ?w1] =>
      destruct (retrieve_live (MemoryEntry.id entry) entry w1)
        as (now & w' & Hrun & Hmem & _)
  end.
  - apply lookup_insert_eq.
  - exact Hlive.
  - exists (accessed now entry), w'. split; [exact Hrun |].
    split; [rewrite Hmem; apply lookup_insert_eq |].
    cbn. auto 12.
Qed.

Lemma delete_run (memory_id : string) (w : World) :
  exists b w',
    delete memory_id w = (Return b, w') /\
    env w' = env w /\
    memories (this w') = base.delete memory_id (memories (this w)).
Proof.
  unfold delete. unfold bind at 1, self at 1, gets at 1.
  destruct (memories (this w) !! memory_id) eqn:Hi.
  - unfold bind, assign, modify, ret. eexists _, _.
    split; [reflexivity |]. split; reflexivity.
  - exists false, w. split; [reflexivity |]. split; [reflexivity |].
    symmetry. now apply delete_id.
Qed.

(** X21. [delete] answers whether the id was stored and leaves nothing
    under it: afterwards [retrieve] finds nothing, a second [delete]
    answers false and changes nothing, and the entries under the other
    ids are untouched. *)
Theorem delete_is_idempotent (memory_id : string) (w : World) :
  exists (b : bool) (w' : World),
    delete memory_id w = (Return b, w') /\
    (b = true <-> is_Some (memories (this w) !! memory_id)) /\
    memories (this w') !! memory_id = None /\
    (forall other, other <> memory_id ->
       memories (this w') !! other = memories (this w) !! other) /\
    delete memory_id w' = (Return false, w') /\
    retrieve memory_id w' = (Return None, w').
Proof.
  assert (Hgone : forall w0,
             memories (this w0) !! memory_id = None ->
             delete memory_id w0 = (Return false, w0) /\
             retrieve memory_id w0 = (Return None, w0)).
  { intros w0 Hnone. unfold delete, retrieve, bind, self, gets.
    rewrite Hnone. split; reflexivity. }
  destruct (memories (this w) !! memory_id) as [entry |] eqn:Hentry.
  - unfold delete at 1. unfold bind at 1, self at 1, gets at 1.
    rewrite Hentry. unfold bind, assign, modify, ret.
    eexists true, _. split; [reflexivity |].
    split; [split; eauto |].
    cbn [this memories].
    split; [apply lookup_delete_eq |].
    split; [intros other Hne; now apply lookup_delete_ne |].
    apply Hgone. cbn. apply lookup_delete_eq.
  - exists false, w. destruct (Hgone w Hentry) as (Hd & Hr).
    split; [exact Hd |].
    split; [split; [discriminate | intros [? ?]; discriminate] |].
    split; [exact Hentry |]. split; [reflexivity |]. split; assumption.
Qed.

(** X22. [store] does not unindex the entry it replaces. When an entry
    is stored under an id that already holds an entry of another type,
    the id stays listed under the former type; and since [delete] looks
    only under the type of the entry it finds, the id is still listed
    there after the entry has been deleted. *)
Theorem overwrite_leaves_stale_index (entry old : MemoryEntry.t) (w : World) :
  memories (this w) !! MemoryEntry.id entry = Some old ->
  MemoryEntry.memory_type old <> MemoryEntry.memory_type entry ->
  In (MemoryEntry.id entry) (type_index (this w) (MemoryEntry.memory_type old)) ->
  exists w' w'',
    store entry w = (Return true, w') /\
    memories (this w') !! MemoryEntry.id entry = Some entry /\
    In (MemoryEntry.id entry)
      (type_index (this w') (MemoryEntry.memory_type old)) /\
    delete (MemoryEntry.id entry) w' = (Return true, w'') /\
    memories (this w'') !! MemoryEntry.id entry = None /\
    In (MemoryEntry.id entry)
      (type_index (this w'') (MemoryEntry.memory_type old)).
Proof.
  intros Hold Hne Hlisted.
  pose (w1 := snd (store entry w)).
  assert (Hstore : store entry w = (Return true, w1)) by reflexivity.
  assert (Hmem : memories (this w1) !! MemoryEntry.id entry = Some entry)
    by apply lookup_insert_eq.
  assert (Hstill : In (MemoryEntry.id entry)
                     (type_index (this w1) (MemoryEntry.memory_type old))).
  { subst w1. unfold store, try_except, bind, assign, modify, ret.
    cbn [snd this type_index].
    destruct (list_mem _ _); [exact Hlisted |].
    now rewrite type_index_set_other. }
  clearbody w1.
  exists w1. eexists. split; [exact Hstore |]. split; [exact Hmem |].
  split; [exact Hstill |].
  unfold delete. unfold bind at 1, self at 1, gets at 1. rewrite Hmem.
  unfold bind, assign, modify, ret. split; [reflexivity |].
  cbn [this memories type_index]. split; [apply lookup_delete_eq |].
  destruct (list_mem _ _); [| exact Hstill].
  now rewrite type_index_set_other.
Qed.

End StoreInvariant.

(* ===================================================================== *)
(** * Serialisation of memory entries *)
(* ===================================================================== *)

Section EntryRoundTrip.

Lemma MemoryType_of_value_value (k : MemoryType.t) :
  MemoryType.of_value (VStr (MemoryType.value k)) = Return k.
Proof. destruct k; reflexivity. Qed.

Lemma MemoryPriority_of_value_value (p : MemoryPriority.t) :
  MemoryPriority.of_value (VInt (MemoryPriority.value p)) = Return p.
Proof. destruct p; reflexivity. Qed.

Lemma str_items_map (l : list string) :
  MemoryEntry.str_items (map VStr l) = Some l.
Proof. induction l as [| s l IH]; cbn; [reflexivity | now rewrite IH]. Qed.

Lemma entry_from_dict_entries (data : dict) (entry : MemoryEntry.t) (e : Env) :
  data !! "id" = Some (VStr (MemoryEntry.id entry)) ->
  data !! "content" = Some (MemoryEntry.content entry) ->
  data !! "memory_type" =
    Some (VStr (MemoryType.value (MemoryEntry.memory_type entry))) ->
  data !! "priority" =
    Some (VInt (MemoryPriority.value (MemoryEntry.priority entry))) ->
  data !! "created_at" = Some (VFloat (MemoryEntry.created_at entry)) ->
  data !! "last_accessed" = Some (VFloat (MemoryEntry.last_accessed entry)) ->
  default (VInt 0) (data !! "access_count") =
    VInt (MemoryEntry.access_count entry) ->
  default (VList []) (data !! "tags") =
    VList (map VStr (MemoryEntry.tags entry)) ->
  default (VDict ∅) (data !! "metadata") = VDict (MemoryEntry.metadata entry) ->
  default VNone (data !! "expires_at") =
    MemoryEntry.of_opt_float (MemoryEntry.expires_at entry) ->
  MemoryEntry.from_dict data e = (Return entry, e).
Proof.
  intros Hid Hc Hk Hp Hcr Hla Hac Htg Hmd Hex.
  unfold MemoryEntry.from_dict, Message.getitem.
  rewrite Hid, Hc, Hk, Hp, Hcr, Hla, Hac, Htg, Hmd, Hex.
  unfold bind, ret, Message.lift.
  rewrite MemoryType_of_value_value, MemoryPriority_of_value_value.
  cbn. rewrite str_items_map. cbn.
  destruct entry as [i c k p cr la ac tg md [ex |]]; reflexivity.
Qed.

(** X23. Serialising a memory entry and reading the result back returns
    the same entry, field for field, without reading the clock. If the
    four entries that [from_dict] reads with a default (access count,
    tags, metadata, expiry time) are missing from the mapping, the
    entry read back has an access count of zero, no tags, empty
    metadata and no expiry time, and is otherwise the same. *)
Theorem entry_from_dict_to_dict_roundtrip (entry : MemoryEntry.t) (e : Env) :
  MemoryEntry.from_dict (MemoryEntry.to_dict entry) e = (Return entry, e) /\
  MemoryEntry.from_dict
    (base.delete "access_count"
       (base.delete "tags"
          (base.delete "metadata"
             (base.delete "expires_at" (MemoryEntry.to_dict entry))))) e
    = (Return (without_optionals entry), e).
Proof.
  split.
  - apply entry_from_dict_entries; reflexivity.
  - apply (entry_from_dict_entries _ (without_optionals entry)); reflexivity.
Qed.

End EntryRoundTrip.

(* ===================================================================== *)
(** * Expiry and search *)
(* ===================================================================== *)

Section StoreCleanup.

Import InMemoryStore.

Lemma without_lookup (l : list string) (m : gmap string MemoryEntry.t)
    (j : string) :
  without l m !! j = if list_mem j l then None else m !! j.
Proof.
  unfold without. revert m. induction l as [| i l IH]; intros m; [reflexivity |].
  cbn [fold_left list_mem existsb]. rewrite IH.
  fold (list_mem j l).
  destruct (String.eqb_spec j i) as [-> | Hne]; cbn [orb].
  - rewrite lookup_delete_eq. now destruct (list_mem i l).
  - rewrite lookup_delete_ne by congruence. reflexivity.
Qed.

Lemma without_size (l : list string) (m : gmap string MemoryEntry.t) :
  NoDup l ->
  (forall i, In i l -> is_Some (m !! i)) ->
  (size (without l m) + length l = size m)%nat.
Proof.
  unfold without. revert m. induction l as [| i l IH]; intros m Hnd Hin.
  - cbn. lia.
  - apply NoDup_cons in Hnd as (Hi & Hnd). cbn [fold_left length].
    destruct (Hin i) as (e & He); [now left |].
    assert (Hrest : forall j, In j l -> is_Some (base.delete i m !! j)).
    { intros j Hj. rewrite lookup_delete_ne.
      - apply Hin. now right.
      - intros ->. apply Hi. now apply list_elem_of_In. }
    pose proof (IH (base.delete i m) Hnd Hrest) as Hsize.
    rewrite map_size_delete_Some in Hsize by eauto.
    assert (size m <> 0)%nat by (eapply map_size_ne_0_lookup_2; eauto).
    lia.
Qed.

Lemma delete_each_run (l : list string) (w : World) :
  exists w',
    for_each l (fun memory_id => _ <- delete memory_id ;; ret tt) w
      = (Return tt, w') /\
    env w' = env w /\
    memories (this w') = without l (memories (this w)).
Proof.
  revert w. induction l as [| i l IH]; intros w.
  - exists w. repeat split.
  - destruct (delete_run i w) as (b & w1 & Hrun & He1 & Hm1).
    destruct (IH w1) as (w2 & Hrest & He2 & Hm2).
    exists w2. split.
    + cbn [for_each]. unfold bind at 1 2. rewrite Hrun. unfold ret at 1.
      exact Hrest.
    + split; [congruence |]. rewrite Hm2, Hm1. reflexivity.
Qed.

Lemma expired_later (e : Env) (entry : MemoryEntry.t) (i j : nat) :
  monotone_clock e -> (i <= j)%nat ->
  expired_at (time_src e i) entry = true ->
  expired_at (time_src e j) entry = true.
Proof.
  unfold expired_at, float_gt. intros Hmono Hij.
  destruct (MemoryEntry.expires_at entry) as [deadline |]; [| auto].
  intros Hgt. apply negb_true_iff in Hgt. apply negb_true_iff.
  destruct (Qle_bool (time_src e j) deadline) eqn:Hle; [| reflexivity].
  apply Qle_bool_iff in Hle.
  assert (Hfirst : (time_src e i <= deadline)%Q)
    by (eapply Qle_trans; [apply (Hmono i j Hij) | exact Hle]).
  apply Qle_bool_iff in Hfirst. congruence.
Qed.

(** The first loop: the ids collected are among those scanned, in
    order, and an id is collected exactly when its entry said it was
    expired at the clock reading taken for it. *)
Lemma expired_among_run (known : gmap string MemoryEntry.t)
    (ids : list string) (w : World) :
  exists l w',
    expired_among known ids w = (Return l, w') /\
    this w' = this w /\
    time_src (env w') = time_src (env w) /\
    (ticks (env w) <= ticks (env w'))%nat /\
    l `sublist_of` ids /\
    (forall i, In i l ->
       exists entry t,
         known !! i = Some entry /\
         (ticks (env w) <= t <= ticks (env w'))%nat /\
         expired_at (time_src (env w) t) entry = true) /\
    (forall i entry, In i ids -> known !! i = Some entry -> ~ In i l ->
       exists t,
         (ticks (env w) <= t)%nat /\
         expired_at (time_src (env w) t) entry = false).
Proof.
  revert w. induction ids as [| i ids IH]; intros w.
  - exists [], w. split; [reflexivity |]. repeat split; try reflexivity.
    + intros i [].
    + intros i entry [].
  - cbn [expired_among].
    destruct (known !! i) as [entry |] eqn:Hentry.
    + unfold MemoryEntry.is_expired.
      destruct (MemoryEntry.expires_at entry) as [deadline |] eqn:Hexp.
      * unfold bind at 1, in_env at 1, zoom at 1, bind at 1, time_time at 1,
          ret at 1.
        cbn [env this].
        match goal with
        | |- context [bind (expired_among known ids) _ ?w1] =>
            destruct (IH w1) as (l & w' & Hrun & Hthis & Hsrc & Hticks & Hsub
                                 & Hin & Hout)
        end.
        cbn [env this time_src ticks] in Hthis, Hsrc, Hticks, Hin, Hout.
        unfold bind at 1. rewrite Hrun. unfold ret.
        eexists _, w'. split; [reflexivity |].
        split; [exact Hthis |]. split; [exact Hsrc |]. split; [lia |].
        assert (Hnow : expired_at (time_src (env w) (ticks (env w))) entry =
                       float_gt (time_src (env w) (ticks (env w))) deadline)
          by (unfold expired_at; now rewrite Hexp).
        destruct (float_gt (time_src (env w) (ticks (env w))) deadline) eqn:Hgt.
        -- split; [now apply sublist_skip |]. split.
           ++ intros j [<- | Hj].
              ** exists entry, (ticks (env w)). split; [exact Hentry |].
                 split; [lia | exact Hnow].
              ** destruct (Hin j Hj) as (ej & t & Hej & Ht & Hx).
                 exists ej, t. split; [exact Hej |]. split; [lia | exact Hx].
           ++ intros j ej [<- | Hj] Hej Hnot.
              ** exfalso. apply Hnot. now left.
              ** destruct (Hout j ej Hj Hej) as (t & Ht & Hx).
                 { intros Hl. apply Hnot. now right. }
                 exists t. split; [lia | exact Hx].
        -- split; [now apply sublist_cons |]. split.
           ++ intros j Hj.
              destruct (Hin j Hj) as (ej & t & Hej & Ht & Hx).
              exists ej, t. split; [exact Hej |]. split; [lia | exact Hx].
           ++ intros j ej [<- | Hj] Hej Hnot.
              ** rewrite Hentry in Hej. injection Hej as <-.
                 exists (ticks (env w)). split; [lia | exact Hnow].
              ** destruct (Hout j ej Hj Hej Hnot) as (t & Ht & Hx).
                 exists t. split; [lia | exact Hx].
      * unfold bind at 1, in_env at 1, zoom at 1, ret at 1. cbn [env this].
        match goal with
        | |- context [bind (expired_among known ids) _ ?w1] =>
            destruct (IH w1) as (l & w' & Hrun & Hthis & Hsrc & Hticks & Hsub
                                 & Hin & Hout)
        end.
        cbn [env this time_src ticks] in Hthis, Hsrc, Hticks, Hin, Hout.
        unfold bind at 1. rewrite Hrun. unfold ret.
        eexists _, w'. split; [reflexivity |].
        split; [exact Hthis |]. split; [exact Hsrc |]. split; [exact Hticks |].
        split; [now apply sublist_cons |]. split; [exact Hin |].
        intros j ej [<- | Hj] Hej Hnot.
        -- rewrite Hentry in Hej. injection Hej as <-.
           exists (ticks (env w)). split; [lia |].
           unfold expired_at. now rewrite Hexp.
        -- exact (Hout j ej Hj Hej Hnot).
    + destruct (IH w) as (l & w' & Hrun & Hthis & Hsrc & Hticks & Hsub
                          & Hin & Hout).
      exists l, w'. split; [exact Hrun |].
      split; [exact Hthis |]. split; [exact Hsrc |]. split; [exact Hticks |].
      split; [now apply sublist_cons |]. split; [exact Hin |].
      intros j ej [<- | Hj] Hej Hnot; [congruence |].
      exact (Hout j ej Hj Hej Hnot).
Qed.

Section WithOrder.

Variable dict_keys : gmap string MemoryEntry.t -> list string.
Hypothesis dict_keys_ok : lists_keys dict_keys.

(** X24. With a clock that does not run backwards, [cleanup_expired]
    deletes every entry that is expired when the call begins and only
    entries that are expired when it ends; an entry without an expiry
    time is never deleted, the entries kept are unchanged, and the
    number returned is the number of entries deleted. *)
Theorem cleanup_removes_expired (w : World) :
  monotone_clock (env w) ->
  exists n w',
    cleanup_expired dict_keys w = (Return n, w') /\
    (forall i entry,
        memories (this w) !! i = Some entry ->
        expired_at (time_src (env w) (ticks (env w))) entry = true ->
        memories (this w') !! i = None) /\
    (forall i entry,
        memories (this w) !! i = Some entry ->
        memories (this w') !! i = None ->
        expired_at (time_src (env w') (ticks (env w'))) entry = true) /\
    (forall i entry,
        memories (this w) !! i = Some entry ->
        MemoryEntry.expires_at entry = None ->
        memories (this w') !! i = Some entry) /\
    (forall i entry,
        memories (this w') !! i = Some entry ->
        memories (this w) !! i = Some entry) /\
    n = Z.of_nat (size (memories (this w)))
        - Z.of_nat (size (memories (this w'))).
Proof.
  intros Hmono. unfold cleanup_expired.
  unfold bind at 1, self at 1, gets at 1.
  destruct (dict_keys_ok (memories (this w))) as (Hnd & Hkeys).
  destruct (expired_among_run (memories (this w))
              (dict_keys (memories (this w))) w)
    as (l & w1 & Hrun & Hthis & Hsrc & Hticks & Hsub & Hin & Hout).
  unfold bind at 1. rewrite Hrun.
  destruct (delete_each_run l w1) as (w2 & Hdel & Henv & Hmem).
  unfold bind at 1. rewrite Hdel. unfold ret.
  eexists _, w2. split; [reflexivity |].
  rewrite Hmem, Hthis, Henv, Hsrc.
  assert (Hlookup : forall i,
             without l (memories (this w)) !! i =
               if list_mem i l then None else memories (this w) !! i)
    by (intros i; apply without_lookup).
  split; [| split; [| split; [| split]]].
  - intros i entry Hi Hexp. rewrite Hlookup.
    destruct (list_mem i l) eqn:Hmem_i; [reflexivity |].
    exfalso.
    destruct (Hout i entry) as (t & Ht & Hlive).
    + apply Hkeys. eauto.
    + exact Hi.
    + intros Hl. apply list_mem_In in Hl. congruence.
    + pose proof (expired_later (env w) entry _ t Hmono Ht Hexp). congruence.
  - intros i entry Hi Hgone. rewrite Hlookup in Hgone.
    destruct (list_mem i l) eqn:Hmem_i; [| congruence].
    apply list_mem_In in Hmem_i.
    destruct (Hin i Hmem_i) as (ej & t & Hej & Ht & Hx).
    rewrite Hi in Hej. injection Hej as <-.
    apply (expired_later (env w) entry t); [exact Hmono | lia | exact Hx].
  - intros i entry Hi Hnever. rewrite Hlookup.
    destruct (list_mem i l) eqn:Hmem_i; [| exact Hi].
    apply list_mem_In in Hmem_i.
    destruct (Hin i Hmem_i) as (ej & t & Hej & Ht & Hx).
    rewrite Hi in Hej. injection Hej as <-.
    unfold expired_at in Hx. rewrite Hnever in Hx. discriminate.
  - intros i entry. rewrite Hlookup. now destruct (list_mem i l).
  - assert (Hsize : (size (without l (memories (this w))) + length l =
                     size (memories (this w)))%nat).
    { apply without_size.
      - eapply sublist_NoDup; eassumption.
      - intros i Hi. destruct (Hin i Hi) as (ej & _ & Hej & _). eauto. }
    lia.
Qed.

End WithOrder.

End StoreCleanup.

Section SortFacts.

Context {A : Type} (lt : A -> A -> bool).

Lemma insert_sorted_perm (x : A) (l : list A) :
  insert_sorted lt x l ≡ₚ x :: l.
Proof.
  induction l as [| y l IH]; cbn; [reflexivity |].
  destruct (lt x y); [reflexivity |].
  rewrite IH. apply Permutation_swap.
Qed.

Lemma list_sort_perm (l : list A) : list_sort lt l ≡ₚ l.
Proof.
  unfold list_sort.
  assert (H : forall acc, fold_left (fun s x => insert_sorted lt x s) l acc
                            ≡ₚ l ++ acc).
  { induction l as [| x l IH]; intros acc; cbn; [reflexivity |].
    rewrite IH, insert_sorted_perm. symmetry. apply Permutation_middle. }
  rewrite H. now rewrite app_nil_r.
Qed.

Lemma list_sort_length (l : list A) : length (list_sort lt l) = length l.
Proof. now rewrite list_sort_perm. Qed.

Hypothesis lt_asym : forall a b, lt a b = true -> lt b a = false.

Lemma insert_sorted_sorted (x : A) (l : list A) :
  Sorted (fun a b => lt b a = false) l ->
  Sorted (fun a b => lt b a = false) (insert_sorted lt x l).
Proof.
  induction l as [| y l IH]; intros Hs; cbn.
  - constructor; constructor.
  - destruct (lt x y) eqn:Hxy.
    + constructor; [exact Hs |]. constructor. now apply lt_asym.
    + apply Sorted_inv in Hs as (Hs & Hhd).
      constructor; [now apply IH |].
      destruct l as [| z l]; cbn.
      * constructor. exact Hxy.
      * destruct (lt x z); constructor; [exact Hxy |].
        now inversion Hhd.
Qed.

Lemma list_sort_sorted (l : list A) :
  Sorted (fun a b => lt b a = false) (list_sort lt l).
Proof.
  unfold list_sort.
  assert (H : forall acc,
             Sorted (fun a b => lt b a = false) acc ->
             Sorted (fun a b => lt b a = false)
               (fold_left (fun s x => insert_sorted lt x s) l acc)).
  { induction l as [| x l IH]; intros acc Hacc; cbn; [exact Hacc |].
    apply IH. now apply insert_sorted_sorted. }
  apply H. constructor.
Qed.

End SortFacts.

Lemma Sorted_weaken {A} (R R' : A -> A -> Prop) (l : list A) :
  (forall a b, R a b -> R' a b) -> Sorted R l -> Sorted R' l.
Proof.
  intros HR. induction 1 as [| a l Hs IH Hhd]; constructor; [exact IH |].
  destruct Hhd; constructor; auto.
Qed.

Lemma StronglySorted_take {A} (R : A -> A -> Prop) (n : nat) (l : list A) :
  StronglySorted R l -> StronglySorted R (take n l).
Proof.
  intros Hs. revert n. induction Hs as [| a l Hs IH Hall]; intros [| n]; cbn;
    try constructor.
  - apply IH.
  - apply List.Forall_forall. intros x Hx.
    eapply List.Forall_forall; [exact Hall |].
    apply list_elem_of_In. apply list_elem_of_In in Hx.
    eapply elem_of_sublist; [exact Hx | apply sublist_take].
Qed.

Lemma slice_to_length {A} (stop : Z) (l : list A) :
  0 <= stop -> Z.of_nat (length (slice_to stop l)) <= stop.
Proof.
  intros Hs. unfold slice_to.
  destruct (Z.ltb_spec stop 0) as [Hlt | _]; [lia |].
  rewrite length_take. lia.
Qed.

Lemma slice_to_In {A} (stop : Z) (l : list A) (x : A) :
  In x (slice_to stop l) -> In x l.
Proof.
  unfold slice_to. intros Hin. apply list_elem_of_In.
  apply list_elem_of_In in Hin.
  eapply elem_of_sublist; [exact Hin | apply sublist_take].
Qed.

Lemma slice_to_all {A} (stop : Z) (l : list A) :
  Z.of_nat (length l) <= stop -> slice_to stop l = l.
Proof.
  intros Hs. unfold slice_to.
  destruct (Z.ltb_spec stop 0) as [Hlt | _]; [lia |].
  rewrite Z.min_r by lia. rewrite Nat2Z.id. now apply take_ge.
Qed.

Lemma float_lt_asym (a b : float) : float_lt a b = true -> float_lt b a = false.
Proof.
  unfold float_lt. intros H. apply negb_true_iff in H. apply negb_false_iff.
  apply Qle_bool_iff.
  destruct (Qlt_le_dec b a) as [Hlt | Hle].
  - apply Qlt_le_weak in Hlt. apply Qle_bool_iff in Hlt. congruence.
  - exact Hle.
Qed.

Lemma relevance_lt_asym (a b : MemoryEntry.t) :
  InMemoryStore.relevance_lt a b = true ->
  InMemoryStore.relevance_lt b a = false.
Proof.
  unfold InMemoryStore.relevance_lt. intros H.
  apply orb_true_iff in H as [H | H].
  - apply Z.ltb_lt in H. apply orb_false_iff. split.
    + apply Z.ltb_ge. lia.
    + apply andb_false_iff. left. apply Z.eqb_neq. lia.
  - apply andb_true_iff in H as (He & Hf). apply Z.eqb_eq in He.
    apply orb_false_iff. split.
    + apply Z.ltb_ge. lia.
    + apply andb_false_iff. right. now apply float_lt_asym.
Qed.

Lemma relevance_lt_count (a b : MemoryEntry.t) :
  InMemoryStore.relevance_lt a b = false ->
  MemoryEntry.access_count b <= MemoryEntry.access_count a.
Proof.
  unfold InMemoryStore.relevance_lt. intros H.
  apply orb_false_iff in H as (H & _). now apply Z.ltb_ge in H.
Qed.


Section StoreSearch.

Import InMemoryStore.

Lemma is_expired_run (entry : MemoryEntry.t) (w : World) :
  exists w1,
    in_env (MemoryEntry.is_expired entry) w =
      (Return (expired_at (time_src (env w) (ticks (env w))) entry), w1) /\
    this w1 = this w /\
    time_src (env w1) = time_src (env w) /\
    (ticks (env w) <= ticks (env w1))%nat.
Proof.
  unfold MemoryEntry.is_expired, expired_at, in_env, zoom.
  destruct (MemoryEntry.expires_at entry) as [deadline |].
  - unfold bind, time_time, ret. eexists. split; [reflexivity |].
    cbn. repeat split. lia.
  - eexists. split; [reflexivity |]. cbn. repeat split. lia.
Qed.

Lemma access_run (entry : MemoryEntry.t) (w : World) :
  exists w1,
    in_env (MemoryEntry.access entry) w =
      (Return (accessed (time_src (env w) (ticks (env w))) entry), w1) /\
    this w1 = this w /\
    time_src (env w1) = time_src (env w) /\
    (ticks (env w) <= ticks (env w1))%nat.
Proof.
  unfold MemoryEntry.access, in_env, zoom, bind, time_time, ret.
  eexists. split; [reflexivity |]. cbn. repeat split. lia.
Qed.

Section WithBuiltins.

Variable set_iter : gset string -> list string.
Variable contains_lower : string -> PyVal -> bool.

Lemma scanned_later (query : string) (w w0 w' : World) (i : string)
    (found : MemoryEntry.t) :
  this w0 = this w \/ (exists j x, j <> i /\
                         memories (this w0) = <[j := x]> (memories (this w))) ->
  time_src (env w0) = time_src (env w) ->
  (ticks (env w) <= ticks (env w0))%nat ->
  scanned contains_lower query w0 w' i found -> scanned contains_lower query w w' i found.
Proof.
  intros Hmem Hsrc Ht (entry & tested & touched & H1 & H2 & H3 & H4 & H5 & H6 & H7).
  exists entry, tested, touched. rewrite Hsrc in *.
  split.
  { destruct Hmem as [Heq | (j & x & Hne & Hm)]; [now rewrite Heq in H1 |].
    rewrite Hm, lookup_insert_ne in H1 by exact Hne. exact H1. }
  repeat (split; [assumption || lia |]). exact H7.
Qed.

Lemma skipped_later (query : string) (w w0 w' : World) (entry : MemoryEntry.t) :
  time_src (env w0) = time_src (env w) ->
  (ticks (env w) <= ticks (env w0))%nat ->
  skipped contains_lower query w0 w' entry -> skipped contains_lower query w w' entry.
Proof.
  intros Hsrc Ht [Hno | (t & Ht' & Hx)]; [now left | right].
  exists t. rewrite Hsrc in Hx. split; [lia | exact Hx].
Qed.

Lemma scan_run (query : string) (ids : list string) (w : World) :
  NoDup ids ->
  (forall i, In i ids -> is_Some (memories (this w) !! i)) ->
  exists results w',
    scan contains_lower query ids w = (Return results, w') /\
    time_src (env w') = time_src (env w) /\
    (ticks (env w) <= ticks (env w'))%nat /\
    type_index (this w') = type_index (this w) /\
    tag_index (this w') = tag_index (this w) /\
    (forall j, ~ In j ids -> memories (this w') !! j = memories (this w) !! j) /\
    (forall found, In found results ->
       exists i, In i ids /\ scanned contains_lower query w w' i found) /\
    (forall i entry, In i ids -> memories (this w) !! i = Some entry ->
       (exists found, In found results /\ memories (this w') !! i = Some found) \/
       skipped contains_lower query w w' entry) /\
    (length results <= length ids)%nat.
Proof.
  revert w. induction ids as [| i ids IH]; intros w Hnd Hstored.
  - exists [], w. split; [reflexivity |]. repeat split; try reflexivity.
    + intros found [].
    + intros i entry [].
  - apply NoDup_cons in Hnd as (Hi & Hnd).
    assert (Hi' : ~ In i ids) by (intros H; apply Hi; now apply list_elem_of_In).
    cbn [scan]. unfold bind at 1, self at 1, gets at 1.
    destruct (Hstored i) as (entry & Hentry); [now left |]. rewrite Hentry.
    destruct (is_expired_run entry w) as (w1 & Hexp & Hthis1 & Hsrc1 & Ht1).
    rewrite (bind_step _ _ _ _ _ Hexp).
    assert (Hstay :
      (forall w', (ticks (env w1) <= ticks (env w'))%nat ->
                  skipped contains_lower query w w' entry) ->
      exists results w',
        scan contains_lower query ids w1 = (Return results, w') /\
        time_src (env w') = time_src (env w) /\
        (ticks (env w) <= ticks (env w'))%nat /\
        type_index (this w') = type_index (this w) /\
        tag_index (this w') = tag_index (this w) /\
        (forall j, ~ In j (i :: ids) ->
           memories (this w') !! j = memories (this w) !! j) /\
        (forall found, In found results ->
           exists i0, In i0 (i :: ids) /\ scanned contains_lower query w w' i0 found) /\
        (forall i0 entry0, In i0 (i :: ids) ->
           memories (this w) !! i0 = Some entry0 ->
           (exists found, In found results /\
                          memories (this w') !! i0 = Some found) \/
           skipped contains_lower query w w' entry0) /\
        (length results <= length (i :: ids))%nat).
    { intros Hwhy.
      destruct (IH w1 Hnd) as (results & w' & Hrun & Hsrc & Ht & Hty & Htg
                               & Hout & Hfound & Hall & Hlen).
      { intros j Hj. rewrite Hthis1. apply Hstored. now right. }
      exists results, w'. split; [exact Hrun |].
      split; [congruence |]. split; [lia |].
      split; [congruence |]. split; [congruence |].
      split.
      { intros j Hj. rewrite Hout, Hthis1; [reflexivity |].
        intros H. apply Hj. now right. }
      split.
      { intros found Hf. destruct (Hfound found Hf) as (i0 & Hin & Hsc).
        exists i0. split; [now right |].
        apply (scanned_later query w w1 w' i0 found); auto. }
      split; [| cbn; lia].
      intros i0 e0 [<- | Hin] He0.
      - right. rewrite Hentry in He0. injection He0 as <-. now apply Hwhy.
      - rewrite <- Hthis1 in He0.
        destruct (Hall i0 e0 Hin He0) as [Hyes | Hskip]; [now left | right].
        now apply (skipped_later query w w1 w' e0). }
    destruct (expired_at (time_src (env w) (ticks (env w))) entry) eqn:Hx.
    + apply Hstay. intros w' Hw'. right.
      exists (ticks (env w)). split; [lia | exact Hx].
    + destruct (contains_lower query (MemoryEntry.content entry)) eqn:Hc;
        [| apply Hstay; intros w' Hw'; now left].
      destruct (access_run entry w1) as (w2 & Hacc & Hthis2 & Hsrc2 & Ht2).
      rewrite Hsrc1 in Hacc, Hsrc2.
      rewrite (bind_step _ _ _ _ _ Hacc).
      unfold bind at 1, assign at 1, modify at 1.
      match goal with
      | |- context [bind (scan _ _ _) _ ?w0] => set (w3 := w0)
      end.
      assert (Hmem3 : memories (this w3) =
                      <[i := accessed (time_src (env w) (ticks (env w1))) entry]>
                        (memories (this w)))
        by (subst w3; cbn; now rewrite Hthis2, Hthis1).
      assert (Hty3 : type_index (this w3) = type_index (this w))
        by (subst w3; cbn; now rewrite Hthis2, Hthis1).
      assert (Htg3 : tag_index (this w3) = tag_index (this w))
        by (subst w3; cbn; now rewrite Hthis2, Hthis1).
      assert (Hsrc3 : time_src (env w3) = time_src (env w))
        by (subst w3; cbn; congruence).
      assert (Ht3 : ticks (env w3) = ticks (env w2)) by reflexivity.
      clearbody w3.
      destruct (IH w3 Hnd) as (results & w' & Hrun & Hsrc & Ht & Hty & Htg
                               & Hout & Hfound & Hall & Hlen).
      { intros j Hj. rewrite Hmem3.
        rewrite lookup_insert_ne by (intros ->; contradiction).
        apply Hstored. now right. }
      unfold bind at 1. rewrite Hrun. unfold ret.
      eexists _, w'. split; [reflexivity |].
      split; [congruence |]. split; [lia |].
      split; [congruence |]. split; [congruence |].
      assert (Hmine : memories (this w') !! i =
                      Some (accessed (time_src (env w) (ticks (env w1))) entry)).
      { rewrite (Hout i Hi'), Hmem3. apply lookup_insert_eq. }
      split.
      { intros j Hj. rewrite Hout by (intros H; apply Hj; now right).
        rewrite Hmem3. apply lookup_insert_ne. intros ->. apply Hj. now left. }
      split.
      { intros found [<- | Hf].
        - exists i. split; [now left |].
          exists entry, (ticks (env w)), (ticks (env w1)).
          split; [exact Hentry |]. split; [reflexivity |].
          split; [exact Hmine |]. split; [lia |]. split; [lia |].
          split; [exact Hx | exact Hc].
        - destruct (Hfound found Hf) as (i0 & Hin & Hsc).
          exists i0. split; [now right |].
          apply (scanned_later query w w3 w' i0 found); try assumption; [| lia].
          right. exists i, (accessed (time_src (env w) (ticks (env w1))) entry).
          split; [intros ->; contradiction | exact Hmem3]. }
      split; [| cbn; lia].
      intros i0 e0 [<- | Hin] He0.
      * left. eexists. split; [now left | exact Hmine].
      * assert (He3 : memories (this w3) !! i0 = Some e0).
        { rewrite Hmem3. rewrite lookup_insert_ne; [exact He0 |].
          intros ->. contradiction. }
        destruct (Hall i0 e0 Hin He3) as [(f & Hf & Hm) | Hskip].
        -- left. exists f. split; [now right | exact Hm].
        -- right. apply (skipped_later query w w3 w' e0); [exact Hsrc3 | lia |].
           exact Hskip.
Qed.

Lemma tag_ids_listed (s : t) (tags : list string) (i : string) :
  i ∈ tag_ids s tags -> exists tg, In tg tags /\ listed i tg (tag_index s).
Proof.
  unfold tag_ids.
  assert (H : forall acc : gset string,
             i ∈ fold_left
                   (fun ids tag =>
                      match tag_index s !! tag with
                      | Some l => ids ∪ list_to_set l
                      | None => ids
                      end) tags acc ->
             i ∈ acc \/ exists tg, In tg tags /\ listed i tg (tag_index s)).
  { induction tags as [| tag tags IH]; intros acc Hin; cbn in Hin; [now left |].
    destruct (IH _ Hin) as [Hacc | (tg & Htg & Hl)].
    - destruct (tag_index s !! tag) as [l |] eqn:Hix; [| now left].
      apply elem_of_union in Hacc as [Hacc | Hl]; [now left | right].
      exists tag. split; [now left |]. exists l. split; [exact Hix |].
      apply list_elem_of_In. now apply elem_of_list_to_set in Hl.
    - right. exists tg. split; [now right | exact Hl]. }
  intros Hin. destruct (H ∅ Hin) as [Hempty | Hyes]; [| exact Hyes].
  now apply elem_of_empty in Hempty.
Qed.

Lemma candidates_pass (s : t) (memory_type : option MemoryType.t)
    (tags : option (list string)) (i : string) :
  i ∈ candidates s memory_type tags -> passes s memory_type tags i.
Proof.
  unfold candidates. intros Hin.
  assert (Htype : i ∈ match memory_type with
                      | Some k => dom (memories s) ∩ list_to_set (type_index s k)
                      | None => dom (memories s)
                      end
                  /\ forall tag rest, tags = Some (tag :: rest) ->
                                      i ∈ tag_ids s (tag :: rest)).
  { destruct tags as [[| tag rest] |].
    - split; [exact Hin | discriminate].
    - apply elem_of_intersection in Hin as (H1 & H2).
      split; [exact H1 |]. now intros ? ? [= <- <-].
    - split; [exact Hin | discriminate]. }
  destruct Htype as (Htype & Htags).
  split; [| split].
  - destruct memory_type; [apply elem_of_intersection in Htype as (Htype & _) |];
      now apply elem_of_dom in Htype.
  - intros k ->. apply elem_of_intersection in Htype as (_ & Htype).
    apply list_elem_of_In. now apply elem_of_list_to_set in Htype.
  - intros tag rest Heq. apply tag_ids_listed. now apply Htags.
Qed.

Lemma passing_candidates (s : t) (memory_type : option MemoryType.t)
    (tags : option (list string)) (i : string) :
  passes s memory_type tags i -> i ∈ candidates s memory_type tags.
Proof.
  intros (Hstored & Htype & Htags). unfold candidates.
  assert (Hby : i ∈ match memory_type with
                    | Some k => dom (memories s) ∩ list_to_set (type_index s k)
                    | None => dom (memories s)
                    end).
  { destruct memory_type as [k |]; [apply elem_of_intersection; split |];
      try (now apply elem_of_dom).
    apply elem_of_list_to_set, list_elem_of_In. now apply Htype. }
  destruct tags as [[| tag rest] |]; try exact Hby.
  apply elem_of_intersection. split; [exact Hby |].
  destruct (Htags tag rest eq_refl) as (tg & Htg & l & Hix & Hl).
  unfold tag_ids.
  assert (H : forall tags0 (acc : gset string),
             (i ∈ acc \/ In tg tags0) ->
             i ∈ fold_left
                   (fun ids tag0 =>
                      match tag_index s !! tag0 with
                      | Some l0 => ids ∪ list_to_set l0
                      | None => ids
                      end) tags0 acc).
  { induction tags0 as [| t0 tags0 IH]; intros acc [Hacc | Hin]; cbn.
    - exact Hacc.
    - destruct Hin.
    - apply IH. left. destruct (tag_index s !! t0); [| exact Hacc].
      apply elem_of_union. now left.
    - destruct Hin as [-> | Hin]; apply IH; [left | now right].
      rewrite Hix. apply elem_of_union. right.
      now apply elem_of_list_to_set, list_elem_of_In. }
  apply H. now right.
Qed.

Hypothesis set_iter_ok : lists_elements set_iter.

(** X25. [InMemoryStore.search] returns normally whatever the store
    holds. Each result is a stored entry that passes the type and tag
    filters, whose content passes the text test and that did not say it
    was expired when tested; it is returned marked as accessed, and the
    same object is what the store then holds. The results come in
    descending order of access count, and are at most [limit] when
    [limit] is not negative. When [limit] is at least the number of
    stored entries nothing is cut off: an entry that passes the filters
    is returned unless its content fails the text test or it said it was
    expired at some clock reading of the call. The indexes are never
    touched. *)
Theorem search_returns_live_matches (query : string)
    (memory_type : option MemoryType.t) (tags : option (list string))
    (limit : Z) (w : World) :
  exists results w',
    search set_iter contains_lower query memory_type tags limit w
      = (Return results, w') /\
    (0 <= limit -> Z.of_nat (length results) <= limit) /\
    (forall found, In found results ->
       exists i, passes (this w) memory_type tags i /\
                 scanned contains_lower query w w' i found) /\
    StronglySorted
      (fun a b => MemoryEntry.access_count b <= MemoryEntry.access_count a)
      results /\
    (Z.of_nat (size (memories (this w))) <= limit ->
     forall i entry,
       passes (this w) memory_type tags i ->
       memories (this w) !! i = Some entry ->
       (exists found, In found results /\
                      memories (this w') !! i = Some found) \/
       skipped contains_lower query w w' entry) /\
    type_index (this w') = type_index (this w) /\
    tag_index (this w') = tag_index (this w).
Proof.
  unfold search. unfold bind at 1, self at 1, gets at 1.
  set (ids := set_iter (candidates (this w) memory_type tags)).
  destruct (set_iter_ok (candidates (this w) memory_type tags))
    as (Hnd & Hids). fold ids in Hnd, Hids.
  destruct (scan_run query ids w Hnd) as (raw & w' & Hrun & Hsrc & Ht & Hty
                                           & Htg & Hout & Hfound & Hall & Hlen).
  { intros i Hi. apply Hids in Hi. now apply candidates_pass in Hi as (H & _). }
  unfold bind at 1. rewrite Hrun. unfold ret.
  set (sorted := list_sort (fun a b => relevance_lt b a) raw).
  assert (Hperm : sorted ≡ₚ raw) by apply list_sort_perm.
  exists (slice_to limit sorted), w'. split; [reflexivity |].
  split; [apply slice_to_length |].
  split.
  { intros found Hin. apply slice_to_In in Hin.
    assert (Hraw : In found raw).
    { apply list_elem_of_In. rewrite <- Hperm. now apply list_elem_of_In. }
    destruct (Hfound found Hraw) as (i & Hi & Hsc). exists i.
    split; [| exact Hsc]. apply candidates_pass. now apply Hids. }
  split.
  { unfold slice_to. apply StronglySorted_take.
    apply Sorted_StronglySorted; [intros a b c Hab Hbc; lia |].
    eapply Sorted_weaken; [| apply list_sort_sorted].
    - intros a b Hab. cbn in Hab. now apply relevance_lt_count.
    - intros a b Hab. now apply relevance_lt_asym. }
  split; [| split; assumption].
  intros Hlimit i entry Hpass Hentry.
  assert (Hi : In i ids) by now apply Hids, passing_candidates.
  assert (Hwhole : slice_to limit sorted = sorted).
  { apply slice_to_all. unfold sorted. rewrite list_sort_length.
    assert (Hsize : (length ids <= size (memories (this w)))%nat).
    { rewrite <- size_dom.
      assert (Hsub : candidates (this w) memory_type tags
                       ⊆ dom (memories (this w))).
      { intros j Hj. apply candidates_pass in Hj as (Hj & _).
        now apply elem_of_dom. }
      apply subseteq_size in Hsub.
      assert (Hel : ids ≡ₚ elements (candidates (this w) memory_type tags)).
      { apply NoDup_Permutation; [exact Hnd | apply NoDup_elements |].
        intros j. rewrite elem_of_elements, list_elem_of_In. apply Hids. }
      rewrite Hel. exact Hsub. }
    lia. }
  rewrite Hwhole.
  destruct (Hall i entry Hi Hentry) as [(found & Hin & Hm) | Hskip];
    [left | now right].
  exists found. split; [| exact Hm].
  apply list_elem_of_In. rewrite Hperm. now apply list_elem_of_In.
Qed.

End WithBuiltins.

End StoreSearch.

(* ===================================================================== *)
(** * The memory of an agent *)
(* ===================================================================== *)

Section AgentMemoryFacts.

Import AgentMemory.

Lemma in_store_run {A} (m : M InMemoryStore.World A) (w : World)
    (r : Result A) (sw : InMemoryStore.World) :
  m {| InMemoryStore.env := env w; InMemoryStore.this := store (this w) |}
    = (r, sw) ->
  in_store m w
    = (r, {| env := InMemoryStore.env sw;
             this := set_store (InMemoryStore.this sw) (this w) |}).
Proof. unfold in_store, zoom. now intros ->. Qed.

Lemma same_but_store_refl (m : t) : same_but_store m m.
Proof. now destruct m. Qed.

Lemma same_but_store_set (s : InMemoryStore.t) (m m' : t) :
  same_but_store m m' -> same_but_store m (set_store s m').
Proof. unfold same_but_store. intros ->. reflexivity. Qed.

(** The loop of [_enforce_size_limit] from index [a] on, [k] rounds. *)
Lemma evict_run (entries : list MemoryEntry.t) (k a : nat) (w : World) :
  (a <= length entries)%nat ->
  exists r w',
    for_each (seq a k)
      (fun i =>
         match entries !! i with
         | Some entry =>
             _ <- in_store (InMemoryStore.delete (MemoryEntry.id entry)) ;;
             ret tt
         | None => raise (Exception "list index out of range")
         end) w = (r, w') /\
    env w' = env w /\
    same_but_store (this w) (this w') /\
    InMemoryStore.memories (store (this w')) =
      without (map MemoryEntry.id (take k (drop a entries)))
        (InMemoryStore.memories (store (this w))) /\
    r = if (a + k <=? length entries)%nat then Return tt
        else Raise (Exception "list index out of range").
Proof.
  revert a w. induction k as [| k IH]; intros a w Ha.
  - exists (Return tt), w. cbn [seq for_each]. split; [reflexivity |].
    split; [reflexivity |]. split; [apply same_but_store_refl |].
    split; [reflexivity |].
    destruct (Nat.leb_spec (a + 0) (length entries)); [reflexivity | lia].
  - cbn [seq for_each].
    destruct (entries !! a) as [entry |] eqn:Hentry.
    + assert (Hlt : (a < length entries)%nat)
        by (apply lookup_lt_is_Some; eauto).
      destruct (delete_run (MemoryEntry.id entry)
                  {| InMemoryStore.env := env w;
                     InMemoryStore.this := store (this w) |})
        as (b & sw & Hdel & Henv & Hmem).
      pose proof (in_store_run _ w _ _ Hdel) as Hrun.
      destruct (IH (S a)
                  {| env := InMemoryStore.env sw;
                     this := set_store (InMemoryStore.this sw) (this w) |})
        as (r & w' & Hrest & Henv' & Hsame & Hmem' & Hr); [lia |].
      exists r, w'. split.
      { unfold bind at 1 2. rewrite Hrun. unfold ret at 1. exact Hrest. }
      split; [cbn in Henv, Henv'; congruence |].
      split.
      { unfold same_but_store in *. rewrite Hsame at 1. cbn.
        now destruct (this w). }
      split.
      { rewrite Hmem'. cbn [this store set_store]. rewrite Hmem.
        cbn [InMemoryStore.this InMemoryStore.memories].
        rewrite (drop_S _ _ _ Hentry). reflexivity. }
      rewrite Hr. replace (a + S k)%nat with (S a + k)%nat by lia. reflexivity.
    + apply lookup_ge_None in Hentry.
      exists (Raise (Exception "list index out of range")), w.
      split; [reflexivity |]. split; [reflexivity |].
      split; [apply same_but_store_refl |].
      split; [now rewrite drop_ge by lia |].
      destruct (Nat.leb_spec (a + S k) (length entries)); [lia | reflexivity].
Qed.

Lemma evicted_first_iff (a b : MemoryEntry.t) :
  evicted_first a b <->
  let pa := MemoryPriority.value (MemoryEntry.priority a) in
  let pb := MemoryPriority.value (MemoryEntry.priority b) in
  pa < pb \/
  (pa = pb /\
   (MemoryEntry.access_count a < MemoryEntry.access_count b \/
    (MemoryEntry.access_count a = MemoryEntry.access_count b /\
     (MemoryEntry.last_accessed a <= MemoryEntry.last_accessed b)%Q))).
Proof.
  unfold evicted_first, eviction_lt, float_lt. cbv zeta.
  generalize (MemoryPriority.value (MemoryEntry.priority a)).
  generalize (MemoryPriority.value (MemoryEntry.priority b)).
  intros pb pa.
  rewrite orb_false_iff, andb_false_iff, orb_false_iff, andb_false_iff.
  rewrite negb_false_iff, Qle_bool_iff.
  rewrite !Z.ltb_ge, !Z.eqb_neq. split.
  - intros (H1 & [H2 | (H3 & [H4 | H5])]); [lia | |].
    + destruct (Z.eq_dec pa pb); [right | lia]. split; [assumption |]. lia.
    + destruct (Z.eq_dec pa pb); [right | lia]. split; [assumption |].
      destruct (Z.eq_dec (MemoryEntry.access_count a)
                  (MemoryEntry.access_count b)); [right | lia].
      now split.
  - intros [H | (H1 & [H2 | (H2 & H3)])].
    + split; [lia | left; lia].
    + split; [lia | right]. split; [lia | left; lia].
    + split; [lia | right]. split; [lia | now right].
Qed.

Lemma evicted_first_trans (a b c : MemoryEntry.t) :
  evicted_first a b -> evicted_first b c -> evicted_first a c.
Proof.
  rewrite !evicted_first_iff. cbv zeta.
  intros [H | (H1 & [H2 | (H2 & H3)])] [K | (K1 & [K2 | (K2 & K3)])];
    try (left; lia); right; (split; [lia |]); try (left; lia).
  right. split; [lia |]. eapply Qle_trans; eassumption.
Qed.

Lemma eviction_lt_asym (a b : MemoryEntry.t) :
  eviction_lt a b = true -> eviction_lt b a = false.
Proof.
  intros H. change (evicted_first a b). apply evicted_first_iff. cbv zeta.
  unfold eviction_lt, float_lt in H.
  apply orb_true_iff in H as [H | H]; [left; now apply Z.ltb_lt |].
  apply andb_true_iff in H as (H1 & H). apply Z.eqb_eq in H1.
  right. split; [exact H1 |].
  apply orb_true_iff in H as [H | H]; [left; now apply Z.ltb_lt |].
  apply andb_true_iff in H as (H2 & H3). apply Z.eqb_eq in H2.
  right. split; [exact H2 |].
  apply negb_true_iff in H3.
  destruct (Qlt_le_dec (MemoryEntry.last_accessed b)
              (MemoryEntry.last_accessed a)) as [Hlt | Hle]; [| exact Hle].
  apply Qlt_le_weak, Qle_bool_iff in Hlt. congruence.
Qed.

Lemma StronglySorted_app_inv {A} (R : A -> A -> Prop) (l1 l2 : list A) :
  StronglySorted R (l1 ++ l2) ->
  forall x y, In x l1 -> In y l2 -> R x y.
Proof.
  induction l1 as [| a l1 IH]; intros Hs x y Hx Hy; [destruct Hx |].
  cbn in Hs. apply StronglySorted_inv in Hs as (Hs & Hall).
  destruct Hx as [<- | Hx]; [| now apply IH].
  eapply List.Forall_forall; [exact Hall |]. apply in_or_app. now right.
Qed.

Lemma store_run (entry : MemoryEntry.t) (w : InMemoryStore.World) :
  exists w',
    InMemoryStore.store entry w = (Return true, w') /\
    InMemoryStore.env w' = InMemoryStore.env w /\
    InMemoryStore.memories (InMemoryStore.this w') =
      <[MemoryEntry.id entry := entry]>
        (InMemoryStore.memories (InMemoryStore.this w)).
Proof.
  unfold InMemoryStore.store. unfold bind at 1, try_except, bind,
    InMemoryStore.assign, modify, ret.
  eexists. split; [reflexivity |]. split; reflexivity.
Qed.

Section WithOrder.

Variable dict_keys : gmap string MemoryEntry.t -> list string.
Variable content_hash : PyVal -> string.
Hypothesis dict_keys_ok : lists_keys dict_keys.

(** [list(self.store.memories.values())]. *)
Lemma values_of_keys (known : gmap string MemoryEntry.t) (l : list string) :
  (forall i, In i l -> is_Some (known !! i)) ->
  (forall i entry, known !! i = Some entry -> MemoryEntry.id entry = i) ->
  map MemoryEntry.id (omap (fun k => known !! k) l) = l.
Proof.
  intros Hin Hkeys. induction l as [| i l IH]; [reflexivity |].
  destruct (Hin i) as (e & He); [now left |].
  cbn in *. rewrite He. cbn. rewrite (Hkeys i e He), IH; [reflexivity |].
  intros j Hj. apply Hin. now right.
Qed.

Lemma dict_keys_length (known : gmap string MemoryEntry.t) :
  length (dict_keys known) = size known.
Proof.
  destruct (dict_keys_ok known) as (Hnd & Hin).
  rewrite <- length_map_to_list, <- (length_fmap fst (map_to_list known)).
  apply Permutation_length, NoDup_Permutation;
    [exact Hnd | apply NoDup_fst_map_to_list |].
  intros i. rewrite list_elem_of_In, Hin, list_elem_of_fmap. split.
  - intros (e & He). exists (i, e). split; [reflexivity |].
    now apply elem_of_map_to_list.
  - intros ([j e] & -> & He). apply elem_of_map_to_list in He. eauto.
Qed.

(** What [_enforce_size_limit] does when the store holds more than
    [max_size] entries: it deletes the first [size - max_size] entries
    in eviction order, or all of them before it fails. *)
Lemma _enforce_size_limit_run (w : World) :
  keys_are_ids (store (this w)) ->
  Z.of_nat (size (InMemoryStore.memories (store (this w)))) > max_size (this w) ->
  exists entries r w',
    _enforce_size_limit dict_keys w = (r, w') /\
    env w' = env w /\
    same_but_store (this w) (this w') /\
    entries ≡ₚ omap (fun k => InMemoryStore.memories (store (this w)) !! k)
                (dict_keys (InMemoryStore.memories (store (this w)))) /\
    StronglySorted evicted_first entries /\
    let k := Z.to_nat (Z.of_nat (size (InMemoryStore.memories (store (this w))))
                       - max_size (this w)) in
    InMemoryStore.memories (store (this w')) =
      without (map MemoryEntry.id (take k entries))
        (InMemoryStore.memories (store (this w))) /\
    r = if (k <=? length entries)%nat then Return tt
        else Raise (Exception "list index out of range").
Proof.
  intros Hkeys Hover. unfold _enforce_size_limit.
  unfold bind at 1, self at 1, gets at 1.
  unfold bind at 1, self at 1, gets at 1.
  set (known := InMemoryStore.memories (store (this w))) in *.
  destruct (Z.gtb_spec (Z.of_nat (size known)) (max_size (this w))) as [_ | H];
    [| lia].
  set (entries := list_sort eviction_lt
                    (omap (fun k => known !! k) (dict_keys known))).
  destruct (evict_run entries
              (Z.to_nat (Z.of_nat (size known) - max_size (this w))) 0 w)
    as (r & w' & Hrun & Henv & Hsame & Hmem & Hr); [lia |].
  exists entries, r, w'. split; [exact Hrun |]. split; [exact Henv |].
  split; [exact Hsame |]. split; [apply list_sort_perm |].
  split.
  { apply Sorted_StronglySorted; [intros a b c; apply evicted_first_trans |].
    eapply Sorted_weaken; [| apply list_sort_sorted].
    - intros a b Hab. exact Hab.
    - apply eviction_lt_asym. }
  cbv zeta. rewrite drop_0 in Hmem. split; [exact Hmem | exact Hr].
Qed.

Lemma entries_facts (known : gmap string MemoryEntry.t)
    (entries : list MemoryEntry.t) :
  (forall i entry, known !! i = Some entry -> MemoryEntry.id entry = i) ->
  entries ≡ₚ omap (fun k => known !! k) (dict_keys known) ->
  length entries = size known /\
  NoDup (map MemoryEntry.id entries) /\
  (forall e, In e entries <-> known !! MemoryEntry.id e = Some e).
Proof.
  intros Hkeys Hperm.
  destruct (dict_keys_ok known) as (Hnd & Hin).
  assert (Hids : map MemoryEntry.id (omap (fun k => known !! k) (dict_keys known))
                 = dict_keys known).
  { apply values_of_keys; [| exact Hkeys]. intros i Hi. now apply Hin. }
  split; [| split].
  - rewrite <- dict_keys_length, <- Hids, length_map. now apply Permutation_length.
  - change (map MemoryEntry.id entries) with (MemoryEntry.id <$> entries).
    rewrite Hperm. change (NoDup (map MemoryEntry.id
                                   (omap (fun k => known !! k) (dict_keys known)))).
    now rewrite Hids.
  - intros e. rewrite <- list_elem_of_In, Hperm, list_elem_of_omap. split.
    + intros (i & Hi & He). now rewrite (Hkeys i e He).
    + intros He. exists (MemoryEntry.id e). split; [| exact He].
      apply list_elem_of_In, Hin. eauto.
Qed.

Lemma list_mem_map_id (i : string) (l : list MemoryEntry.t) :
  list_mem i (map MemoryEntry.id l) = true <->
  exists e, In e l /\ MemoryEntry.id e = i.
Proof.
  rewrite list_mem_In, in_map_iff. split; intros (e & H1 & H2); eauto.
Qed.

Lemma _enforce_size_limit_fits (w : World) :
  keys_are_ids (store (this w)) ->
  0 <= max_size (this w) ->
  exists w',
    _enforce_size_limit dict_keys w = (Return tt, w') /\
    env w' = env w /\
    same_but_store (this w) (this w') /\
    Z.of_nat (size (InMemoryStore.memories (store (this w')))) =
      Z.min (Z.of_nat (size (InMemoryStore.memories (store (this w)))))
        (max_size (this w)) /\
    (forall i entry,
        InMemoryStore.memories (store (this w')) !! i = Some entry ->
        InMemoryStore.memories (store (this w)) !! i = Some entry) /\
    (forall i j gone kept,
        InMemoryStore.memories (store (this w)) !! i = Some gone ->
        InMemoryStore.memories (store (this w')) !! i = None ->
        InMemoryStore.memories (store (this w')) !! j = Some kept ->
        evicted_first gone kept).
Proof.
  intros Hkeys Hlimit.
  destruct (Z_gt_le_dec
              (Z.of_nat (size (InMemoryStore.memories (store (this w)))))
              (max_size (this w))) as [Hover | Hfits].
  - destruct (_enforce_size_limit_run w Hkeys Hover)
      as (entries & r & w' & Hrun & Henv & Hsame & Hperm & Hsorted & Hmem & Hr).
    cbv zeta in Hmem, Hr.
    set (known := InMemoryStore.memories (store (this w))) in *.
    set (k := Z.to_nat (Z.of_nat (size known) - max_size (this w))) in *.
    destruct (entries_facts known entries Hkeys Hperm) as (Hlen & Hnd & Hin).
    assert (Hk : (k <= length entries)%nat) by lia.
    destruct (Nat.leb_spec k (length entries)) as [_ | H]; [subst r | lia].
    exists w'. split; [exact Hrun |]. split; [exact Henv |].
    split; [exact Hsame |].
    assert (Hgone : forall e, In e (take k entries) -> In e entries).
    { intros e He. apply list_elem_of_In. apply list_elem_of_In in He.
      eapply elem_of_sublist; [exact He | apply sublist_take]. }
    split.
    { pose proof (without_size (map MemoryEntry.id (take k entries)) known)
        as Hsize.
      rewrite <- Hmem in Hsize. rewrite length_map, length_take in Hsize.
      rewrite Z.min_r by lia.
      enough ((size (InMemoryStore.memories (store (this w'))) + k)%nat
              = size known) by lia.
      rewrite Nat.min_l in Hsize by lia. apply Hsize.
      - change (map MemoryEntry.id (take k entries))
          with (MemoryEntry.id <$> take k entries).
        rewrite fmap_take.
        eapply sublist_NoDup; [exact Hnd | apply sublist_take].
      - intros i Hi. apply in_map_iff in Hi as (e & <- & He).
        exists e. now apply Hin, Hgone. }
    split.
    { intros i entry. rewrite Hmem, without_lookup.
      now destruct (list_mem i (map MemoryEntry.id (take k entries))). }
    intros i j gone kept Hi Hnone Hj.
    rewrite Hmem, without_lookup in Hnone, Hj.
    destruct (list_mem i (map MemoryEntry.id (take k entries))) eqn:Hmi;
      [| congruence].
    destruct (list_mem j (map MemoryEntry.id (take k entries))) eqn:Hmj;
      [discriminate |].
    apply list_mem_map_id in Hmi as (e & He & Hid).
    assert (e = gone).
    { apply Hgone, Hin in He. rewrite Hid in He. congruence. }
    subst e.
    assert (Hkept : In kept (drop k entries)).
    { assert (Hall : In kept entries).
      { apply Hin. now rewrite (Hkeys j kept Hj). }
      rewrite <- (take_drop k entries) in Hall.
      apply in_app_or in Hall as [Hbad | Hok]; [| exact Hok].
      assert (list_mem j (map MemoryEntry.id (take k entries)) = true).
      { apply list_mem_map_id. exists kept. split; [exact Hbad |].
        now apply Hkeys. }
      congruence. }
    rewrite <- (take_drop k entries) in Hsorted.
    now apply (StronglySorted_app_inv _ _ _ Hsorted).
  - exists w. unfold _enforce_size_limit.
    unfold bind at 1, self at 1, gets at 1.
    unfold bind at 1, self at 1, gets at 1.
    destruct (Z.gtb_spec
                (Z.of_nat (size (InMemoryStore.memories (store (this w)))))
                (max_size (this w))) as [H | _]; [lia |].
    split; [reflexivity |]. split; [reflexivity |].
    split; [apply same_but_store_refl |].
    split; [lia |]. split; [auto |].
    intros i j gone kept Hi Hnone. congruence.
Qed.

(** X26. With a size limit that is not negative and every entry stored
    under its own id, [_enforce_size_limit] returns normally and leaves
    the smaller of the number of entries held and [max_size]: nothing is
    added or changed, and whatever is removed sorts no later, by
    priority, then access count, then access time, than whatever is
    kept. Only the store of the memory changes. *)
Theorem size_limit_is_enforced (w : World) :
  keys_are_ids (store (this w)) ->
  0 <= max_size (this w) ->
  exists w',
    _enforce_size_limit dict_keys w = (Return tt, w') /\
    env w' = env w /\
    same_but_store (this w) (this w') /\
    Z.of_nat (size (InMemoryStore.memories (store (this w')))) =
      Z.min (Z.of_nat (size (InMemoryStore.memories (store (this w)))))
        (max_size (this w)) /\
    (forall i entry,
        InMemoryStore.memories (store (this w')) !! i = Some entry ->
        InMemoryStore.memories (store (this w)) !! i = Some entry) /\
    (forall i j gone kept,
        InMemoryStore.memories (store (this w)) !! i = Some gone ->
        InMemoryStore.memories (store (this w')) !! i = None ->
        InMemoryStore.memories (store (this w')) !! j = Some kept ->
        evicted_first gone kept).
Proof. exact (_enforce_size_limit_fits w). Qed.

(** X27. With a negative size limit [_enforce_size_limit] never returns:
    it deletes every entry of the store and then fails on the index
    past the end of the list of entries. *)
Theorem negative_size_limit_empties_store (w : World) :
  keys_are_ids (store (this w)) ->
  max_size (this w) < 0 ->
  exists w',
    _enforce_size_limit dict_keys w
      = (Raise (Exception "list index out of range"), w') /\
    InMemoryStore.memories (store (this w')) = ∅ /\
    env w' = env w /\
    same_but_store (this w) (this w').
Proof.
  intros Hkeys Hneg.
  destruct (_enforce_size_limit_run w Hkeys)
    as (entries & r & w' & Hrun & Henv & Hsame & Hperm & _ & Hmem & Hr); [lia |].
  cbv zeta in Hmem, Hr.
  set (known := InMemoryStore.memories (store (this w))) in *.
  set (k := Z.to_nat (Z.of_nat (size known) - max_size (this w))) in *.
  destruct (entries_facts known entries Hkeys Hperm) as (Hlen & Hnd & Hin).
  destruct (Nat.leb_spec k (length entries)) as [H | _]; [lia | subst r].
  exists w'. split; [exact Hrun |]. split; [| split; assumption].
  rewrite Hmem. apply map_eq. intros i. rewrite without_lookup, lookup_empty.
  destruct (list_mem i (map MemoryEntry.id (take k entries))) eqn:Hmi;
    [reflexivity |].
  destruct (known !! i) as [e |] eqn:He; [| reflexivity].
  assert (list_mem i (map MemoryEntry.id (take k entries)) = true);
    [| congruence].
  apply list_mem_map_id. exists e. rewrite take_ge by lia.
  rewrite (Hkeys i e He). split; [| reflexivity].
  apply Hin. now rewrite (Hkeys i e He).
Qed.

(** [retrieve] of an entry that says it is expired returns nothing. *)
Lemma retrieve_expired (memory_id : string) (entry : MemoryEntry.t)
    (w : InMemoryStore.World) :
  InMemoryStore.memories (InMemoryStore.this w) !! memory_id = Some entry ->
  expired_at
    (time_src (InMemoryStore.env w) (ticks (InMemoryStore.env w))) entry
    = true ->
  exists w', InMemoryStore.retrieve memory_id w = (Return None, w').
Proof.
  intros Hentry Hexpired. unfold InMemoryStore.retrieve.
  unfold bind at 1, InMemoryStore.self at 1, gets at 1. rewrite Hentry.
  destruct (is_expired_run entry w) as (w1 & Hrun & _).
  rewrite (bind_step _ _ _ _ _ Hrun), Hexpired. cbn [negb].
  destruct (is_expired_run entry w1) as (w2 & Hrun2 & _).
  rewrite (bind_step _ _ _ _ _ Hrun2).
  destruct (expired_at
              (time_src (InMemoryStore.env w1) (ticks (InMemoryStore.env w1)))
              entry).
  - destruct (delete_run memory_id w2) as (b & w3 & Hdel & _).
    unfold bind, ret. rewrite Hdel. eauto.
  - unfold bind, ret. eauto.
Qed.

(** [remember] up to the call of [_enforce_size_limit]: the id and the
    entry it makes, and the store that holds it. The expiry time is the
    second clock reading of the call plus the life span, when one is
    given and is not zero. *)
Lemma remember_run (content : PyVal) (memory_type : MemoryType.t)
    (priority : MemoryPriority.t) (tags : option (list string))
    (expires_in : option float) (w : World) :
  let memory_id :=
    agent_id (this w) +:+ "_" +:+ MemoryType.value memory_type +:+ "_"
    +:+ content_hash content +:+ "_"
    +:+ str_of_int (int_of_float (time_src (env w) (ticks (env w)))) in
  exists entry wb,
    remember dict_keys content_hash content memory_type priority tags
      expires_in w
      = (_ <- _enforce_size_limit dict_keys ;; ret memory_id) wb /\
    InMemoryStore.memories (store (this wb)) =
      <[memory_id := entry]> (InMemoryStore.memories (store (this w))) /\
    same_but_store (this w) (this wb) /\
    MemoryEntry.id entry = memory_id /\
    MemoryEntry.content entry = content /\
    MemoryEntry.memory_type entry = memory_type /\
    MemoryEntry.priority entry = priority /\
    MemoryEntry.tags entry = default [] tags /\
    MemoryEntry.access_count entry = 0 /\
    MemoryEntry.expires_at entry =
      match expires_in with
      | Some seconds =>
          if truthy_float seconds
          then Some (time_src (env w) (S (ticks (env w))) + seconds)%Q
          else None
      | None => None
      end.
Proof.
  cbv zeta. unfold remember.
  unfold bind at 1, self at 1, gets at 1.
  unfold bind at 1, in_env at 1, zoom at 1, time_time at 1.
  cbn [env this].
  set (memory_id := agent_id (this w) +:+ "_" +:+ MemoryType.value memory_type
                    +:+ "_" +:+ content_hash content +:+ "_"
                    +:+ str_of_int (int_of_float (time_src (env w) (ticks (env w))))).
  assert (Hexp : forall w0 : World,
             exists w1,
               match expires_in with
               | Some seconds =>
                   if truthy_float seconds
                   then now <- in_env time_time ;; ret (Some (now + seconds)%Q)
                   else ret None
               | None => ret None
               end w0
               = (Return
                    match expires_in with
                    | Some seconds =>
                        if truthy_float seconds
                        then Some (time_src (env w0) (ticks (env w0))
                                   + seconds)%Q
                        else None
                    | None => None
                    end, w1) /\
               this w1 = this w0).
  { intros w0. destruct expires_in as [seconds |].
    - destruct (truthy_float seconds).
      + eexists. split; reflexivity.
      + exists w0. split; reflexivity.
    - exists w0. split; reflexivity. }
  match goal with
  | |- context [bind _ _ ?w0] =>
      destruct (Hexp w0) as (w1 & Hrun & Hthis)
  end.
  rewrite (bind_step _ _ _ _ _ Hrun). clear Hexp Hrun.
  unfold bind at 1, in_env at 1, zoom at 1, time_time at 1.
  unfold bind at 1, in_env at 1, zoom at 1, time_time at 1.
  unfold bind at 1, in_env at 1, zoom at 1, MemoryEntry.__init__ at 1,
    MemoryEntry.__post_init__ at 1, bind at 1, bind at 1, ret at 1, ret at 1,
    ret at 1.
  cbn [env this time_src ticks uuid_src draws MemoryEntry.kw_id
         MemoryEntry.kw_content MemoryEntry.kw_memory_type
         MemoryEntry.kw_priority MemoryEntry.kw_created_at
         MemoryEntry.kw_last_accessed MemoryEntry.kw_access_count
         MemoryEntry.kw_tags MemoryEntry.kw_metadata MemoryEntry.kw_expires_at]
    in *.
  match goal with
  | |- context [InMemoryStore.store ?e] => set (entry := e)
  end.
  match goal with
  | |- context [bind (in_store (InMemoryStore.store entry)) _ ?w0] =>
      set (wa := w0)
  end.
  destruct (store_run entry
              {| InMemoryStore.env := env wa;
                 InMemoryStore.this := store (this wa) |})
    as (sw & Hstore & Henv & Hmem).
  rewrite (bind_step _ _ _ _ _ (in_store_run _ wa _ _ Hstore)).
  exists entry. eexists. split; [reflexivity |].
  split; [cbn [this store set_store]; rewrite Hmem; subst wa; cbn;
          now rewrite Hthis |].
  split; [subst wa; cbn; rewrite Hthis;
          apply same_but_store_set, same_but_store_refl |].
  do 6 (split; [reflexivity |]). reflexivity.
Qed.

(** X28. When the store holds fewer than [max_size] entries, [remember]
    returns the id it builds from the agent id, the value of the type,
    the hash of the content and the whole seconds of the clock, and
    the store then holds under it an entry with the content, type,
    priority and tags given (no tags when none are given) that was
    never accessed. The entry expires at the second clock reading of
    the call plus the life span when one is given and is not zero, and
    never when none is given or one of zero seconds. A [recall] of the
    id that follows returns the content unless the entry says it is
    expired at that moment, and nothing then; so it returns the content
    of an entry that never expires. *)
Theorem remember_then_recall (content : PyVal) (memory_type : MemoryType.t)
    (priority : MemoryPriority.t) (tags : option (list string))
    (expires_in : option float) (w : World) :
  Z.of_nat (size (InMemoryStore.memories (store (this w)))) < max_size (this w) ->
  exists memory_id entry w1 w2,
    remember dict_keys content_hash content memory_type priority tags
      expires_in w = (Return memory_id, w1) /\
    memory_id =
      agent_id (this w) +:+ "_" +:+ MemoryType.value memory_type +:+ "_"
      +:+ content_hash content +:+ "_"
      +:+ str_of_int (int_of_float (time_src (env w) (ticks (env w)))) /\
    InMemoryStore.memories (store (this w1)) !! memory_id = Some entry /\
    MemoryEntry.id entry = memory_id /\
    MemoryEntry.content entry = content /\
    MemoryEntry.memory_type entry = memory_type /\
    MemoryEntry.priority entry = priority /\
    MemoryEntry.tags entry = default [] tags /\
    MemoryEntry.access_count entry = 0 /\
    MemoryEntry.expires_at entry =
      match expires_in with
      | Some seconds =>
          if truthy_float seconds
          then Some (time_src (env w) (S (ticks (env w))) + seconds)%Q
          else None
      | None => None
      end /\
    same_but_store (this w) (this w1) /\
    recall memory_id w1 =
      (Return (if expired_at (time_src (env w1) (ticks (env w1))) entry
               then None else Some content), w2) /\
    ((forall seconds, expires_in = Some seconds ->
                      truthy_float seconds = false) ->
     recall memory_id w1 = (Return (Some content), w2)).
Proof.
  intros Hroom.
  destruct (remember_run content memory_type priority tags expires_in w)
    as (entry & wb & Hrun & Hmem & Hsame & Hid & Hcontent & Htype & Hprio
        & Htags & Hcount & Hexp).
  cbv zeta in *.
  set (memory_id := agent_id (this w) +:+ "_" +:+ MemoryType.value memory_type
                    +:+ "_" +:+ content_hash content +:+ "_"
                    +:+ str_of_int (int_of_float (time_src (env w) (ticks (env w)))))
    in *.
  assert (Hmax : max_size (this wb) = max_size (this w))
    by (rewrite Hsame; reflexivity).
  assert (Hfits : _enforce_size_limit dict_keys wb = (Return tt, wb)).
  { unfold _enforce_size_limit.
    unfold bind at 1, self at 1, gets at 1.
    unfold bind at 1, self at 1, gets at 1.
    destruct (Z.gtb_spec
                (Z.of_nat (size (InMemoryStore.memories (store (this wb)))))
                (max_size (this wb))) as [Hover | _]; [| reflexivity].
    exfalso. rewrite Hmem, Hmax, map_size_insert in Hover.
    destruct (InMemoryStore.memories (store (this w)) !! memory_id);
      unfold id in Hover; lia. }
  rewrite (bind_step _ _ _ _ _ Hfits) in Hrun. unfold ret at 1 in Hrun.
  assert (Hentry : InMemoryStore.memories (store (this wb)) !! memory_id
                   = Some entry)
    by (rewrite Hmem; apply lookup_insert_eq).
  assert (Hrecall : exists w2,
             recall memory_id wb =
               (Return (if expired_at (time_src (env wb) (ticks (env wb))) entry
                        then None else Some content), w2)).
  { unfold recall.
    destruct (expired_at (time_src (env wb) (ticks (env wb))) entry) eqn:Hx.
    - destruct (retrieve_expired memory_id entry
                  {| InMemoryStore.env := env wb;
                     InMemoryStore.this := store (this wb) |} Hentry Hx)
        as (sw2 & Hget).
      rewrite (bind_step _ _ _ _ _ (in_store_run _ wb _ _ Hget)).
      eexists. reflexivity.
    - destruct (retrieve_live memory_id entry
                  {| InMemoryStore.env := env wb;
                     InMemoryStore.this := store (this wb) |} Hentry Hx)
        as (now & sw2 & Hget & _).
      rewrite (bind_step _ _ _ _ _ (in_store_run _ wb _ _ Hget)).
      unfold ret. cbn [option_map]. unfold accessed. cbn.
      rewrite Hcontent. eexists. reflexivity. }
  destruct Hrecall as (w2 & Hrecall).
  exists memory_id, entry, wb, w2.
  split; [exact Hrun |]. split; [reflexivity |]. split; [exact Hentry |].
  do 7 (split; [assumption |]). split; [exact Hsame |].
  split; [exact Hrecall |].
  intros Hnever. rewrite Hrecall.
  assert (Hnone : MemoryEntry.expires_at entry = None).
  { rewrite Hexp. destruct expires_in as [seconds |]; [| reflexivity].
    now rewrite (Hnever seconds eq_refl). }
  unfold expired_at. now rewrite Hnone.
Qed.

(** X29. Whatever is remembered, a memory with a size limit that is not
    negative and a store that keeps every entry under its own id
    returns the id and then holds at most [max_size] entries, each
    still under its own id: the new entry or entries held before. *)
Theorem remember_respects_size_limit (content : PyVal)
    (memory_type : MemoryType.t) (priority : MemoryPriority.t)
    (tags : option (list string)) (expires_in : option float) (w : World) :
  keys_are_ids (store (this w)) ->
  0 <= max_size (this w) ->
  exists memory_id w1,
    remember dict_keys content_hash content memory_type priority tags
      expires_in w = (Return memory_id, w1) /\
    Z.of_nat (size (InMemoryStore.memories (store (this w1))))
      <= max_size (this w) /\
    keys_are_ids (store (this w1)) /\
    same_but_store (this w) (this w1) /\
    (forall i entry,
        InMemoryStore.memories (store (this w1)) !! i = Some entry ->
        i = memory_id \/
        InMemoryStore.memories (store (this w)) !! i = Some entry).
Proof.
  intros Hkeys Hlimit.
  destruct (remember_run content memory_type priority tags expires_in w)
    as (entry & wb & Hrun & Hmem & Hsame & Hid & _).
  cbv zeta in *.
  set (memory_id := agent_id (this w) +:+ "_" +:+ MemoryType.value memory_type
                    +:+ "_" +:+ content_hash content +:+ "_"
                    +:+ str_of_int (int_of_float (time_src (env w) (ticks (env w)))))
    in *.
  assert (Hmax : max_size (this wb) = max_size (this w))
    by (rewrite Hsame; reflexivity).
  assert (Hkeys' : keys_are_ids (store (this wb))).
  { intros i e He. rewrite Hmem in He.
    apply lookup_insert_Some in He as [(<- & <-) | (Hne & He)];
      [exact Hid | now apply Hkeys]. }
  destruct (_enforce_size_limit_fits wb Hkeys') as
    (w1 & Hfit & Henv & Hsame' & Hsize & Hsub & _); [lia |].
  rewrite (bind_step _ _ _ _ _ Hfit) in Hrun. unfold ret at 1 in Hrun.
  exists memory_id, w1. split; [exact Hrun |].
  split; [lia |].
  split; [intros i e He; now apply Hkeys', Hsub |].
  split.
  { unfold same_but_store in *. rewrite Hsame' at 1. rewrite Hsame at 1.
    reflexivity. }
  intros i e He. apply Hsub in He. rewrite Hmem in He.
  apply lookup_insert_Some in He as [(<- & _) | (_ & He)]; auto.
Qed.

(** X30. [push_context] followed by [pop_context] returns the context
    that was pushed and restores the memory as it was before; on an
    empty stack [pop_context] returns [None] and changes nothing. *)
Theorem push_then_pop_context (context : dict) (w : World) :
  (push_context context ;; pop_context) w = (Return (Some context), w) /\
  (context_stack (this w) = [] -> pop_context w = (Return None, w)).
Proof.
  split.
  - unfold push_context, pop_context, bind, assign, modify, self, gets, ret.
    cbn [this env context_stack current_context set_contexts].
    destruct w as [e m]. destruct m as [a s mx wm cur stack sp fp].
    cbn [this env context_stack current_context set_contexts].
    destruct (stack ++ [cur]) as [| x l] eqn:Hstack;
      [now destruct stack |].
    rewrite <- Hstack, last_last, removelast_last. reflexivity.
  - intros Hempty. unfold pop_context, bind, self, gets.
    now rewrite Hempty.
Qed.

End WithOrder.


End AgentMemoryFacts.

(* ===================================================================== *)
(** * The properties on the samples *)
(* ===================================================================== *)

Lemma keys_listed : lists_keys Sample.keys.
Proof.
  intros m. unfold Sample.keys. split.
  - apply NoDup_fst_map_to_list.
  - intros i. rewrite <- list_elem_of_In.
    change (map fst (map_to_list m)) with ((map_to_list m).*1).
    rewrite list_elem_of_fmap. split.
    + intros ([j e] & -> & He). apply elem_of_map_to_list in He. eauto.
    + intros (e & He). exists (i, e). split; [reflexivity |].
      now apply elem_of_map_to_list.
Qed.

Lemma members_listed : lists_elements Sample.members.
Proof.
  intros X. unfold Sample.members. split; [apply NoDup_elements |].
  intros i. now rewrite <- list_elem_of_In, elem_of_elements.
Qed.

Lemma sample_memory_keyed : keys_are_ids (InMemoryStore.this Sample.memory).
Proof.
  destruct (store_well_formed Sample.stale Sample.blank init_well_formed)
    as (w1 & Hrun1 & _ & _ & Hwf1).
  destruct (store_well_formed Sample.fact w1 Hwf1)
    as (w2 & Hrun2 & _ & _ & Hwf2).
  unfold Sample.memory. fold Sample.blank.
  rewrite (bind_step _ _ _ _ _ Hrun1), Hrun2. apply Hwf2.
Qed.

Lemma sample_memory_formed : well_formed (InMemoryStore.this Sample.memory).
Proof.
  destruct (store_well_formed Sample.stale Sample.blank init_well_formed)
    as (w1 & Hrun1 & _ & _ & Hwf1).
  destruct (store_well_formed Sample.fact w1 Hwf1)
    as (w2 & Hrun2 & _ & _ & Hwf2).
  unfold Sample.memory. fold Sample.blank.
  rewrite (bind_step _ _ _ _ _ Hrun1), Hrun2. apply Hwf2.
Qed.

(** On the staffed hub that already holds a task in its history and in
    the thread "conv-task", the session leaves both in place: the task
    is still the first message of the history and of the thread. *)
Lemma records_only_grow_witness :
  CommunicationHub.message_history (CommunicationHub.hub Sample.busy)
    = [Sample.task "t-1" false] /\
  [Sample.task "t-1" false]
    `prefix_of`
  CommunicationHub.message_history
    (CommunicationHub.hub
       (snd (CommunicationHub.exec_all Sample.session Sample.busy))) /\
  exists th',
    CommunicationHub.conversations
      (CommunicationHub.hub
         (snd (CommunicationHub.exec_all Sample.session Sample.busy)))
      !! "conv-task" = Some th' /\
    ConversationThread.participants th' =
      [AgentRole.PRODUCT_MANAGER; AgentRole.DEVELOPER] /\
    [Sample.task "t-1" false] `prefix_of` ConversationThread.messages th'.
Proof.
  destruct (records_only_grow Sample.session Sample.busy
              (fst (CommunicationHub.exec_all Sample.session Sample.busy))
              (snd (CommunicationHub.exec_all Sample.session Sample.busy))
              (surjective_pairing _)) as (Hhistory & Hthreads).
  split; [reflexivity |]. split; [exact Hhistory |].
  destruct (Hthreads "conv-task"
              {| ConversationThread.id := "conv-task";
                 ConversationThread.participants :=
                   [AgentRole.PRODUCT_MANAGER; AgentRole.DEVELOPER];
                 ConversationThread.messages := [Sample.task "t-1" false];
                 ConversationThread.created_at := 1%Q;
                 ConversationThread.status := "active" |} eq_refl)
    as (th' & Hth & Hwho & _ & _ & Hmessages).
  exists th'. split; [exact Hth |]. split; [exact Hwho | exact Hmessages].
Defined.

Lemma messages_stay_filed_witness :
  filed (snd (CommunicationHub.exec_all Sample.session Sample.fresh)).
Proof.
  apply (messages_stay_filed Sample.session Sample.fresh
           (fst (CommunicationHub.exec_all Sample.session Sample.fresh))).
  - exact (new_hub_filed Sample.env tt).
  - apply surjective_pairing.
Defined.

Lemma books_stay_balanced_witness :
  CommunicationHub.total_sent
    (CommunicationHub.delivery_stats
       (CommunicationHub.hub
          (snd (CommunicationHub.exec_all Sample.session Sample.fresh)))) =
  Z.of_nat
    (length
       (CommunicationHub.message_history
          (CommunicationHub.hub
             (snd (CommunicationHub.exec_all Sample.session Sample.fresh))))).
Proof.
  destruct (books_stay_balanced Sample.session Sample.fresh
              (fst (CommunicationHub.exec_all Sample.session Sample.fresh))
              (snd (CommunicationHub.exec_all Sample.session Sample.fresh))
              (new_hub_accounted Sample.env tt) (surjective_pairing _))
    as (Hsent & _).
  exact Hsent.
Defined.

Lemma get_stats_is_consistent_witness :
  exists report w',
    CommunicationHub.get_stats Sample.fresh = (Return report, w') /\
    CommunicationHub.r_uptime report = 0%Q.
Proof.
  destruct (get_stats_is_consistent Sample.fresh
              (new_hub_accounted Sample.env tt))
    as (report & w' & Hrun & _ & Hnew & _).
  exists report, w'. split; [exact Hrun |]. now apply Hnew.
Defined.


Lemma broadcast_reaches_the_others_witness :
  exists w' sent,
    CommunicationHub.broadcast_message AgentRole.ORCHESTRATOR "stand-up"
      MessageType.STATUS_UPDATE Sample.staffed = (Return tt, w') /\
    map Message.recipient sent = [AgentRole.DEVELOPER].
Proof.
  destruct (broadcast_reaches_the_others AgentRole.ORCHESTRATOR "stand-up"
              MessageType.STATUS_UPDATE Sample.staffed eq_refl)
    as (w' & sent & Hrun & Hto & _).
  exists w', sent. split; [exact Hrun | exact Hto].
Defined.

Lemma start_negotiation_notifies_witness :
  exists w' sent,
    CommunicationHub.start_negotiation
      [AgentRole.DEVELOPER; AgentRole.TESTER] "API design" None Sample.fresh
      = (Return "uuid-0", w') /\
    map Message.recipient sent = [AgentRole.DEVELOPER; AgentRole.TESTER] /\
    CommunicationHub.message_history (CommunicationHub.hub w') = sent.
Proof.
  destruct (start_negotiation_notifies
              [AgentRole.DEVELOPER; AgentRole.TESTER] "API design" None
              Sample.fresh eq_refl)
    as (w' & sent & record & Hrun & _ & _ & _ & _ & _ & _ & _ & Hto & _
        & Hhistory & _).
  exists w', sent. split; [exact Hrun |]. split; [exact Hto | exact Hhistory].
Defined.

Lemma handler_success_is_recorded_witness :
  exists w',
    BaseAgent._handle_message Sample.polite (Sample.task "t-1" true)
      Sample.developer = (Return tt, w') /\
    AgentMetrics.tasks_completed (BaseAgent.metrics (BaseAgent.agent w')) = 1 /\
    AgentMetrics.messages_sent (BaseAgent.metrics (BaseAgent.agent w')) = 1 /\
    exists response,
      CommunicationHub.items
        (CommunicationHub.message_queue
           (CommunicationHub.hub (BaseAgent.hubw w'))) = [(2, response)] /\
      Message.message_type response = MessageType.TASK_RESPONSE /\
      Message.content response = "done" /\
      Message.recipient response = AgentRole.PRODUCT_MANAGER.
Proof.
  destruct (handler_success_is_recorded Sample.polite (Sample.task "t-1" true)
              Sample.developer (Some "done") tt eq_refl)
    as (w' & Hrun & _ & _ & _ & Hdone & _ & _ & _ & Hsent & Hresponse).
  exists w'. split; [exact Hrun |]. split; [exact Hdone |].
  split; [exact Hsent |].
  destruct (Hresponse eq_refl)
    as (response & d & _ & Hkind & Htext & _ & _ & _ & Hto & Hitems & _).
  exists response. split; [exact Hitems |]. split; [exact Hkind |].
  split; [exact Htext | exact Hto].
Defined.

Lemma history_is_trimmed_witness :
  last (BaseAgent.conversation_history
          (BaseAgent.agent
             (snd (BaseAgent._handle_message Sample.failing
                     (Sample.task "t-1" true) Sample.developer))))
  = Some (Sample.task "t-1" true).
Proof.
  destruct (history_is_trimmed Sample.failing (Sample.task "t-1" true)
              Sample.developer _ _ (surjective_pairing _))
    as (_ & Hlast & _).
  now apply Hlast.
Defined.

Lemma start_outcomes_witness :
  (exists w',
      BaseAgent.start Sample.ready Sample.responder Sample.developer
        = (Return tt, w') /\
      BaseAgent.state (BaseAgent.agent w') = AgentState.IDLE) /\
  (exists w',
      BaseAgent.start Sample.broken Sample.responder Sample.developer
        = (Raise (Exception "no connection"), w') /\
      CommunicationHub.dict_get AgentRole.DEVELOPER
        (CommunicationHub.subscribers
           (CommunicationHub.hub (BaseAgent.hubw w')))
        = Some Sample.responder).
Proof.
  split.
  - destruct (start_outcomes Sample.ready Sample.responder Sample.developer
                (Return tt) tt eq_refl) as (w' & Hrun & _ & _ & Hidle & _).
    exists w'. split; [exact Hrun | exact Hidle].
  - destruct (start_outcomes Sample.broken Sample.responder Sample.developer
                (Raise (Exception "no connection")) tt eq_refl)
      as (w' & Hrun & Hsub & _).
    exists w'. split; [exact Hrun | exact Hsub].
Defined.

Lemma stop_outcomes_witness :
  exists w',
    BaseAgent.stop Sample.broken Sample.developer = (Return tt, w') /\
    BaseAgent.state (BaseAgent.agent w') = AgentState.SHUTDOWN.
Proof.
  destruct (stop_outcomes Sample.broken Sample.developer
              (Raise (Exception "no connection")) tt eq_refl)
    as (w' & Hrun & Hdown & _).
  exists w'. split; [exact Hrun | exact Hdown].
Defined.

Lemma store_stays_well_formed_witness :
  well_formed
    (InMemoryStore.this
       (snd (InMemoryStore.delete "m-1" Sample.memory))).
Proof.
  destruct (store_stays_well_formed Sample.memory sample_memory_formed)
    as (_ & Hdelete & _).
  apply (Hdelete "m-1" (fst (InMemoryStore.delete "m-1" Sample.memory))).
  apply surjective_pairing.
Defined.

Lemma store_then_retrieve_witness :
  exists found w',
    (InMemoryStore.store Sample.fact ;; InMemoryStore.retrieve "m-2")
      Sample.blank = (Return (Some found), w') /\
    MemoryEntry.content found = VStr "tests use pytest" /\
    MemoryEntry.access_count found = 1.
Proof.
  destruct (store_then_retrieve Sample.fact Sample.blank eq_refl)
    as (found & w' & Hrun & _ & _ & Hcontent & _ & _ & _ & _ & _ & _ & Hcount).
  exists found, w'. split; [exact Hrun |].
  split; [exact Hcontent | exact Hcount].
Defined.

Lemma overwrite_leaves_stale_index_witness :
  exists w' w'',
    InMemoryStore.store Sample.restated Sample.memory = (Return true, w') /\
    InMemoryStore.delete "m-1" w' = (Return true, w'') /\
    InMemoryStore.memories (InMemoryStore.this w'') !! "m-1" = None /\
    In "m-1" (InMemoryStore.type_index (InMemoryStore.this w'') MemoryType.TASK).
Proof.
  destruct (overwrite_leaves_stale_index Sample.restated Sample.stale
              Sample.memory)
    as (w' & w'' & Hstore & _ & _ & Hdelete & Hgone & Hstale).
  - reflexivity.
  - discriminate.
  - vm_compute. now left.
  - exists w', w''. repeat split; assumption.
Defined.

Lemma cleanup_removes_expired_witness :
  exists n w',
    InMemoryStore.cleanup_expired Sample.keys Sample.memory = (Return n, w') /\
    InMemoryStore.memories (InMemoryStore.this w') !! "m-1" = None /\
    InMemoryStore.memories (InMemoryStore.this w') !! "m-2" = Some Sample.fact.
Proof.
  destruct (cleanup_removes_expired Sample.keys keys_listed Sample.memory
              sample_clock_monotone)
    as (n & w' & Hrun & Hgone & _ & Hkept & _).
  exists n, w'. split; [exact Hrun |]. split.
  - apply (Hgone "m-1" Sample.stale); reflexivity.
  - apply (Hkept "m-2" Sample.fact); reflexivity.
Defined.

Lemma search_returns_live_matches_witness :
  exists results w',
    InMemoryStore.search Sample.members Sample.same_text "tests use pytest"
      (Some MemoryType.FACT) (Some ["project"]) 10 Sample.memory
      = (Return results, w') /\
    Z.of_nat (length results) <= 10.
Proof.
  destruct (search_returns_live_matches Sample.members Sample.same_text
              members_listed "tests use pytest" (Some MemoryType.FACT)
              (Some ["project"]) 10 Sample.memory)
    as (results & w' & Hrun & Hlen & _).
  exists results, w'. split; [exact Hrun |]. apply Hlen. lia.
Defined.

Lemma size_limit_is_enforced_witness :
  exists w',
    AgentMemory._enforce_size_limit Sample.keys (Sample.memory_of 1)
      = (Return tt, w') /\
    size (InMemoryStore.memories (AgentMemory.store (AgentMemory.this w')))
      = 1%nat.
Proof.
  destruct (size_limit_is_enforced Sample.keys keys_listed
              (Sample.memory_of 1) sample_memory_keyed)
    as (w' & Hrun & _ & _ & Hsize & _); [cbn; lia |].
  exists w'. split; [exact Hrun |].
  change (InMemoryStore.memories
            (AgentMemory.store (AgentMemory.this (Sample.memory_of 1))))
    with (InMemoryStore.memories (InMemoryStore.this Sample.memory)) in Hsize.
  assert (Htwo : size (InMemoryStore.memories (InMemoryStore.this Sample.memory))
                 = 2%nat) by (vm_compute; reflexivity).
  rewrite Htwo in Hsize. cbn in Hsize. lia.
Defined.

Lemma negative_size_limit_empties_store_witness :
  exists w',
    AgentMemory._enforce_size_limit Sample.keys (Sample.memory_of (-1))
      = (Raise (Exception "list index out of range"), w') /\
    InMemoryStore.memories (AgentMemory.store (AgentMemory.this w')) = ∅.
Proof.
  destruct (negative_size_limit_empties_store Sample.keys keys_listed
              (Sample.memory_of (-1)) sample_memory_keyed)
    as (w' & Hrun & Hempty & _); [cbn; lia |].
  exists w'. split; [exact Hrun | exact Hempty].
Defined.

Lemma remember_then_recall_witness :
  exists memory_id entry w1 w2,
    AgentMemory.remember Sample.keys Sample.plain (VStr "use tabs")
      MemoryType.FACT MemoryPriority.LOW None (Some 3%Q) (Sample.memory_of 3)
      = (Return memory_id, w1) /\
    memory_id = "agent-1_fact_use tabs_10" /\
    InMemoryStore.memories (AgentMemory.store (AgentMemory.this w1))
      !! memory_id = Some entry /\
    MemoryEntry.expires_at entry = Some 14%Q /\
    AgentMemory.recall memory_id w1 = (Return (Some (VStr "use tabs")), w2).
Proof.
  destruct (remember_then_recall Sample.keys Sample.plain (VStr "use tabs")
              MemoryType.FACT MemoryPriority.LOW None (Some 3%Q)
              (Sample.memory_of 3))
    as (memory_id & entry & w1 & w2 & Hrun & Hid & Hentry & _ & _ & _ & _ & _
        & _ & Hexpires & _ & Hrecall & _).
  - vm_compute. reflexivity.
  - exists memory_id, entry, w1, w2. split; [exact Hrun |].
    split; [rewrite Hid; vm_compute; reflexivity |].
    split; [exact Hentry |].
    assert (Hat : MemoryEntry.expires_at entry = Some 14%Q)
      by (rewrite Hexpires; vm_compute; reflexivity).
    split; [exact Hat |].
    rewrite Hrecall. unfold expired_at. rewrite Hat.
    assert (Hclock : AgentMemory.env w1 =
                     AgentMemory.env
                       (snd (AgentMemory.remember Sample.keys Sample.plain
                               (VStr "use tabs") MemoryType.FACT
                               MemoryPriority.LOW None (Some 3%Q)
                               (Sample.memory_of 3))))
      by (rewrite Hrun; reflexivity).
    rewrite Hclock. vm_compute. reflexivity.
Defined.

Lemma remember_respects_size_limit_witness :
  exists memory_id w1,
    AgentMemory.remember Sample.keys Sample.plain (VStr "use tabs")
      MemoryType.FACT MemoryPriority.LOW None None (Sample.memory_of 1)
      = (Return memory_id, w1) /\
    Z.of_nat
      (size (InMemoryStore.memories (AgentMemory.store (AgentMemory.this w1))))
      <= 1.
Proof.
  destruct (remember_respects_size_limit Sample.keys Sample.plain keys_listed
              (VStr "use tabs") MemoryType.FACT MemoryPriority.LOW None None
              (Sample.memory_of 1) sample_memory_keyed)
    as (memory_id & w1 & Hrun & Hsize & _); [cbn; lia |].
  exists memory_id, w1. split; [exact Hrun | exact Hsize].
Defined.
